(* ===== verification/_CoqProject ===== *)
-Q . S2P
Prelude.v
Money.v
Scaled.v
Ledger.v
Rfc3339.v
Retry.v
Repo.v
Contract.v
Sql.v
SqliteDb.v
Sqlite.v
SqliteLaws.v
Service.v
Flow.v
FlowLaws.v
Books.v
Accounts.v
Reservations.v
ReservationLaws.v
Exchange.v
ExchangeLaws.v
Recon.v
ReconLaws.v
Worker.v
System.v
Rpc.v
Node.v
Threads.v
Interleave.v
Dispatch.v
Wallet.v
Embedded.v
Migrations.v
Opening.v
Cmd.v
ServerProcess.v
Once.v
Races.v
AccountLaws.v
SqliteSystem.v
SqliteDispatch.v
SqliteLimits.v
WalletLaws.v
WalletSqlite.v
Examples.v
ExampleLaws.v
CrdbDb.v
Crdb.v
CrdbDispatch.v
CrdbLaws.v
CrdbExact.v
CrdbSystem.v
Progress.v
DynamoItems.v
Dynamo.v
DynamoTable.v
DynamoLaws.v
DynamoOps.v
DynamoCommit.v
DynamoSerial.v
DynamoBound.v
DynamoBooks.v
DynamoMoney.v
DynamoPost.v
DynamoHistory.v
DynamoOnce.v
DynamoResv.v
DynamoOutbox.v
Concrete.v
InterleaveRun.v
WalletRun.v
DynamoRun.v
ExampleRun.v
CrdbRun.v
