(* ===== verification/Prelude.v ===== *)
(** * dledger-go: a Rocq model of a multi-currency double-entry ledger

    dledger-go is a ledger server.  Clients, among them the wallet of
    src/pkg/dledger, call Connect RPCs (src/internal/service), over HTTP or
    in the same process; every write runs in one storage transaction
    (src/internal/repo, with SQLite, CockroachDB and DynamoDB backends);
    events go to an outbox that a dispatcher publishes
    (src/internal/outbox), and a scheduler takes snapshots, expires
    reservations and prunes (src/internal/scheduler).  The domain types and
    rules are in src/internal/ledger, the reconciliation matcher in
    src/internal/recon.

    ** How the model is built

    A Go function that can fail is a computation of the monad [M error S]:
    it takes a state and returns [Ok] or [Err] with the state it leaves, so
    an early return keeps the effects made before it.  The state is a store
    or an open transaction, next to an [Env] that counts the ids, clock
    readings and database statements used so far.  The class [Host] turns
    these counts into ids, instants and driver failures, so every theorem
    quantifies over all of them: any statement can fail at any point.

    A service definition is written against the classes [RepoTx] and
    [RepoStore], the Go interfaces repo.Tx and repo.Store, and never looks
    inside a backend.  The laws a backend must keep, stated on the abstract
    ledger [LView], are [RepoTxLaws], [RepoStoreLaws] and [RepoFrameLaws]
    (and [OutboxUnique]); the service theorems assume only these, and the
    SQLite and CockroachDB models discharge them.

    ** The files

    - [Prelude]: results, the monad, its weakest preconditions [wp] and
      [wpo], row lists ([sel], [upd], [any]), sums [Qcsum] over rationals,
      Go's [int32].
    - [Money]: shopspring/decimal as the class [DecimalOps] with the laws of
      its documentation, and [ZDecimal], an instance to run the model.
      [Scaled]: an instance whose amounts have fractional digits.
    - [Ledger]: src/internal/ledger, all of it.
    - [Retry]: src/internal/repo/retry.go.
    - [Repo]: src/internal/repo/repo.go.  [Contract]: the abstract ledger
      and the laws of a backend.
    - [Sql]: what the two SQL databases share: time stamps, clashes of keys,
      queries that find no row.
      [SqliteDb]: the tables, constraints and queries of src/gen/sqlite.
      [Sqlite]: src/internal/repo/sqlite (conv.go, tx.go, store.go).
      [SqliteLaws]: the SQLite backend keeps the contract.
    - [CrdbDb]: the tables, constraints and queries of src/gen/crdb on the
      class [CrdbEngine].  [Crdb]: src/internal/repo/crdb (conv.go with its
      UUIDs, tx.go, store.go).  [CrdbLaws]: it keeps the contract on an
      engine that never rounds.  [CrdbExact]: the service side by side on an
      engine that rounds and on one that does not; they do the same where
      the amounts of the requests have at most 18 fractional digits.
      [CrdbSystem]: the system theorems on its tables, exact sums, doomed
      transactions, entry ids.
    - [Rfc3339]: instants as text (the time functions of
      src/internal/repo/dynamo/items.go).  [DynamoItems]: keys.go and items.go.
      [Dynamo]: tx.go, reads.go, reads_outbox.go, reads_reservations.go and
      unsupported.go of the same directory, on the class [DynamoDB].
      [DynamoTable]: opening the store and creating its table (store.go).
      [DynamoLaws]: the table and its history, the write buffer.
      [DynamoOps]: what every operation of a transaction keeps.
      [DynamoCommit]: commits, and every request on this backend.
      [DynamoSerial]: flows are serializable.  [DynamoBound]: how many items
      a flow writes.  [DynamoBooks]: the books of a table and of a write
      buffer ([dy_ledger_ok], [money_ok]).  [DynamoMoney], [DynamoPost]: what
      each operation and each flow does to the buffered money.
      [DynamoHistory]: transactions of any number of clients, interleaved;
      the books of every table they make.  [DynamoOnce]: racing requests
      with one idempotency key.  [DynamoResv]: racing commits, releases and
      expiries of a reservation.  [DynamoOutbox]: the events of postings.
    - [Service]: server.go, errors.go and the shape of a writing handler.
    - [Flow]: execute_flow.go and post_journal.go.  [FlowLaws]: the lock
      order, the refinement of a flow to [flow_post], atomicity and
      idempotency.  [Books]: [ledger_ok], the books are right, and flows
      keep it.
    - [Accounts]: create_account.go, get_account.go, get_balance.go,
      get_flow.go, take_snapshot.go, list_activity.go.  [AccountLaws].
    - [Reservations]: the six reservation handlers and expire_reservation.go.
      [ReservationLaws]: what each does to money and to the reservation, and
      the life cycle [resv_step].
    - [Exchange]: the FX and exchange handlers.  [ExchangeLaws].
    - [Recon]: matcher.go and the reconciliation handlers.  [ReconLaws]: the
      judgement of every record, on a backend that keeps [MatcherLaws].
    - [Worker]: the outbox dispatcher and the scheduler, tick by tick and
      their loops.
    - [System]: [request] lists all RPCs and ticks, [handle] serves one; the
      invariant [sys_ok] holds after any sequence of them.
    - [Rpc]: the generated client and handler (ledgerv1connect) as one
      function per procedure, the interceptors, and the two clients of
      pkg/dledger, embedded and remote; [ClientOf] is what they promise.
      [Node]: a running process, with clients, dispatcher and scheduler.
      [Threads]: goroutines as trees of atomic operations, their schedules,
      fair ones, rely and guarantee.  [Interleave]: the handlers and loops as
      threads.  [Races]: requests of such a pool that share a key or a
      reservation.
      [Dispatch]: dispatchers among other threads, on a backend that keeps
      [OutboxTxLaws], [OutboxCommitLaws] and [OutboxStoreLaws];
      [SqliteDispatch], [CrdbDispatch]: the SQL backends do.
      [InterleaveRun]: such a crowd, run, requests that race, and a snapshot
      that another request interrupts.
      [Wallet]: wallet.go on any client.  [WalletLaws]: retries and player
      accounts; [WalletSqlite]: [GetWallet] on SQLite rows, among other
      requests.  [Embedded]: actions on the world as a trace; starting and
      closing an embedded ledger.  [Migrations]: several of them migrating at
      once.  [Opening]: opening and closing the SQL stores.  [Cmd]:
      cmd/migrate, internal/observability and the parts of cmd/server.
      [ServerProcess]: cmd/server as a process: the statements and deferred
      calls of its [main] among its goroutines, its connections and signals.
    - [Examples]: the walkthroughs of src/examples/go on any client.
      [ExampleLaws]: the lines three of them print.  [ExampleRun]: all of
      them run on SQLite and DynamoDB.
    - [Once]: what a commit or a release leaves under its idempotency key.
    - [SqliteSystem]: the system theorems on the SQLite tables, balances as
      of an instant, the dispatcher.
    - [Progress]: a flow whose guards hold succeeds.
    - [SqliteLimits]: what the global ids and keys of the schema do to a
      second tenant.
    - [Concrete]: the service run on concrete requests; the theorems applied
      there, and a balance as of an instant that misses an entry.
      [DynamoRun]: the same on a DynamoDB table in memory, a partial
      commit that is applied twice, and keys of two tenants or two balances
      that are the same text.  [CrdbRun]: on a CockroachDB engine
      with 18 fractional digits, and a balanced flow it unbalances.
      [WalletRun]: the wallet over a network that loses an answer, a
      reservation it does not show, and one it counts twice.

    ** What the theorems show

    - Any requests and ticks, interleaved at their store calls and
      transactions, with any driver failures ([Interleave], [Races]): stored
      balances are the totals of the posted entries, every journal and the
      trial balance balance, each balance is of its account's currency, no
      account that may not go negative is negative; of the flows, commits or
      releases that race with one key at most one counts, and the others
      post nothing (a repeated flow or creation is answered again, a repeated
      commit or release is refused); reservations follow their life cycle and add up; nothing
      posted is ever changed.  A handler is its thread run alone.
    - Requests one by one ([System]): failed requests change nothing.
    - Events ([Dispatch], [InterleaveRun]): no event is lost or marked
      published unaccepted, however many dispatchers run; a snapshot that a
      posting interrupts counts it twice.
    - Processes and clients ([Node], [Rpc], [WalletLaws], [WalletSqlite]):
      the same books with remote and embedded clients, loops and any loss of
      messages; remote and embedded client agree on all procedures; money
      movements of the wallet may be retried until they are answered and
      happen once; what [EnsurePlayerAccounts] and [GetWallet] do, the latter
      while other requests run; no store stays open when starting one fails
      ([Embedded]); ledgers that migrate at once never deadlock and do what
      they do one after the other ([Migrations]).
    - Programs ([ServerProcess], [Cmd], [ExampleLaws], [ExampleRun],
      [DynamoTable]): whatever fails and however its goroutines interleave,
      the server exits with the right status and with nothing open, or
      closes its store only when no connection is busy or the time of the
      shutdown is over, and its [main] never gets stuck; the migration
      command works on the database an
      embedded ledger would; creating the table never touches one that
      exists; the walkthroughs print what their comments say.
    - The flow engine ([FlowLaws], [Progress]): a completed flow is the
      abstract transition [flow_post] and has passed every guard; with a
      driver that works and no clash of ids, a flow whose guards hold
      completes; locks are taken in one global order.
    - Handlers ([ReservationLaws], [ExchangeLaws], [ReconLaws],
      [AccountLaws]): functional specifications of the reservation, exchange
      and account handlers, of balances and of the matcher: the class of every
      record, every discrepancy and every mark.
    - SQLite ([SqliteSystem], [SqliteLimits]): the books on rows; balances as
      of an instant, and an entry they miss ([Concrete]); the dispatcher
      loses nothing and drains; tenants that share ids or keys.
    - DynamoDB ([DynamoCommit], [DynamoSerial], [DynamoBound],
      [DynamoHistory], [DynamoOnce], [DynamoResv], [DynamoOutbox],
      [DynamoRun]):
      the table stays typed and its rows only grow; a flow that commits gives
      what it gives run alone at the commit, whatever other clients do
      between its reads; with any number of clients whose reads may be of any
      table since their transaction began, every table they leave keeps its
      books, reservations follow their life cycle, requests that race with
      one key post once, and every posting has its event, which no dispatcher
      loses; what each
      refusal of a commit means; the size of a flow; a repeated partial
      commit; keys that collide.  This backend does not keep the
      storage contract operation by operation (its keys are checked at the
      commit), so the theorems over the contract are not claimed for it.
    - CockroachDB ([CrdbExact], [CrdbSystem], [CrdbRun]): the books on rows
      after any requests whose amounts have at most 18 fractional digits, on
      an engine that rounds, and what happens otherwise;
      exact balances as of an instant; a failed statement dooms its
      transaction; the ids of entries.
    - Rules and errors ([Ledger], [Retry], [AccountLaws]): the double-entry
      rule, amounts, the retry loop, the Connect errors.

    ** Assumptions and bounds

    Amounts are decimals whose laws are those of exact rationals; division is
    not used by the code.  Go's [int32] counters wrap around and the matcher
    theorem bounds its inputs below 2^31.  No definition uses fuel but the
    retry loop, whose fuel is the number of attempts the code itself allows.
    A nil-pointer dereference is the error [ErrPanic].  An error text is
    dropped where the code does not read it.  SQL timestamps are compared as
    fixed-width texts of millisecond precision, here as milliseconds.  The
    SQLite store has a single writer (BEGIN IMMEDIATE on a pool of one
    connection), so transactions run one after the other; a COMMIT the
    driver fails is taken to publish nothing.  The order in which a query
    returns rows that its ORDER BY leaves open, the floating-point value of
    SUM over REAL and the foreign-key switch are the class [SqlEngine]; a Go
    map is visited in the order of [map_to_list].  DynamoDB is the class
    [DynamoDB] with the laws [DynamoLaws]: strongly consistent reads,
    all-or-nothing conditional writes, indexes that may lag.  The theorems on
    interleaved clients take the ids of the server not to be made twice (they
    are random UUIDs) and, because the parts of a key are joined unescaped,
    the currencies of accounts to hold no #.
    CockroachDB is the class [CrdbEngine]: how it orders rows, rounds to
    DECIMAL(38, 18) and to microseconds, and which SQLSTATE a failure has.
    Its SERIALIZABLE transactions are run one after the other, as their
    isolation level says they appear to be (one the engine cannot order fails
    with 40001, a driver failure here), and a COMMIT that fails publishes
    nothing.  The laws of the contract hold there of an
    engine that never rounds ([NumericExact]); a run of requests whose
    amounts fit the columns ([request_fits]) is a run of such an engine
    ([CrdbExact]), and no theorem on the tables assumes more.  DynamoDB's
    attribute encoding is taken to lose nothing, and item versions not to reach 2^63.

    The Connect library, net/http and the network between a remote client and
    the server are the class [Connect]: each call is delivered, or not served,
    or served with its answer lost; a Connect error arrives with its code and
    domain code.  [System] and [Node] run calls and ticks one after the
    other; [Interleave] splits them at their store calls, where a transaction
    is one step, as the isolation of the stores makes it appear.  Goose, the
    library that runs the migrations, is the class [Goose]: what it does
    depends on nothing set before the dialect and the file system it is
    given.

    ** Not modelled

    The syntax of command-line flags, the migration scripts and the library
    that runs them, what the tracing exporter sends, the clock of the
    tickers, the sleeps and the local time zone of the examples, log lines
    (but those of the logging interceptor), the generated code that encodes
    messages, and their fields beyond those the handlers read: they hold no
    ledger logic.  The
    functional specifications of a request, but for [GetWallet], are those of
    the request alone: for interleaved ones the invariants are stated. *)

From stdpp Require Import base gmap strings list pretty sorting numbers.
From Stdlib Require Import Qcanon FunctionalExtensionality.

Declare Scope ledger_scope.
Delimit Scope ledger_scope with ledger.
Open Scope ledger_scope.

(** ** Results and the state-and-error monad

    A Go function that returns [(T, error)] returns a [result]; code that
    reads and writes a store or a transaction is a computation of [M]. *)

Inductive result (E A : Type) : Type :=
| Ok (a : A)
| Err (e : E).
Arguments Ok {_ _} a.
Arguments Err {_ _} e.

Definition M (E S A : Type) : Type := S → result E A * S.

#[export] Instance M_ret {E S} : MRet (M E S) := λ A a s, (Ok a, s).
#[export] Instance M_bind {E S} : MBind (M E S) := λ A B f m s,
  match m s with
  | (Ok a, s') => f a s'
  | (Err e, s') => (Err e, s')
  end.

(** [return nil, err]. *)
Definition throw {E S A} (e : E) : M E S A := λ s, (Err e, s).

(** Embeds a pure fallible function. *)
Definition lift_result {E S A} (r : result E A) : M E S A := λ s, (r, s).

(** [if c { return nil, err }]. *)
Definition throw_if {E S} (c : bool) (e : E) : M E S unit :=
  if c then throw e else mret tt.

(** A [for _, x := range l] loop whose body may fail, threading [acc]. *)
Fixpoint foldM {E S A B} (f : B → A → M E S B) (l : list A) (acc : B) : M E S B :=
  match l with
  | [] => mret acc
  | x :: l' => acc' ← f acc x; foldM f l' acc'
  end.

(** The same loop over a pure fallible body. *)
Fixpoint foldR {E A B} (f : B → A → result E B) (l : list A) (acc : B) : result E B :=
  match l with
  | [] => Ok acc
  | x :: l' => match f acc x with Ok acc' => foldR f l' acc' | Err e => Err e end
  end.

(** ** Weakest preconditions with an error postcondition

    [wp m Q R s]: started in [s], [m] ends in a value and state that satisfy
    [Q], or in an error and state that satisfy [R]. *)

Definition wp {E S A} (m : M E S A) (Q : A → S → Prop) (R : E → S → Prop) (s : S) : Prop :=
  match m s with
  | (Ok a, s') => Q a s'
  | (Err e, s') => R e s'
  end.

(** The partial version: an error says nothing. *)
Abbreviation wpo m Q s := (wp m Q (λ _ _, True) s).

(** Whether a run answers. *)
Definition succeeds {E S A} (r : result E A * S) : bool := match r.1 with Ok _ => true | Err _ => false end.
Lemma ran {E S A} (r : result E A * S) : succeeds r = true → ∃ a s', r = (Ok a, s').
Proof. destruct r as [[a|e] s']; [by eauto|done]. Qed.

(** A test that holds of all members, checked by evaluation. *)
Lemma check_all {A} (p : A → bool) (l : list A) : forallb p l = true → ∀ x, x ∈ l → p x = true.
Proof. intros Hall x Hx. rewrite forallb_forall in Hall. by apply Hall, list_elem_of_In. Qed.

Section Wp.
Context {E S : Type}.

Lemma wp_ret {A} (a : A) Q R (s : S) : Q a s → wp (E:=E) (mret a) Q R s.
Proof. done. Qed.

Lemma wp_throw {A} (e : E) (Q : A → S → Prop) R s : R e s → wp (throw e) Q R s.
Proof. done. Qed.

Lemma wp_throw_if (c : bool) (e : E) (Q : unit → S → Prop) (R : E → S → Prop) (s : S) :
  (c = true → R e s) → (c = false → Q tt s) → wp (throw_if c e) Q R s.
Proof. destruct c; unfold wp; simpl; auto. Qed.

Lemma wp_bind {A B} (m : M E S A) (f : A → M E S B) Q R s :
  wp m (λ a s', wp (f a) Q R s') R s → wp (m ≫= f) Q R s.
Proof. unfold wp, mbind, M_bind. by destruct (m s) as [[a|e] s']. Qed.

Lemma wp_assoc {A B C} (m : M E S A) (f : A → M E S B) (g : B → M E S C) Q R s :
  wp ((m ≫= f) ≫= g) Q R s → wp (m ≫= λ a, f a ≫= g) Q R s.
Proof. unfold wp, mbind, M_bind. by destruct (m s) as [[a|e] s']. Qed.

Lemma wp_mono {A} (m : M E S A) (Q Q' : A → S → Prop) (R R' : E → S → Prop) s :
  wp m Q R s → (∀ a s', Q a s' → Q' a s') → (∀ e s', R e s' → R' e s') → wp m Q' R' s.
Proof. unfold wp. destruct (m s) as [[a|e] s']; auto. Qed.

Lemma wp_conj {A} (m : M E S A) (Q Q' : A → S → Prop) (R R' : E → S → Prop) s :
  wp m Q R s → wp m Q' R' s →
  wp m (λ a s', Q a s' ∧ Q' a s') (λ e s', R e s' ∧ R' e s') s.
Proof. unfold wp. destruct (m s) as [[a|e] s']; auto. Qed.

Lemma wp_ok {A} (m : M E S A) Q R s a s' : wp m Q R s → m s = (Ok a, s') → Q a s'.
Proof. unfold wp. intros H Hm. by rewrite Hm in H. Qed.

Lemma wp_err {A} (m : M E S A) Q R s e s' : wp m Q R s → m s = (Err e, s') → R e s'.
Proof. unfold wp. intros H Hm. by rewrite Hm in H. Qed.

Lemma wpo_intro {A} (m : M E S A) Q s :
  (∀ a s', m s = (Ok a, s') → Q a s') → wpo m Q s.
Proof. unfold wp. destruct (m s) as [[a|e] s'] eqn:Hm; eauto. Qed.

Lemma wp_lift {A} (r : result E A) (Q : A → S → Prop) (R : E → S → Prop) s :
  (∀ a, r = Ok a → Q a s) → (∀ e, r = Err e → R e s) → wp (lift_result r) Q R s.
Proof. unfold wp, lift_result. destruct r; auto. Qed.

(** The rule of the [for] loop: an invariant over the processed prefix. *)
Lemma wp_foldM {A B} (f : B → A → M E S B) (l : list A) (acc : B)
    (I : list A → B → S → Prop) (R : E → S → Prop) s :
  I [] acc s →
  (∀ pre x post b s', l = pre ++ x :: post → I pre b s' →
     wp (f b x) (λ b' s'', I (pre ++ [x]) b' s'') R s') →
  wp (foldM f l acc) (λ b s', I l b s') R s.
Proof.
  intros H0 Hstep.
  enough (Hgen : ∀ post pre b s', l = pre ++ post → I pre b s' →
            wp (foldM f post b) (λ b' s'', I l b' s'') R s') by (by apply (Hgen l [])).
  induction post as [|x post IH]; intros pre b s' Hl HI.
  - rewrite app_nil_r in Hl. subst. by apply wp_ret.
  - simpl. apply wp_bind. eapply wp_mono; [by eapply Hstep| |done].
    intros b' s'' HI'. apply (IH (pre ++ [x])); [|done].
    by rewrite <- app_assoc.
Qed.
End Wp.

(** A failed computation decides a bind; a successful one steps into it. *)
Lemma bind_ok {E S A B} (m : M E S A) (f : A → M E S B) s b s' :
  (m ≫= f) s = (Ok b, s') →
  ∃ a s1, m s = (Ok a, s1) ∧ f a s1 = (Ok b, s').
Proof. unfold mbind, M_bind. destruct (m s) as [[a|e] s1] eqn:Hm; [eauto|done]. Qed.

Lemma foldR_inv {E A B} (f : B → A → result E B) (I : list A → B → Prop) l acc b :
  I [] acc →
  (∀ pre x post b b', l = pre ++ x :: post → I pre b → f b x = Ok b' → I (pre ++ [x]) b') →
  foldR f l acc = Ok b → I l b.
Proof.
  intros H0 Hstep.
  enough (Hgen : ∀ post pre b0, l = pre ++ post → I pre b0 → foldR f post b0 = Ok b → I l b)
    by (by apply (Hgen l [])).
  induction post as [|x post IH]; intros pre b0 Hl HI Hf; simpl in Hf.
  - rewrite app_nil_r in Hl. by simplify_eq.
  - destruct (f b0 x) as [b1|e] eqn:Hx; [|done].
    apply (IH (pre ++ [x]) b1); [by rewrite <- app_assoc| |done].
    by eapply Hstep.
Qed.

(** ** Tactics

    [wp_step] takes one syntactic step of a computation; [inv_ok] opens an
    equation [(x ← m; f x) s = (Ok b, s')]. *)

Ltac wp_step :=
  first [ apply wp_bind
        | apply wp_ret
        | apply wp_throw; done
        | apply wp_throw_if; [done|intros ?] ].

Ltac inv_ok H :=
  let a := fresh "a" in let s := fresh "s" in
  let H1 := fresh "Hrun" in
  apply bind_ok in H as (a & s & H1 & H).

(** ** Tables

    A table is the list of its rows in insertion order. [sel] is a one-row
    [SELECT ... WHERE], [upd] an [UPDATE ... WHERE]. *)

Definition sel {A} (p : A → bool) (l : list A) : option A := List.find p l.
Definition upd {A} (p : A → bool) (f : A → A) (l : list A) : list A :=
  (λ r, if p r then f r else r) <$> l.
Definition any {A} (p : A → bool) (l : list A) : bool := existsb p l.

Section Tables.
Context {A : Type}.
Implicit Types (p q : A → bool) (l : list A).

Lemma sel_app p l r :
  sel p (l ++ [r]) = match sel p l with Some x => Some x | None => if p r then Some r else None end.
Proof. unfold sel. induction l as [|x l IH]; simpl; [done|]. by destruct (p x). Qed.

Lemma sel_some p l x : sel p l = Some x → x ∈ l ∧ p x = true.
Proof. intros H. apply find_some in H as [? ?]. by rewrite list_elem_of_In. Qed.

Lemma sel_none p l x : sel p l = None → x ∈ l → p x = false.
Proof. intros H Hx. apply list_elem_of_In in Hx. by eapply find_none. Qed.

Lemma sel_ext p q l : (∀ x, p x = q x) → sel p l = sel q l.
Proof. intros H. unfold sel. induction l as [|x l IH]; simpl; [done|]. by rewrite H, IH. Qed.

Lemma any_false p l : any p l = false ↔ ∀ x, x ∈ l → p x = false.
Proof.
  unfold any. induction l as [|y l IH]; simpl.
  - split; [|done]. intros _ x Hx. by apply elem_of_nil in Hx.
  - rewrite orb_false_iff, IH. split.
    + intros [Hy Hl] x [->|Hx]%elem_of_cons; auto.
    + intros H. split; [apply H; by left|]. intros x Hx. apply H. by right.
Qed.

Lemma any_true p l : any p l = true ↔ ∃ x, x ∈ l ∧ p x = true.
Proof.
  unfold any. rewrite existsb_exists. setoid_rewrite list_elem_of_In. naive_solver.
Qed.

Lemma any_false_sel p l : any p l = false → sel p l = None.
Proof.
  rewrite any_false. intros H. unfold sel.
  induction l as [|y l IH]; simpl; [done|].
  rewrite (H y) by (by left). apply IH. intros x Hx. apply H. by right.
Qed.

(** An update that keeps the columns a query reads. *)
Lemma sel_upd p q (f : A → A) l :
  (∀ x, q (f x) = q x) →
  sel q (upd p f l) = (λ x, if p x then f x else x) <$> sel q l.
Proof.
  intros Hq. unfold sel, upd. induction l as [|x l IH]; simpl; [done|].
  assert (Hx : q (if p x then f x else x) = q x) by (destruct (p x); auto).
  rewrite Hx. destruct (q x); simpl; [done|]. apply IH.
Qed.

Lemma sel_upd_same p (f : A → A) l :
  (∀ x, p (f x) = p x) → sel p (upd p f l) = f <$> sel p l.
Proof.
  intros Hp. rewrite sel_upd by done.
  destruct (sel p l) as [x|] eqn:Hx; simpl; [|done].
  apply sel_some in Hx as [_ ->]. done.
Qed.

Lemma Forall_upd (P : A → Prop) p (f : A → A) l :
  Forall P l → (∀ x, P x → P (f x)) → Forall P (upd p f l).
Proof.
  intros Hl Hf. unfold upd. rewrite Forall_fmap. revert Hl. apply Forall_impl.
  intros x Hx. unfold compose. destruct (p x); auto.
Qed.

Lemma Forall_snoc (P : A → Prop) l x : Forall P l → P x → Forall P (l ++ [x]).
Proof. intros. apply Forall_app. auto. Qed.
End Tables.

(** ** Equality tests on the code's strings *)

Notation "a =s b" := (bool_decide (a = b :> string)) (at level 70, no associativity) : ledger_scope.

Lemma eqs_refl (a : string) : (a =s a) = true.
Proof. by apply bool_decide_eq_true. Qed.
Lemma eqs_true (a b : string) : (a =s b) = true → a = b.
Proof. apply bool_decide_eq_true_1. Qed.
Lemma eqs_false (a b : string) : a ≠ b → (a =s b) = false.
Proof. apply bool_decide_eq_false_2. Qed.

Create HintDb ledger discriminated.
Create Rewrite HintDb ledger.
Create Rewrite HintDb qcsum.
#[export] Hint Resolve eqs_true eqs_false Forall_snoc : ledger.
#[export] Hint Rewrite eqs_refl @sel_app : ledger.

(** Splits a conjunction of the code's string tests. *)
Ltac eqs :=
  repeat match goal with
  | H : (_ && _)%bool = true |- _ => apply andb_true_iff in H as [? ?]
  | H : bool_decide _ = true |- _ => apply bool_decide_eq_true in H
  | H : bool_decide _ = false |- _ => apply bool_decide_eq_false in H
  | H : negb _ = true |- _ => apply negb_true_iff in H
  | H : negb _ = false |- _ => apply negb_false_iff in H
  | H : (_ || _)%bool = false |- _ => apply orb_false_iff in H as [? ?]
  end.

(** ** Go's [int32] *)

Definition int32 (z : Z) : Z := ((z + 2 ^ 31) mod 2 ^ 32 - 2 ^ 31)%Z.

Lemma int32_id z : (- 2 ^ 31 ≤ z < 2 ^ 31)%Z → int32 z = z.
Proof. intros H. unfold int32. rewrite Z.mod_small; lia. Qed.
Lemma int32_range z : (- 2 ^ 31 ≤ int32 z < 2 ^ 31)%Z.
Proof. unfold int32. pose proof (Z.mod_pos_bound (z + 2 ^ 31) (2 ^ 32)). lia. Qed.

(** ** Sums of rationals over lists *)

Definition Qcsum {A} (f : A → Qc) (l : list A) : Qc := foldr (λ x s, (f x + s)%Qc) 0%Qc l.

Lemma Qcsub_0 (a b : Qc) : (a - b = 0)%Qc → a = b.
Proof. intros H. replace a with (a - b + b)%Qc by ring. rewrite H. ring. Qed.

Section Qcsum.
Context {A : Type}.
Implicit Types (f g : A → Qc) (l : list A).
Local Open Scope Qc_scope.

Lemma Qcsum_nil f : Qcsum f [] = 0.
Proof. done. Qed.
Lemma Qcsum_cons f x l : Qcsum f (x :: l) = f x + Qcsum f l.
Proof. done. Qed.
Lemma Qcsum_app f l1 l2 : Qcsum f (l1 ++ l2) = Qcsum f l1 + Qcsum f l2.
Proof. induction l1 as [|x l1 IH]; simpl; [by ring_simplify|]. rewrite IH. ring. Qed.
Lemma Qcsum_ext f g l : (∀ x, x ∈ l → f x = g x) → Qcsum f l = Qcsum g l.
Proof.
  induction l as [|x l IH]; intros H; simpl; [done|].
  rewrite (H x) by (by left). f_equal. apply IH. intros y Hy. apply H. by right.
Qed.
Lemma Qcsum_zero f l : (∀ x, x ∈ l → f x = 0) → Qcsum f l = 0.
Proof.
  intros H. rewrite (Qcsum_ext f (λ _, 0)) by done. clear H.
  induction l as [|x l IH]; simpl; [done|]. rewrite IH. ring.
Qed.
Lemma Qcsum_sub f g l : Qcsum (λ x, f x - g x) l = Qcsum f l - Qcsum g l.
Proof. induction l as [|x l IH]; simpl; [ring|]. rewrite IH. ring. Qed.
Lemma Qcsum_add f g l : Qcsum (λ x, f x + g x) l = Qcsum f l + Qcsum g l.
Proof. induction l as [|x l IH]; simpl; [ring|]. rewrite IH. ring. Qed.
Lemma Qcsum_perm f l1 l2 : l1 ≡ₚ l2 → Qcsum f l1 = Qcsum f l2.
Proof.
  induction 1; simpl; try done; try ring; congruence.
Qed.
Lemma Qcsum_fmap {B} (h : B → A) f (l : list B) : Qcsum f (h <$> l) = Qcsum (λ x, f (h x)) l.
Proof. induction l as [|x l IH]; [done|]. by rewrite fmap_cons, !Qcsum_cons, IH. Qed.
Lemma Qcsum_single f x l :
  NoDup l → x ∈ l → (∀ y, y ∈ l → y ≠ x → f y = 0) → Qcsum f l = f x.
Proof.
  intros Hnd Hx Hf. induction Hnd as [|y l Hy _ IH]; [by apply elem_of_nil in Hx|]. simpl.
  apply elem_of_cons in Hx as [->|Hx].
  - rewrite Qcsum_zero; [ring|]. intros z Hz. apply Hf; [by right|]. by intros ->.
  - rewrite IH, (Hf y); [ring|by left|by intros ->|done|]. intros z Hz. apply Hf. by right.
Qed.
Lemma Qcsum_filter f (p : A → bool) l : Qcsum f (filter (λ x, p x) l) = Qcsum (λ x, if p x then f x else 0) l.
Proof.
  induction l as [|x l IH]; [done|]. rewrite filter_cons, (Qcsum_cons _ x l), <- IH.
  destruct (p x); simpl; [done|]. ring.
Qed.
End Qcsum.
#[export] Hint Rewrite @Qcsum_nil @Qcsum_cons @Qcsum_app @Qcsum_fmap : qcsum.
