(* ===== verification/Money.v ===== *)
(** * Decimals

    The ledger computes money with the third-party package
    shopspring/decimal.  Its type and operations are the class [DecimalOps]; what
    its documentation promises of them is the class [DecimalLaws]: a decimal
    denotes a rational number, the arithmetic is exact, the comparisons
    compare the numbers, and printing a decimal and parsing the text back
    gives a decimal of the same value.

    [ZDecimal] is a concrete instance (whole amounts in minor units), used to
    run the model on concrete inputs. *)

From S2P Require Import Prelude.
From stdpp Require Import base strings numbers.
From Stdlib Require Import Qcanon DecimalString DecimalPos DecimalZ.

Class DecimalOps := {
  dec : Type;
  decimal_Zero : dec;                       (* also the zero value Decimal{} *)
  dAdd : dec → dec → dec;
  dSub : dec → dec → dec;
  dMul : dec → dec → dec;
  dNeg : dec → dec;
  IsZero : dec → bool;
  IsPositive : dec → bool;
  IsNegative : dec → bool;
  Equal : dec → dec → bool;
  GreaterThan : dec → dec → bool;
  dString : dec → string;
  NewFromString : string → option dec;      (* None: a non-nil error *)
}.

Class DecimalLaws (D : DecimalOps) := {
  val : dec → Qc;
  val_zero : val decimal_Zero = 0%Qc;
  val_add a b : val (dAdd a b) = (val a + val b)%Qc;
  val_sub a b : val (dSub a b) = (val a - val b)%Qc;
  val_mul a b : val (dMul a b) = (val a * val b)%Qc;
  val_neg a : val (dNeg a) = (- val a)%Qc;
  IsZero_spec a : IsZero a = bool_decide (val a = 0%Qc);
  IsPositive_spec a : IsPositive a = bool_decide (0 < val a)%Qc;
  IsNegative_spec a : IsNegative a = bool_decide (val a < 0)%Qc;
  Equal_spec a b : Equal a b = bool_decide (val a = val b);
  GreaterThan_spec a b : GreaterThan a b = bool_decide (val b < val a)%Qc;
  String_roundtrip a : ∃ b, NewFromString (dString a) = Some b ∧ val b = val a;
  String_nonempty a : dString a ≠ "";
  parse_zero : ∃ b, NewFromString "0" = Some b ∧ val b = 0%Qc;
}.

Create Rewrite HintDb decimal.
#[export] Hint Rewrite @val_zero @val_add @val_sub @val_mul @val_neg : decimal.
#[export] Hint Rewrite @IsZero_spec @IsPositive_spec @IsNegative_spec @Equal_spec
  @GreaterThan_spec : decimal.

(** The number a stored TEXT amount denotes; 0 where it does not parse. *)
Definition text_val `{DecimalLaws} (s : string) : Qc :=
  match NewFromString s with Some d => val d | None => 0%Qc end.

Lemma text_val_String `{DecimalLaws} d : text_val (dString d) = val d.
Proof. unfold text_val. by destruct (String_roundtrip d) as (b & -> & ->). Qed.

Lemma text_val_parse `{DecimalLaws} s d : NewFromString s = Some d → text_val s = val d.
Proof. unfold text_val. by intros ->. Qed.

Lemma text_val_zero `{DecimalLaws} : text_val "0" = 0%Qc.
Proof. unfold text_val. by destruct parse_zero as (b & -> & ->). Qed.

Lemma val_default `{DecimalLaws} s : val (default decimal_Zero (NewFromString s)) = text_val s.
Proof. unfold text_val. destruct (NewFromString s); simpl; [done|apply val_zero]. Qed.
#[export] Hint Rewrite @text_val_String @text_val_zero @val_default : decimal.

(** ** A concrete instance: whole numbers, printed in base ten *)

Definition Z_to_text (z : Z) : string := NilZero.string_of_int (Z.to_int z).
Definition Z_of_text (s : string) : option Z := Z.of_int <$> NilZero.int_of_string s.

Definition ZDecimal : DecimalOps := {|
  dec := Z;
  decimal_Zero := 0%Z;
  dAdd := Z.add; dSub := Z.sub; dMul := Z.mul; dNeg := Z.opp;
  IsZero := λ z, (z =? 0)%Z;
  IsPositive := λ z, (0 <? z)%Z;
  IsNegative := λ z, (z <? 0)%Z;
  Equal := Z.eqb;
  GreaterThan := λ a b, (b <? a)%Z;
  dString := Z_to_text;
  NewFromString := Z_of_text;
|}.

Lemma Z_to_int_not_nil z : Z.to_int z ≠ Decimal.Pos Decimal.Nil ∧ Z.to_int z ≠ Decimal.Neg Decimal.Nil.
Proof.
  destruct z as [|p|p]; simpl; [done| |];
    pose proof (DecimalPos.Unsigned.to_uint_nonnil p); split; congruence.
Qed.

Lemma Z_text_roundtrip z : Z_of_text (Z_to_text z) = Some z.
Proof.
  unfold Z_of_text, Z_to_text. destruct (Z_to_int_not_nil z) as [H1 H2].
  rewrite NilZero.isi by done. simpl. by rewrite DecimalZ.of_to.
Qed.

Lemma Z_to_text_nonempty z : Z_to_text z ≠ "".
Proof.
  intros H. pose proof (Z_text_roundtrip z) as Hr. by rewrite H in Hr.
Qed.

Lemma Z2Qc_eq_iff (a b : Z) : Qc_of_Z a = Qc_of_Z b ↔ a = b.
Proof. apply Z2Qc_inj_iff. Qed.

Definition ZDecimalLaws : DecimalLaws ZDecimal.
Proof.
  refine {| val := Qc_of_Z : @dec ZDecimal → Qc |}; simpl; intros.
  - apply Z2Qc_inj_0.
  - apply Z2Qc_inj_add.
  - apply Z2Qc_inj_sub.
  - apply Z2Qc_inj_mul.
  - apply Z2Qc_inj_opp.
  - apply eq_true_iff_eq. rewrite Z.eqb_eq, bool_decide_eq_true. rewrite <- Z2Qc_inj_0. symmetry. apply Z2Qc_eq_iff.
  - apply eq_true_iff_eq. rewrite Z.ltb_lt, bool_decide_eq_true, <- Z2Qc_inj_0. apply Z2Qc_inj_lt.
  - apply eq_true_iff_eq. rewrite Z.ltb_lt, bool_decide_eq_true, <- Z2Qc_inj_0. apply Z2Qc_inj_lt.
  - apply eq_true_iff_eq. rewrite Z.eqb_eq, bool_decide_eq_true. symmetry. apply Z2Qc_eq_iff.
  - apply eq_true_iff_eq. rewrite Z.ltb_lt, bool_decide_eq_true. apply Z2Qc_inj_lt.
  - eexists. split; [apply Z_text_roundtrip|done].
  - apply Z_to_text_nonempty.
  - exists 0%Z. split; [done|apply Z2Qc_inj_0].
Defined.
