(* ===== verification/Scaled.v ===== *)
(** * Decimals with a fraction

    A second instance of [DecimalOps], to run the model on amounts with
    fractional digits: [(m, n)] is the number m / 10^n, as shopspring/decimal
    keeps a mantissa and an exponent, written in the exponent notation that
    [decimal.NewFromString] reads; it reads a decimal point too. *)

From S2P Require Import Prelude Money.
From stdpp Require Import base strings numbers.
From Stdlib Require Import Qcanon Field Ascii DecimalString.
From Stdlib Require QArith_base.

Definition scaled : Type := Z * nat.
Definition pow10 (n : nat) : Z := (10 ^ Z.of_nat n)%Z.
(** The mantissa on a larger scale. *)
Definition rescale (k : nat) (x : scaled) : Z := (x.1 * pow10 (k - x.2))%Z.
Definition scale2 (x y : scaled) : nat := Nat.max x.2 y.2.
Definition lift2 (f : Z → Z → Z) (x y : scaled) : scaled :=
  let k := scale2 x y in (f (rescale k x) (rescale k y), k).
Definition test2 (f : Z → Z → bool) (x y : scaled) : bool :=
  let k := scale2 x y in f (rescale k x) (rescale k y).

(** Cuts a text at the first character [ch]. *)
Fixpoint split_at (ch : ascii) (s : string) : string * option string :=
  match s with
  | "" => ("", None)
  | String c s' => if bool_decide (c = ch) then ("", Some s') else (String c (split_at ch s').1, (split_at ch s').2)
  end.
Definition scaled_text (x : scaled) : string := Z_to_text x.1 +:+ "e" +:+ Z_to_text (- Z.of_nat x.2).
Definition parse_point (s : string) : option scaled :=
  match split_at "." s with
  | (i, None) => (λ z, (z, 0%nat)) <$> Z_of_text i
  | (i, Some f) => (λ z, (z, String.length f)) <$> Z_of_text (i +:+ f)
  end.
Definition scaled_parse (s : string) : option scaled :=
  match split_at "e" s with
  | (m, None) => parse_point m
  | (m, Some e) =>
      x ← parse_point m; k ← Z_of_text e;
      let n := (Z.of_nat x.2 - k)%Z in
      Some (if (0 <=? n)%Z then (x.1, Z.to_nat n) else ((x.1 * 10 ^ (- n))%Z, 0%nat))
  end.

Definition ScaledDecimal : DecimalOps := {|
  dec := scaled;
  decimal_Zero := (0%Z, 0%nat);
  dAdd := lift2 Z.add; dSub := lift2 Z.sub;
  dMul := λ x y, ((x.1 * y.1)%Z, (x.2 + y.2)%nat);
  dNeg := λ x, ((- x.1)%Z, x.2);
  IsZero := λ x, (x.1 =? 0)%Z;
  IsPositive := λ x, (0 <? x.1)%Z;
  IsNegative := λ x, (x.1 <? 0)%Z;
  Equal := test2 Z.eqb;
  GreaterThan := test2 (λ a b, (b <? a)%Z);
  dString := scaled_text;
  NewFromString := scaled_parse;
|}.

Definition scaled_val (x : scaled) : Qc := (Qc_of_Z x.1 / Qc_of_Z (pow10 x.2))%Qc.

Lemma pow10_pos n : (0 < pow10 n)%Z.
Proof. apply Z.pow_pos_nonneg; lia. Qed.
Lemma pow10_add n m : pow10 (n + m) = (pow10 n * pow10 m)%Z.
Proof. unfold pow10. rewrite Nat2Z.inj_add. apply Z.pow_add_r; lia. Qed.
Lemma pow10_Qc n : Qc_of_Z (pow10 n) ≠ 0%Qc.
Proof. rewrite <- Z2Qc_inj_0, Z2Qc_inj_iff. pose proof (pow10_pos n). lia. Qed.
Lemma Qc_pow10_pos n : (0 < Qc_of_Z (pow10 n))%Qc.
Proof. rewrite <- Z2Qc_inj_0, <- Z2Qc_inj_lt. apply pow10_pos. Qed.

Lemma scaled_rescale k x : (x.2 ≤ k)%nat → scaled_val (rescale k x, k) = scaled_val x.
Proof.
  intros Hk. unfold scaled_val, rescale. cbn [fst snd]. replace (pow10 k) with (pow10 x.2 * pow10 (k - x.2))%Z
    by (rewrite <- pow10_add; f_equal; lia).
  rewrite !Z2Qc_inj_mul. field. split; apply pow10_Qc.
Qed.
Lemma scaled_common x y :
  scaled_val x = (Qc_of_Z (rescale (scale2 x y) x) / Qc_of_Z (pow10 (scale2 x y)))%Qc ∧
  scaled_val y = (Qc_of_Z (rescale (scale2 x y) y) / Qc_of_Z (pow10 (scale2 x y)))%Qc.
Proof. unfold scale2. rewrite <- (scaled_rescale (Nat.max x.2 y.2) x), <- (scaled_rescale (Nat.max x.2 y.2) y) by lia. done. Qed.

(** Fractions of one denominator compare as their numerators. *)
Lemma frac_cancel a n : (Qc_of_Z a / Qc_of_Z (pow10 n) * Qc_of_Z (pow10 n) = Qc_of_Z a)%Qc.
Proof. field. apply pow10_Qc. Qed.
Lemma frac_eq a b n : (Qc_of_Z a / Qc_of_Z (pow10 n) = Qc_of_Z b / Qc_of_Z (pow10 n))%Qc ↔ a = b.
Proof.
  split; [|by intros ->]. intros E. apply Z2Qc_inj_iff. by rewrite <- (frac_cancel a n), E, frac_cancel.
Qed.
Lemma frac_lt a b n : (Qc_of_Z a / Qc_of_Z (pow10 n) < Qc_of_Z b / Qc_of_Z (pow10 n))%Qc ↔ (a < b)%Z.
Proof.
  pose proof (Qc_pow10_pos n) as Hp. split; intros Hlt.
  - apply (Qcmult_lt_compat_r _ _ _ Hp) in Hlt. rewrite !frac_cancel in Hlt. by apply Z2Qc_inj_lt.
  - destruct (Qclt_le_dec (Qc_of_Z a / Qc_of_Z (pow10 n)) (Qc_of_Z b / Qc_of_Z (pow10 n))) as [?|Hle]; [done|].
    apply (Qcmult_le_compat_r _ _ (Qc_of_Z (pow10 n))) in Hle; [|by apply Qclt_le_weak].
    rewrite !frac_cancel in Hle. apply Z2Qc_inj_le in Hle. lia.
Qed.
Lemma frac_0 n : (Qc_of_Z 0 / Qc_of_Z (pow10 n) = 0)%Qc.
Proof. rewrite Z2Qc_inj_0. field. apply pow10_Qc. Qed.

(** ** Text *)

Fixpoint free_of (ch : ascii) (s : string) : bool :=
  match s with "" => true | String c s' => negb (bool_decide (c = ch)) && free_of ch s' end.

Lemma split_at_app ch a b : free_of ch a = true → split_at ch (a +:+ String ch b) = (a, Some b).
Proof.
  induction a as [|c a IH]; [by intros _; simpl; rewrite bool_decide_eq_true_2|]. cbn [free_of]. intros [Hc Ha]%andb_true_iff.
  change (String c a +:+ String ch b) with (String c (a +:+ String ch b)). cbn [split_at].
  apply negb_true_iff, bool_decide_eq_false_1 in Hc. rewrite bool_decide_eq_false_2 by done. by rewrite (IH Ha).
Qed.
Lemma split_at_none ch a : free_of ch a = true → split_at ch a = (a, None).
Proof.
  induction a as [|c a IH]; [done|]. cbn [free_of split_at]. intros [Hc Ha]%andb_true_iff.
  apply negb_true_iff, bool_decide_eq_false_1 in Hc. rewrite bool_decide_eq_false_2 by done. by rewrite (IH Ha).
Qed.

(** A printed integer holds digits and perhaps a minus. *)
Lemma digits_free ch d : free_of ch "0123456789" = true → free_of ch (NilEmpty.string_of_uint d) = true.
Proof.
  cbn [free_of]. intros Hch. repeat apply andb_true_iff in Hch as [? Hch].
  induction d as [|d IH|d IH|d IH|d IH|d IH|d IH|d IH|d IH|d IH|d IH]; cbn [NilEmpty.string_of_uint free_of]; [done|by apply andb_true_iff..].
Qed.
Lemma Z_to_text_free ch z : free_of ch "-0123456789" = true → free_of ch (Z_to_text z) = true.
Proof.
  intros [Hm Hch]%andb_true_iff. unfold Z_to_text, NilZero.string_of_int, NilZero.string_of_uint.
  assert (H0 : free_of ch "0" = true) by (apply andb_true_iff in Hch as [H0 _]; apply andb_true_iff; by split).
  assert (Hd : ∀ d, free_of ch match d with Decimal.Nil => "0" | _ => NilEmpty.string_of_uint d end = true)
    by (intros []; [done|by apply digits_free..]).
  destruct (Z.to_int z) as [d|d]; [apply Hd|]. cbn [free_of]. apply andb_true_iff. split; [done|apply Hd].
Qed.

Lemma scaled_text_split x : split_at "e" (scaled_text x) = (Z_to_text x.1, Some (Z_to_text (- Z.of_nat x.2))).
Proof. by apply (split_at_app "e" _ (Z_to_text (- Z.of_nat x.2))), Z_to_text_free. Qed.

Lemma scaled_roundtrip x : scaled_parse (scaled_text x) = Some x.
Proof.
  destruct x as [m n]. unfold scaled_parse. rewrite scaled_text_split. cbn [fst snd]. unfold parse_point.
  rewrite split_at_none by (by apply Z_to_text_free). rewrite !Z_text_roundtrip. simpl.
  rewrite (proj2 (Z.leb_le _ _)) by lia. do 2 f_equal. lia.
Qed.

(** ** The laws *)

Definition ScaledDecimalLaws : DecimalLaws ScaledDecimal.
Proof.
  refine {| val := scaled_val : @dec ScaledDecimal → Qc |}.
  - apply (frac_0 0).
  - intros x y. destruct (scaled_common x y) as [-> ->]. unfold scaled_val; simpl. rewrite Z2Qc_inj_add. field. apply pow10_Qc.
  - intros x y. destruct (scaled_common x y) as [-> ->]. unfold scaled_val; simpl. rewrite Z2Qc_inj_sub. field. apply pow10_Qc.
  - intros [m n] [m' n']. unfold scaled_val; cbn [fst snd dMul ScaledDecimal]. rewrite pow10_add, !Z2Qc_inj_mul. field. split; apply pow10_Qc.
  - intros [m n]. unfold scaled_val; simpl. rewrite Z2Qc_inj_opp. field. apply pow10_Qc.
  - intros [m n]. change (scaled_val (m, n)) with (Qc_of_Z m / Qc_of_Z (pow10 n))%Qc.
    change (@IsZero ScaledDecimal (m, n)) with (m =? 0)%Z. apply eq_true_iff_eq.
    by rewrite Z.eqb_eq, bool_decide_eq_true, <- (frac_0 n), (frac_eq m).
  - intros [m n]. change (scaled_val (m, n)) with (Qc_of_Z m / Qc_of_Z (pow10 n))%Qc.
    change (@IsPositive ScaledDecimal (m, n)) with (0 <? m)%Z. apply eq_true_iff_eq.
    by rewrite Z.ltb_lt, bool_decide_eq_true, <- (frac_0 n), (frac_lt _ m).
  - intros [m n]. change (scaled_val (m, n)) with (Qc_of_Z m / Qc_of_Z (pow10 n))%Qc.
    change (@IsNegative ScaledDecimal (m, n)) with (m <? 0)%Z. apply eq_true_iff_eq.
    by rewrite Z.ltb_lt, bool_decide_eq_true, <- (frac_0 n), (frac_lt m).
  - intros x y. destruct (scaled_common x y) as [-> ->]. apply eq_true_iff_eq. rewrite bool_decide_eq_true, frac_eq. apply Z.eqb_eq.
  - intros x y. destruct (scaled_common x y) as [-> ->]. apply eq_true_iff_eq. rewrite bool_decide_eq_true, frac_lt, <- Z.ltb_lt. done.
  - intros x. exists x. split; [apply scaled_roundtrip|done].
  - intros x Hx. apply (f_equal (split_at "e")) in Hx. change (dString x) with (scaled_text x) in Hx. by rewrite scaled_text_split in Hx.
  - exists (0%Z, 0%nat). split; [done|apply (frac_0 0)].
Defined.

(** ** Rounding to a number of fractional digits, half away from zero *)

Definition round_half_up (m q : Z) : Z := (Z.sgn m * ((2 * Z.abs m + q) / (2 * q)))%Z.
Definition round_to (k : nat) (x : scaled) : scaled :=
  if (x.2 <=? k)%nat then x else (round_half_up x.1 (pow10 (x.2 - k)), k).

Lemma round_exact z q : (0 < q)%Z → round_half_up (z * q) q = z.
Proof.
  intros Hq. unfold round_half_up. rewrite Z.sgn_mul, (Z.sgn_pos q), Z.mul_1_r, Z.abs_mul, (Z.abs_eq q) by lia.
  replace (2 * (Z.abs z * q) + q)%Z with (q + Z.abs z * (2 * q))%Z by lia.
  rewrite Z.div_add, Z.div_small by lia. rewrite Z.add_0_l. first [apply Z.sgn_abs|rewrite Z.mul_comm; apply Z.abs_sgn].
Qed.
