(* ===== verification/Ledger.v ===== *)
(** * Package internal/ledger: the domain types and rules

    Money parsing, accounts and their normal balance, journals and the
    double-entry rule, flows, reservations, snapshots, FX rates, the
    reconciliation types and the domain errors.  Go's string enumerations
    ([type Direction string]) are strings here too, since the code converts
    any stored text to them.  Times are nanoseconds since the Unix epoch; a
    nil [*time.Time] is [None].  An error carries its domain code, not its
    text, which the code never inspects.  A metadata map is a [Meta]: each
    key with a text that stands for its value. *)

From S2P Require Import Prelude Money.
From stdpp Require Import base gmap strings list numbers.
From Stdlib Require Import Qcanon.

(** ** errors.go *)

Inductive DomainCode :=
| CodeInsufficientFunds | CodeAccountNotFound | CodeAccountCurrencyMismatch
| CodeUnbalancedJournal | CodeDuplicateIdempotencyKey | CodeFlowAlreadyCompleted
| CodeFlowConflict | CodeInvalidAccountStatus | CodeSerializationRetryExhausted
| CodeReservationNotFound | CodeReservationClosed | CodeReservationAmountExceeds
| CodeReservationCurrencyMismatch | CodeFXRateNotFound | CodeFXAmountMismatch
| CodeDiscrepancyNotFound | CodeDiscrepancyClosed | CodeReconBatchNotFound
| CodeUnsupportedOperation | CodeFlowTooLarge.

#[export] Instance DomainCode_eq_dec : EqDecision DomainCode.
Proof. solve_decision. Defined.

Definition code_text (c : DomainCode) : string :=
  match c with
  | CodeInsufficientFunds => "INSUFFICIENT_FUNDS"
  | CodeAccountNotFound => "ACCOUNT_NOT_FOUND"
  | CodeAccountCurrencyMismatch => "ACCOUNT_CURRENCY_MISMATCH"
  | CodeUnbalancedJournal => "UNBALANCED_JOURNAL"
  | CodeDuplicateIdempotencyKey => "DUPLICATE_IDEMPOTENCY_KEY"
  | CodeFlowAlreadyCompleted => "FLOW_ALREADY_COMPLETED"
  | CodeFlowConflict => "FLOW_CONFLICT"
  | CodeInvalidAccountStatus => "INVALID_ACCOUNT_STATUS"
  | CodeSerializationRetryExhausted => "SERIALIZATION_RETRY_EXHAUSTED"
  | CodeReservationNotFound => "RESERVATION_NOT_FOUND"
  | CodeReservationClosed => "RESERVATION_CLOSED"
  | CodeReservationAmountExceeds => "RESERVATION_AMOUNT_EXCEEDS"
  | CodeReservationCurrencyMismatch => "RESERVATION_CURRENCY_MISMATCH"
  | CodeFXRateNotFound => "FX_RATE_NOT_FOUND"
  | CodeFXAmountMismatch => "FX_AMOUNT_MISMATCH"
  | CodeDiscrepancyNotFound => "DISCREPANCY_NOT_FOUND"
  | CodeDiscrepancyClosed => "DISCREPANCY_CLOSED"
  | CodeReconBatchNotFound => "RECON_BATCH_NOT_FOUND"
  | CodeUnsupportedOperation => "UNSUPPORTED_OPERATION"
  | CodeFlowTooLarge => "FLOW_TOO_LARGE"
  end.

(** The Connect status codes the service uses. *)
Inductive ConnectCode :=
| CodeInternal | CodeUnimplemented | CodeFailedPrecondition | CodeNotFound | CodeInvalidArgument
| CodeAlreadyExists | CodeAborted.

#[export] Instance ConnectCode_eq_dec : EqDecision ConnectCode.
Proof. solve_decision. Defined.

(** A Go [error] value: a [*DomainError], a Postgres-protocol error, a
    [*connect.Error] with the domain code of its header, [sql.ErrNoRows], a
    run-time panic, or any other error. *)
Inductive error :=
| ErrDomain (c : DomainCode)
| ErrPg (sqlstate : string)
| ErrConnect (cc : ConnectCode) (header : option DomainCode)
| ErrNoRows
| ErrPanic
| ErrOther (what : string).

(** [errors.AsType[*DomainError]]: a connect error wraps the domain error. *)
Definition as_domain (e : error) : option DomainCode :=
  match e with
  | ErrDomain c => Some c
  | ErrConnect _ h => h
  | _ => None
  end.

Definition IsDomainCode (e : error) (code : DomainCode) : bool :=
  match as_domain e with Some c => bool_decide (c = code) | None => false end.

Abbreviation Meta := (gmap string string).
Definition Time := Z.
(** [time.Time{}]: midnight, January 1 of year 1, UTC. *)
Definition time_zero : Time := (-62135596800000000000)%Z.
Definition Time_IsZero (t : Time) : bool := (t =? time_zero)%Z.

Section Ledger.
Context {D : DecimalOps}.

(** ** money.go *)

Definition ParseAmount (s : string) : result error dec :=
  if s =s "" then Err (ErrOther "amount is empty")
  else match NewFromString s with
       | None => Err (ErrOther "invalid amount")
       | Some d => if IsPositive d then Ok d else Err (ErrOther "amount must be > 0")
       end.

(** ** account.go *)

Definition NormalBalance := string.
Definition NormalDebit : NormalBalance := "DEBIT".
Definition NormalCredit : NormalBalance := "CREDIT".
Definition NormalBalance_Valid (n : NormalBalance) : bool := (n =s NormalDebit) || (n =s NormalCredit).

Definition AccountStatus := string.
Definition AccountActive : AccountStatus := "ACTIVE".
Definition AccountFrozen : AccountStatus := "FROZEN".
Definition AccountClosed : AccountStatus := "CLOSED".
Definition AccountStatus_Valid (s : AccountStatus) : bool :=
  (s =s AccountActive) || (s =s AccountFrozen) || (s =s AccountClosed).

Record Account := mkAccount {
  acc_ID : string;
  acc_TenantID : string;
  acc_OwnerType : string;
  acc_OwnerID : string;
  acc_AccountType : string;
  acc_Currency : string;
  acc_NormalBalance : NormalBalance;
  acc_AllowNegative : bool;
  acc_Status : AccountStatus;
  acc_CreatedAt : Time;
}.

Definition NormalizedBalance (nb : NormalBalance) (postedDebits postedCredits : dec) : dec :=
  if nb =s NormalCredit then dSub postedCredits postedDebits
  else dSub postedDebits postedCredits.

(** ** journal.go *)

Definition Direction := string.
Definition DirectionDebit : Direction := "DEBIT".
Definition DirectionCredit : Direction := "CREDIT".
Definition Direction_Valid (d : Direction) : bool := (d =s DirectionDebit) || (d =s DirectionCredit).

Record Entry := mkEntry {
  en_AccountID : string;
  en_Currency : string;
  en_Direction : Direction;
  en_Amount : dec;
}.

Record Journal := mkJournal {
  jr_ID : string;
  jr_TenantID : string;
  jr_FlowRunID : string;
  jr_EventID : string;
  jr_SourceService : string;
  jr_SourceType : string;
  jr_ActorID : string;
  jr_Metadata : Meta;
  jr_Entries : list Entry;
  jr_CreatedAt : Time;
}.

(** One turn of the loop of [Validate]: the entry's checks, then the running
    per-currency sum of the signed amounts. *)
Definition validate_entry (sums : gmap string dec) (e : Entry) : result error (gmap string dec) :=
  if en_AccountID e =s "" then Err (ErrOther "account_id required")
  else if en_Currency e =s "" then Err (ErrOther "currency required")
  else if negb (Direction_Valid (en_Direction e)) then Err (ErrOther "invalid direction")
  else if negb (IsPositive (en_Amount e)) then Err (ErrOther "amount must be > 0")
  else let signed := if en_Direction e =s DirectionCredit then dNeg (en_Amount e) else en_Amount e in
       Ok (<[en_Currency e := dAdd (default decimal_Zero (sums !! en_Currency e)) signed]> sums).

Definition Journal_Validate (j : Journal) : result error unit :=
  if jr_EventID j =s "" then Err (ErrOther "event_id is required")
  else if (length (jr_Entries j) =? 0)%nat then Err (ErrOther "at least one entry required")
  else match foldR validate_entry (jr_Entries j) ∅ with
       | Err e => Err e
       | Ok sums =>
           if forallb (λ kv, IsZero kv.2) (map_to_list sums) then Ok tt
           else Err (ErrOther "unbalanced")
       end.

(** ** flow.go *)

Definition FlowStatus := string.
Definition FlowRunning : FlowStatus := "RUNNING".
Definition FlowCompleted : FlowStatus := "COMPLETED".
Definition FlowFailed : FlowStatus := "FAILED".

Definition StepStatus := string.
Definition StepCompleted : StepStatus := "COMPLETED".
Definition StepFailed : StepStatus := "FAILED".

Record FlowStep := mkFlowStep {
  fs_ID : string;
  fs_TenantID : string;
  fs_FlowRunID : string;
  fs_StepID : string;
  fs_Status : StepStatus;
  fs_JournalID : string;
  fs_ErrorCode : string;
  fs_CreatedAt : Time;
}.

Record FlowRun := mkFlowRun {
  fr_ID : string;
  fr_TenantID : string;
  fr_FlowType : string;
  fr_IdempotencyKey : string;
  fr_SourceService : string;
  fr_ActorID : string;
  fr_Status : FlowStatus;
  fr_Metadata : Meta;
  fr_CreatedAt : Time;
  fr_CompletedAt : option Time;
  fr_FailedAt : option Time;
  fr_Steps : list FlowStep;
}.

Record StepInput := mkStepInput {
  si_StepID : string;
  si_Journal : Journal;
}.

(** ** fx.go, snapshot.go *)

Record FXRate := mkFXRate {
  fx_ID : string;
  fx_TenantID : string;
  fx_BaseCurrency : string;
  fx_QuoteCurrency : string;
  fx_Rate : dec;
  fx_Source : string;
  fx_EffectiveAt : Time;
  fx_CreatedAt : Time;
}.

Record BalanceSnapshot := mkBalanceSnapshot {
  bs_ID : string;
  bs_TenantID : string;
  bs_AccountID : string;
  bs_Currency : string;
  bs_PostedDebits : dec;
  bs_PostedCredits : dec;
  bs_Version : Z;
  bs_SnapshotAt : Time;
  bs_CreatedAt : Time;
}.

(** ** reservation.go *)

Definition ReservationStatus := string.
Definition ReservationHeld : ReservationStatus := "HELD".
Definition ReservationPartial : ReservationStatus := "PARTIAL".
Definition ReservationCommitted : ReservationStatus := "COMMITTED".
Definition ReservationReleased : ReservationStatus := "RELEASED".
Definition ReservationExpired : ReservationStatus := "EXPIRED".

Definition ReservationStatus_Closed (s : ReservationStatus) : bool :=
  (s =s ReservationCommitted) || (s =s ReservationReleased) || (s =s ReservationExpired).

Record Reservation := mkReservation {
  rs_ID : string;
  rs_TenantID : string;
  rs_IdempotencyKey : string;
  rs_SourceAccountID : string;
  rs_ReservedAccountID : string;
  rs_Currency : string;
  rs_OriginalAmount : dec;
  rs_OutstandingAmount : dec;
  rs_CommittedAmount : dec;
  rs_ReleasedAmount : dec;
  rs_Status : ReservationStatus;
  rs_ExpiresAt : option Time;
  rs_FlowRunID : string;
  rs_Metadata : Meta;
  rs_CreatedAt : Time;
  rs_UpdatedAt : Time;
}.

Definition Reservation_Validate (r : Reservation) : result error unit :=
  let sum := dAdd (dAdd (rs_OutstandingAmount r) (rs_CommittedAmount r)) (rs_ReleasedAmount r) in
  if negb (Equal sum (rs_OriginalAmount r))
  then Err (ErrOther "outstanding+committed+released != original") else Ok tt.

(** ** recon.go *)

Definition ExternalRecordStatus := string.
Definition ExternalUnmatched : ExternalRecordStatus := "UNMATCHED".
Definition ExternalMatched : ExternalRecordStatus := "MATCHED".
Definition ExternalMismatched : ExternalRecordStatus := "MISMATCHED".

Record ExternalRecord := mkExternalRecord {
  er_ID : string;
  er_TenantID : string;
  er_Source : string;
  er_ExternalRef : string;
  er_Amount : dec;
  er_Currency : string;
  er_OccurredAt : Time;
  er_AccountID : string;
  er_RawPayload : Meta;
  er_MatchStatus : ExternalRecordStatus;
  er_MatchedJournalID : string;
  er_CreatedAt : Time;
}.

Definition BatchStatus := string.
Definition BatchRunning : BatchStatus := "RUNNING".
Definition BatchCompleted : BatchStatus := "COMPLETED".
Definition BatchFailed : BatchStatus := "FAILED".

Record ReconciliationBatch := mkReconciliationBatch {
  rb_ID : string;
  rb_TenantID : string;
  rb_IdempotencyKey : string;
  rb_Source : string;
  rb_WindowStart : Time;
  rb_WindowEnd : Time;
  rb_Status : BatchStatus;
  rb_IngestedCount : Z;
  rb_MatchedCount : Z;
  rb_MismatchedCount : Z;
  rb_MissingInLedgerCount : Z;
  rb_MissingInExternalCount : Z;
  rb_StartedAt : Time;
  rb_CompletedAt : Time;
  rb_ActorID : string;
}.

Definition DiscrepancyType := string.
Definition DiscrepancyMissingInLedger : DiscrepancyType := "MISSING_IN_LEDGER".
Definition DiscrepancyMissingInExternal : DiscrepancyType := "MISSING_IN_EXTERNAL".
Definition DiscrepancyAmountMismatch : DiscrepancyType := "AMOUNT_MISMATCH".

Definition DiscrepancyStatus := string.
Definition DiscrepancyOpen : DiscrepancyStatus := "OPEN".
Definition DiscrepancyResolved : DiscrepancyStatus := "RESOLVED".
Definition DiscrepancyIgnored : DiscrepancyStatus := "IGNORED".

Definition DiscrepancyStatus_Closed (s : DiscrepancyStatus) : bool :=
  (s =s DiscrepancyResolved) || (s =s DiscrepancyIgnored).

Record Discrepancy := mkDiscrepancy {
  dc_ID : string;
  dc_TenantID : string;
  dc_BatchID : string;
  dc_Type : DiscrepancyType;
  dc_ExternalRecordID : string;
  dc_JournalID : string;
  dc_Status : DiscrepancyStatus;
  dc_ResolutionJournalID : string;
  dc_ResolutionNote : string;
  dc_ResolvedBy : string;
  dc_ResolvedAt : Time;
  dc_CreatedAt : Time;
}.

End Ledger.

(** ** The rules as arithmetic *)

Section LedgerLaws.
Context {D : DecimalOps} {L : DecimalLaws D}.

Definition entry_ok (e : Entry) : Prop :=
  en_AccountID e ≠ "" ∧ en_Currency e ≠ "" ∧ Direction_Valid (en_Direction e) = true ∧ (0 < val (en_Amount e))%Qc.

(** A debit counts for, a credit against; only entries in currency [c] count. *)
Definition signed_in (c : string) (e : Entry) : Qc :=
  if en_Currency e =s c
  then (if en_Direction e =s DirectionCredit then - val (en_Amount e) else val (en_Amount e))%Qc
  else 0%Qc.

Definition sum_val (sums : gmap string dec) (c : string) : Qc := val (default decimal_Zero (sums !! c)).

Lemma validate_entry_ok sums e sums' :
  validate_entry sums e = Ok sums' →
  entry_ok e ∧ ∀ c, sum_val sums' c = (sum_val sums c + signed_in c e)%Qc.
Proof.
  unfold validate_entry. repeat (case_bool_decide; [done|]).
  destruct (Direction_Valid _) eqn:Hd; [|done]. simpl.
  rewrite IsPositive_spec. case_bool_decide as Hp; [|done]. intros [= <-].
  split; [done|]. intros c. unfold sum_val, signed_in. destruct (bool_decide_reflect (en_Currency e = c)) as [Hc|Hc].
  - subst c. rewrite lookup_insert, decide_True by done. simpl. rewrite val_add.
    by case_bool_decide; rewrite ?val_neg.
  - rewrite lookup_insert_ne by done. ring.
Qed.

Lemma validate_entry_total sums e : entry_ok e → ∃ sums', validate_entry sums e = Ok sums'.
Proof.
  intros (Ha & Hc & Hd & Hp). unfold validate_entry.
  rewrite (eqs_false _ _ Ha), (eqs_false _ _ Hc), Hd, IsPositive_spec, bool_decide_eq_true_2 by done.
  simpl. eauto.
Qed.

Lemma validate_entries_ok l sums :
  foldR validate_entry l ∅ = Ok sums →
  Forall entry_ok l ∧ ∀ c, sum_val sums c = Qcsum (signed_in c) l.
Proof.
  apply (foldR_inv _ (λ pre b, Forall entry_ok pre ∧ ∀ c, sum_val b c = Qcsum (signed_in c) pre)).
  - split; [done|]. intros c. unfold sum_val. rewrite lookup_empty. apply val_zero.
  - intros pre x post b b' _ [HF Hb] [Hx Hb']%validate_entry_ok. split; [by apply Forall_snoc|].
    intros c. rewrite Hb', Hb. autorewrite with qcsum. ring.
Qed.

Lemma validate_entries_total l sums : Forall entry_ok l → ∃ sums', foldR validate_entry l sums = Ok sums'.
Proof.
  intros Hl. revert sums. induction Hl as [|e l He _ IH]; intros sums; simpl; [eauto|].
  destruct (validate_entry_total sums e He) as [s1 ->]. apply IH.
Qed.

Lemma sums_zero sums :
  forallb (λ kv, IsZero kv.2) (map_to_list sums) = true ↔ ∀ c, sum_val sums c = 0%Qc.
Proof.
  rewrite forallb_forall. unfold sum_val. split.
  - intros Hz c. destruct (sums !! c) as [d|] eqn:Hc; simpl; [|apply val_zero].
    specialize (Hz (c, d)). rewrite <- list_elem_of_In, elem_of_map_to_list, IsZero_spec in Hz.
    apply bool_decide_eq_true in Hz; auto.
  - intros Hz [c d] Hc. rewrite <- list_elem_of_In, elem_of_map_to_list in Hc.
    specialize (Hz c). rewrite Hc in Hz. simpl in *. by rewrite IsZero_spec, bool_decide_eq_true.
Qed.

(** C28. The double-entry rule: [Journal.Validate] accepts a journal exactly
    when it has an event id and at least one entry, every entry names an
    account and a currency, has a valid direction and a positive amount, and
    in every currency the debits equal the credits. *)
Theorem Journal_Validate_spec (j : Journal) :
  Journal_Validate j = Ok tt ↔
    jr_EventID j ≠ "" ∧ jr_Entries j ≠ [] ∧ Forall entry_ok (jr_Entries j) ∧
    ∀ c, Qcsum (signed_in c) (jr_Entries j) = 0%Qc.
Proof.
  unfold Journal_Validate. case_bool_decide as Hid; [by split; [|intros [? _]]|].
  destruct (Nat.eqb_spec (length (jr_Entries j)) 0) as [Hl|Hl].
  { apply nil_length_inv in Hl. rewrite Hl. by split; [|intros (_ & ? & _)]. }
  assert (jr_Entries j ≠ []) by (by intros Hn; rewrite Hn in Hl).
  destruct (foldR _ _ _) as [sums|e] eqn:Hf.
  - apply validate_entries_ok in Hf as [HF Hs].
    destruct (forallb _ _) eqn:Hz.
    + split; [|done]. intros _. repeat split; try done. intros c. rewrite <- Hs. by apply sums_zero.
    + split; [done|]. intros (_ & _ & _ & Hz'). exfalso. apply not_true_iff_false in Hz. apply Hz.
      apply sums_zero. intros c. by rewrite Hs.
  - split; [done|]. intros (_ & _ & HF & _).
    destruct (validate_entries_total _ ∅ HF) as [sums Hs]. congruence.
Qed.

Lemma Journal_Validate_sound (j : Journal) u :
  Journal_Validate j = Ok u →
  Forall entry_ok (jr_Entries j) ∧ ∀ c, Qcsum (signed_in c) (jr_Entries j) = 0%Qc.
Proof.
  unfold Journal_Validate. case_bool_decide; [done|]. destruct (_ =? _)%nat; [done|].
  destruct (foldR _ _ _) as [sums|e] eqn:Hf; [|done].
  apply validate_entries_ok in Hf as [HF Hs]. destruct (forallb _ _) eqn:Hz; [|done].
  intros _. split; [done|]. intros c. rewrite <- Hs. by apply sums_zero.
Qed.

Lemma ParseAmount_pos s d : ParseAmount s = Ok d → NewFromString s = Some d ∧ (0 < val d)%Qc.
Proof.
  unfold ParseAmount. case_bool_decide; [done|]. destruct (NewFromString s) as [d'|]; [|done].
  rewrite IsPositive_spec. case_bool_decide; [|done]. by intros [= ->].
Qed.

(** C29. [ParseAmount] accepts exactly the texts of positive decimals, and
    reads back the amount of any positive decimal it printed. *)
Theorem ParseAmount_spec (s : string) (d : dec) :
  (ParseAmount s = Ok d ↔ s ≠ "" ∧ NewFromString s = Some d ∧ (0 < val d)%Qc) ∧
  ((0 < val d)%Qc → ∃ d', ParseAmount (dString d) = Ok d' ∧ val d' = val d).
Proof.
  split.
  - split.
    + intros Hp. split; [|by apply ParseAmount_pos].
      intros ->. unfold ParseAmount in Hp. by rewrite eqs_refl in Hp.
    + intros (Hs & Hd & Hp). unfold ParseAmount.
      rewrite (eqs_false _ _ Hs), Hd, IsPositive_spec. by rewrite bool_decide_eq_true_2.
  - intros Hp. destruct (String_roundtrip d) as (b & Hb & Hv). exists b. split; [|done].
    unfold ParseAmount. rewrite (eqs_false _ _ (String_nonempty d)), Hb, IsPositive_spec.
    rewrite bool_decide_eq_true_2; [done|]. by rewrite Hv.
Qed.

Lemma Reservation_Validate_spec r :
  Reservation_Validate r = Ok tt ↔
  (val (rs_OutstandingAmount r) + val (rs_CommittedAmount r) + val (rs_ReleasedAmount r) =
   val (rs_OriginalAmount r))%Qc.
Proof.
  unfold Reservation_Validate. rewrite Equal_spec, !val_add. by case_bool_decide; split.
Qed.

Lemma val_NormalizedBalance nb d c :
  val (NormalizedBalance nb d c) =
  (if nb =s NormalCredit then val c - val d else val d - val c)%Qc.
Proof. unfold NormalizedBalance. case_bool_decide; apply val_sub. Qed.
End LedgerLaws.
