(* ===== verification/Rfc3339.v ===== *)
(** * Instants as text: time.RFC3339Nano

    The DynamoDB backend stores an instant as Go prints it with the layout
    RFC3339Nano in UTC: a civil date and time, the nanoseconds without
    trailing zeros, and [Z].  [fmtTime] and [parseTime] (items.go) print and
    read it.  The civil calendar is computed by eras of 400 years, of
    146097 days each. *)

From S2P Require Import Prelude Ledger.
From Stdlib Require Import Ascii.
From stdpp Require Import base strings list numbers pretty.

(** ** The civil calendar *)

Record Civil := mkCivil { cv_year : Z; cv_month : Z; cv_day : Z }.

(** A day of an era: its year of the era, its day of that year (from 1 March)
    and its month (March is 0). *)
Definition century (doe : Z) : Z := Z.min 3 (doe / 36524).
Definition four_years (doe : Z) : Z := ((doe - century doe * 36524) / 1461)%Z.
Definition year_in_four (doe : Z) : Z := Z.min 3 ((doe - century doe * 36524 - four_years doe * 1461) / 365).
Definition year_of_era (doe : Z) : Z := (100 * century doe + 4 * four_years doe + year_in_four doe)%Z.
Definition day_of_year (doe : Z) : Z :=
  (doe - century doe * 36524 - four_years doe * 1461 - year_in_four doe * 365)%Z.
Definition month_index (doe : Z) : Z := ((5 * day_of_year doe + 2) / 153)%Z.
Definition day_of_month (doe : Z) : Z := (day_of_year doe - (153 * month_index doe + 2) / 5 + 1)%Z.
Definition month_number (mp : Z) : Z := if (mp <? 10)%Z then (mp + 3)%Z else (mp - 9)%Z.
(** January and February belong to the next civil year. *)
Definition year_shift (month : Z) : Z := if (month <=? 2)%Z then 1%Z else 0%Z.

(** The year, month and day of a day since 1970-01-01. *)
Definition civil_of_days (days : Z) : Civil :=
  let era := ((days + 719468) / 146097)%Z in
  let doe := ((days + 719468) mod 146097)%Z in
  let m := month_number (month_index doe) in
  mkCivil (year_of_era doe + era * 400 + year_shift m) m (day_of_month doe).

Definition days_of_civil (c : Civil) : Z :=
  let y := (cv_year c - year_shift (cv_month c))%Z in
  let yoe := (y mod 400)%Z in
  let mp := if (cv_month c <=? 2)%Z then (cv_month c + 9)%Z else (cv_month c - 3)%Z in
  let doy := ((153 * mp + 2) / 5 + cv_day c - 1)%Z in
  (y / 400 * 146097 + (yoe * 365 + yoe / 4 - yoe / 100 + doy) - 719468)%Z.

Lemma era_year doe :
  (0 ≤ doe < 146097)%Z →
  (0 ≤ year_of_era doe < 400 ∧ 0 ≤ day_of_year doe ≤ 365 ∧
   365 * year_of_era doe + year_of_era doe / 4 - year_of_era doe / 100 + day_of_year doe = doe)%Z.
Proof.
  intros Hr. unfold year_of_era, day_of_year, year_in_four, four_years, century.
  pose proof (Z.div_mod doe 36524 ltac:(lia)). pose proof (Z.mod_pos_bound doe 36524 ltac:(lia)).
  set (c := Z.min 3 (doe / 36524)). assert (Hc : (0 ≤ c ≤ 3 ∧ 0 ≤ doe - c * 36524 ≤ 36524 ∧ (c < 3 → doe - c * 36524 < 36524))%Z)
    by (assert (0 ≤ doe / 36524)%Z by (apply Z.div_pos; lia); lia).
  set (r := (doe - c * 36524)%Z) in *. pose proof (Z.div_mod r 1461 ltac:(lia)). pose proof (Z.mod_pos_bound r 1461 ltac:(lia)).
  set (q := (r / 1461)%Z) in *. assert (Hq : (0 ≤ q ≤ 24)%Z) by lia.
  set (r2 := (r - q * 1461)%Z) in *. pose proof (Z.div_mod r2 365 ltac:(lia)). pose proof (Z.mod_pos_bound r2 365 ltac:(lia)).
  set (y := Z.min 3 (r2 / 365)). assert (Hy : (0 ≤ y ≤ 3 ∧ 0 ≤ r2 - y * 365 ≤ 365)%Z)
    by (assert (0 ≤ r2 / 365)%Z by (apply Z.div_pos; lia); lia).
  replace ((100 * c + 4 * q + y) / 4)%Z with (25 * c + q)%Z by (apply (Z.div_unique _ _ _ y); lia).
  replace ((100 * c + 4 * q + y) / 100)%Z with c by (apply (Z.div_unique _ _ _ (4 * q + y)); lia).
  lia.
Qed.

Lemma era_day doe :
  (0 ≤ doe < 146097)%Z → (0 ≤ month_index doe < 12 ∧ 1 ≤ day_of_month doe ≤ 31)%Z.
Proof.
  intros (_ & Hd & _)%era_year. unfold day_of_month, month_index. set (doy := day_of_year doe) in *. clearbody doy.
  pose proof (Z.div_mod (5 * doy + 2) 153 ltac:(lia)). pose proof (Z.mod_pos_bound (5 * doy + 2) 153 ltac:(lia)).
  set (mp := ((5 * doy + 2) / 153)%Z) in *.
  pose proof (Z.div_mod (153 * mp + 2) 5 ltac:(lia)). pose proof (Z.mod_pos_bound (153 * mp + 2) 5 ltac:(lia)). lia.
Qed.

Lemma month_number_index mp :
  (0 ≤ mp < 12)%Z →
  (1 ≤ month_number mp ≤ 12)%Z ∧
  (if (month_number mp <=? 2)%Z then (month_number mp + 9)%Z else (month_number mp - 3)%Z) = mp.
Proof.
  intros Hmp. unfold month_number. destruct (Z.ltb_spec mp 10).
  - destruct (Z.leb_spec (mp + 3) 2); lia.
  - destruct (Z.leb_spec (mp - 9) 2); lia.
Qed.

Lemma civil_valid days :
  (1 ≤ cv_month (civil_of_days days) ≤ 12)%Z ∧ (1 ≤ cv_day (civil_of_days days) ≤ 31)%Z.
Proof.
  pose proof (era_day ((days + 719468) mod 146097)%Z ltac:(apply Z.mod_pos_bound; lia)) as [Hm Hd].
  split; [|exact Hd]. by apply month_number_index.
Qed.

Lemma days_of_civil_of_days days : days_of_civil (civil_of_days days) = days.
Proof.
  pose proof (era_day ((days + 719468) mod 146097)%Z ltac:(apply Z.mod_pos_bound; lia)) as [Hm Hd].
  pose proof (era_year ((days + 719468) mod 146097)%Z ltac:(apply Z.mod_pos_bound; lia)) as (Hy & _ & Hdoe).
  pose proof (Z.div_mod (days + 719468) 146097 ltac:(lia)) as Hdm.
  unfold days_of_civil, civil_of_days. cbv zeta. cbn [cv_year cv_month cv_day].
  set (doe := ((days + 719468) mod 146097)%Z) in *. set (era := ((days + 719468) / 146097)%Z) in *.
  rewrite (proj2 (month_number_index _ Hm)).
  replace (year_of_era doe + era * 400 + year_shift (month_number (month_index doe)) - year_shift (month_number (month_index doe)))%Z
    with (year_of_era doe + era * 400)%Z by lia.
  rewrite Z_div_plus_full, Z_mod_plus_full, (Z.div_small (year_of_era doe) 400), (Z.mod_small (year_of_era doe) 400) by lia.
  unfold day_of_month. lia.
Qed.

(** ** Digits *)

Definition digit (d : Z) : Ascii.ascii := Ascii.ascii_of_nat (48 + Z.to_nat d).
Definition read_digit (c : Ascii.ascii) : option Z :=
  let k := Ascii.nat_of_ascii c in
  if (48 <=? k)%nat && (k <=? 57)%nat then Some (Z.of_nat k - 48)%Z else None.

(** [w] digits, with leading zeros. *)
Fixpoint digits (w : nat) (n : Z) : string :=
  match w with
  | O => ""
  | S w' => String (digit (n / 10 ^ Z.of_nat w')) (digits w' (n mod 10 ^ Z.of_nat w'))
  end.

(** Reads exactly [w] digits after a number that begins with [acc]. *)
Fixpoint read_digits (w : nat) (acc : Z) (s : string) : option (Z * string) :=
  match w with
  | O => Some (acc, s)
  | S w' =>
      match s with
      | String c s' => d ← read_digit c; read_digits w' (acc * 10 + d) s'
      | EmptyString => None
      end
  end.

(** The digits of a fraction of [10 ^ w] parts, without trailing zeros. *)
Fixpoint frac (w : nat) (n : Z) : string :=
  match w with
  | O => ""
  | S w' => if (n =? 0)%Z then "" else String (digit (n / 10 ^ Z.of_nat w')) (frac w' (n mod 10 ^ Z.of_nat w'))
  end.

(** Reads all the digits there are; the first one counts [scale]. *)
Fixpoint read_frac (scale : Z) (s : string) : Z * string :=
  match s with
  | String c s' =>
      match read_digit c with
      | Some d => let '(v, rest) := read_frac (scale / 10) s' in ((d * scale + v)%Z, rest)
      | None => (0%Z, s)
      end
  | EmptyString => (0%Z, s)
  end.

Lemma read_digit_digit d : (0 ≤ d < 10)%Z → read_digit (digit d) = Some d.
Proof.
  intros Hd. assert (Hc : (d = 0 ∨ d = 1 ∨ d = 2 ∨ d = 3 ∨ d = 4 ∨ d = 5 ∨ d = 6 ∨ d = 7 ∨ d = 8 ∨ d = 9)%Z) by lia.
  repeat destruct Hc as [->|Hc]; try reflexivity. by subst.
Qed.

Lemma digit_bounds w n : (0 ≤ n < 10 ^ Z.of_nat (S w))%Z →
  (0 ≤ n / 10 ^ Z.of_nat w < 10)%Z ∧ (0 ≤ n mod 10 ^ Z.of_nat w < 10 ^ Z.of_nat w)%Z.
Proof.
  intros Hn. rewrite Nat2Z.inj_succ, Z.pow_succ_r in Hn by lia. assert (Hp : (0 < 10 ^ Z.of_nat w)%Z) by (apply Z.pow_pos_nonneg; lia).
  split; [|by apply Z.mod_pos_bound]. split; [by apply Z.div_pos; lia|]. apply Z.div_lt_upper_bound; lia.
Qed.

Lemma string_app_cons c (s t : string) : String c s +:+ t = String c (s +:+ t).
Proof. done. Qed.

Lemma read_digits_digits w n acc rest :
  (0 ≤ n < 10 ^ Z.of_nat w)%Z →
  read_digits w acc (digits w n +:+ rest) = Some ((acc * 10 ^ Z.of_nat w + n)%Z, rest).
Proof.
  revert n acc. induction w as [|w IH]; intros n acc Hn.
  - change (10 ^ Z.of_nat 0)%Z with 1%Z in *. by replace (acc * 1 + n)%Z with acc by lia.
  - destruct (digit_bounds w n Hn) as [Hd Hm]. cbn [digits read_digits].
    rewrite string_app_cons, read_digit_digit by done. cbn [mbind option_bind]. rewrite IH by done. do 2 f_equal.
    pose proof (Z.div_mod n (10 ^ Z.of_nat w) ltac:(lia)). rewrite Nat2Z.inj_succ, Z.pow_succ_r by lia. lia.
Qed.

Lemma read_digits_0 w n rest :
  (0 ≤ n < 10 ^ Z.of_nat w)%Z → read_digits w 0 (digits w n +:+ rest) = Some (n, rest).
Proof. apply read_digits_digits. Qed.

(** [rest] does not begin with a digit. *)
Definition no_digit (rest : string) : Prop :=
  match rest with String c _ => read_digit c = None | EmptyString => True end.

Lemma read_frac_stop sc rest : no_digit rest → read_frac sc rest = (0%Z, rest).
Proof. destruct rest as [|c s]; simpl; [done|]. by intros ->. Qed.

Lemma read_frac_frac w n rest :
  (0 ≤ n < 10 ^ Z.of_nat w)%Z → no_digit rest → read_frac (10 ^ Z.of_nat w / 10) (frac w n +:+ rest) = (n, rest).
Proof.
  revert n. induction w as [|w IH]; intros n Hn Hrest.
  - change (10 ^ Z.of_nat 0)%Z with 1%Z in *. cbn [frac]. change ("" +:+ rest) with rest. rewrite read_frac_stop by done. f_equal. lia.
  - destruct (digit_bounds w n Hn) as [Hd Hm].
    assert (Hsc : (10 ^ Z.of_nat (S w) / 10 = 10 ^ Z.of_nat w)%Z)
      by (rewrite Nat2Z.inj_succ, Z.pow_succ_r, Z.mul_comm, Z.div_mul by lia; done).
    rewrite Hsc. cbn [frac]. destruct (Z.eqb_spec n 0) as [->|Hnz]; [by apply read_frac_stop|].
    rewrite string_app_cons. cbn [read_frac]. rewrite read_digit_digit, IH by done. f_equal.
    pose proof (Z.div_mod n (10 ^ Z.of_nat w) ltac:(lia)). lia.
Qed.

(** ** Days of a month *)

Definition leap_year (y : Z) : bool := (y mod 4 =? 0)%Z && (negb (y mod 100 =? 0)%Z || (y mod 400 =? 0)%Z).
Definition days_in (y m : Z) : Z :=
  if (m =? 2)%Z then (if leap_year y then 29%Z else 28%Z)
  else if (m =? 4)%Z || (m =? 6)%Z || (m =? 9)%Z || (m =? 11)%Z then 30%Z else 31%Z.

(** The last day of an era's year is 29 February, of a leap year. *)
Lemma last_day_leap doe era :
  (0 ≤ doe < 146097)%Z → day_of_year doe = 365%Z → leap_year (year_of_era doe + era * 400 + 1) = true.
Proof.
  intros Hr. unfold year_of_era, day_of_year, year_in_four, four_years, century.
  pose proof (Z.div_mod doe 36524 ltac:(lia)). pose proof (Z.mod_pos_bound doe 36524 ltac:(lia)).
  set (c := Z.min 3 (doe / 36524)). assert (Hc : (0 ≤ c ≤ 3 ∧ 0 ≤ doe - c * 36524 ≤ 36524 ∧ (c < 3 → doe - c * 36524 < 36524))%Z)
    by (assert (0 ≤ doe / 36524)%Z by (apply Z.div_pos; lia); lia).
  set (r := (doe - c * 36524)%Z) in *. pose proof (Z.div_mod r 1461 ltac:(lia)). pose proof (Z.mod_pos_bound r 1461 ltac:(lia)).
  set (q := (r / 1461)%Z) in *. assert (Hq : (0 ≤ q ≤ 24)%Z) by lia.
  set (r2 := (r - q * 1461)%Z) in *. pose proof (Z.div_mod r2 365 ltac:(lia)). pose proof (Z.mod_pos_bound r2 365 ltac:(lia)).
  set (y := Z.min 3 (r2 / 365)). intros Hlast. assert (Hy : y = 3%Z) by lia. assert (Hr2 : r2 = 1460%Z) by lia.
  assert (Hcase : (q < 24 ∨ (q = 24 ∧ c = 3))%Z) by lia. rewrite Hy. unfold leap_year.
  replace ((100 * c + 4 * q + 3 + era * 400 + 1) mod 4)%Z with 0%Z by (apply (Z.mod_unique _ _ (25 * c + q + 1 + era * 100)); lia).
  destruct Hcase as [Hlt|[-> ->]].
  - replace ((100 * c + 4 * q + 3 + era * 400 + 1) mod 100)%Z with (4 * q + 4)%Z by (apply (Z.mod_unique _ _ (c + era * 4)); lia).
    destruct (Z.eqb_spec (4 * q + 4) 0); [lia|done].
  - replace ((100 * 3 + 4 * 24 + 3 + era * 400 + 1) mod 400)%Z with 0%Z by (apply (Z.mod_unique _ _ (1 + era)); lia).
    by rewrite orb_true_r.
Qed.

Lemma civil_day_in days : (cv_day (civil_of_days days) ≤ days_in (cv_year (civil_of_days days)) (cv_month (civil_of_days days)))%Z.
Proof.
  unfold civil_of_days. cbv zeta. cbn [cv_year cv_month cv_day].
  set (doe := ((days + 719468) mod 146097)%Z). set (era := ((days + 719468) / 146097)%Z).
  assert (Hr : (0 ≤ doe < 146097)%Z) by (apply Z.mod_pos_bound; lia).
  pose proof (last_day_leap doe era Hr) as Hleap. destruct (era_year doe Hr) as (_ & Hd & _).
  unfold day_of_month, month_index, month_number, year_shift.
  set (doy := day_of_year doe) in *. pose proof (Z.div_mod (5 * doy + 2) 153 ltac:(lia)).
  pose proof (Z.mod_pos_bound (5 * doy + 2) 153 ltac:(lia)). set (mp := ((5 * doy + 2) / 153)%Z) in *.
  pose proof (Z.div_mod (153 * mp + 2) 5 ltac:(lia)). pose proof (Z.mod_pos_bound (153 * mp + 2) 5 ltac:(lia)).
  unfold days_in. destruct (Z.ltb_spec mp 10).
  - destruct (Z.leb_spec (mp + 3) 2); [lia|]. destruct (Z.eqb_spec (mp + 3) 2); [lia|].
    destruct (Z.eqb_spec (mp + 3) 4), (Z.eqb_spec (mp + 3) 6), (Z.eqb_spec (mp + 3) 9), (Z.eqb_spec (mp + 3) 11); simpl; try lia.
  - destruct (Z.leb_spec (mp - 9) 2); [|lia]. destruct (Z.eqb_spec (mp - 9) 2).
    + destruct (leap_year _) eqn:Hl; [lia|]. assert (doy ≠ 365%Z) by (intros E; by specialize (Hleap E)). lia.
    + destruct (Z.eqb_spec (mp - 9) 4), (Z.eqb_spec (mp - 9) 6), (Z.eqb_spec (mp - 9) 9), (Z.eqb_spec (mp - 9) 11); simpl; lia.
Qed.

(** ** time.Time.Format and time.Parse with RFC3339Nano *)

(** [appendInt(b, year, 4)] *)
Definition year_text (y : Z) : string :=
  (if (y <? 0)%Z then "-" else "") +:+
  (if (Z.abs y <? 10000)%Z then digits 4 (Z.abs y) else pretty (Z.abs y)).

(** The fraction of a second, with its point. *)
Definition frac_text (ns : Z) : string := if (ns =? 0)%Z then "" else String "."%char (frac 9 ns).

Definition date_text (c : Civil) : string :=
  year_text (cv_year c) +:+ String "-"%char (digits 2 (cv_month c) +:+ String "-"%char (digits 2 (cv_day c))).

(** Seconds of the day as [hh:mm:ss], then [tail]. *)
Definition clock_text (sod : Z) (tail : string) : string :=
  digits 2 (sod / 3600) +:+ String ":"%char (digits 2 (sod / 60 mod 60) +:+ String ":"%char (digits 2 (sod mod 60) +:+ tail)).

(** [t.UTC().Format(time.RFC3339Nano)] *)
Definition Format (t : Time) : string :=
  let sec := (t / 10 ^ 9)%Z in
  date_text (civil_of_days (sec / 86400)) +:+
  String "T"%char (clock_text (sec mod 86400) (frac_text (t mod 10 ^ 9) +:+ "Z")).

(** A character the layout asks for. *)
Definition lit (c : Ascii.ascii) (s : string) : option string :=
  match s with String c' s' => if Ascii.eqb c c' then Some s' else None | EmptyString => None end.

(** [getnum(s, false)]: two digits, or one. *)
Definition read_hour (s : string) : option (Z * string) :=
  match read_digits 2 0 s with Some r => Some r | None => read_digits 1 0 s end.

Definition is_point (c : Ascii.ascii) : bool := Ascii.eqb c "."%char || Ascii.eqb c ","%char.

(** Any number of digits after a point; the tenth and later ones are cut. *)
Definition read_point (s : string) : Z * string :=
  match s with
  | String c s1 =>
      if is_point c && match s1 with String d _ => bool_decide (is_Some (read_digit d)) | EmptyString => false end
      then read_frac (10 ^ 8) s1 else (0%Z, s)
  | EmptyString => (0%Z, s)
  end.

(** [Z], or [+hh:mm] and [-hh:mm], in seconds east of UTC. *)
Definition read_zone (s : string) : option (Z * string) :=
  match s with
  | String "Z"%char s1 => Some (0%Z, s1)
  | String c s1 =>
      sg ← (if Ascii.eqb c "+"%char then Some 1%Z else if Ascii.eqb c "-"%char then Some (-1)%Z else None);
      '(h, s2) ← read_digits 2 0 s1;
      s3 ← lit ":"%char s2;
      '(m, s4) ← read_digits 2 0 s3;
      if (h <=? 24)%Z && (m <=? 60)%Z then Some ((sg * ((h * 60 + m) * 60))%Z, s4) else None
  | EmptyString => None
  end.

(** [time.Parse(time.RFC3339Nano, s)]; [None] is a non-nil error. *)
Definition Parse (s : string) : option Time :=
  '(y, s) ← read_digits 4 0 s; s ← lit "-"%char s;
  '(mo, s) ← read_digits 2 0 s; s ← lit "-"%char s;
  '(d, s) ← read_digits 2 0 s; s ← lit "T"%char s;
  '(h, s) ← read_hour s; s ← lit ":"%char s;
  '(mi, s) ← read_digits 2 0 s; s ← lit ":"%char s;
  '(sec, s) ← read_digits 2 0 s;
  let '(ns, s) := read_point s in
  '(off, s) ← read_zone s;
  if (s =s "") && (1 <=? mo)%Z && (mo <=? 12)%Z && (1 <=? d)%Z && (d <=? days_in y mo)%Z &&
     (h <? 24)%Z && (mi <? 60)%Z && (sec <? 60)%Z
  then Some (((days_of_civil (mkCivil y mo d) * 86400 + (h * 3600 + mi * 60 + sec) - off) * 10 ^ 9 + ns)%Z)
  else None.

(** ** items.go: fmtTime, fmtTimePtr, parseTime, parseTimePtr *)

Definition fmtTime (t : Time) : string := if Time_IsZero t then "" else Format t.
Definition fmtTimePtr (t : option Time) : string :=
  match t with None => "" | Some t => if Time_IsZero t then "" else Format t end.
Definition parseTime (s : string) : result error Time :=
  if s =s "" then Ok time_zero
  else match Parse s with Some t => Ok t | None => Err (ErrOther "parseTime") end.
Definition parseTimePtr (s : string) : result error (option Time) :=
  if s =s "" then Ok None
  else match Parse s with Some t => Ok (Some t) | None => Err (ErrOther "parseTimePtr") end.

(** The instants whose year RFC 3339 can write. *)
Definition time_ok (t : Time) : Prop :=
  (0 ≤ cv_year (civil_of_days (t / 10 ^ 9 / 86400)) < 10000)%Z.

Lemma string_app_assoc (a b c : string) : (a +:+ b) +:+ c = a +:+ (b +:+ c).
Proof. induction a as [|x a IH]; [done|]. by rewrite !string_app_cons, IH. Qed.

Lemma lit_same c s : lit c (String c s) = Some s.
Proof. unfold lit. by rewrite Ascii.eqb_refl. Qed.

Lemma frac_head n : (0 < n < 10 ^ 9)%Z → ∃ s, frac 9 n = String (digit (n / 10 ^ 8)) s.
Proof.
  intros Hn. change 9%nat with (S 8). cbn [frac]. destruct (Z.eqb_spec n 0); [lia|].
  change (Z.of_nat 8) with 8%Z. eauto.
Qed.

Lemma read_point_frac n rest :
  (0 ≤ n < 10 ^ 9)%Z → read_point (frac_text n +:+ String "Z"%char rest) = (n, String "Z"%char rest).
Proof.
  intros Hn. unfold frac_text. destruct (Z.eqb_spec n 0) as [->|Hnz]; [done|].
  rewrite string_app_cons. unfold read_point.
  pose proof (read_frac_frac 9 n (String "Z"%char rest) Hn eq_refl) as Hr.
  change (10 ^ Z.of_nat 9 / 10)%Z with (10 ^ 8)%Z in Hr. rewrite Hr.
  destruct (frac_head n) as [s Hs]; [lia|]. rewrite Hs, string_app_cons.
  rewrite read_digit_digit; [done|]. split; [by apply Z.div_pos; lia|by apply Z.div_lt_upper_bound; lia].
Qed.

Lemma read_hour_digits n rest :
  (0 ≤ n < 100)%Z → read_hour (digits 2 n +:+ rest) = Some (n, rest).
Proof. intros Hn. unfold read_hour. by rewrite read_digits_0. Qed.

Lemma year_text_digits y rest :
  (0 ≤ y < 10000)%Z → read_digits 4 0 (year_text y +:+ rest) = Some (y, rest).
Proof.
  intros Hy. unfold year_text. destruct (Z.ltb_spec y 0); [lia|]. rewrite Z.abs_eq by lia.
  destruct (Z.ltb_spec y 10000); [|lia]. change ("" +:+ digits 4 y) with (digits 4 y). by rewrite read_digits_0.
Qed.

Lemma Parse_Format t : time_ok t → Parse (Format t) = Some t.
Proof.
  intros Hy. unfold Format, date_text, clock_text. set (sec := (t / 10 ^ 9)%Z) in *.
  pose proof (civil_valid (sec / 86400)) as [Hm Hd]. pose proof (civil_day_in (sec / 86400)) as Hin.
  pose proof (days_of_civil_of_days (sec / 86400)) as Hdays.
  unfold time_ok in Hy. fold sec in Hy. destruct (civil_of_days (sec / 86400)) as [y mo d]; cbn [cv_year cv_month cv_day] in *.
  pose proof (Z.mod_pos_bound sec 86400 ltac:(lia)) as Hs. set (sod := (sec mod 86400)%Z) in *.
  pose proof (Z.mod_pos_bound t (10 ^ 9) ltac:(lia)) as Hn.
  assert (Hh : (0 ≤ sod / 3600 < 24)%Z) by (split; [by apply Z.div_pos; lia|by apply Z.div_lt_upper_bound; lia]).
  pose proof (Z.mod_pos_bound (sod / 60) 60 ltac:(lia)) as Hmi. pose proof (Z.mod_pos_bound sod 60 ltac:(lia)) as Hse.
  assert (Hsod : (sod / 3600 * 3600 + sod / 60 mod 60 * 60 + sod mod 60 = sod)%Z).
  { change 3600%Z with (60 * 60)%Z. rewrite <- Z.div_div by lia.
    pose proof (Z.div_mod sod 60 ltac:(lia)). pose proof (Z.div_mod (sod / 60) 60 ltac:(lia)). lia. }
  unfold Parse. rewrite !string_app_assoc, year_text_digits by done. cbn [mbind option_bind].
  rewrite !string_app_cons, lit_same. cbn [mbind option_bind].
  rewrite !string_app_assoc, read_digits_0 by (change (10 ^ Z.of_nat 2)%Z with 100%Z; lia). cbn [mbind option_bind].
  rewrite !string_app_cons, lit_same. cbn [mbind option_bind].
  rewrite read_digits_0 by (change (10 ^ Z.of_nat 2)%Z with 100%Z; lia). cbn [mbind option_bind].
  rewrite lit_same. cbn [mbind option_bind]. rewrite read_hour_digits by lia. cbn [mbind option_bind].
  rewrite lit_same. cbn [mbind option_bind]. rewrite read_digits_0 by (change (10 ^ Z.of_nat 2)%Z with 100%Z; lia). cbn [mbind option_bind].
  rewrite lit_same. cbn [mbind option_bind]. rewrite read_digits_0 by (change (10 ^ Z.of_nat 2)%Z with 100%Z; lia). cbn [mbind option_bind].
  rewrite (read_point_frac _ "") by done. cbn [read_zone mbind option_bind]. rewrite eqs_refl.
  rewrite !(proj2 (Z.leb_le _ _)), !(proj2 (Z.ltb_lt _ _)) by lia. cbn [andb]. f_equal.
  rewrite Hdays. pose proof (Z.div_mod t (10 ^ 9) ltac:(lia)). pose proof (Z.div_mod sec 86400 ltac:(lia)). fold sec in H.
  lia.
Qed.

Lemma Format_nonempty t : (Format t =s "") = false.
Proof.
  apply eqs_false. unfold Format, date_text, year_text.
  destruct (_ <? 0)%Z; [done|]. change ("" +:+ ?s) with s. destruct (_ <? 10000)%Z; [done|].
  destruct (pretty _); done.
Qed.

(** C40. An instant of the years 0 to 9999 is read back from the text it is
    stored as, to the nanosecond; the zero time is stored as the empty text. *)
Theorem parseTime_fmtTime t : time_ok t → parseTime (fmtTime t) = Ok t.
Proof.
  intros Ht. unfold fmtTime, Time_IsZero. destruct (Z.eqb_spec t time_zero) as [->|Hz]; [done|].
  unfold parseTime. by rewrite Format_nonempty, Parse_Format.
Qed.

(** A nil pointer and a zero time are stored alike. *)
Lemma parseTimePtr_fmtTimePtr t :
  (∀ t0, t = Some t0 → time_ok t0) → parseTimePtr (fmtTimePtr t) = Ok (t0 ← t; if Time_IsZero t0 then None else Some t0).
Proof.
  intros Ht. destruct t as [t|]; [|done]. cbn [fmtTimePtr mbind option_bind]. destruct (Time_IsZero t) eqn:Hz; [done|].
  unfold parseTimePtr. rewrite Format_nonempty, Parse_Format by auto. done.
Qed.

(** Text order is not the order of time: half a second past is before. *)
Lemma fmtTime_order :
  fmtTime 1000000000%Z = "1970-01-01T00:00:01Z" ∧ fmtTime 1500000000%Z = "1970-01-01T00:00:01.5Z" ∧
  String.ltb (fmtTime 1500000000%Z) (fmtTime 1000000000%Z) = true.
Proof. by vm_compute. Qed.
