(* ===== verification/Retry.v ===== *)
(** * internal/repo/retry.go: the retry loop for serialization failures

    [WithRetry] runs a function under capped exponential backoff.  The
    function works on any state [X]; the waits started after the failed
    attempts are logged.  [rand.Int64N] and the context are taken from outside:
    [jitter i d] is the i-th draw below [d], [done i] says whether the
    context is over when the i-th wait ends, and with which error. *)

From S2P Require Import Prelude Money Ledger.
From stdpp Require Import base strings list numbers.

Definition IsSerializationError (e : error) : bool :=
  match e with ErrPg code => code =s "40001" | _ => false end.

(** Durations, in nanoseconds. *)
Definition Millisecond : Z := 1000000.
Definition firstDelay : Z := 5 * Millisecond.
Definition nextDelay (delay : Z) : Z := if (delay <? 80 * Millisecond)%Z then (delay * 2)%Z else delay.

Section Retry.
Context {X : Type} (jitter : nat → Z → Z) (done : nat → option error).

(** The loop: [n] attempts left, [i] done, [delay] to wait after this one. *)
Fixpoint retryLoop (n i : nat) (delay : Z) (fn : M error X unit) : M error (X * list Z) unit := λ '(x, log),
  match n with
  | O => (Err (ErrDomain CodeSerializationRetryExhausted), (x, log))
  | S n' =>
      match fn x with
      | (Ok _, x') => (Ok tt, (x', log))
      | (Err e, x') =>
          if negb (IsSerializationError e) then (Err e, (x', log))
          else
            let log' := log ++ [(delay + jitter i delay)%Z] in
            match done i with
            | Some ce => (Err ce, (x', log'))
            | None => retryLoop n' (S i) (nextDelay delay) fn (x', log')
            end
      end
  end.

Definition maxAttemptsOf (maxAttempts : Z) : nat := Z.to_nat (if (maxAttempts <=? 0)%Z then 5%Z else maxAttempts).

Definition WithRetry (maxAttempts : Z) (fn : M error X unit) : M error (X * list Z) unit :=
  retryLoop (maxAttemptsOf maxAttempts) 0 firstDelay fn.

(** [attempts fn x k y]: [k] attempts from [x] all failed with a
    serialization error, leaving [y]. *)
Inductive attempts (fn : M error X unit) : X → nat → X → Prop :=
| attempts_none x : attempts fn x 0 x
| attempts_more x y z k e : fn x = (Err e, y) → IsSerializationError e = true →
    attempts fn y k z → attempts fn x (S k) z.

(** How a call of [WithRetry] can end, after [k] failed attempts. *)
Inductive retry_end (fn : M error X unit) (max : nat) (k : nat) (y : X) : result error unit → X → Prop :=
| end_ok z : k < max → fn y = (Ok tt, z) → retry_end fn max k y (Ok tt) z
| end_error e z : k < max → fn y = (Err e, z) → IsSerializationError e = false → retry_end fn max k y (Err e) z
| end_exhausted : k = max → retry_end fn max k y (Err (ErrDomain CodeSerializationRetryExhausted)) y
| end_cancelled ce : 0 < k ≤ max → done (k - 1) = Some ce → retry_end fn max k y (Err ce) y.

(** A wait after a failed attempt: the delay doubles from 5 ms up to 80 ms,
    and the jitter is below it. *)
Definition delay_at (i : nat) : Z := (firstDelay * 2 ^ Z.of_nat (Nat.min i 4))%Z.

Lemma nextDelay_at i : nextDelay (delay_at i) = delay_at (S i).
Proof.
  unfold nextDelay, delay_at, firstDelay, Millisecond.
  destruct (decide (i < 4)) as [Hi|Hi].
  - destruct i as [|[|[|[|i]]]]; try lia; by vm_compute.
  - replace (Nat.min i 4) with 4 by lia. replace (Nat.min (S i) 4) with 4 by lia. by vm_compute.
Qed.

Lemma retryLoop_spec fn n i x log :
  ∃ k y r z waits, retryLoop n i (delay_at i) fn (x, log) = (r, (z, log ++ waits)) ∧
    attempts fn x k y ∧ k ≤ n ∧ length waits = k ∧
    (∀ m d, waits !! m = Some d → d = (delay_at (i + m) + jitter (i + m) (delay_at (i + m)))%Z) ∧
    ((∃ ce, 0 < k ∧ done (i + k - 1) = Some ce ∧ r = Err ce ∧ z = y) ∨
     (k = n ∧ r = Err (ErrDomain CodeSerializationRetryExhausted) ∧ z = y) ∨
     (k < n ∧ fn y = (r, z) ∧ (r = Ok tt ∨ ∃ e, r = Err e ∧ IsSerializationError e = false))).
Proof.
  revert i x log. induction n as [|n IH]; intros i x log; simpl.
  { exists 0, x, (Err (ErrDomain CodeSerializationRetryExhausted)), x, []. rewrite app_nil_r.
    split_and!; try done; [constructor|]. right; left. done. }
  destruct (fn x) as [[[]|e] x'] eqn:Hfn.
  { exists 0, x, (Ok tt), x', []. rewrite app_nil_r.
    split_and!; try done; [constructor|lia|]. right; right. split; [lia|]. auto. }
  destruct (IsSerializationError e) eqn:He; simpl.
  2:{ exists 0, x, (Err e), x', []. rewrite app_nil_r.
      split_and!; try done; [constructor|lia|]. right; right. split; [lia|]. eauto. }
  destruct (done i) as [ce|] eqn:Hd.
  - exists 1, x', (Err ce), x', [(delay_at i + jitter i (delay_at i))%Z].
    split_and!; try done; [by econstructor; [..|constructor]|lia| |].
    + intros [|m] d Hm; simplify_eq/=. by rewrite Nat.add_0_r.
    + left. exists ce. rewrite Nat.add_sub. auto with lia.
  - rewrite nextDelay_at. destruct (IH (S i) x' (log ++ [(delay_at i + jitter i (delay_at i))%Z]))
      as (k & y & r & z & waits & -> & Hat & Hk & Hlen & Hw & Hend).
    exists (S k), y, r, z, ((delay_at i + jitter i (delay_at i))%Z :: waits).
    rewrite <- app_assoc. split_and!; try done; [by econstructor|lia|by simpl; rewrite Hlen| |].
    + intros [|m] d Hm; simplify_eq/=; [by rewrite Nat.add_0_r|]. rewrite (Hw m d Hm).
      by replace (i + S m) with (S i + m) by lia.
    + destruct Hend as [(ce & ? & ? & ? & ?)|[(? & ? & ?)|(? & ? & ?)]].
      * left. exists ce. replace (i + S k - 1) with (S i + k - 1) by lia. auto with lia.
      * right; left. auto with lia.
      * right; right. auto with lia.
Qed.

(** C30. [WithRetry] always ends.  It makes at most [maxAttempts] calls (five
    when the argument is not positive), calls again only after a
    serialization failure, and ends with the function's success or first
    other error, with the context's error after a wait, or, after exactly
    [maxAttempts] serialization failures, with the domain error
    SERIALIZATION_RETRY_EXHAUSTED.  The waits double from 5 ms up to 80 ms,
    plus the jitter. *)
Theorem WithRetry_spec (maxAttempts : Z) (fn : M error X unit) (x : X) :
  let max := maxAttemptsOf maxAttempts in
  ∃ k y r z waits, WithRetry maxAttempts fn (x, []) = (r, (z, waits)) ∧
    (0 < max) ∧ attempts fn x k y ∧ k ≤ max ∧ length waits = k ∧
    (∀ i d, waits !! i = Some d → d = (delay_at i + jitter i (delay_at i))%Z ∧
       (firstDelay ≤ delay_at i ≤ 80 * Millisecond)%Z) ∧
    retry_end fn max k y r z.
Proof.
  intros max. destruct (retryLoop_spec fn max 0 x []) as (k & y & r & z & waits & Hrun & Hat & Hk & Hlen & Hw & Hend).
  exists k, y, r, z, waits. split_and!; try done.
  - unfold max, maxAttemptsOf. destruct (Z.leb_spec maxAttempts 0); lia.
  - intros i d Hi. split; [by apply Hw|]. unfold delay_at.
    assert (Hm : Nat.min i 4 ≤ 4) by lia. destruct (Nat.min i 4) as [|[|[|[|[|?]]]]]; try lia; by vm_compute.
  - destruct Hend as [(ce & ? & ? & -> & ->)|[(-> & -> & ->)|(? & Hfn & [->|(e & -> & He)])]].
    + by apply end_cancelled.
    + by apply end_exhausted.
    + by apply end_ok.
    + by apply end_error.
Qed.
End Retry.
