(* ===== verification/Repo.v ===== *)
(** * Package internal/repo: the storage interface

    [Host] is what a run takes from outside: the id generator, the two clocks
    (the server's and the database's) and the failing statements.  [RepoTx]
    and [RepoStore] are the Go interfaces [repo.Tx] and [repo.Store]. The laws
    the service relies on are in [Contract]. *)

From S2P Require Import Prelude Money Ledger.
From stdpp Require Import base gmap strings list numbers.
From Stdlib Require Import Qcanon.

(** ** The outside world *)

(** How many ids, server-clock readings and database statements were used. *)
Record Env := mkEnv { e_ids : nat; e_now : nat; e_db : nat }.

Class Host := {
  host_newid : nat → string;     (* uuid.NewString, n-th call *)
  host_now : nat → Time;         (* time.Now, n-th call *)
  host_dbnow : nat → Z;          (* the database's clock at the n-th statement: strftime('now') in ms on SQLite, now() in µs on CockroachDB *)
  host_fault : nat → bool;       (* the n-th statement fails in the driver *)
}.

Section Host.
Context {H : Host} {T : Type}.

Definition NewID : M error (T * Env) string := λ '(t, e),
  (Ok (host_newid (e_ids e)), (t, mkEnv (S (e_ids e)) (e_now e) (e_db e))).
Definition Now : M error (T * Env) Time := λ '(t, e),
  (Ok (host_now (e_now e)), (t, mkEnv (e_ids e) (S (e_now e)) (e_db e))).
End Host.

(** ** repo.go: rows and inputs *)

Section RepoTypes.
Context {D : DecimalOps}.

Record OutboxEvent := mkOutboxEvent {
  ob_ID : string;
  ob_TenantID : string;
  ob_AggregateID : string;
  ob_EventType : string;
  ob_IdempotencyKey : string;
  ob_Payload : Meta;
  ob_CreatedAt : Time;
}.

Record ListActivityInput := mkListActivityInput {
  la_TenantID : string; la_AccountID : string; la_Currency : string;
  la_Since : option Time; la_Until : option Time; la_Limit : Z;
}.

Record ListFXRatesInput := mkListFXRatesInput {
  lf_TenantID : string; lf_BaseCurrency : string; lf_QuoteCurrency : string;
  lf_Since : option Time; lf_Until : option Time; lf_Limit : Z;
}.

Record ListReservationsInput := mkListReservationsInput {
  lr_TenantID : string; lr_OwnerType : string; lr_OwnerID : string;
  lr_Status : string; lr_Limit : Z;
}.

Record ListDiscrepanciesInput := mkListDiscrepanciesInput {
  ld_TenantID : string; ld_BatchID : string; ld_Status : string; ld_Limit : Z;
}.

Record ActivityRow := mkActivityRow {
  ar_JournalID : string; ar_EntryID : string; ar_Currency : string;
  ar_Direction : Direction; ar_Amount : dec; ar_CreatedAt : Time;
  ar_SourceService : string;
}.

Record ExpiredReservation := mkExpiredReservation { xr_ID : string; xr_TenantID : string }.

Record TenantBalanceRow := mkTenantBalanceRow {
  tb_AccountID : string; tb_Currency : string;
  tb_PostedDebits : dec; tb_PostedCredits : dec; tb_Version : Z;
}.
End RepoTypes.

(** ** The interfaces *)

Class RepoTx (D : DecimalOps) (T : Type) := {
  tx_GetFlowByIdempotency : string → string → M error (T * Env) (option FlowRun);
  tx_GetAccount : string → string → M error (T * Env) Account;
  tx_LockBalance : string → string → string → M error (T * Env) (dec * dec * Z);
  tx_EnsureBalanceRow : string → string → string → M error (T * Env) unit;
  tx_UpdateBalance : string → string → string → dec → dec → M error (T * Env) unit;
  tx_InsertAccount : Account → M error (T * Env) unit;
  tx_InsertFlowRun : FlowRun → M error (T * Env) unit;
  tx_CompleteFlowRun : string → string → M error (T * Env) unit;
  tx_InsertJournal : Journal → M error (T * Env) unit;
  tx_InsertEntry : string → string → string → string → string → Direction → dec → M error (T * Env) unit;
  tx_InsertFlowStep : FlowStep → M error (T * Env) unit;
  tx_InsertOutbox : OutboxEvent → M error (T * Env) unit;
  tx_GetFlowSteps : string → string → M error (T * Env) (list FlowStep);
  tx_InsertReservation : Reservation → M error (T * Env) unit;
  tx_LockReservation : string → string → M error (T * Env) Reservation;
  tx_GetReservationByIdempotency : string → string → M error (T * Env) (option Reservation);
  tx_UpdateReservationAmounts : string → string → dec → dec → dec → ReservationStatus → M error (T * Env) unit;
  tx_GetReconBatchByIdempotency : string → string → M error (T * Env) (option ReconciliationBatch);
  tx_InsertReconBatch : ReconciliationBatch → M error (T * Env) unit;
  tx_CompleteReconBatch : ReconciliationBatch → M error (T * Env) unit;
  tx_ListExternalRecordsForRecon : string → string → Time → Time → M error (T * Env) (list ExternalRecord);
  tx_ListJournalsForRecon : string → string → Time → Time → M error (T * Env) (list Journal);
  tx_UpdateExternalRecordMatch : string → string → ExternalRecordStatus → string → M error (T * Env) unit;
  tx_SumJournalEntries : string → string → string → string → M error (T * Env) (dec * dec);
  tx_InsertDiscrepancy : Discrepancy → M error (T * Env) unit;
  tx_LockDiscrepancy : string → string → M error (T * Env) Discrepancy;
  tx_ResolveDiscrepancyRow : Discrepancy → M error (T * Env) unit;
}.

(** [Commit] and [Rollback] act on the store and the transaction together. *)
Class RepoStore (D : DecimalOps) (S T : Type) := {
  st_BeginFlowTx : M error (S * Env) T;
  tx_Commit : M error ((S * T) * Env) unit;
  tx_Rollback : M error ((S * T) * Env) unit;
  st_GetAccount : string → string → M error (S * Env) Account;
  st_GetBalance : string → string → string → M error (S * Env) (dec * dec * Z);
  st_GetFlow : string → string → M error (S * Env) (option FlowRun);
  st_ListAccountActivity : ListActivityInput → M error (S * Env) (list ActivityRow);
  st_PendingOutbox : Z → M error (S * Env) (list OutboxEvent);
  st_MarkOutboxPublished : string → M error (S * Env) unit;
  st_IncrementOutboxAttempts : string → M error (S * Env) unit;
  st_InsertSnapshot : BalanceSnapshot → M error (S * Env) unit;
  st_GetSnapshotBefore : string → string → string → Time → M error (S * Env) (option BalanceSnapshot);
  st_SumEntriesBetween : string → string → string → Time → Time → M error (S * Env) (dec * dec);
  st_ListTenantBalances : string → M error (S * Env) (list TenantBalanceRow);
  st_ListTenantsDueForSnapshot : Time → Z → M error (S * Env) (list string);
  st_PruneSnapshotsOlderThan : Time → Z → M error (S * Env) Z;
  st_UpsertFXRate : FXRate → M error (S * Env) FXRate;
  st_GetFXRateAt : string → string → string → Time → M error (S * Env) (option FXRate);
  st_ListFXRates : ListFXRatesInput → M error (S * Env) (list FXRate);
  st_GetReservation : string → string → M error (S * Env) Reservation;
  st_ListExpiredReservations : Time → Z → M error (S * Env) (list ExpiredReservation);
  st_ListReservations : ListReservationsInput → M error (S * Env) (list Reservation);
  st_InsertExternalRecord : ExternalRecord → M error (S * Env) bool;
  st_ListExternalRecordsForRecon : string → string → Time → Time → M error (S * Env) (list ExternalRecord);
  st_ListJournalsForRecon : string → string → Time → Time → M error (S * Env) (list Journal);
  st_GetReconBatch : string → string → M error (S * Env) ReconciliationBatch;
  st_ListDiscrepancies : ListDiscrepanciesInput → M error (S * Env) (list Discrepancy);
  st_GetDiscrepancy : string → string → M error (S * Env) Discrepancy;
}.
