(* ===== verification/Contract.v ===== *)
(** * The storage contract

    [LView] is the abstract ledger: accounts, balances, flows, journals,
    entries, outbox and reservations, with amounts as rational numbers.
    [RepoTxLaws] says what each transaction operation that returns no error
    does to it; [RepoStoreLaws] ties a transaction's view to the store's at
    begin and commit.  The service theorems assume only these laws; the
    two SQL backends discharge them in [SqliteLaws] and [CrdbLaws]. *)

From S2P Require Import Prelude Money Ledger Repo.
From stdpp Require Import base gmap strings list numbers.
From Stdlib Require Import Qcanon.

Abbreviation BKey := (string * string * string)%type.

(** ** The abstract ledger *)

Record PEntry := mkPEntry {
  pe_tenant : string; pe_journal : string; pe_account : string;
  pe_currency : string; pe_direction : Direction; pe_amount : Qc;
}.
Record JView := mkJView { jv_tenant : string; jv_id : string; jv_event : string; jv_flow : string }.
Record SView := mkSView { sv_step : string; sv_status : string; sv_journal : string; sv_error : string }.
Record OView := mkOView { ov_tenant : string; ov_aggregate : string; ov_type : string; ov_key : string }.
Record RView := mkRView {
  rv_id : string; rv_tenant : string; rv_key : string;
  rv_source : string; rv_reserved : string; rv_currency : string;
  rv_original : Qc; rv_outstanding : Qc; rv_committed : Qc; rv_released : Qc;
  rv_status : ReservationStatus; rv_flow : string;
}.

Record LView := mkLView {
  lv_acct : string → string → option Account;              (* tenant, id *)
  lv_bal : BKey → option (Qc * Qc);                        (* debits, credits *)
  lv_flow : string → string → option (string * FlowStatus); (* tenant, idempotency key *)
  lv_steps : string → string → list SView;                  (* tenant, flow run *)
  lv_journals : list JView;
  lv_entries : list PEntry;
  lv_outbox : list OView;
  lv_resv : string → string → option RView;                 (* tenant, id *)
  lv_resvk : string → string → option RView;                (* tenant, idempotency key *)
  lv_open : bool;                                           (* not yet committed or rolled back *)
}.

(** An account without its creation time, which the database assigns. *)
Definition acc_view (a : Account) : Account :=
  mkAccount (acc_ID a) (acc_TenantID a) (acc_OwnerType a) (acc_OwnerID a) (acc_AccountType a)
    (acc_Currency a) (acc_NormalBalance a) (acc_AllowNegative a) (acc_Status a) 0%Z.

Definition fview (f : FlowRun) : string * FlowStatus := (fr_ID f, fr_Status f).
Definition jview `{DecimalOps} (j : Journal) : JView :=
  mkJView (jr_TenantID j) (jr_ID j) (jr_EventID j) (jr_FlowRunID j).
Definition sview (s : FlowStep) : SView :=
  mkSView (fs_StepID s) (fs_Status s) (fs_JournalID s) (fs_ErrorCode s).
Definition oview (o : OutboxEvent) : OView :=
  mkOView (ob_TenantID o) (ob_AggregateID o) (ob_EventType o) (ob_IdempotencyKey o).
Definition rview `{DecimalLaws} (r : Reservation) : RView :=
  mkRView (rs_ID r) (rs_TenantID r) (rs_IdempotencyKey r) (rs_SourceAccountID r)
    (rs_ReservedAccountID r) (rs_Currency r) (val (rs_OriginalAmount r))
    (val (rs_OutstandingAmount r)) (val (rs_CommittedAmount r)) (val (rs_ReleasedAmount r))
    (rs_Status r) (rs_FlowRunID r).

(** ** Updates of the abstract ledger *)

Section Updates.
Implicit Types v : LView.

Definition lv_set_acct f v := mkLView f (lv_bal v) (lv_flow v) (lv_steps v) (lv_journals v)
  (lv_entries v) (lv_outbox v) (lv_resv v) (lv_resvk v) (lv_open v).
Definition lv_set_bal f v := mkLView (lv_acct v) f (lv_flow v) (lv_steps v) (lv_journals v)
  (lv_entries v) (lv_outbox v) (lv_resv v) (lv_resvk v) (lv_open v).
Definition lv_set_flow f v := mkLView (lv_acct v) (lv_bal v) f (lv_steps v) (lv_journals v)
  (lv_entries v) (lv_outbox v) (lv_resv v) (lv_resvk v) (lv_open v).
Definition lv_set_steps f v := mkLView (lv_acct v) (lv_bal v) (lv_flow v) f (lv_journals v)
  (lv_entries v) (lv_outbox v) (lv_resv v) (lv_resvk v) (lv_open v).
Definition lv_set_journals f v := mkLView (lv_acct v) (lv_bal v) (lv_flow v) (lv_steps v) f
  (lv_entries v) (lv_outbox v) (lv_resv v) (lv_resvk v) (lv_open v).
Definition lv_set_entries f v := mkLView (lv_acct v) (lv_bal v) (lv_flow v) (lv_steps v)
  (lv_journals v) f (lv_outbox v) (lv_resv v) (lv_resvk v) (lv_open v).
Definition lv_set_outbox f v := mkLView (lv_acct v) (lv_bal v) (lv_flow v) (lv_steps v)
  (lv_journals v) (lv_entries v) f (lv_resv v) (lv_resvk v) (lv_open v).
Definition lv_set_resv f g v := mkLView (lv_acct v) (lv_bal v) (lv_flow v) (lv_steps v)
  (lv_journals v) (lv_entries v) (lv_outbox v) f g (lv_open v).

Definition fput {A} (f : string → string → A) (t k : string) (x : A) : string → string → A :=
  λ t' k', if (t' =s t) && (k' =s k) then x else f t' k'.

Definition lv_add_acct (a : Account) v :=
  lv_set_acct (fput (lv_acct v) (acc_TenantID a) (acc_ID a) (Some (acc_view a))) v.
Definition lv_put_bal (k : BKey) (b : Qc * Qc) v :=
  lv_set_bal (λ k', if bool_decide (k' = k) then Some b else lv_bal v k') v.
Definition lv_ensure (k : BKey) v :=
  match lv_bal v k with Some _ => v | None => lv_put_bal k (0%Qc, 0%Qc) v end.
Definition lv_add_flow (t k id : string) v :=
  lv_set_flow (fput (lv_flow v) t k (Some (id, FlowRunning))) v.
Definition lv_complete (t id : string) v :=
  lv_set_flow (λ t' k', match lv_flow v t' k' with
    | Some (id', st) => Some (id', if (t' =s t) && (id' =s id) then FlowCompleted else st)
    | None => None end) v.
Definition lv_add_step (t f : string) (s : SView) v :=
  lv_set_steps (fput (lv_steps v) t f (lv_steps v t f ++ [s])) v.
Definition lv_add_journal (j : JView) v := lv_set_journals (lv_journals v ++ [j]) v.
Definition lv_add_entry (e : PEntry) v := lv_set_entries (lv_entries v ++ [e]) v.
Definition lv_add_outbox (o : OView) v := lv_set_outbox (lv_outbox v ++ [o]) v.
Definition lv_add_resv (r : RView) v :=
  lv_set_resv (fput (lv_resv v) (rv_tenant r) (rv_id r) (Some r))
              (fput (lv_resvk v) (rv_tenant r) (rv_key r) (Some r)) v.

Definition rv_amounts (o c r : Qc) (st : ReservationStatus) (rv : RView) : RView :=
  mkRView (rv_id rv) (rv_tenant rv) (rv_key rv) (rv_source rv) (rv_reserved rv) (rv_currency rv)
    (rv_original rv) o c r st (rv_flow rv).
Definition rv_update (t id : string) (o c r : Qc) (st : ReservationStatus) (rv : RView) : RView :=
  if (rv_tenant rv =s t) && (rv_id rv =s id) then rv_amounts o c r st rv else rv.
Definition lv_upd_resv (t id : string) (o c r : Qc) (st : ReservationStatus) v :=
  lv_set_resv (λ t' i', rv_update t id o c r st <$> lv_resv v t' i')
              (λ t' k', rv_update t id o c r st <$> lv_resvk v t' k') v.

(** The posted balance of a key, zero where there is no row. *)
Definition lv_balance v (k : BKey) : Qc * Qc := default (0%Qc, 0%Qc) (lv_bal v k).
End Updates.

(** ** The contract of a transaction *)

Class RepoTxLaws (D : DecimalOps) {L : DecimalLaws D} (T : Type) {R : RepoTx D T} := {
  vw : T → LView;
  law_GetFlowByIdempotency t k s :
    wpo (tx_GetFlowByIdempotency t k) (λ r s',
      vw s'.1 = vw s.1 ∧ fview <$> r = lv_flow (vw s.1) t k) s;
  law_GetAccount t id s :
    wpo (tx_GetAccount t id) (λ a s',
      vw s'.1 = vw s.1 ∧ lv_acct (vw s.1) t id = Some (acc_view a) ∧ acc_ID a = id ∧ acc_TenantID a = t) s;
  law_EnsureBalanceRow t a c s :
    wpo (tx_EnsureBalanceRow t a c) (λ _ s', vw s'.1 = lv_ensure (t, a, c) (vw s.1)) s;
  law_LockBalance t a c s :
    wpo (tx_LockBalance t a c) (λ r s',
      vw s'.1 = lv_ensure (t, a, c) (vw s.1) ∧
      lv_balance (vw s.1) (t, a, c) = (val r.1.1, val r.1.2)) s;
  law_UpdateBalance t a c d cr s :
    lv_bal (vw s.1) (t, a, c) ≠ None →
    wpo (tx_UpdateBalance t a c d cr) (λ _ s',
      vw s'.1 = lv_put_bal (t, a, c) (val d, val cr) (vw s.1)) s;
  law_InsertAccount a s :
    wpo (tx_InsertAccount a) (λ _ s',
      vw s'.1 = lv_add_acct a (vw s.1) ∧ lv_acct (vw s.1) (acc_TenantID a) (acc_ID a) = None) s;
  law_InsertFlowRun f s :
    wpo (tx_InsertFlowRun f) (λ _ s',
      vw s'.1 = lv_add_flow (fr_TenantID f) (fr_IdempotencyKey f) (fr_ID f) (vw s.1) ∧
      lv_flow (vw s.1) (fr_TenantID f) (fr_IdempotencyKey f) = None) s;
  law_CompleteFlowRun t id s :
    wpo (tx_CompleteFlowRun t id) (λ _ s', vw s'.1 = lv_complete t id (vw s.1)) s;
  law_InsertJournal j s :
    wpo (tx_InsertJournal j) (λ _ s', vw s'.1 = lv_add_journal (jview j) (vw s.1)) s;
  law_InsertEntry t eid jid a c dir amt s :
    wpo (tx_InsertEntry t eid jid a c dir amt) (λ _ s',
      vw s'.1 = lv_add_entry (mkPEntry t jid a c dir (val amt)) (vw s.1)) s;
  law_InsertFlowStep st s :
    wpo (tx_InsertFlowStep st) (λ _ s',
      vw s'.1 = lv_add_step (fs_TenantID st) (fs_FlowRunID st) (sview st) (vw s.1)) s;
  law_InsertOutbox o s :
    wpo (tx_InsertOutbox o) (λ _ s', vw s'.1 = lv_add_outbox (oview o) (vw s.1)) s;
  law_GetFlowSteps t f s :
    wpo (tx_GetFlowSteps t f) (λ l s',
      vw s'.1 = vw s.1 ∧ sview <$> l ≡ₚ lv_steps (vw s.1) t f) s;
  law_InsertReservation r s :
    val (rs_CommittedAmount r) = 0%Qc → val (rs_ReleasedAmount r) = 0%Qc →
    wpo (tx_InsertReservation r) (λ _ s',
      vw s'.1 = lv_add_resv (rview r) (vw s.1) ∧
      lv_resv (vw s.1) (rs_TenantID r) (rs_ID r) = None ∧
      lv_resvk (vw s.1) (rs_TenantID r) (rs_IdempotencyKey r) = None) s;
  law_LockReservation t id s :
    wpo (tx_LockReservation t id) (λ r s',
      vw s'.1 = vw s.1 ∧ lv_resv (vw s.1) t id = Some (rview r) ∧ rs_ID r = id ∧ rs_TenantID r = t) s;
  law_GetReservationByIdempotency t k s :
    wpo (tx_GetReservationByIdempotency t k) (λ r s',
      vw s'.1 = vw s.1 ∧ rview <$> r = lv_resvk (vw s.1) t k) s;
  law_UpdateReservationAmounts t id o c r st s :
    lv_resv (vw s.1) t id ≠ None →
    wpo (tx_UpdateReservationAmounts t id o c r st) (λ _ s',
      vw s'.1 = lv_upd_resv t id (val o) (val c) (val r) st (vw s.1)) s;
}.

(** ** The contract of the store

    A transaction starts with the store's view; a commit that succeeds
    publishes the transaction's view; a commit that fails and a rollback
    leave the store as it was. *)

Class RepoStoreLaws (D : DecimalOps) {L : DecimalLaws D} (S T : Type)
    {R : RepoTx D T} {RL : RepoTxLaws D T} {ST : RepoStore D S T} := {
  svw : S → LView;
  law_Begin s :
    wp st_BeginFlowTx (λ t s', s'.1 = s.1 ∧ vw t = svw s.1 ∧ lv_open (svw s.1) = true) (λ _ s', s'.1 = s.1) s;
  law_Commit s :
    lv_open (vw s.1.2) = true →
    wp tx_Commit (λ _ s', svw s'.1.1 = vw s.1.2) (λ _ s', s'.1.1 = s.1.1) s;
  law_Rollback s :
    wp tx_Rollback (λ _ s', s'.1.1 = s.1.1) (λ _ s', s'.1.1 = s.1.1) s;
}.

(** ** The operations the abstract ledger does not see

    Snapshots, FX rates, external records, reconciliation batches,
    discrepancies and the publication state of the outbox are not part of the
    abstract ledger: the operations on them leave it alone, and so do the
    reads, whether they succeed or fail. *)

Definition tx_frame {D T} {L : DecimalLaws D} {R : RepoTx D T} {RL : RepoTxLaws D T} {A}
    (m : M error (T * Env) A) : Prop := ∀ s, wpo m (λ _ s', vw s'.1 = vw s.1) s.
Definition st_frame {D S T} {L : DecimalLaws D} {R : RepoTx D T} {RL : RepoTxLaws D T}
    {ST : RepoStore D S T} {SL : RepoStoreLaws D S T} {A} (m : M error (S * Env) A) : Prop :=
  ∀ s, svw (m s).2.1 = svw s.1.

Class RepoFrameLaws (D : DecimalOps) {L : DecimalLaws D} (S T : Type)
    {R : RepoTx D T} {RL : RepoTxLaws D T} {ST : RepoStore D S T} {SL : RepoStoreLaws D S T} := {
  frame_GetReconBatchByIdempotency t k : tx_frame (tx_GetReconBatchByIdempotency t k);
  frame_InsertReconBatch b : tx_frame (tx_InsertReconBatch b);
  frame_CompleteReconBatch b : tx_frame (tx_CompleteReconBatch b);
  frame_ListExternalRecordsForRecon t src ws we : tx_frame (tx_ListExternalRecordsForRecon t src ws we);
  frame_ListJournalsForRecon t src ws we : tx_frame (tx_ListJournalsForRecon t src ws we);
  frame_UpdateExternalRecordMatch t id st j : tx_frame (tx_UpdateExternalRecordMatch t id st j);
  frame_SumJournalEntries t j a c : tx_frame (tx_SumJournalEntries t j a c);
  frame_InsertDiscrepancy d : tx_frame (tx_InsertDiscrepancy d);
  frame_LockDiscrepancy t id : tx_frame (tx_LockDiscrepancy t id);
  frame_ResolveDiscrepancyRow d : tx_frame (tx_ResolveDiscrepancyRow d);
  law_st_GetAccount t id s :
    wpo (st_GetAccount t id) (λ a _, lv_acct (svw s.1) t id = Some (acc_view a)) s;
  law_st_GetBalance t a c s :
    wpo (st_GetBalance t a c) (λ r _, lv_balance (svw s.1) (t, a, c) = (val r.1.1, val r.1.2)) s;
  frame_st_GetAccount t id : st_frame (st_GetAccount t id);
  frame_st_GetBalance t a c : st_frame (st_GetBalance t a c);
  frame_st_GetFlow t id : st_frame (st_GetFlow t id);
  frame_st_ListAccountActivity i : st_frame (st_ListAccountActivity i);
  frame_st_PendingOutbox n : st_frame (st_PendingOutbox n);
  frame_st_MarkOutboxPublished id : st_frame (st_MarkOutboxPublished id);
  frame_st_IncrementOutboxAttempts id : st_frame (st_IncrementOutboxAttempts id);
  frame_st_InsertSnapshot b : st_frame (st_InsertSnapshot b);
  frame_st_GetSnapshotBefore t a c at_ : st_frame (st_GetSnapshotBefore t a c at_);
  frame_st_SumEntriesBetween t a c x y : st_frame (st_SumEntriesBetween t a c x y);
  frame_st_ListTenantBalances t : st_frame (st_ListTenantBalances t);
  frame_st_ListTenantsDueForSnapshot x n : st_frame (st_ListTenantsDueForSnapshot x n);
  frame_st_PruneSnapshotsOlderThan x n : st_frame (st_PruneSnapshotsOlderThan x n);
  frame_st_UpsertFXRate r : st_frame (st_UpsertFXRate r);
  frame_st_GetFXRateAt t b q x : st_frame (st_GetFXRateAt t b q x);
  frame_st_ListFXRates i : st_frame (st_ListFXRates i);
  frame_st_GetReservation t id : st_frame (st_GetReservation t id);
  frame_st_ListExpiredReservations x n : st_frame (st_ListExpiredReservations x n);
  frame_st_ListReservations i : st_frame (st_ListReservations i);
  frame_st_InsertExternalRecord r : st_frame (st_InsertExternalRecord r);
  frame_st_GetReconBatch t id : st_frame (st_GetReconBatch t id);
  frame_st_ListDiscrepancies i : st_frame (st_ListDiscrepancies i);
}.

(** A backend whose outbox has a UNIQUE idempotency key. *)
Class OutboxUnique (D : DecimalOps) {L : DecimalLaws D} (T : Type) {R : RepoTx D T} {RL : RepoTxLaws D T} : Prop :=
  law_outbox_fresh o (s : T * Env) :
    wpo (tx_InsertOutbox o) (λ _ _, ob_IdempotencyKey o ∉ ov_key <$> lv_outbox (vw s.1)) s.
