(* ===== verification/Sql.v ===== *)
(** * What the SQL backends share

    Pieces of SQL text that the queries of gen/sqlite and gen/crdb have in
    common, the two ways their Go code treats [ErrNoRows], and the lemmas by
    which a row added to or changed in a table shows in the abstract
    ledger. *)

From S2P Require Import Prelude Money Ledger Repo Contract.
From stdpp Require Import base gmap strings list numbers.
From Stdlib Require Import Qcanon FunctionalExtensionality.

Abbreviation stamp := Z (only parsing).

Definition tick (e : Env) : Env := mkEnv (e_ids e) (e_now e) (S (e_db e)).

Definition one_of (s : string) (l : list string) : bool := existsb (λ x, s =s x) l.
(** [col = ? OR ? = ''] *)
Definition opt_eq (col arg : string) : bool := (col =s arg) || (arg =s "").

Definition by_stamp {A} (f : A → Z) (x y : A) : bool := (f x <=? f y)%Z.
Definition by_stamp_id {A} (f : A → Z) (g : A → string) (x y : A) : bool :=
  (f x <? f y)%Z || ((f x =? f y)%Z && String.leb (g x) (g y)).
Definition desc {A} (le : A → A → bool) (x y : A) : bool := le y x.

Definition deref (s : option string) : string := default "" s.

(** [errors.Is(err, sql.ErrNoRows)] turned into [nil, nil]. *)
Definition no_rows_none {S A} (m : M error S A) : M error S (option A) := λ s,
  match m s with
  | (Ok a, s') => (Ok (Some a), s')
  | (Err ErrNoRows, s') => (Ok None, s')
  | (Err e, s') => (Err e, s')
  end.
(** [errors.Is(err, sql.ErrNoRows)] turned into a domain error. *)
Definition no_rows_code {S A} (c : DomainCode) (m : M error S A) : M error S A := λ s,
  match m s with
  | (Err ErrNoRows, s') => (Err (ErrDomain c), s')
  | r => r
  end.

(** ** Lemmas *)

Lemma wp_no_rows_code {S A} c (m : M error S A) Q s : wpo m Q s → wpo (no_rows_code c m) Q s.
Proof. unfold wp, no_rows_code. destruct (m s) as [[a|[]] s']; auto. Qed.

Lemma lv_balance_ensure k v : lv_balance (lv_ensure k v) k = lv_balance v k.
Proof.
  unfold lv_ensure, lv_balance. destruct (lv_bal v k) eqn:Hk; simpl; [by rewrite Hk|].
  by rewrite bool_decide_eq_true_2.
Qed.

(** Adding a row under a fresh two-column key is a point update of the view. *)
Lemma sel_app_fput {A B} (g1 g2 : A → string) (h : A → B) l r :
  sel (λ x, (g1 x =s g1 r) && (g2 x =s g2 r)) l = None →
  (λ t k, h <$> sel (λ x, (g1 x =s t) && (g2 x =s k)) (l ++ [r])) =
  fput (λ t k, h <$> sel (λ x, (g1 x =s t) && (g2 x =s k)) l) (g1 r) (g2 r) (Some (h r)).
Proof.
  intros Hn. extensionality t. extensionality k. unfold fput. rewrite sel_app.
  destruct ((t =s g1 r) && (k =s g2 r)) eqn:E.
  - eqs. subst. rewrite Hn. by rewrite !eqs_refl.
  - destruct (sel (λ x, (g1 x =s t) && (g2 x =s k)) l); [done|].
    destruct ((g1 r =s t) && (g2 r =s k)) eqn:E2; [|done].
    eqs. subst. by rewrite !eqs_refl in E.
Qed.

Lemma any_false_key {A} (p q : A → bool) l :
  any p l = false → (∀ x, q x = true → p x = true) → sel q l = None.
Proof.
  intros Hp Hq. apply any_false_sel, any_false. intros x Hx.
  pose proof (proj1 (any_false p l) Hp x Hx). destruct (q x) eqn:E; [|done].
  by rewrite Hq in *.
Qed.

(** A UNIQUE column that passed its constraint has no row of the key. *)
Ltac fresh_key :=
  match goal with H : any ?p ?l = false |- sel _ ?l = None =>
    solve [apply (any_false_key p _ _ H); intros x Hx; eqs; by apply bool_decide_eq_true] end.

(** ** Frames

    Statements that leave the abstract ledger alone: on a database, seen
    through [view] with and without the changes of an open transaction, and in
    a transaction. *)

Section ViewFrames.
Context {DB V : Type} (view : bool → DB → V).

Definition view_frame {A} (m : M error (DB * Env) A) : Prop := ∀ s b, view b (m s).2.1 = view b s.1.

Lemma frame_bind {A B} (m : M error (DB * Env) A) (f : A → M error (DB * Env) B) :
  view_frame m → (∀ a, view_frame (f a)) → view_frame (m ≫= f).
Proof.
  intros Hm Hf s b. specialize (Hm s b). unfold mbind, M_bind.
  destruct (m s) as [[a|e] s']; simpl in *; [by rewrite Hf|done].
Qed.
Lemma frame_ret {A} (a : A) : view_frame (mret a).
Proof. done. Qed.
Lemma frame_no_rows_none {A} (m : M error (DB * Env) A) : view_frame m → view_frame (no_rows_none m).
Proof. intros Hm s b. specialize (Hm s b). unfold no_rows_none. by destruct (m s) as [[a|[]] s']. Qed.
Lemma frame_no_rows_code {A} c (m : M error (DB * Env) A) : view_frame m → view_frame (no_rows_code c m).
Proof. intros Hm s b. specialize (Hm s b). unfold no_rows_code. by destruct (m s) as [[a|[]] s']. Qed.
End ViewFrames.

Section TxFrames.
Context {D : DecimalOps} {L : DecimalLaws D} {T : Type} {R : RepoTx D T} {RL : RepoTxLaws D T}.

Lemma tx_frame_bind {A B} (m : M error (T * Env) A) (f : A → M error (T * Env) B) :
  tx_frame m → (∀ a, tx_frame (f a)) → tx_frame (m ≫= f).
Proof.
  intros Hm Hf s. apply wp_bind. eapply wp_mono; [apply Hm| |done]. cbv beta. intros a s' E.
  eapply wp_mono; [apply Hf| |done]. cbv beta. intros b s2 E2. congruence.
Qed.
Lemma tx_frame_ret {A} (a : A) : tx_frame (T:=T) (mret a).
Proof. done. Qed.
Lemma tx_frame_code {A} c (m : M error (T * Env) A) : tx_frame m → tx_frame (no_rows_code c m).
Proof. intros Hm s. by apply wp_no_rows_code. Qed.
End TxFrames.

Create HintDb sql discriminated.
#[export] Hint Unfold lv_add_acct lv_ensure lv_put_bal lv_add_flow lv_complete lv_add_step
  lv_add_journal lv_add_entry lv_add_outbox lv_add_resv lv_upd_resv fput
  lv_set_acct lv_set_bal lv_set_flow lv_set_steps lv_set_journals lv_set_entries lv_set_outbox
  lv_set_resv : sql.
