(* ===== verification/SqliteDb.v ===== *)
(** * gen/sqlite: the SQLite tables and their statements

    One list of rows per table, in insertion order, and one definition per
    sqlc query, translated from its SQL text: the [WHERE] clause is the row
    test, a violated PRIMARY KEY, UNIQUE, CHECK or REFERENCES constraint of
    the schema is an error that leaves the tables unchanged.  A TEXT
    timestamp, written with millisecond precision in a fixed-width format,
    is its number of milliseconds; TEXT metadata is the JSON object it holds.

    What the engine decides and SQL leaves open is the class [SqlEngine]:
    the order in which a query returns rows its ORDER BY does not separate,
    the floating-point value of a SUM over REAL casts, and whether the driver
    honours [_foreign_keys=on]. *)

From S2P Require Import Prelude Money Ledger Repo Contract Sql.
From stdpp Require Import base gmap strings list numbers sorting.

Class SqlEngine (D : DecimalOps) := {
  sql_order_by : ∀ {A}, (A → A → bool) → list A → list A;
  sql_real_sum : list string → dec;     (* NewFromFloat(SUM(CAST(amount AS REAL))) *)
  sql_foreign_keys : bool;
}.
Class SqlEngineLaws (D : DecimalOps) (E : SqlEngine D) := {
  sql_order_by_perm : ∀ {A} (le : A → A → bool) l, sql_order_by le l ≡ₚ l;
  sql_order_by_sorted : ∀ {A} (le : A → A → bool) l,
    (∀ x y, le x y ∨ le y x) → (∀ x y z, le x y → le y z → le x z) →
    StronglySorted (λ x y, le x y) (sql_order_by le l);
}.

(** ** models.go *)

Record AccountRow := mkAccountRow {
  a_id : string; a_tenant_id : string; a_owner_type : string; a_owner_id : string;
  a_account_type : string; a_currency : string; a_normal_balance : string;
  a_allow_negative : Z; a_status : string; a_created_at : stamp }.
Record AccountBalanceRow := mkAccountBalanceRow {
  b_tenant_id : string; b_account_id : string; b_currency : string;
  b_posted_debits : string; b_posted_credits : string; b_version : Z; b_updated_at : stamp }.
Record BalanceSnapshotRow := mkBalanceSnapshotRow {
  sn_id : string; sn_tenant_id : string; sn_account_id : string; sn_currency : string;
  sn_posted_debits : string; sn_posted_credits : string; sn_version : Z;
  sn_snapshot_at : stamp; sn_created_at : stamp }.
Record DiscrepancyRow := mkDiscrepancyRow {
  d_id : string; d_tenant_id : string; d_batch_id : string; d_type : string;
  d_external_record_id : option string; d_journal_id : option string; d_status : string;
  d_resolution_journal_id : option string; d_resolution_note : string; d_resolved_by : string;
  d_resolved_at : option stamp; d_created_at : stamp }.
Record ExternalRecordRow := mkExternalRecordRow {
  x_id : string; x_tenant_id : string; x_source : string; x_external_ref : string;
  x_amount : string; x_currency : string; x_occurred_at : stamp; x_account_id : option string;
  x_raw_payload : Meta; x_match_status : string; x_matched_journal_id : option string;
  x_created_at : stamp }.
Record FlowRunRow := mkFlowRunRow {
  f_id : string; f_tenant_id : string; f_flow_type : string; f_idempotency_key : string;
  f_source_service : string; f_actor_id : string; f_status : string; f_metadata : Meta;
  f_created_at : stamp; f_completed_at : option stamp; f_failed_at : option stamp }.
Record FlowStepRow := mkFlowStepRow {
  s_id : string; s_tenant_id : string; s_flow_run_id : string; s_step_id : string;
  s_status : string; s_journal_id : option string; s_error_code : option string; s_created_at : stamp }.
Record FxRateRow := mkFxRateRow {
  r_id : string; r_tenant_id : string; r_base_currency : string; r_quote_currency : string;
  r_rate : string; r_source : string; r_effective_at : stamp; r_created_at : stamp }.
Record LedgerEntryRow := mkLedgerEntryRow {
  e_id : string; e_tenant_id : string; e_journal_id : string; e_account_id : string;
  e_currency : string; e_direction : string; e_amount : string; e_created_at : stamp }.
Record LedgerJournalRow := mkLedgerJournalRow {
  j_id : string; j_tenant_id : string; j_flow_run_id : option string; j_event_id : string;
  j_source_service : string; j_source_type : string; j_actor_id : string; j_metadata : Meta;
  j_created_at : stamp }.
Record OutboxEventRow := mkOutboxEventRow {
  o_id : string; o_tenant_id : string; o_aggregate_id : string; o_event_type : string;
  o_idempotency_key : string; o_payload : Meta; o_publish_state : string; o_attempts : Z;
  o_created_at : stamp; o_published_at : option stamp }.
Record ReconciliationBatchRow := mkReconciliationBatchRow {
  k_id : string; k_tenant_id : string; k_idempotency_key : string; k_source : string;
  k_window_start : stamp; k_window_end : stamp; k_status : string; k_ingested_count : Z;
  k_matched_count : Z; k_mismatched_count : Z; k_missing_in_ledger_count : Z;
  k_missing_in_external_count : Z; k_started_at : stamp; k_completed_at : option stamp;
  k_actor_id : string }.
Record ReservationRow := mkReservationRow {
  v_id : string; v_tenant_id : string; v_idempotency_key : string; v_source_account_id : string;
  v_reserved_account_id : string; v_currency : string; v_original_amount : string;
  v_outstanding_amount : string; v_committed_amount : string; v_released_amount : string;
  v_status : string; v_expires_at : option stamp; v_flow_run_id : string; v_metadata : Meta;
  v_created_at : stamp; v_updated_at : stamp }.

Record DB := mkDB {
  t_accounts : list AccountRow;
  t_balances : list AccountBalanceRow;
  t_snapshots : list BalanceSnapshotRow;
  t_discrepancies : list DiscrepancyRow;
  t_external : list ExternalRecordRow;
  t_flows : list FlowRunRow;
  t_steps : list FlowStepRow;
  t_fx : list FxRateRow;
  t_entries : list LedgerEntryRow;
  t_journals : list LedgerJournalRow;
  t_outbox : list OutboxEventRow;
  t_batches : list ReconciliationBatchRow;
  t_reservations : list ReservationRow;
}.
Definition db_empty : DB := mkDB [] [] [] [] [] [] [] [] [] [] [] [] [].

Definition set_accounts x db := mkDB x (t_balances db) (t_snapshots db) (t_discrepancies db) (t_external db) (t_flows db) (t_steps db) (t_fx db) (t_entries db) (t_journals db) (t_outbox db) (t_batches db) (t_reservations db).
Definition set_balances x db := mkDB (t_accounts db) x (t_snapshots db) (t_discrepancies db) (t_external db) (t_flows db) (t_steps db) (t_fx db) (t_entries db) (t_journals db) (t_outbox db) (t_batches db) (t_reservations db).
Definition set_snapshots x db := mkDB (t_accounts db) (t_balances db) x (t_discrepancies db) (t_external db) (t_flows db) (t_steps db) (t_fx db) (t_entries db) (t_journals db) (t_outbox db) (t_batches db) (t_reservations db).
Definition set_discrepancies x db := mkDB (t_accounts db) (t_balances db) (t_snapshots db) x (t_external db) (t_flows db) (t_steps db) (t_fx db) (t_entries db) (t_journals db) (t_outbox db) (t_batches db) (t_reservations db).
Definition set_external x db := mkDB (t_accounts db) (t_balances db) (t_snapshots db) (t_discrepancies db) x (t_flows db) (t_steps db) (t_fx db) (t_entries db) (t_journals db) (t_outbox db) (t_batches db) (t_reservations db).
Definition set_flows x db := mkDB (t_accounts db) (t_balances db) (t_snapshots db) (t_discrepancies db) (t_external db) x (t_steps db) (t_fx db) (t_entries db) (t_journals db) (t_outbox db) (t_batches db) (t_reservations db).
Definition set_steps x db := mkDB (t_accounts db) (t_balances db) (t_snapshots db) (t_discrepancies db) (t_external db) (t_flows db) x (t_fx db) (t_entries db) (t_journals db) (t_outbox db) (t_batches db) (t_reservations db).
Definition set_fx x db := mkDB (t_accounts db) (t_balances db) (t_snapshots db) (t_discrepancies db) (t_external db) (t_flows db) (t_steps db) x (t_entries db) (t_journals db) (t_outbox db) (t_batches db) (t_reservations db).
Definition set_entries x db := mkDB (t_accounts db) (t_balances db) (t_snapshots db) (t_discrepancies db) (t_external db) (t_flows db) (t_steps db) (t_fx db) x (t_journals db) (t_outbox db) (t_batches db) (t_reservations db).
Definition set_journals x db := mkDB (t_accounts db) (t_balances db) (t_snapshots db) (t_discrepancies db) (t_external db) (t_flows db) (t_steps db) (t_fx db) (t_entries db) x (t_outbox db) (t_batches db) (t_reservations db).
Definition set_outbox x db := mkDB (t_accounts db) (t_balances db) (t_snapshots db) (t_discrepancies db) (t_external db) (t_flows db) (t_steps db) (t_fx db) (t_entries db) (t_journals db) x (t_batches db) (t_reservations db).
Definition set_batches x db := mkDB (t_accounts db) (t_balances db) (t_snapshots db) (t_discrepancies db) (t_external db) (t_flows db) (t_steps db) (t_fx db) (t_entries db) (t_journals db) (t_outbox db) x (t_reservations db).
Definition set_reservations x db := mkDB (t_accounts db) (t_balances db) (t_snapshots db) (t_discrepancies db) (t_external db) (t_flows db) (t_steps db) (t_fx db) (t_entries db) (t_journals db) (t_outbox db) (t_batches db) x.

(** ** Executing one statement *)

Section Queries.
Context {H : Host} {D : DecimalOps} {SE : SqlEngine D}.

Abbreviation Q A := (M error (DB * Env) A).

(** A statement reads the database clock once; in the driver it may fail. *)
Definition statement {A} (f : Z → DB → result error (A * DB)) : Q A := λ '(db, e),
  if host_fault (e_db e) then (Err (ErrOther "driver"), (db, tick e))
  else match f (host_dbnow (e_db e)) db with
       | Ok (a, db') => (Ok a, (db', tick e))
       | Err er => (Err er, (db, tick e))
       end.

Definition select_one {A} (f : DB → option A) : Q A :=
  statement (λ _ db, match f db with Some r => Ok (r, db) | None => Err ErrNoRows end).
Definition select_many {A} (f : DB → list A) : Q (list A) := statement (λ _ db, Ok (f db, db)).
(** [INSERT]: [ok] is the conjunction of the table's constraints. *)
Definition sql_insert (ok : DB → bool) (f : Z → DB → DB) : Q unit :=
  statement (λ now db, if ok db then Ok (tt, f now db) else Err (ErrOther "constraint failed")).
Definition sql_update (f : Z → DB → DB) : Q unit := statement (λ now db, Ok (tt, f now db)).

Definition fk (found : bool) : bool := negb sql_foreign_keys || found.
Definition limit {A} (n : Z) (l : list A) : list A := if (n <? 0)%Z then l else take (Z.to_nat n) l.
Definition account_exists (id : string) (db : DB) : bool := any (λ r, a_id r =s id) (t_accounts db).
Definition journal_exists (id : string) (db : DB) : bool := any (λ r, j_id r =s id) (t_journals db).
Definition flow_exists (id : string) (db : DB) : bool := any (λ r, f_id r =s id) (t_flows db).
Definition ref_opt (p : string → DB → bool) (id : option string) (db : DB) : bool :=
  match id with Some i => p i db | None => true end.

(** ** accounts.sql *)

Definition q_InsertAccount (id tenant owner_type owner_id account_type currency normal_balance : string)
    (allow_negative : Z) (status : string) : Q unit :=
  sql_insert (λ db,
      negb (any (λ r, a_id r =s id) (t_accounts db)) &&
      negb (any (λ r, (a_tenant_id r =s tenant) && (a_owner_type r =s owner_type) &&
                      (a_owner_id r =s owner_id) && (a_account_type r =s account_type) &&
                      (a_currency r =s currency)) (t_accounts db)) &&
      one_of normal_balance ["DEBIT"; "CREDIT"] && one_of status ["ACTIVE"; "FROZEN"; "CLOSED"])
    (λ now db, set_accounts (t_accounts db ++
      [mkAccountRow id tenant owner_type owner_id account_type currency normal_balance
         allow_negative status now]) db).

Definition q_GetAccount (tenant id : string) : Q AccountRow :=
  select_one (λ db, sel (λ r, (a_tenant_id r =s tenant) && (a_id r =s id)) (t_accounts db)).

Definition q_ListAccountsByOwner (tenant owner_type owner_id : string) : Q (list AccountRow) :=
  select_many (λ db, sql_order_by (λ _ _, true)
    (filter (λ r, (a_tenant_id r =s tenant) && (a_owner_type r =s owner_type) &&
                  (a_owner_id r =s owner_id)) (t_accounts db))).

(** ** balances.sql *)

Definition bal_row (tenant account currency : string) (r : AccountBalanceRow) : bool :=
  (b_tenant_id r =s tenant) && (b_account_id r =s account) && (b_currency r =s currency).

Definition q_GetBalance (tenant account currency : string) : Q AccountBalanceRow :=
  select_one (λ db, sel (bal_row tenant account currency) (t_balances db)).

Definition q_UpsertBalanceZero (tenant account currency : string) : Q unit :=
  sql_insert (λ db, any (bal_row tenant account currency) (t_balances db) || fk (account_exists account db))
    (λ now db, if any (bal_row tenant account currency) (t_balances db) then db
               else set_balances (t_balances db ++
                      [mkAccountBalanceRow tenant account currency "0" "0" 0 now]) db).

Definition q_UpdateBalance (debits credits tenant account currency : string) : Q unit :=
  sql_update (λ now db, set_balances (upd (bal_row tenant account currency)
    (λ r, mkAccountBalanceRow (b_tenant_id r) (b_account_id r) (b_currency r) debits credits
            (b_version r + 1) now) (t_balances db)) db).

(** ** flows.sql *)

Definition q_InsertFlowRun (id tenant flow_type key source actor : string) (meta : Meta) : Q unit :=
  sql_insert (λ db, negb (any (λ r, f_id r =s id) (t_flows db)) &&
                negb (any (λ r, f_idempotency_key r =s key) (t_flows db)))
    (λ now db, set_flows (t_flows db ++
      [mkFlowRunRow id tenant flow_type key source actor "RUNNING" meta now None None]) db).

Definition q_GetFlowByIdempotency (tenant key : string) : Q FlowRunRow :=
  select_one (λ db, sel (λ r, (f_tenant_id r =s tenant) && (f_idempotency_key r =s key)) (t_flows db)).

Definition q_GetFlowByID (tenant id : string) : Q FlowRunRow :=
  select_one (λ db, sel (λ r, (f_tenant_id r =s tenant) && (f_id r =s id)) (t_flows db)).

Definition q_CompleteFlowRun (id tenant : string) : Q unit :=
  sql_update (λ now db, set_flows (upd (λ r, (f_id r =s id) && (f_tenant_id r =s tenant))
    (λ r, mkFlowRunRow (f_id r) (f_tenant_id r) (f_flow_type r) (f_idempotency_key r)
            (f_source_service r) (f_actor_id r) "COMPLETED" (f_metadata r) (f_created_at r)
            (Some now) (f_failed_at r)) (t_flows db)) db).

Definition q_InsertFlowStep (id tenant flow step status : string) (journal err : option string) : Q unit :=
  sql_insert (λ db,
      negb (any (λ r, s_id r =s id) (t_steps db)) &&
      negb (any (λ r, (s_tenant_id r =s tenant) && (s_flow_run_id r =s flow) && (s_step_id r =s step))
             (t_steps db)) &&
      one_of status ["COMPLETED"; "FAILED"] &&
      fk (flow_exists flow db) && fk (ref_opt journal_exists journal db))
    (λ now db, set_steps (t_steps db ++ [mkFlowStepRow id tenant flow step status journal err now]) db).

Definition q_GetFlowSteps (tenant flow : string) : Q (list FlowStepRow) :=
  select_many (λ db, sql_order_by (by_stamp s_created_at)
    (filter (λ r, (s_tenant_id r =s tenant) && (s_flow_run_id r =s flow)) (t_steps db))).

(** ** journals.sql, entries.sql *)

Definition q_InsertJournal (id tenant : string) (flow : option string)
    (event source source_type actor : string) (meta : Meta) : Q unit :=
  sql_insert (λ db, negb (any (λ r, j_id r =s id) (t_journals db)) &&
                negb (any (λ r, j_event_id r =s event) (t_journals db)))
    (λ now db, set_journals (t_journals db ++
      [mkLedgerJournalRow id tenant flow event source source_type actor meta now]) db).

Definition q_GetJournal (tenant id : string) : Q LedgerJournalRow :=
  select_one (λ db, sel (λ r, (j_tenant_id r =s tenant) && (j_id r =s id)) (t_journals db)).

Definition q_GetJournalsByFlowRun (tenant : string) (flow : option string) : Q (list LedgerJournalRow) :=
  select_many (λ db, sql_order_by (λ _ _, true)
    (filter (λ r, (j_tenant_id r =s tenant) &&
                  match j_flow_run_id r, flow with Some a, Some b => a =s b | _, _ => false end)
       (t_journals db))).

Definition q_InsertEntry (id tenant journal account currency direction amount : string) : Q unit :=
  sql_insert (λ db, negb (any (λ r, e_id r =s id) (t_entries db)) &&
                one_of direction ["DEBIT"; "CREDIT"] &&
                fk (journal_exists journal db) && fk (account_exists account db))
    (λ now db, set_entries (t_entries db ++
      [mkLedgerEntryRow id tenant journal account currency direction amount now]) db).

Definition q_ListAccountActivity (tenant account currency : string) (since until : option Z) (n : Z)
    : Q (list LedgerEntryRow) :=
  select_many (λ db, limit n (sql_order_by (by_stamp_id e_created_at e_id)
    (filter (λ r, (e_tenant_id r =s tenant) && (e_account_id r =s account) && (e_currency r =s currency) &&
       match since with Some t => (t <=? e_created_at r)%Z | None => true end &&
       match until with Some t => (e_created_at r <=? t)%Z | None => true end) (t_entries db)))).

(** ** outbox.sql *)

Definition q_InsertOutbox (id tenant aggregate event_type key : string) (payload : Meta) : Q unit :=
  sql_insert (λ db, negb (any (λ r, o_id r =s id) (t_outbox db)) &&
                negb (any (λ r, o_idempotency_key r =s key) (t_outbox db)))
    (λ now db, set_outbox (t_outbox db ++
      [mkOutboxEventRow id tenant aggregate event_type key payload "PENDING" 0 now None]) db).

Definition q_ListPendingOutbox (n : Z) : Q (list OutboxEventRow) :=
  select_many (λ db, limit n (sql_order_by (by_stamp o_created_at)
    (filter (λ r, o_publish_state r =s "PENDING") (t_outbox db)))).

Definition q_MarkOutboxPublished (id : string) : Q unit :=
  sql_update (λ now db, set_outbox (upd (λ r, o_id r =s id)
    (λ r, mkOutboxEventRow (o_id r) (o_tenant_id r) (o_aggregate_id r) (o_event_type r)
       (o_idempotency_key r) (o_payload r) "PUBLISHED" (o_attempts r) (o_created_at r) (Some now))
    (t_outbox db)) db).

Definition q_IncrementOutboxAttempts (id : string) : Q unit :=
  sql_update (λ _ db, set_outbox (upd (λ r, o_id r =s id)
    (λ r, mkOutboxEventRow (o_id r) (o_tenant_id r) (o_aggregate_id r) (o_event_type r)
       (o_idempotency_key r) (o_payload r) (o_publish_state r) (o_attempts r + 1) (o_created_at r)
       (o_published_at r)) (t_outbox db)) db).

(** ** reservations.sql *)

Definition resv_status : list string := ["HELD"; "PARTIAL"; "COMMITTED"; "RELEASED"; "EXPIRED"].

Definition q_InsertReservation (id tenant key source reserved currency original outstanding status : string)
    (expires : option Z) (flow : string) (meta : Meta) : Q unit :=
  sql_insert (λ db, negb (any (λ r, v_id r =s id) (t_reservations db)) &&
                negb (any (λ r, v_idempotency_key r =s key) (t_reservations db)) &&
                one_of status resv_status && fk (account_exists source db) &&
                fk (account_exists reserved db) && fk (flow_exists flow db))
    (λ now db, set_reservations (t_reservations db ++
      [mkReservationRow id tenant key source reserved currency original outstanding "0" "0" status
         expires flow meta now now]) db).

Definition q_GetReservation (tenant id : string) : Q ReservationRow :=
  select_one (λ db, sel (λ r, (v_tenant_id r =s tenant) && (v_id r =s id)) (t_reservations db)).

Definition q_GetReservationByIdempotency (tenant key : string) : Q ReservationRow :=
  select_one (λ db, sel (λ r, (v_tenant_id r =s tenant) && (v_idempotency_key r =s key)) (t_reservations db)).

(** The CHECK on [status] is tested when a row matches. *)
Definition q_UpdateReservationAmounts (outstanding committed released status tenant id : string) : Q unit :=
  sql_insert (λ db, negb (any (λ r, (v_tenant_id r =s tenant) && (v_id r =s id)) (t_reservations db)) ||
                one_of status resv_status)
    (λ now db, set_reservations (upd (λ r, (v_tenant_id r =s tenant) && (v_id r =s id))
      (λ r, mkReservationRow (v_id r) (v_tenant_id r) (v_idempotency_key r) (v_source_account_id r)
         (v_reserved_account_id r) (v_currency r) (v_original_amount r) outstanding committed released
         status (v_expires_at r) (v_flow_run_id r) (v_metadata r) (v_created_at r) now)
      (t_reservations db)) db).

Definition q_ListExpiredReservations (now : Z) (n : Z) : Q (list ReservationRow) :=
  select_many (λ db, limit n (sql_order_by (by_stamp (λ r, default 0%Z (v_expires_at r)))
    (filter (λ r, one_of (v_status r) ["HELD"; "PARTIAL"] &&
       match v_expires_at r with Some t => (t <=? now)%Z | None => false end) (t_reservations db)))).

Definition q_ListReservations (tenant owner_type owner_id status : string) (n : Z) : Q (list ReservationRow) :=
  select_many (λ db, limit n (sql_order_by (desc (by_stamp_id v_created_at v_id))
    (filter (λ r, (v_tenant_id r =s tenant) &&
       any (λ a, (a_id a =s v_source_account_id r) && opt_eq (a_owner_type a) owner_type &&
                 opt_eq (a_owner_id a) owner_id) (t_accounts db) &&
       opt_eq (v_status r) status) (t_reservations db)))).

(** ** snapshots.sql *)

Definition q_InsertSnapshot (id tenant account currency debits credits : string) (version at_ : Z) : Q unit :=
  sql_insert (λ db, negb (any (λ r, sn_id r =s id) (t_snapshots db)) && fk (account_exists account db))
    (λ now db, set_snapshots (t_snapshots db ++
      [mkBalanceSnapshotRow id tenant account currency debits credits version at_ now]) db).

Definition snap_row (tenant account currency : string) (r : BalanceSnapshotRow) : bool :=
  (sn_tenant_id r =s tenant) && (sn_account_id r =s account) && (sn_currency r =s currency).

Definition q_GetLatestSnapshotBefore (tenant account currency : string) (at_ : Z) : Q BalanceSnapshotRow :=
  select_one (λ db, head (sql_order_by (desc (by_stamp_id sn_snapshot_at sn_id))
    (filter (λ r, snap_row tenant account currency r && (sn_snapshot_at r <=? at_)%Z) (t_snapshots db)))).

Definition q_SumEntriesBetween (tenant account currency : string) (after until : Z) : Q (dec * dec) :=
  select_one (λ db,
    let rows := filter (λ r, (e_tenant_id r =s tenant) && (e_account_id r =s account) &&
                  (e_currency r =s currency) && (after <? e_created_at r)%Z &&
                  (e_created_at r <=? until)%Z) (t_entries db) in
    Some (sql_real_sum (e_amount <$> filter (λ r, e_direction r =s "DEBIT") rows),
          sql_real_sum (e_amount <$> filter (λ r, e_direction r =s "CREDIT") rows))).

Definition by_account (x y : AccountBalanceRow) : bool :=
  String.ltb (b_account_id x) (b_account_id y) ||
  ((b_account_id x =s b_account_id y) && String.leb (b_currency x) (b_currency y)).

Definition q_ListAllBalancesForTenant (tenant : string) : Q (list AccountBalanceRow) :=
  select_many (λ db, sql_order_by by_account (filter (λ r, b_tenant_id r =s tenant) (t_balances db))).

Definition q_ListTenantsDueForSnapshot (cutoff n : Z) : Q (list string) :=
  select_many (λ db, limit n (sql_order_by (λ _ _, true) (remove_dups (a_tenant_id <$>
    filter (λ a, negb (any (λ bs, (sn_tenant_id bs =s a_tenant_id a) && (cutoff <? sn_snapshot_at bs)%Z)
                        (t_snapshots db))) (t_accounts db))))).

(** Deletes at most [n] of the rows that are older than [cutoff] and not the
    latest of their key; which ones is the engine's choice. *)
Definition prunable (cutoff : Z) (db : DB) (bs : BalanceSnapshotRow) : bool :=
  (sn_snapshot_at bs <? cutoff)%Z &&
  any (λ bs2, snap_row (sn_tenant_id bs) (sn_account_id bs) (sn_currency bs) bs2 &&
              (sn_snapshot_at bs <? sn_snapshot_at bs2)%Z) (t_snapshots db).

Definition prune_ids (cutoff n : Z) (db : DB) : list string :=
  limit n (sql_order_by (λ _ _, true) (sn_id <$> filter (prunable cutoff db) (t_snapshots db))).

Definition q_PruneSnapshotsOlderThan (cutoff n : Z) : Q Z :=
  statement (λ _ db,
    let ids := prune_ids cutoff n db in
    let kept := filter (λ r, negb (one_of (sn_id r) ids)) (t_snapshots db) in
    Ok (Z.of_nat (length (t_snapshots db)) - Z.of_nat (length kept), set_snapshots kept db)%Z).

(** ** fx_rates.sql *)

Definition fx_key (tenant base quote : string) (eff : Z) (source : string) (r : FxRateRow) : bool :=
  (r_tenant_id r =s tenant) && (r_base_currency r =s base) && (r_quote_currency r =s quote) &&
  (r_effective_at r =? eff)%Z && (r_source r =s source).

Definition q_UpsertFXRate (id tenant base quote rate source : string) (eff : Z) : Q FxRateRow :=
  statement (λ now db,
    match sel (fx_key tenant base quote eff source) (t_fx db) with
    | Some r =>
        let r' := mkFxRateRow (r_id r) (r_tenant_id r) (r_base_currency r) (r_quote_currency r) rate
                    (r_source r) (r_effective_at r) (r_created_at r) in
        Ok (r', set_fx (upd (fx_key tenant base quote eff source) (λ _, r') (t_fx db)) db)
    | None =>
        if any (λ r, r_id r =s id) (t_fx db) then Err (ErrOther "constraint failed")
        else let r := mkFxRateRow id tenant base quote rate source eff now in
             Ok (r, set_fx (t_fx db ++ [r]) db)
    end).

Definition q_GetFXRateAt (tenant base quote : string) (at_ : Z) : Q FxRateRow :=
  select_one (λ db, head (sql_order_by (desc (by_stamp_id r_effective_at r_id))
    (filter (λ r, (r_tenant_id r =s tenant) && (r_base_currency r =s base) &&
                  (r_quote_currency r =s quote) && (r_effective_at r <=? at_)%Z) (t_fx db)))).

Definition q_ListFXRates (tenant base quote : string) (since until : option Z) (n : Z) : Q (list FxRateRow) :=
  select_many (λ db, limit n (sql_order_by (desc (by_stamp_id r_effective_at r_id))
    (filter (λ r, (r_tenant_id r =s tenant) && opt_eq (r_base_currency r) base &&
       opt_eq (r_quote_currency r) quote &&
       match since with Some t => (t <=? r_effective_at r)%Z | None => true end &&
       match until with Some t => (r_effective_at r <=? t)%Z | None => true end) (t_fx db)))).

(** ** external_records.sql *)

Definition ext_key (tenant source ref : string) (r : ExternalRecordRow) : bool :=
  (x_tenant_id r =s tenant) && (x_source r =s source) && (x_external_ref r =s ref).

(** The number of affected rows: 0 on a conflict of the UNIQUE key. *)
Definition q_InsertExternalRecord (id tenant source ref amount currency : string) (occurred : Z)
    (account : option string) (payload : Meta) : Q Z :=
  statement (λ now db,
    if any (ext_key tenant source ref) (t_external db) then Ok (0%Z, db)
    else if any (λ r, x_id r =s id) (t_external db) then Err (ErrOther "constraint failed")
    else Ok (1%Z, set_external (t_external db ++
           [mkExternalRecordRow id tenant source ref amount currency occurred account payload
              "UNMATCHED" None now]) db)).

Definition q_ListExternalRecordsForRecon (tenant source : string) (from until : Z) : Q (list ExternalRecordRow) :=
  select_many (λ db, sql_order_by (by_stamp x_occurred_at)
    (filter (λ r, (x_tenant_id r =s tenant) && (x_source r =s source) && (from <=? x_occurred_at r)%Z &&
       (x_occurred_at r <=? until)%Z && (x_match_status r =s "UNMATCHED")) (t_external db))).

Definition q_UpdateExternalRecordMatch (status : string) (journal : option string) (id tenant : string) : Q unit :=
  sql_insert (λ db, negb (any (λ r, (x_id r =s id) && (x_tenant_id r =s tenant)) (t_external db)) ||
                (one_of status ["UNMATCHED"; "MATCHED"; "MISMATCHED"] &&
                 fk (ref_opt journal_exists journal db)))
    (λ _ db, set_external (upd (λ r, (x_id r =s id) && (x_tenant_id r =s tenant))
      (λ r, mkExternalRecordRow (x_id r) (x_tenant_id r) (x_source r) (x_external_ref r) (x_amount r)
         (x_currency r) (x_occurred_at r) (x_account_id r) (x_raw_payload r) status journal
         (x_created_at r)) (t_external db)) db).

(** ** reconciliation_batches.sql *)

Definition q_InsertReconBatch (id tenant key source : string) (wstart wend : Z) (actor : string) : Q unit :=
  sql_insert (λ db, negb (any (λ r, k_id r =s id) (t_batches db)) &&
                negb (any (λ r, k_idempotency_key r =s key) (t_batches db)))
    (λ now db, set_batches (t_batches db ++
      [mkReconciliationBatchRow id tenant key source wstart wend "RUNNING" 0 0 0 0 0 now None actor]) db).

Definition q_GetReconBatch (tenant id : string) : Q ReconciliationBatchRow :=
  select_one (λ db, sel (λ r, (k_tenant_id r =s tenant) && (k_id r =s id)) (t_batches db)).

Definition q_GetReconBatchByIdempotency (tenant key : string) : Q ReconciliationBatchRow :=
  select_one (λ db, sel (λ r, (k_tenant_id r =s tenant) && (k_idempotency_key r =s key)) (t_batches db)).

Definition q_CompleteReconBatch (ingested matched mismatched missing_l missing_e : Z) (id tenant : string) : Q unit :=
  sql_update (λ now db, set_batches (upd (λ r, (k_id r =s id) && (k_tenant_id r =s tenant))
    (λ r, mkReconciliationBatchRow (k_id r) (k_tenant_id r) (k_idempotency_key r) (k_source r)
       (k_window_start r) (k_window_end r) "COMPLETED" ingested matched mismatched missing_l missing_e
       (k_started_at r) (Some now) (k_actor_id r)) (t_batches db)) db).

Definition q_ListJournalsForRecon (tenant source : string) (from until : Z) : Q (list LedgerJournalRow) :=
  select_many (λ db, sql_order_by (by_stamp j_created_at)
    (filter (λ r, (j_tenant_id r =s tenant) && (j_source_service r =s source) &&
       (from <=? j_created_at r)%Z && (j_created_at r <=? until)%Z) (t_journals db))).

(** The CASE of this query adds 0.0 for a row of the other direction. *)
Definition q_SumJournalEntries (tenant journal account currency : string) : Q (dec * dec) :=
  select_one (λ db,
    let rows := filter (λ r, (e_tenant_id r =s tenant) && (e_journal_id r =s journal) &&
                  (e_account_id r =s account) && (e_currency r =s currency)) (t_entries db) in
    Some (sql_real_sum (e_amount <$> filter (λ r, e_direction r =s "DEBIT") rows),
          sql_real_sum (e_amount <$> filter (λ r, e_direction r =s "CREDIT") rows))).

(** ** discrepancies.sql *)

Definition q_InsertDiscrepancy (id tenant batch type : string) (external journal : option string) : Q unit :=
  sql_insert (λ db, negb (any (λ r, d_id r =s id) (t_discrepancies db)) &&
                one_of type ["MISSING_IN_LEDGER"; "MISSING_IN_EXTERNAL"; "AMOUNT_MISMATCH"] &&
                fk (any (λ r, k_id r =s batch) (t_batches db)) &&
                fk (ref_opt (λ i db, any (λ r, x_id r =s i) (t_external db)) external db) &&
                fk (ref_opt journal_exists journal db))
    (λ now db, set_discrepancies (t_discrepancies db ++
      [mkDiscrepancyRow id tenant batch type external journal "OPEN" None "" "" None now]) db).

Definition q_GetDiscrepancy (tenant id : string) : Q DiscrepancyRow :=
  select_one (λ db, sel (λ r, (d_tenant_id r =s tenant) && (d_id r =s id)) (t_discrepancies db)).

Definition q_ListDiscrepancies (tenant batch status : string) (n : Z) : Q (list DiscrepancyRow) :=
  select_many (λ db, limit n (sql_order_by (desc (by_stamp d_created_at))
    (filter (λ r, (d_tenant_id r =s tenant) && opt_eq (d_batch_id r) batch && opt_eq (d_status r) status)
       (t_discrepancies db)))).

Definition q_ResolveDiscrepancyRow (status : string) (journal : option string) (note by_ id tenant : string) : Q unit :=
  sql_insert (λ db, negb (any (λ r, (d_id r =s id) && (d_tenant_id r =s tenant)) (t_discrepancies db)) ||
                (one_of status ["OPEN"; "RESOLVED"; "IGNORED"] && fk (ref_opt journal_exists journal db)))
    (λ now db, set_discrepancies (upd (λ r, (d_id r =s id) && (d_tenant_id r =s tenant))
      (λ r, mkDiscrepancyRow (d_id r) (d_tenant_id r) (d_batch_id r) (d_type r) (d_external_record_id r)
         (d_journal_id r) status journal note by_ (Some now) (d_created_at r)) (t_discrepancies db)) db).

End Queries.
