(* ===== verification/Sqlite.v ===== *)
(** * internal/repo/sqlite: the SQLite backend

    conv.go (rows to domain values), tx.go (the write transaction) and
    store.go (reads and writes outside it), on the statements of
    [SqliteDb].  A transaction works on its own copy of the tables: BEGIN
    IMMEDIATE holds the write lock on the only connection, so no other writer
    can come between, COMMIT publishes the copy and ROLLBACK drops it. *)

From S2P Require Import Prelude Money Ledger Repo Contract Sql SqliteDb.
From stdpp Require Import base gmap strings list numbers.

(** [t.UTC().Format(sqliteTimeFormat)] and [parseTime]: milliseconds. *)
Definition sqliteTimeFormat (t : Time) : Z := (t / 1000000)%Z.
Definition parseTime (s : Z) : Time := (s * 1000000)%Z.

(** ** conv.go *)

Section Conv.
Context {D : DecimalOps}.

(** [d, _ := decimal.NewFromString(s)] *)
Definition parse_or_zero (s : string) : dec := default decimal_Zero (NewFromString s).
Definition nullString (s : string) : option string := if s =s "" then None else Some s.

Definition rowToExternalRecord (r : ExternalRecordRow) : ExternalRecord :=
  mkExternalRecord (x_id r) (x_tenant_id r) (x_source r) (x_external_ref r)
    (parse_or_zero (x_amount r)) (x_currency r) (parseTime (x_occurred_at r))
    (deref (x_account_id r)) (x_raw_payload r) (x_match_status r)
    (deref (x_matched_journal_id r)) (parseTime (x_created_at r)).

Definition rowToReconBatch (r : ReconciliationBatchRow) : ReconciliationBatch :=
  mkReconciliationBatch (k_id r) (k_tenant_id r) (k_idempotency_key r) (k_source r)
    (parseTime (k_window_start r)) (parseTime (k_window_end r)) (k_status r)
    (int32 (k_ingested_count r)) (int32 (k_matched_count r)) (int32 (k_mismatched_count r))
    (int32 (k_missing_in_ledger_count r)) (int32 (k_missing_in_external_count r))
    (parseTime (k_started_at r))
    (match k_completed_at r with Some t => parseTime t | None => time_zero end) (k_actor_id r).

Definition rowToDiscrepancy (r : DiscrepancyRow) : Discrepancy :=
  mkDiscrepancy (d_id r) (d_tenant_id r) (d_batch_id r) (d_type r)
    (deref (d_external_record_id r)) (deref (d_journal_id r)) (d_status r)
    (deref (d_resolution_journal_id r)) (d_resolution_note r) (d_resolved_by r)
    (match d_resolved_at r with Some t => parseTime t | None => time_zero end)
    (parseTime (d_created_at r)).

Definition rowToJournal (r : LedgerJournalRow) : Journal :=
  mkJournal (j_id r) (j_tenant_id r) (deref (j_flow_run_id r)) (j_event_id r) (j_source_service r)
    (j_source_type r) (j_actor_id r) (j_metadata r) [] (parseTime (j_created_at r)).

Definition rowToAccount (r : AccountRow) : Account :=
  mkAccount (a_id r) (a_tenant_id r) (a_owner_type r) (a_owner_id r) (a_account_type r)
    (a_currency r) (a_normal_balance r) (negb (a_allow_negative r =? 0)%Z) (a_status r)
    (parseTime (a_created_at r)).

Definition rowToFlowRun (r : FlowRunRow) : FlowRun :=
  mkFlowRun (f_id r) (f_tenant_id r) (f_flow_type r) (f_idempotency_key r) (f_source_service r)
    (f_actor_id r) (f_status r) (f_metadata r) (parseTime (f_created_at r))
    (parseTime <$> f_completed_at r) (parseTime <$> f_failed_at r) [].

Definition rowToSnapshot (r : BalanceSnapshotRow) : BalanceSnapshot :=
  mkBalanceSnapshot (sn_id r) (sn_tenant_id r) (sn_account_id r) (sn_currency r)
    (parse_or_zero (sn_posted_debits r)) (parse_or_zero (sn_posted_credits r)) (sn_version r)
    (parseTime (sn_snapshot_at r)) (parseTime (sn_created_at r)).

Definition rowToFlowStep (r : FlowStepRow) : FlowStep :=
  mkFlowStep (s_id r) (s_tenant_id r) (s_flow_run_id r) (s_step_id r) (s_status r)
    (deref (s_journal_id r)) (deref (s_error_code r)) (parseTime (s_created_at r)).

Definition rowToFXRate (r : FxRateRow) : FXRate :=
  mkFXRate (r_id r) (r_tenant_id r) (r_base_currency r) (r_quote_currency r)
    (parse_or_zero (r_rate r)) (r_source r) (parseTime (r_effective_at r)) (parseTime (r_created_at r)).

Definition rowToReservation (r : ReservationRow) : Reservation :=
  mkReservation (v_id r) (v_tenant_id r) (v_idempotency_key r) (v_source_account_id r)
    (v_reserved_account_id r) (v_currency r) (parse_or_zero (v_original_amount r))
    (parse_or_zero (v_outstanding_amount r)) (parse_or_zero (v_committed_amount r))
    (parse_or_zero (v_released_amount r)) (v_status r) (parseTime <$> v_expires_at r)
    (v_flow_run_id r) (v_metadata r) (parseTime (v_created_at r)) (parseTime (v_updated_at r)).

Definition rowToOutbox (r : OutboxEventRow) : OutboxEvent :=
  mkOutboxEvent (o_id r) (o_tenant_id r) (o_aggregate_id r) (o_event_type r) (o_idempotency_key r)
    (o_payload r) (parseTime (o_created_at r)).
End Conv.

(** ** tx.go *)

Record SqTx := mkSqTx { tx_db : DB; tx_done : bool }.

Section Tx.
Context {H : Host} {D : DecimalOps} {SE : SqlEngine D}.

(** A statement on the transaction's connection. *)
Definition on_tx {A} (q : M error (DB * Env) A) : M error (SqTx * Env) A := λ '(t, e),
  if tx_done t then (Err (ErrOther "sql: connection is already closed"), (t, e))
  else match q (tx_db t, e) with (r, (db, e')) => (r, (mkSqTx db false, e')) end.

Definition sq_GetFlowByIdempotency (tenant key : string) : M error (SqTx * Env) (option FlowRun) :=
  row ← no_rows_none (on_tx (q_GetFlowByIdempotency tenant key));
  mret (rowToFlowRun <$> row).

Definition sq_GetAccount (tenant id : string) : M error (SqTx * Env) Account :=
  row ← no_rows_code CodeAccountNotFound (on_tx (q_GetAccount tenant id));
  mret (rowToAccount row).

Definition sq_EnsureBalanceRow (tenant account currency : string) : M error (SqTx * Env) unit :=
  on_tx (q_UpsertBalanceZero tenant account currency).

Definition parse_balance {S} (row : AccountBalanceRow) : M error S (dec * dec * Z) :=
  match NewFromString (b_posted_debits row), NewFromString (b_posted_credits row) with
  | Some d, Some c => mret (d, c, b_version row)
  | None, _ => throw (ErrOther "parse posted_debits")
  | _, None => throw (ErrOther "parse posted_credits")
  end.

Definition sq_LockBalance (tenant account currency : string) : M error (SqTx * Env) (dec * dec * Z) :=
  sq_EnsureBalanceRow tenant account currency;;
  row ← on_tx (q_GetBalance tenant account currency);
  parse_balance row.

Definition sq_UpdateBalance (tenant account currency : string) (d c : dec) : M error (SqTx * Env) unit :=
  on_tx (q_UpdateBalance (dString d) (dString c) tenant account currency).

Definition sq_InsertAccount (a : Account) : M error (SqTx * Env) unit :=
  on_tx (q_InsertAccount (acc_ID a) (acc_TenantID a) (acc_OwnerType a) (acc_OwnerID a)
    (acc_AccountType a) (acc_Currency a) (acc_NormalBalance a)
    (if acc_AllowNegative a then 1 else 0)%Z (acc_Status a)).

Definition sq_InsertFlowRun (f : FlowRun) : M error (SqTx * Env) unit :=
  on_tx (q_InsertFlowRun (fr_ID f) (fr_TenantID f) (fr_FlowType f) (fr_IdempotencyKey f)
    (fr_SourceService f) (fr_ActorID f) (fr_Metadata f)).

Definition sq_CompleteFlowRun (tenant id : string) : M error (SqTx * Env) unit :=
  on_tx (q_CompleteFlowRun id tenant).

Definition sq_InsertJournal (j : Journal) : M error (SqTx * Env) unit :=
  on_tx (q_InsertJournal (jr_ID j) (jr_TenantID j) (nullString (jr_FlowRunID j)) (jr_EventID j)
    (jr_SourceService j) (jr_SourceType j) (jr_ActorID j) (jr_Metadata j)).

Definition sq_InsertEntry (tenant entry journal account currency : string) (dir : Direction)
    (amount : dec) : M error (SqTx * Env) unit :=
  on_tx (q_InsertEntry entry tenant journal account currency dir (dString amount)).

Definition sq_InsertFlowStep (s : FlowStep) : M error (SqTx * Env) unit :=
  on_tx (q_InsertFlowStep (fs_ID s) (fs_TenantID s) (fs_FlowRunID s) (fs_StepID s) (fs_Status s)
    (nullString (fs_JournalID s)) (nullString (fs_ErrorCode s))).

Definition sq_InsertOutbox (e : OutboxEvent) : M error (SqTx * Env) unit :=
  on_tx (q_InsertOutbox (ob_ID e) (ob_TenantID e) (ob_AggregateID e) (ob_EventType e)
    (ob_IdempotencyKey e) (ob_Payload e)).

Definition sq_GetFlowSteps (tenant flow : string) : M error (SqTx * Env) (list FlowStep) :=
  rows ← on_tx (q_GetFlowSteps tenant flow);
  mret (rowToFlowStep <$> rows).

Definition sq_InsertReservation (r : Reservation) : M error (SqTx * Env) unit :=
  on_tx (q_InsertReservation (rs_ID r) (rs_TenantID r) (rs_IdempotencyKey r) (rs_SourceAccountID r)
    (rs_ReservedAccountID r) (rs_Currency r) (dString (rs_OriginalAmount r))
    (dString (rs_OutstandingAmount r)) (rs_Status r) (sqliteTimeFormat <$> rs_ExpiresAt r)
    (rs_FlowRunID r) (rs_Metadata r)).

Definition sq_LockReservation (tenant id : string) : M error (SqTx * Env) Reservation :=
  row ← no_rows_code CodeReservationNotFound (on_tx (q_GetReservation tenant id));
  mret (rowToReservation row).

Definition sq_GetReservationByIdempotency (tenant key : string) : M error (SqTx * Env) (option Reservation) :=
  row ← no_rows_none (on_tx (q_GetReservationByIdempotency tenant key));
  mret (rowToReservation <$> row).

Definition sq_UpdateReservationAmounts (tenant id : string) (o c r : dec) (st : ReservationStatus)
    : M error (SqTx * Env) unit :=
  on_tx (q_UpdateReservationAmounts (dString o) (dString c) (dString r) st tenant id).

Definition sq_GetReconBatchByIdempotency (tenant key : string) : M error (SqTx * Env) (option ReconciliationBatch) :=
  row ← no_rows_none (on_tx (q_GetReconBatchByIdempotency tenant key));
  mret (rowToReconBatch <$> row).

Definition sq_InsertReconBatch (b : ReconciliationBatch) : M error (SqTx * Env) unit :=
  on_tx (q_InsertReconBatch (rb_ID b) (rb_TenantID b) (rb_IdempotencyKey b) (rb_Source b)
    (sqliteTimeFormat (rb_WindowStart b)) (sqliteTimeFormat (rb_WindowEnd b)) (rb_ActorID b)).

Definition sq_CompleteReconBatch (b : ReconciliationBatch) : M error (SqTx * Env) unit :=
  on_tx (q_CompleteReconBatch (rb_IngestedCount b) (rb_MatchedCount b) (rb_MismatchedCount b)
    (rb_MissingInLedgerCount b) (rb_MissingInExternalCount b) (rb_ID b) (rb_TenantID b)).

Definition sq_ListExternalRecordsForRecon (tenant source : string) (wstart wend : Time)
    : M error (SqTx * Env) (list ExternalRecord) :=
  rows ← on_tx (q_ListExternalRecordsForRecon tenant source (sqliteTimeFormat wstart) (sqliteTimeFormat wend));
  mret (rowToExternalRecord <$> rows).

Definition sq_ListJournalsForRecon (tenant source : string) (wstart wend : Time)
    : M error (SqTx * Env) (list Journal) :=
  rows ← on_tx (q_ListJournalsForRecon tenant source (sqliteTimeFormat wstart) (sqliteTimeFormat wend));
  mret (rowToJournal <$> rows).

Definition sq_UpdateExternalRecordMatch (tenant id : string) (st : ExternalRecordStatus) (journal : string)
    : M error (SqTx * Env) unit :=
  on_tx (q_UpdateExternalRecordMatch st (nullString journal) id tenant).

Definition sq_SumJournalEntries (tenant journal account currency : string) : M error (SqTx * Env) (dec * dec) :=
  on_tx (q_SumJournalEntries tenant journal account currency).

Definition sq_InsertDiscrepancy (d : Discrepancy) : M error (SqTx * Env) unit :=
  on_tx (q_InsertDiscrepancy (dc_ID d) (dc_TenantID d) (dc_BatchID d) (dc_Type d)
    (nullString (dc_ExternalRecordID d)) (nullString (dc_JournalID d))).

Definition sq_LockDiscrepancy (tenant id : string) : M error (SqTx * Env) Discrepancy :=
  row ← no_rows_code CodeDiscrepancyNotFound (on_tx (q_GetDiscrepancy tenant id));
  mret (rowToDiscrepancy row).

Definition sq_ResolveDiscrepancyRow (d : Discrepancy) : M error (SqTx * Env) unit :=
  on_tx (q_ResolveDiscrepancyRow (dc_Status d) (nullString (dc_ResolutionJournalID d))
    (dc_ResolutionNote d) (dc_ResolvedBy d) (dc_ID d) (dc_TenantID d)).

#[export] Instance SqRepoTx : RepoTx D SqTx := {
  tx_GetFlowByIdempotency := sq_GetFlowByIdempotency;
  tx_GetAccount := sq_GetAccount;
  tx_LockBalance := sq_LockBalance;
  tx_EnsureBalanceRow := sq_EnsureBalanceRow;
  tx_UpdateBalance := sq_UpdateBalance;
  tx_InsertAccount := sq_InsertAccount;
  tx_InsertFlowRun := sq_InsertFlowRun;
  tx_CompleteFlowRun := sq_CompleteFlowRun;
  tx_InsertJournal := sq_InsertJournal;
  tx_InsertEntry := sq_InsertEntry;
  tx_InsertFlowStep := sq_InsertFlowStep;
  tx_InsertOutbox := sq_InsertOutbox;
  tx_GetFlowSteps := sq_GetFlowSteps;
  tx_InsertReservation := sq_InsertReservation;
  tx_LockReservation := sq_LockReservation;
  tx_GetReservationByIdempotency := sq_GetReservationByIdempotency;
  tx_UpdateReservationAmounts := sq_UpdateReservationAmounts;
  tx_GetReconBatchByIdempotency := sq_GetReconBatchByIdempotency;
  tx_InsertReconBatch := sq_InsertReconBatch;
  tx_CompleteReconBatch := sq_CompleteReconBatch;
  tx_ListExternalRecordsForRecon := sq_ListExternalRecordsForRecon;
  tx_ListJournalsForRecon := sq_ListJournalsForRecon;
  tx_UpdateExternalRecordMatch := sq_UpdateExternalRecordMatch;
  tx_SumJournalEntries := sq_SumJournalEntries;
  tx_InsertDiscrepancy := sq_InsertDiscrepancy;
  tx_LockDiscrepancy := sq_LockDiscrepancy;
  tx_ResolveDiscrepancyRow := sq_ResolveDiscrepancyRow;
}.

(** ** store.go *)

Definition sq_BeginFlowTx : M error (DB * Env) SqTx := λ '(db, e),
  if host_fault (e_db e) then (Err (ErrOther "begin immediate"), (db, tick e))
  else (Ok (mkSqTx db false), (db, tick e)).

(** [finalize]: once [done], a second call is a no-op.  COMMIT publishes the
    transaction's tables; a statement the driver fails publishes nothing. *)
Definition sq_finalize (publish : DB → DB → DB) : M error ((DB * SqTx) * Env) unit := λ '((db, t), e),
  if tx_done t then (Ok tt, ((db, t), e))
  else let t' := mkSqTx (tx_db t) true in
       if host_fault (e_db e) then (Err (ErrOther "finalize"), ((db, t'), tick e))
       else (Ok tt, ((publish db (tx_db t), t'), tick e)).
Definition sq_Commit : M error ((DB * SqTx) * Env) unit := sq_finalize (λ _ tdb, tdb).
Definition sq_Rollback : M error ((DB * SqTx) * Env) unit := sq_finalize (λ db _, db).

Definition sqs_GetAccount (tenant id : string) : M error (DB * Env) Account :=
  row ← no_rows_code CodeAccountNotFound (q_GetAccount tenant id);
  mret (rowToAccount row).

Definition sqs_GetBalance (tenant account currency : string) : M error (DB * Env) (dec * dec * Z) :=
  row ← no_rows_none (q_GetBalance tenant account currency);
  match row with
  | None => mret (decimal_Zero, decimal_Zero, 0%Z)
  | Some r => parse_balance r
  end.

Definition sqs_GetFlow (tenant id : string) : M error (DB * Env) (option FlowRun) :=
  row ← no_rows_none (q_GetFlowByID tenant id);
  match row with
  | None => mret None
  | Some r =>
      steps ← q_GetFlowSteps tenant id;
      let f := rowToFlowRun r in
      mret (Some (mkFlowRun (fr_ID f) (fr_TenantID f) (fr_FlowType f) (fr_IdempotencyKey f)
        (fr_SourceService f) (fr_ActorID f) (fr_Status f) (fr_Metadata f) (fr_CreatedAt f)
        (fr_CompletedAt f) (fr_FailedAt f) (rowToFlowStep <$> steps)))
  end.

Definition limit_or (n : Z) : Z := if (n <=? 0)%Z then 100%Z else n.
Definition limit_max (n : Z) : Z := if (n <=? 0)%Z || (500 <? n)%Z then 100%Z else n.

Definition rowToActivity (r : LedgerEntryRow) : ActivityRow :=
  mkActivityRow (e_journal_id r) (e_id r) (e_currency r) (e_direction r)
    (parse_or_zero (e_amount r)) (parseTime (e_created_at r)) "".

Definition sqs_ListAccountActivity (i : ListActivityInput) : M error (DB * Env) (list ActivityRow) :=
  rows ← q_ListAccountActivity (la_TenantID i) (la_AccountID i) (la_Currency i)
           (sqliteTimeFormat <$> la_Since i) (sqliteTimeFormat <$> la_Until i) (limit_or (la_Limit i));
  mret (rowToActivity <$> rows).

Definition sqs_PendingOutbox (n : Z) : M error (DB * Env) (list OutboxEvent) :=
  rows ← q_ListPendingOutbox (limit_or n);
  mret (rowToOutbox <$> rows).

Definition sqs_MarkOutboxPublished (id : string) : M error (DB * Env) unit := q_MarkOutboxPublished id.
Definition sqs_IncrementOutboxAttempts (id : string) : M error (DB * Env) unit := q_IncrementOutboxAttempts id.

Definition sqs_InsertSnapshot (s : BalanceSnapshot) : M error (DB * Env) unit :=
  q_InsertSnapshot (bs_ID s) (bs_TenantID s) (bs_AccountID s) (bs_Currency s)
    (dString (bs_PostedDebits s)) (dString (bs_PostedCredits s)) (bs_Version s)
    (sqliteTimeFormat (bs_SnapshotAt s)).

Definition sqs_GetSnapshotBefore (tenant account currency : string) (at_ : Time)
    : M error (DB * Env) (option BalanceSnapshot) :=
  row ← no_rows_none (q_GetLatestSnapshotBefore tenant account currency (sqliteTimeFormat at_));
  mret (rowToSnapshot <$> row).

Definition sqs_SumEntriesBetween (tenant account currency : string) (after until : Time)
    : M error (DB * Env) (dec * dec) :=
  q_SumEntriesBetween tenant account currency (sqliteTimeFormat after) (sqliteTimeFormat until).

Definition sqs_ListTenantBalances (tenant : string) : M error (DB * Env) (list TenantBalanceRow) :=
  rows ← q_ListAllBalancesForTenant tenant;
  mret ((λ r, mkTenantBalanceRow (b_account_id r) (b_currency r) (parse_or_zero (b_posted_debits r))
                (parse_or_zero (b_posted_credits r)) (b_version r)) <$> rows).

Definition sqs_ListTenantsDueForSnapshot (cutoff : Time) (n : Z) : M error (DB * Env) (list string) :=
  q_ListTenantsDueForSnapshot (sqliteTimeFormat cutoff) (limit_or n).

Definition sqs_PruneSnapshotsOlderThan (cutoff : Time) (n : Z) : M error (DB * Env) Z :=
  q_PruneSnapshotsOlderThan (sqliteTimeFormat cutoff) (limit_or n).

Definition sqs_GetReservation (tenant id : string) : M error (DB * Env) Reservation :=
  row ← no_rows_code CodeReservationNotFound (q_GetReservation tenant id);
  mret (rowToReservation row).

Definition sqs_ListExpiredReservations (now : Time) (n : Z) : M error (DB * Env) (list ExpiredReservation) :=
  rows ← q_ListExpiredReservations (sqliteTimeFormat now) (limit_or n);
  mret ((λ r, mkExpiredReservation (v_id r) (v_tenant_id r)) <$> rows).

Definition sqs_ListReservations (i : ListReservationsInput) : M error (DB * Env) (list Reservation) :=
  rows ← q_ListReservations (lr_TenantID i) (lr_OwnerType i) (lr_OwnerID i) (lr_Status i)
           (limit_max (lr_Limit i));
  mret (rowToReservation <$> rows).

Definition sqs_UpsertFXRate (r : FXRate) : M error (DB * Env) FXRate :=
  row ← q_UpsertFXRate (fx_ID r) (fx_TenantID r) (fx_BaseCurrency r) (fx_QuoteCurrency r)
          (dString (fx_Rate r)) (fx_Source r) (sqliteTimeFormat (fx_EffectiveAt r));
  mret (rowToFXRate row).

Definition sqs_GetFXRateAt (tenant base quote : string) (at_ : Time) : M error (DB * Env) (option FXRate) :=
  row ← no_rows_none (q_GetFXRateAt tenant base quote (sqliteTimeFormat at_));
  mret (rowToFXRate <$> row).

Definition sqs_ListFXRates (i : ListFXRatesInput) : M error (DB * Env) (list FXRate) :=
  rows ← q_ListFXRates (lf_TenantID i) (lf_BaseCurrency i) (lf_QuoteCurrency i)
           (sqliteTimeFormat <$> lf_Since i) (sqliteTimeFormat <$> lf_Until i) (limit_max (lf_Limit i));
  mret (rowToFXRate <$> rows).

Definition sqs_InsertExternalRecord (r : ExternalRecord) : M error (DB * Env) bool :=
  n ← q_InsertExternalRecord (er_ID r) (er_TenantID r) (er_Source r) (er_ExternalRef r)
        (dString (er_Amount r)) (er_Currency r) (sqliteTimeFormat (er_OccurredAt r))
        (nullString (er_AccountID r)) (er_RawPayload r);
  mret (0 <? n)%Z.

Definition sqs_ListExternalRecordsForRecon (tenant source : string) (wstart wend : Time)
    : M error (DB * Env) (list ExternalRecord) :=
  rows ← q_ListExternalRecordsForRecon tenant source (sqliteTimeFormat wstart) (sqliteTimeFormat wend);
  mret (rowToExternalRecord <$> rows).

Definition sqs_ListJournalsForRecon (tenant source : string) (wstart wend : Time)
    : M error (DB * Env) (list Journal) :=
  rows ← q_ListJournalsForRecon tenant source (sqliteTimeFormat wstart) (sqliteTimeFormat wend);
  mret (rowToJournal <$> rows).

Definition sqs_GetReconBatch (tenant id : string) : M error (DB * Env) ReconciliationBatch :=
  row ← no_rows_code CodeReconBatchNotFound (q_GetReconBatch tenant id);
  mret (rowToReconBatch row).

Definition sqs_ListDiscrepancies (i : ListDiscrepanciesInput) : M error (DB * Env) (list Discrepancy) :=
  rows ← q_ListDiscrepancies (ld_TenantID i) (ld_BatchID i) (ld_Status i) (limit_max (ld_Limit i));
  mret (rowToDiscrepancy <$> rows).

Definition sqs_GetDiscrepancy (tenant id : string) : M error (DB * Env) Discrepancy :=
  row ← no_rows_code CodeDiscrepancyNotFound (q_GetDiscrepancy tenant id);
  mret (rowToDiscrepancy row).

#[export] Instance SqRepoStore : RepoStore D DB SqTx := {
  st_BeginFlowTx := sq_BeginFlowTx;
  tx_Commit := sq_Commit;
  tx_Rollback := sq_Rollback;
  st_GetAccount := sqs_GetAccount;
  st_GetBalance := sqs_GetBalance;
  st_GetFlow := sqs_GetFlow;
  st_ListAccountActivity := sqs_ListAccountActivity;
  st_PendingOutbox := sqs_PendingOutbox;
  st_MarkOutboxPublished := sqs_MarkOutboxPublished;
  st_IncrementOutboxAttempts := sqs_IncrementOutboxAttempts;
  st_InsertSnapshot := sqs_InsertSnapshot;
  st_GetSnapshotBefore := sqs_GetSnapshotBefore;
  st_SumEntriesBetween := sqs_SumEntriesBetween;
  st_ListTenantBalances := sqs_ListTenantBalances;
  st_ListTenantsDueForSnapshot := sqs_ListTenantsDueForSnapshot;
  st_PruneSnapshotsOlderThan := sqs_PruneSnapshotsOlderThan;
  st_UpsertFXRate := sqs_UpsertFXRate;
  st_GetFXRateAt := sqs_GetFXRateAt;
  st_ListFXRates := sqs_ListFXRates;
  st_GetReservation := sqs_GetReservation;
  st_ListExpiredReservations := sqs_ListExpiredReservations;
  st_ListReservations := sqs_ListReservations;
  st_InsertExternalRecord := sqs_InsertExternalRecord;
  st_ListExternalRecordsForRecon := sqs_ListExternalRecordsForRecon;
  st_ListJournalsForRecon := sqs_ListJournalsForRecon;
  st_GetReconBatch := sqs_GetReconBatch;
  st_ListDiscrepancies := sqs_ListDiscrepancies;
  st_GetDiscrepancy := sqs_GetDiscrepancy;
}.
End Tx.
