(* ===== verification/SqliteLaws.v ===== *)
(** * The SQLite backend implements the storage contract

    [db_view] reads the abstract ledger off the tables; the instances at the
    end discharge [RepoTxLaws] and [RepoStoreLaws] for it. *)

From S2P Require Import Prelude Money Ledger Repo Contract Sql SqliteDb Sqlite.
From stdpp Require Import base gmap strings list numbers.
From Stdlib Require Import Qcanon FunctionalExtensionality.

Section View.
Context {D : DecimalOps} {L : DecimalLaws D}.

Definition row_bal (r : AccountBalanceRow) : Qc * Qc :=
  (text_val (b_posted_debits r), text_val (b_posted_credits r)).
Definition row_step (r : FlowStepRow) : SView :=
  mkSView (s_step_id r) (s_status r) (deref (s_journal_id r)) (deref (s_error_code r)).
Definition row_journal (r : LedgerJournalRow) : JView :=
  mkJView (j_tenant_id r) (j_id r) (j_event_id r) (deref (j_flow_run_id r)).
Definition row_entry (r : LedgerEntryRow) : PEntry :=
  mkPEntry (e_tenant_id r) (e_journal_id r) (e_account_id r) (e_currency r) (e_direction r)
    (text_val (e_amount r)).
Definition row_outbox (r : OutboxEventRow) : OView :=
  mkOView (o_tenant_id r) (o_aggregate_id r) (o_event_type r) (o_idempotency_key r).
Definition row_resv (r : ReservationRow) : RView :=
  mkRView (v_id r) (v_tenant_id r) (v_idempotency_key r) (v_source_account_id r)
    (v_reserved_account_id r) (v_currency r) (text_val (v_original_amount r))
    (text_val (v_outstanding_amount r)) (text_val (v_committed_amount r))
    (text_val (v_released_amount r)) (v_status r) (v_flow_run_id r).

Definition db_view (open : bool) (db : DB) : LView := {|
  lv_acct t id := (λ r, acc_view (rowToAccount r)) <$>
     sel (λ r, (a_tenant_id r =s t) && (a_id r =s id)) (t_accounts db);
  lv_bal k := row_bal <$> sel (bal_row k.1.1 k.1.2 k.2) (t_balances db);
  lv_flow t k := (λ r, (f_id r, f_status r)) <$>
     sel (λ r, (f_tenant_id r =s t) && (f_idempotency_key r =s k)) (t_flows db);
  lv_steps t f := row_step <$> filter (λ r, (s_tenant_id r =s t) && (s_flow_run_id r =s f)) (t_steps db);
  lv_journals := row_journal <$> t_journals db;
  lv_entries := row_entry <$> t_entries db;
  lv_outbox := row_outbox <$> t_outbox db;
  lv_resv t id := row_resv <$> sel (λ r, (v_tenant_id r =s t) && (v_id r =s id)) (t_reservations db);
  lv_resvk t k := row_resv <$>
     sel (λ r, (v_tenant_id r =s t) && (v_idempotency_key r =s k)) (t_reservations db);
  lv_open := open;
|}.

Lemma rview_row r : rview (rowToReservation r) = row_resv r.
Proof. unfold rview, row_resv; simpl. unfold parse_or_zero. by rewrite !val_default. Qed.

Lemma deref_nullString s : deref (nullString s) = s.
Proof. unfold nullString. destruct (bool_decide_reflect (s = "")); by subst. Qed.
End View.

(** ** Rules for the statements *)

Section Rules.
Context {H : Host} {D : DecimalOps} {SE : SqlEngine D}.

Lemma wp_on_tx {A} (f : Z → DB → result error (A * DB)) Q (s : SqTx * Env) :
  (∀ now a db e, f now (tx_db s.1) = Ok (a, db) → Q a (mkSqTx db (tx_done s.1), e)) →
  wpo (on_tx (statement f)) Q s.
Proof.
  destruct s as [[db done] e]. intros HQ. unfold wp, on_tx, statement; simpl.
  destruct done; [done|]. destruct (host_fault (e_db e)); [done|].
  destruct (f (host_dbnow (e_db e)) db) as [[a db']|er] eqn:Hf; [|done]. eapply HQ, Hf.
Qed.

Lemma wp_insert ok f Q (s : SqTx * Env) :
  (∀ now e, ok (tx_db s.1) = true → Q tt (mkSqTx (f now (tx_db s.1)) (tx_done s.1), e)) →
  wpo (on_tx (sql_insert ok f)) Q s.
Proof.
  intros HQ. apply wp_on_tx. intros now a db e.
  destruct (ok (tx_db s.1)) eqn:Hok; [|done]. intros [= <- <-]. by apply HQ.
Qed.

Lemma wp_update f Q (s : SqTx * Env) :
  (∀ now e, Q tt (mkSqTx (f now (tx_db s.1)) (tx_done s.1), e)) → wpo (on_tx (sql_update f)) Q s.
Proof. intros HQ. apply wp_on_tx. intros now a db e [= <- <-]. apply HQ. Qed.

Lemma wp_select_one {A} (f : DB → option A) Q (s : SqTx * Env) :
  (∀ r e, f (tx_db s.1) = Some r → Q r (mkSqTx (tx_db s.1) (tx_done s.1), e)) →
  wpo (on_tx (select_one f)) Q s.
Proof.
  intros HQ. apply wp_on_tx. intros now a db e.
  destruct (f (tx_db s.1)) eqn:Hf; [|done]. intros [= <- <-]. by apply HQ.
Qed.

Lemma wp_select_many {A} (f : DB → list A) Q (s : SqTx * Env) :
  (∀ e, Q (f (tx_db s.1)) (mkSqTx (tx_db s.1) (tx_done s.1), e)) → wpo (on_tx (select_many f)) Q s.
Proof. intros HQ. apply wp_on_tx. intros now a db e [= <- <-]. apply HQ. Qed.

Lemma wp_select_none {A} (f : DB → option A) Q (s : SqTx * Env) :
  (∀ e, Q (f (tx_db s.1)) (mkSqTx (tx_db s.1) (tx_done s.1), e)) →
  wpo (no_rows_none (on_tx (select_one f))) Q s.
Proof.
  destruct s as [[db done] e]. intros HQ.
  unfold wp, no_rows_none, on_tx, select_one, statement; simpl in *.
  destruct done; [done|]. destruct (host_fault (e_db e)); [done|].
  specialize (HQ (tick e)). by destruct (f db).
Qed.
End Rules.

(** Two abstract ledgers are equal field by field. *)
Ltac view_eq :=
  repeat autounfold with sql; unfold db_view; simpl;
  f_equal; rewrite ?fmap_app; try done.

Section Laws.
Context {H : Host} {D : DecimalOps} {L : DecimalLaws D} {SE : SqlEngine D} {SL : SqlEngineLaws D SE}.
Implicit Types s : SqTx * Env.

Definition tx_view (t : SqTx) : LView := db_view (negb (tx_done t)) (tx_db t).

Lemma sq_law_GetFlowByIdempotency t k s :
  wpo (sq_GetFlowByIdempotency t k) (λ r s',
    tx_view s'.1 = tx_view s.1 ∧ fview <$> r = lv_flow (tx_view s.1) t k) s.
Proof.
  apply wp_bind, wp_select_none. intros e. apply wp_ret. split; [done|].
  simpl. by destruct (sel _ _).
Qed.

Lemma sq_law_GetAccount t id s :
  wpo (sq_GetAccount t id) (λ a s', tx_view s'.1 = tx_view s.1 ∧
    lv_acct (tx_view s.1) t id = Some (acc_view a) ∧ acc_ID a = id ∧ acc_TenantID a = t) s.
Proof.
  apply wp_bind, wp_no_rows_code, wp_select_one. intros r e Hr. apply wp_ret. simpl.
  rewrite Hr. apply sel_some in Hr as [_ Hr]. by eqs.
Qed.

Lemma bal_row_self t a c r : bal_row t a c r = true → (b_tenant_id r, b_account_id r, b_currency r) = (t, a, c).
Proof. unfold bal_row. intros Hr. eqs. congruence. Qed.

Lemma sel_bal_app (k : BKey) l now :
  sel (bal_row k.1.1 k.1.2 k.2) l = None → ∀ k' : BKey,
  row_bal <$> sel (bal_row k'.1.1 k'.1.2 k'.2) (l ++ [mkAccountBalanceRow k.1.1 k.1.2 k.2 "0" "0" 0 now]) =
  if bool_decide (k' = k) then Some (0%Qc, 0%Qc) else row_bal <$> sel (bal_row k'.1.1 k'.1.2 k'.2) l.
Proof.
  intros Hn k'. rewrite sel_app. destruct k as [[t a] c], k' as [[t' a'] c']; simpl in *.
  case_bool_decide as Hk.
  - simplify_eq. rewrite Hn. unfold bal_row; simpl. rewrite !eqs_refl. simpl.
    unfold row_bal; simpl. by rewrite text_val_zero.
  - destruct (sel (bal_row t' a' c') l); [done|].
    destruct (bal_row t' a' c' _) eqn:E; [|done].
    apply bal_row_self in E. simpl in E. congruence.
Qed.

Lemma sq_law_EnsureBalanceRow t a c s :
  wpo (sq_EnsureBalanceRow t a c) (λ _ s', tx_view s'.1 = lv_ensure (t, a, c) (tx_view s.1)) s.
Proof.
  apply wp_insert. intros now e _. unfold tx_view, lv_ensure; simpl.
  destruct (any (bal_row t a c) _) eqn:Hany.
  - apply any_true in Hany as (r & Hr & Hb).
    destruct (sel (bal_row t a c) _) eqn:Hs; [done|]. simpl.
    by rewrite (sel_none _ _ _ Hs Hr) in Hb.
  - apply any_false_sel in Hany. rewrite Hany; simpl. view_eq.
    apply functional_extensionality. intros k'.
    exact (sel_bal_app (t, a, c) (t_balances (tx_db s.1)) now Hany k').
Qed.

Lemma sq_law_LockBalance t a c s :
  wpo (sq_LockBalance t a c) (λ r s', tx_view s'.1 = lv_ensure (t, a, c) (tx_view s.1) ∧
    lv_balance (tx_view s.1) (t, a, c) = (val r.1.1, val r.1.2)) s.
Proof.
  apply wp_bind. eapply wp_mono; [apply sq_law_EnsureBalanceRow| |done].
  intros [] s' Hs'. apply wp_bind, wp_select_one. intros r e Hr. unfold parse_balance.
  destruct (NewFromString (b_posted_debits r)) as [d|] eqn:Hd; [|by apply wp_throw].
  destruct (NewFromString (b_posted_credits r)) as [cr|] eqn:Hc; [|by apply wp_throw].
  apply wp_ret. split; [done|]. simpl.
  rewrite <- lv_balance_ensure, <- Hs'. unfold lv_balance, tx_view; simpl. rewrite Hr; simpl.
  unfold row_bal. by erewrite !text_val_parse.
Qed.

Lemma sq_law_UpdateBalance t a c d cr s :
  lv_bal (tx_view s.1) (t, a, c) ≠ None →
  wpo (sq_UpdateBalance t a c d cr) (λ _ s',
    tx_view s'.1 = lv_put_bal (t, a, c) (val d, val cr) (tx_view s.1)) s.
Proof.
  intros Hb. apply wp_update. intros now e. unfold tx_view; simpl. view_eq.
  apply functional_extensionality. intros [[t' a'] c']; simpl.
  rewrite sel_upd by done. case_bool_decide as Hk.
  - simplify_eq. simpl in Hb. destruct (sel _ _) as [r|] eqn:Hr; [|done]; simpl.
    apply sel_some in Hr as [_ ->]. unfold row_bal; simpl. by rewrite !text_val_String.
  - destruct (sel (bal_row t' a' c') _) as [r|] eqn:Hr; [|done]; simpl.
    destruct (bal_row t a c r) eqn:Hr2; [|done]. apply sel_some in Hr as [_ Hr].
    apply bal_row_self in Hr, Hr2. congruence.
Qed.

Lemma sq_law_InsertAccount a s :
  wpo (sq_InsertAccount a) (λ _ s', tx_view s'.1 = lv_add_acct a (tx_view s.1) ∧
    lv_acct (tx_view s.1) (acc_TenantID a) (acc_ID a) = None) s.
Proof.
  apply wp_insert. intros now e Hok. eqs.
  assert (Hn : sel (λ r, (a_tenant_id r =s acc_TenantID a) && (a_id r =s acc_ID a)) (t_accounts (tx_db s.1)) = None)
    by fresh_key.
  split; [|by unfold tx_view; simpl; rewrite Hn].
  unfold tx_view. view_eq.
  match goal with |- context [_ ++ [?row]] =>
    rewrite (sel_app_fput a_tenant_id a_id (λ r, acc_view (rowToAccount r)) _ row) by done end.
  unfold fput; simpl. extensionality t. extensionality k. do 3 f_equal.
  unfold acc_view, rowToAccount; simpl. by destruct (acc_AllowNegative a).
Qed.

Lemma sq_law_InsertFlowRun f s :
  wpo (sq_InsertFlowRun f) (λ _ s',
    tx_view s'.1 = lv_add_flow (fr_TenantID f) (fr_IdempotencyKey f) (fr_ID f) (tx_view s.1) ∧
    lv_flow (tx_view s.1) (fr_TenantID f) (fr_IdempotencyKey f) = None) s.
Proof.
  apply wp_insert. intros now e Hok. eqs.
  assert (Hn : sel (λ r, (f_tenant_id r =s fr_TenantID f) && (f_idempotency_key r =s fr_IdempotencyKey f))
                 (t_flows (tx_db s.1)) = None)
    by fresh_key.
  split; [|by unfold tx_view; simpl; rewrite Hn].
  unfold tx_view. view_eq.
  match goal with |- context [_ ++ [?row]] =>
    by rewrite (sel_app_fput f_tenant_id f_idempotency_key (λ r, (f_id r, f_status r)) _ row) end.
Qed.

Lemma sq_law_CompleteFlowRun t id s :
  wpo (sq_CompleteFlowRun t id) (λ _ s', tx_view s'.1 = lv_complete t id (tx_view s.1)) s.
Proof.
  apply wp_update. intros now e. unfold tx_view. view_eq.
  extensionality t'. extensionality k'. rewrite sel_upd by done.
  destruct (sel _ _) as [r|] eqn:Hr; [|done]; simpl.
  apply sel_some in Hr as [_ Hr]. eqs. subst.
  rewrite (andb_comm (f_id r =s id)). by destruct (_ && _).
Qed.

Lemma sq_law_InsertJournal j s :
  wpo (sq_InsertJournal j) (λ _ s', tx_view s'.1 = lv_add_journal (jview j) (tx_view s.1)) s.
Proof.
  apply wp_insert. intros now e _. unfold tx_view. view_eq.
  unfold row_journal, jview; simpl. by rewrite deref_nullString.
Qed.

Lemma sq_law_InsertEntry t eid jid a c dir amt s :
  wpo (sq_InsertEntry t eid jid a c dir amt) (λ _ s',
    tx_view s'.1 = lv_add_entry (mkPEntry t jid a c dir (val amt)) (tx_view s.1)) s.
Proof.
  apply wp_insert. intros now e _. unfold tx_view. view_eq.
  unfold row_entry; simpl. by rewrite text_val_String.
Qed.

Lemma sq_law_InsertFlowStep st s :
  wpo (sq_InsertFlowStep st) (λ _ s',
    tx_view s'.1 = lv_add_step (fs_TenantID st) (fs_FlowRunID st) (sview st) (tx_view s.1)) s.
Proof.
  apply wp_insert. intros now e _. unfold tx_view. view_eq.
  extensionality t. extensionality f. rewrite (list.filter_app _ (t_steps (tx_db s.1))), fmap_app.
  destruct ((t =s fs_TenantID st) && (f =s fs_FlowRunID st)) eqn:E.
  - eqs. subst. f_equal. rewrite filter_cons_True by (simpl; by rewrite !eqs_refl). simpl.
    unfold row_step, sview; simpl. by rewrite !deref_nullString.
  - rewrite (filter_cons_False _ (mkFlowStepRow _ _ _ _ _ _ _ _)); simpl; [by rewrite app_nil_r|].
    intros Hx. apply Is_true_true in Hx. eqs. subst. by rewrite !eqs_refl in E.
Qed.

Lemma sq_law_InsertOutbox o s :
  wpo (sq_InsertOutbox o) (λ _ s', tx_view s'.1 = lv_add_outbox (oview o) (tx_view s.1)) s.
Proof. apply wp_insert. intros now e _. unfold tx_view. view_eq. Qed.

Lemma sq_law_GetFlowSteps t f s :
  wpo (sq_GetFlowSteps t f) (λ l s',
    tx_view s'.1 = tx_view s.1 ∧ sview <$> l ≡ₚ lv_steps (tx_view s.1) t f) s.
Proof.
  apply wp_bind, wp_select_many. intros e. apply wp_ret. split; [done|].
  rewrite <- list_fmap_compose. simpl. apply fmap_Permutation, sql_order_by_perm.
Qed.

Lemma sq_law_InsertReservation r s :
  val (rs_CommittedAmount r) = 0%Qc → val (rs_ReleasedAmount r) = 0%Qc →
  wpo (sq_InsertReservation r) (λ _ s',
    tx_view s'.1 = lv_add_resv (rview r) (tx_view s.1) ∧
    lv_resv (tx_view s.1) (rs_TenantID r) (rs_ID r) = None ∧
    lv_resvk (tx_view s.1) (rs_TenantID r) (rs_IdempotencyKey r) = None) s.
Proof.
  intros Hc Hr. apply wp_insert. intros now e Hok. eqs.
  assert (Hn : sel (λ x, (v_tenant_id x =s rs_TenantID r) && (v_id x =s rs_ID r))
                 (t_reservations (tx_db s.1)) = None)
    by fresh_key.
  assert (Hk : sel (λ x, (v_tenant_id x =s rs_TenantID r) && (v_idempotency_key x =s rs_IdempotencyKey r))
                 (t_reservations (tx_db s.1)) = None)
    by fresh_key.
  split; [|by unfold tx_view; simpl; rewrite Hn, Hk].
  unfold tx_view. view_eq.
  - match goal with |- context [_ ++ [?row]] =>
      rewrite (sel_app_fput v_tenant_id v_id row_resv _ row) by done end.
    unfold row_resv at 2, rview; simpl. by rewrite !text_val_String, text_val_zero, Hc, Hr.
  - match goal with |- context [_ ++ [?row]] =>
      rewrite (sel_app_fput v_tenant_id v_idempotency_key row_resv _ row) by done end.
    unfold row_resv at 2, rview; simpl. by rewrite !text_val_String, text_val_zero, Hc, Hr.
Qed.

Lemma sq_law_LockReservation t id s :
  wpo (sq_LockReservation t id) (λ r s', tx_view s'.1 = tx_view s.1 ∧
    lv_resv (tx_view s.1) t id = Some (rview r) ∧ rs_ID r = id ∧ rs_TenantID r = t) s.
Proof.
  apply wp_bind, wp_no_rows_code, wp_select_one. intros r e Hr. apply wp_ret.
  rewrite rview_row. simpl. rewrite Hr. apply sel_some in Hr as [_ Hr]. by eqs.
Qed.

Lemma sq_law_GetReservationByIdempotency t k s :
  wpo (sq_GetReservationByIdempotency t k) (λ r s',
    tx_view s'.1 = tx_view s.1 ∧ rview <$> r = lv_resvk (tx_view s.1) t k) s.
Proof.
  apply wp_bind, wp_select_none. intros e. apply wp_ret. split; [done|].
  simpl. destruct (sel _ _) as [r|]; [|done]. simpl. by rewrite rview_row.
Qed.

Lemma sq_law_UpdateReservationAmounts t id o c r st s :
  lv_resv (tx_view s.1) t id ≠ None →
  wpo (sq_UpdateReservationAmounts t id o c r st) (λ _ s',
    tx_view s'.1 = lv_upd_resv t id (val o) (val c) (val r) st (tx_view s.1)) s.
Proof.
  intros _. apply wp_insert. intros now e _. unfold tx_view. view_eq;
    extensionality t'; extensionality k'; rewrite sel_upd by done;
    destruct (sel _ _) as [x|]; [|done| |done]; simpl; f_equal;
    unfold rv_update, row_resv; simpl;
    destruct ((v_tenant_id x =s t) && (v_id x =s id)); [|done| |done];
    unfold rv_amounts; simpl; by rewrite !text_val_String.
Qed.

#[export] Instance SqRepoTxLaws : RepoTxLaws D SqTx := {
  vw := tx_view;
  law_GetFlowByIdempotency := sq_law_GetFlowByIdempotency;
  law_GetAccount := sq_law_GetAccount;
  law_EnsureBalanceRow := sq_law_EnsureBalanceRow;
  law_LockBalance := sq_law_LockBalance;
  law_UpdateBalance := sq_law_UpdateBalance;
  law_InsertAccount := sq_law_InsertAccount;
  law_InsertFlowRun := sq_law_InsertFlowRun;
  law_CompleteFlowRun := sq_law_CompleteFlowRun;
  law_InsertJournal := sq_law_InsertJournal;
  law_InsertEntry := sq_law_InsertEntry;
  law_InsertFlowStep := sq_law_InsertFlowStep;
  law_InsertOutbox := sq_law_InsertOutbox;
  law_GetFlowSteps := sq_law_GetFlowSteps;
  law_InsertReservation := sq_law_InsertReservation;
  law_LockReservation := sq_law_LockReservation;
  law_GetReservationByIdempotency := sq_law_GetReservationByIdempotency;
  law_UpdateReservationAmounts := sq_law_UpdateReservationAmounts;
}.

End Laws.

Section StoreLaws.
Context {H : Host} {D : DecimalOps} {L : DecimalLaws D} {SE : SqlEngine D} {SL : SqlEngineLaws D SE}.

Lemma sq_law_Begin (s : DB * Env) :
  wp sq_BeginFlowTx (λ t s', s'.1 = s.1 ∧ tx_view t = db_view true s.1 ∧ lv_open (db_view true s.1) = true) (λ _ s', s'.1 = s.1) s.
Proof. destruct s as [db e]. unfold wp, sq_BeginFlowTx. by destruct (host_fault _). Qed.

Lemma sq_law_Commit (s : (DB * SqTx) * Env) :
  lv_open (tx_view s.1.2) = true →
  wp sq_Commit (λ _ s', db_view true s'.1.1 = tx_view s.1.2) (λ _ s', s'.1.1 = s.1.1) s.
Proof.
  destruct s as [[db [tdb []]] e]; [done|intros _].
  unfold wp, sq_Commit, sq_finalize; simpl. by destruct (host_fault _).
Qed.

Lemma sq_law_Rollback (s : (DB * SqTx) * Env) :
  wp sq_Rollback (λ _ s', s'.1.1 = s.1.1) (λ _ s', s'.1.1 = s.1.1) s.
Proof.
  destruct s as [[db [tdb done]] e]. unfold wp, sq_Rollback, sq_finalize; simpl.
  destruct done; [done|]. by destruct (host_fault _).
Qed.

#[export] Instance SqRepoStoreLaws : RepoStoreLaws D DB SqTx := {
  svw := db_view true;
  law_Begin := sq_law_Begin;
  law_Commit := sq_law_Commit;
  law_Rollback := sq_law_Rollback;
}.
End StoreLaws.

(** ** The statements outside the abstract ledger *)

Section Frames.
Context {H : Host} {D : DecimalOps} {L : DecimalLaws D} {SE : SqlEngine D} {SL : SqlEngineLaws D SE}.

Definition keeps (f : Z → DB → DB) : Prop := ∀ now db b, db_view b (f now db) = db_view b db.

Lemma frame_throw {A} e : view_frame db_view (A:=A) (throw e).
Proof. done. Qed.
Lemma frame_select_one {A} (f : DB → option A) : view_frame db_view (select_one f).
Proof. intros [db e] b. unfold select_one, statement. destruct (host_fault _); [done|]. by destruct (f db). Qed.
Lemma frame_select_many {A} (f : DB → list A) : view_frame db_view (select_many f).
Proof. intros [db e] b. unfold select_many, statement. by destruct (host_fault _). Qed.
Lemma frame_insert ok f : keeps f → view_frame db_view (sql_insert ok f).
Proof.
  intros Hf [db e] b. unfold sql_insert, statement. destruct (host_fault _); [done|].
  destruct (ok db); [apply Hf|done].
Qed.
Lemma frame_update f : keeps f → view_frame db_view (sql_update f).
Proof. intros Hf [db e] b. unfold sql_update, statement. destruct (host_fault _); [done|apply Hf]. Qed.
Lemma frame_statement {A} (f : Z → DB → result error (A * DB)) :
  (∀ now db a db' b, f now db = Ok (a, db') → db_view b db' = db_view b db) → view_frame db_view (statement f).
Proof.
  intros Hf [db e] b. unfold statement. destruct (host_fault _); [done|].
  destruct (f _ db) as [[a db']|er] eqn:Hr; [by eapply Hf|done].
Qed.

(** A transaction statement that only touches framed tables. *)
Lemma frame_on_tx {A} (m : M error (DB * Env) A) : view_frame db_view m → tx_frame (on_tx m).
Proof.
  intros Hm [[db done] e]. specialize (Hm (db, e) (negb done)). unfold wp, on_tx, vw, SqRepoTxLaws, tx_view; simpl in *.
  destruct done; [done|]. by destruct (m (db, e)) as [[a|er] [db' e']].
Qed.
Lemma tx_frame_none {A} (m : M error (SqTx * Env) A) :
  (∀ s, vw (m s).2.1 = vw s.1) → tx_frame (no_rows_none m).
Proof.
  intros Hm s. specialize (Hm s). unfold wp, no_rows_none.
  by destruct (m s) as [[a|[]] s'].
Qed.
Lemma on_tx_view {A} (m : M error (DB * Env) A) : view_frame db_view m → ∀ s : SqTx * Env, vw (on_tx m s).2.1 = vw s.1.
Proof.
  intros Hm [[db done] e]. specialize (Hm (db, e) (negb done)).
  unfold on_tx, vw, SqRepoTxLaws, tx_view; simpl in *.
  destruct done; [done|]. by destruct (m (db, e)) as [[a|er] [db' e']].
Qed.

Lemma st_frame_db {A} (m : M error (DB * Env) A) : view_frame db_view m → st_frame m.
Proof. intros Hm s. apply (Hm s true). Qed.
End Frames.

Ltac keeps_outbox :=
  let now := fresh in let db := fresh in let b := fresh in
  intros now db b; unfold db_view; simpl; f_equal; unfold upd;
  rewrite <- list_fmap_compose; apply list_fmap_ext; intros ? r _; simpl; by destruct (_ =s _).

(** Frames by the shape of the operation. *)
Ltac sq_frame :=
  repeat first
  [ apply st_frame_db | apply tx_frame_bind; [|intros ?] | apply tx_frame_ret | apply tx_frame_none, on_tx_view
  | apply tx_frame_code | apply frame_on_tx | apply frame_bind; [|intros ?] | apply frame_ret
  | apply frame_throw | apply frame_no_rows_none | apply frame_no_rows_code
  | apply frame_select_one | apply frame_select_many
  | apply frame_insert; intros ? ? ?; try done | apply frame_update; first [by intros ? ? ?|keeps_outbox]
  | match goal with |- view_frame db_view (match ?x with _ => _ end) => destruct x end ].

Section FrameLaws.
Context {H : Host} {D : DecimalOps} {L : DecimalLaws D} {SE : SqlEngine D} {SL : SqlEngineLaws D SE}.

Lemma frame_parse_balance r : view_frame db_view (parse_balance r).
Proof. unfold parse_balance. sq_frame. Qed.

Lemma sq_st_GetAccount t id (s : DB * Env) :
  wpo (sqs_GetAccount t id) (λ a _, lv_acct (db_view true s.1) t id = Some (acc_view a)) s.
Proof.
  destruct s as [db e]. unfold wp, sqs_GetAccount, mbind, M_bind, no_rows_code, q_GetAccount, select_one, statement; simpl.
  destruct (host_fault _); [done|]. by destruct (sel _ _).
Qed.

Lemma sq_st_GetBalance t a c (s : DB * Env) :
  wpo (sqs_GetBalance t a c) (λ r _, lv_balance (db_view true s.1) (t, a, c) = (val r.1.1, val r.1.2)) s.
Proof.
  destruct s as [db e].
  unfold wp, sqs_GetBalance, mbind, M_bind, no_rows_none, q_GetBalance, select_one, statement, lv_balance; simpl.
  destruct (host_fault _); [done|]. destruct (sel _ _) as [r|]; simpl; [|by rewrite val_zero].
  unfold parse_balance, row_bal. destruct (NewFromString (b_posted_debits r)) as [d|] eqn:Hd; [|done].
  destruct (NewFromString (b_posted_credits r)) as [k|] eqn:Hk; [|done].
  simpl. by rewrite (text_val_parse _ _ Hd), (text_val_parse _ _ Hk).
Qed.

#[export] Instance SqRepoFrameLaws : RepoFrameLaws D DB SqTx.
Proof.
  split; intros; unfold tx_GetReconBatchByIdempotency; simpl.
  all: try apply sq_st_GetAccount; try apply sq_st_GetBalance.
  all: try (sq_frame; done).
  all: sq_frame; try apply frame_parse_balance.
  all: apply frame_statement; intros now db a' db' b Hf; 
    cbn zeta in Hf; repeat case_match; try done; by injection Hf as <- <-.
Qed.
End FrameLaws.

Section Unique.
Context {H : Host} {D : DecimalOps} {L : DecimalLaws D} {SE : SqlEngine D} {SL : SqlEngineLaws D SE}.

#[export] Instance SqOutboxUnique : OutboxUnique D SqTx.
Proof.
  intros o s. apply wp_insert. intros now e Hok. simpl.
  rewrite <- list_fmap_compose, list_elem_of_fmap. intros (r & Hr & Hin).
  repeat (apply andb_true_iff in Hok as [Hok ?]).
  repeat match goal with Hk : negb (any _ _) = true |- _ => apply negb_true_iff in Hk; rewrite any_false in Hk end.
  match goal with Hk : ∀ x, x ∈ _ → (o_idempotency_key x =s _) = false |- _ => specialize (Hk r Hin); eqs end.
  by destruct r.
Qed.
End Unique.
