(* ===== verification/Service.v ===== *)
(** * internal/service: the server, its transactions and its errors

    server.go ([Server], [runInTx]) and errors.go ([ToConnectError]), and the
    request and response messages of ledger.proto that the flow code uses.
    [with_tx] is the shape every writing handler has: begin, run the body,
    commit; an error of the body or of the commit runs the deferred
    rollback. *)

From S2P Require Import Prelude Money Ledger Repo Contract.
From stdpp Require Import base gmap strings list numbers.

(** ** Messages *)

(** Proto enumerations are open: any number can arrive. *)
Definition DIRECTION_DEBIT : Z := 1.
Definition DIRECTION_CREDIT : Z := 2.
Definition FLOW_STATUS_RUNNING : Z := 1.
Definition FLOW_STATUS_COMPLETED : Z := 2.
Definition FLOW_STATUS_FAILED : Z := 3.

Record PbEntry := mkPbEntry {
  ent_AccountId : string; ent_Currency : string; ent_Direction : Z; ent_Amount : string }.
Record PbJournal := mkPbJournal { jn_EventId : string; jn_Entries : list PbEntry }.
Record PbStep := mkPbStep { st_StepId : string; st_Journal : option PbJournal }.

Record ExecuteFlowRequest := mkExecuteFlowRequest {
  ef_TenantId : string; ef_FlowType : string; ef_IdempotencyKey : string;
  ef_SourceService : string; ef_ActorId : string; ef_Metadata : option Meta; ef_Steps : list PbStep }.
Record FlowStepResult := mkFlowStepResult {
  sr_StepId : string; sr_Status : string; sr_JournalId : string; sr_ErrorCode : string }.
Record ExecuteFlowResponse := mkExecuteFlowResponse {
  er_FlowRunId : string; er_Status : Z; er_Steps : list FlowStepResult }.

(** A getter on a nil message returns the zero value. *)
Definition GetEventId (j : option PbJournal) : string := match j with Some j => jn_EventId j | None => "" end.
Definition GetEntries (j : option PbJournal) : list PbEntry := match j with Some j => jn_Entries j | None => [] end.

(** [structToMap], [mapToStruct] *)
Definition structToMap (m : option Meta) : Meta := match m with Some m => m | None => ∅ end.
Definition mapToStruct (m : Meta) : option Meta := if bool_decide (m = ∅) then None else Some m.

(** ** errors.go *)

Definition connect_code (c : DomainCode) : ConnectCode :=
  match c with
  | CodeInsufficientFunds | CodeInvalidAccountStatus | CodeReservationClosed
  | CodeDiscrepancyClosed => CodeFailedPrecondition
  | CodeAccountNotFound | CodeReservationNotFound | CodeFXRateNotFound
  | CodeDiscrepancyNotFound | CodeReconBatchNotFound => CodeNotFound
  | CodeAccountCurrencyMismatch | CodeUnbalancedJournal | CodeReservationAmountExceeds
  | CodeReservationCurrencyMismatch | CodeFXAmountMismatch => CodeInvalidArgument
  | CodeDuplicateIdempotencyKey | CodeFlowAlreadyCompleted => CodeAlreadyExists
  | CodeFlowConflict | CodeSerializationRetryExhausted => CodeAborted
  | CodeUnsupportedOperation | CodeFlowTooLarge => CodeInternal
  end.

Definition ToConnectError (e : error) : error :=
  match as_domain e with
  | Some c => ErrConnect (connect_code c) (Some c)
  | None => ErrConnect CodeInternal None
  end.

(** [return nil, ToConnectError(err)] *)
Definition rpc {S A} (m : M error S A) : M error S A := λ s,
  match m s with
  | (Err e, s') => (Err (ToConnectError e), s')
  | r => r
  end.

(** ** server.go *)

Section Server.
Context {D : DecimalOps} {S T : Type} {R : RepoTx D T} {ST : RepoStore D S T}.

Definition with_tx {A} (body : M error (T * Env) A) : M error (S * Env) A := λ s,
  match st_BeginFlowTx s with
  | (Err e, s1) => (Err e, s1)
  | (Ok t, (st, env)) =>
      match body (t, env) with
      | (Err e, (t', env')) =>
          let '(_, ((st', _), env'')) := tx_Rollback ((st, t'), env') in (Err e, (st', env''))
      | (Ok a, (t', env')) =>
          match tx_Commit ((st, t'), env') with
          | (Ok _, ((st', _), env'')) => (Ok a, (st', env''))
          | (Err e, s2) => let '(_, ((st', _), env'')) := tx_Rollback s2 in (Err e, (st', env''))
          end
      end
  end.

(** [runInTx] rolls back when [fn] fails and returns what [Commit] returns. *)
Definition runInTx (fn : M error (T * Env) unit) : M error (S * Env) unit := λ s,
  match st_BeginFlowTx s with
  | (Err e, s1) => (Err e, s1)
  | (Ok t, (st, env)) =>
      match fn (t, env) with
      | (Err e, (t', env')) =>
          let '(_, ((st', _), env'')) := tx_Rollback ((st, t'), env') in (Err e, (st', env''))
      | (Ok _, (t', env')) =>
          let '(res, ((st', _), env'')) := tx_Commit ((st, t'), env') in (res, (st', env''))
      end
  end.
End Server.

(** ** What a transaction does to the store *)

Section WithTx.
Context {D : DecimalOps} {L : DecimalLaws D} {S T : Type} {R : RepoTx D T} {RL : RepoTxLaws D T}
  {ST : RepoStore D S T} {SL : RepoStoreLaws D S T}.

(** If the body, started on the store's view, ends well in a view that
    satisfies [Q], so does the store after the commit; any error leaves the
    store as it was. *)
Lemma wp_with_tx {A} (body : M error (T * Env) A) (Q : A → LView → Prop) (s : S * Env) :
  (∀ t e, vw t = svw s.1 → lv_open (svw s.1) = true →
     wpo body (λ a s', Q a (vw s'.1) ∧ lv_open (vw s'.1) = true) (t, e)) →
  wp (with_tx body) (λ a s', Q a (svw s'.1)) (λ _ s', s'.1 = s.1) s.
Proof.
  intros Hbody. unfold wp at 1, with_tx. pose proof (law_Begin s) as HB. unfold wp in HB.
  destruct (st_BeginFlowTx s) as [[t|er] [st env]]; [|done].
  destruct HB as (Hst & Ht & Ho); simpl in Hst; subst st.
  specialize (Hbody t env Ht Ho). unfold wp in Hbody.
  destruct (body (t, env)) as [[a|er] [t' env']]; simpl in Hbody.
  - destruct Hbody as [HQ Ho']. pose proof (law_Commit ((s.1, t'), env') Ho') as HC.
    unfold wp in HC; simpl in HC.
    destruct (tx_Commit _) as [[[]|er] [[st' t''] env'']]; simpl in *; [by rewrite HC|].
    pose proof (law_Rollback ((st', t''), env'')) as HR. unfold wp in HR.
    destruct (tx_Rollback _) as [[[]|er'] [[st2 t2] env2]]; simpl in *; congruence.
  - pose proof (law_Rollback ((s.1, t'), env')) as HR. unfold wp in HR.
    destruct (tx_Rollback _) as [[[]|er'] [[st2 t2] env2]]; simpl in *; congruence.
Qed.

Lemma wp_runInTx (body : M error (T * Env) unit) (Q : LView → Prop) (s : S * Env) :
  (∀ t e, vw t = svw s.1 → lv_open (svw s.1) = true →
     wpo body (λ a s', Q (vw s'.1) ∧ lv_open (vw s'.1) = true) (t, e)) →
  wp (runInTx body) (λ _ s', Q (svw s'.1)) (λ _ s', s'.1 = s.1) s.
Proof.
  intros Hbody. unfold wp at 1, runInTx. pose proof (law_Begin s) as HB. unfold wp in HB.
  destruct (st_BeginFlowTx s) as [[t|er] [st env]]; [|done].
  destruct HB as (Hst & Ht & Ho); simpl in Hst; subst st.
  specialize (Hbody t env Ht Ho). unfold wp in Hbody.
  destruct (body (t, env)) as [[a|er] [t' env']]; simpl in Hbody.
  - destruct Hbody as [HQ Ho']. pose proof (law_Commit ((s.1, t'), env') Ho') as HC.
    unfold wp in HC; simpl in HC.
    destruct (tx_Commit _) as [[[]|er] [[st' t''] env'']]; simpl in *; [by rewrite HC|done].
  - pose proof (law_Rollback ((s.1, t'), env')) as HR. unfold wp in HR.
    destruct (tx_Rollback _) as [[[]|er'] [[st2 t2] env2]]; simpl in *; congruence.
Qed.

Lemma wp_rpc {X A} (m : M error X A) (Q : A → X → Prop) (R0 : error → X → Prop) s :
  wp m Q (λ e s', R0 (ToConnectError e) s') s → wp (rpc m) Q R0 s.
Proof. unfold wp, rpc. by destruct (m s) as [[a|er] s']. Qed.
End WithTx.
