(* ===== verification/Flow.v ===== *)
(** * internal/service/execute_flow.go, post_journal.go: atomic flows

    [executeFlowInTx] is the orchestrator body against an open transaction;
    [ExecuteFlow] opens and commits the transaction; [PostJournal] is a flow
    of one step.  The balance state the body keeps per (account, currency)
    key is a map of pointers in Go; here it is a map updated in place. *)

From S2P Require Import Prelude Money Ledger Repo Contract Service.
From stdpp Require Import base gmap strings list numbers sorting.
From Stdlib Require Import Qcanon.

Abbreviation key := (string * string)%type.

(** ** Ordering the balance keys *)

(** [ordered[i].acct < ordered[j].acct], then [ccy]. *)
Definition key_leb (x y : key) : bool :=
  if negb (x.1 =s y.1) then String.ltb x.1 y.1 else String.leb x.2 y.2.

Definition collect_key (acc : gset key * list key) (k : key) : gset key * list key :=
  if bool_decide (k ∈ acc.1) then acc else ({[k]} ∪ acc.1, acc.2 ++ [k]).
Definition unique_keys (l : list key) : list key := (foldl collect_key (∅, []) l).2.

Section Flow.
Context {H : Host} {D : DecimalOps}.

(** ** stepsFromProto *)

Definition entryFromProto (acc : list Entry) (e : PbEntry) : result error (list Entry) :=
  match ParseAmount (ent_Amount e) with
  | Err _ => Err (ErrDomain CodeUnbalancedJournal)
  | Ok amt =>
      let dir := if (ent_Direction e =? DIRECTION_CREDIT)%Z then DirectionCredit else DirectionDebit in
      Ok (acc ++ [mkEntry (ent_AccountId e) (ent_Currency e) dir amt])
  end.

Definition stepFromProto (acc : list StepInput) (s : PbStep) : result error (list StepInput) :=
  match foldR entryFromProto (GetEntries (st_Journal s)) [] with
  | Err e => Err e
  | Ok es =>
      Ok (acc ++ [mkStepInput (st_StepId s)
        (mkJournal "" "" "" (GetEventId (st_Journal s)) "" "" "" ∅ es time_zero)])
  end.

Definition stepsFromProto (l : list PbStep) : result error (list StepInput) := foldR stepFromProto l [].

(** ** Responses *)

Definition flowStatusToProto (s : FlowStatus) : Z :=
  if s =s FlowCompleted then FLOW_STATUS_COMPLETED
  else if s =s FlowFailed then FLOW_STATUS_FAILED else FLOW_STATUS_RUNNING.

Definition stepResult (s : FlowStep) : FlowStepResult :=
  mkFlowStepResult (fs_StepID s) (fs_Status s) (fs_JournalID s) (fs_ErrorCode s).

Definition flowRunToResponse (id : string) (st : FlowStatus) (steps : list FlowStep) : ExecuteFlowResponse :=
  mkExecuteFlowResponse id (flowStatusToProto st) (stepResult <$> steps).

(** ** The orchestrator *)

Record balState := mkBalState { bal_acct : Account; bal_debits : dec; bal_credits : dec }.

Definition entry_key (e : Entry) : key := (en_AccountID e, en_Currency e).
Definition step_entries (st : StepInput) : list Entry := jr_Entries (si_Journal st).

(** Collect unique (account, currency) keys deterministically. *)
Definition orderedKeys (steps : list StepInput) : list key :=
  merge_sort (λ x y, key_leb x y) (unique_keys (entry_key <$> (steps ≫= step_entries))).

Context {T : Type} {R : RepoTx D T}.
Abbreviation TxM A := (M error (T * Env) A).

(** One turn of the loop that loads and locks the balances. *)
Definition lockKey (tenant : string) (state : gmap key balState) (k : key) : TxM (gmap key balState) :=
  acc ← tx_GetAccount tenant k.1;
  throw_if (negb (acc_Status acc =s AccountActive)) (ErrDomain CodeInvalidAccountStatus);;
  throw_if (negb (acc_Currency acc =s k.2)) (ErrDomain CodeAccountCurrencyMismatch);;
  '(d, c, _) ← tx_LockBalance tenant k.1 k.2;
  mret (<[k := mkBalState acc d c]> state).

Definition bumpBalance (dir : Direction) (amt : dec) (b : balState) : balState :=
  if dir =s DirectionDebit then mkBalState (bal_acct b) (dAdd (bal_debits b) amt) (bal_credits b)
  else mkBalState (bal_acct b) (bal_debits b) (dAdd (bal_credits b) amt).

(** One turn of the entry loop; a key missing from the map is a nil pointer. *)
Definition postEntry (tenant journalID : string) (state : gmap key balState) (e : Entry)
    : TxM (gmap key balState) :=
  entryID ← NewID;
  tx_InsertEntry tenant entryID journalID (en_AccountID e) (en_Currency e) (en_Direction e) (en_Amount e);;
  match state !! entry_key e with
  | None => throw ErrPanic
  | Some b => mret (<[entry_key e := bumpBalance (en_Direction e) (en_Amount e) b]> state)
  end.

Definition stepPayload (flowType stepID journalID : string) : Meta :=
  list_to_map [("flow_type", flowType); ("step_id", stepID); ("journal_id", journalID)].

(** One turn of the step loop: journal, entries, flow step, outbox event. *)
Definition applyStep (r : ExecuteFlowRequest) (flowRunID : string) (meta : Meta)
    (acc : gmap key balState * list FlowStep) (st : StepInput) : TxM (gmap key balState * list FlowStep) :=
  let '(state, results) := acc in
  match Journal_Validate (si_Journal st) with
  | Err _ => throw (ErrDomain CodeUnbalancedJournal)
  | Ok _ =>
      journalID ← NewID;
      now ← Now;
      tx_InsertJournal (mkJournal journalID (ef_TenantId r) flowRunID (jr_EventID (si_Journal st))
        (ef_SourceService r) (ef_FlowType r) (ef_ActorId r) meta (step_entries st) now);;
      state' ← foldM (postEntry (ef_TenantId r) journalID) (step_entries st) state;
      stepRowID ← NewID;
      now2 ← Now;
      let fs := mkFlowStep stepRowID (ef_TenantId r) flowRunID (si_StepID st) StepCompleted journalID "" now2 in
      tx_InsertFlowStep fs;;
      outboxID ← NewID;
      now3 ← Now;
      tx_InsertOutbox (mkOutboxEvent outboxID (ef_TenantId r) flowRunID
        (ef_FlowType r +:+ "." +:+ si_StepID st) (flowRunID +:+ ":" +:+ si_StepID st)
        (stepPayload (ef_FlowType r) (si_StepID st) journalID) now3);;
      mret (state', results ++ [fs])
  end.

(** One turn of the last loop: overdraft check, then persist. *)
Definition settleKey (tenant : string) (state : gmap key balState) (_ : unit) (k : key) : TxM unit :=
  match state !! k with
  | None => throw ErrPanic
  | Some b =>
      throw_if (negb (acc_AllowNegative (bal_acct b)) &&
                IsNegative (NormalizedBalance (acc_NormalBalance (bal_acct b)) (bal_debits b) (bal_credits b)))
               (ErrDomain CodeInsufficientFunds);;
      tx_UpdateBalance tenant k.1 k.2 (bal_debits b) (bal_credits b)
  end.

(** The path of a new idempotency key. *)
Definition runNewFlow (r : ExecuteFlowRequest) (steps : list StepInput) : TxM ExecuteFlowResponse :=
  flowRunID ← NewID;
  let meta := structToMap (ef_Metadata r) in
  now ← Now;
  tx_InsertFlowRun (mkFlowRun flowRunID (ef_TenantId r) (ef_FlowType r) (ef_IdempotencyKey r)
    (ef_SourceService r) (ef_ActorId r) FlowRunning meta now None None []);;
  let ordered := orderedKeys steps in
  state ← foldM (lockKey (ef_TenantId r)) ordered ∅;
  '(state', results) ← foldM (applyStep r flowRunID meta) steps (state, []);
  foldM (settleKey (ef_TenantId r) state') ordered tt;;
  tx_CompleteFlowRun (ef_TenantId r) flowRunID;;
  mret (flowRunToResponse flowRunID FlowCompleted results).

Definition executeFlowInTx (r : ExecuteFlowRequest) : TxM ExecuteFlowResponse :=
  steps ← lift_result (stepsFromProto (ef_Steps r));
  existing ← tx_GetFlowByIdempotency (ef_TenantId r) (ef_IdempotencyKey r);
  match existing with
  | Some f =>
      throw_if (negb (fr_Status f =s FlowCompleted)) (ErrDomain CodeFlowConflict);;
      existingSteps ← tx_GetFlowSteps (ef_TenantId r) (fr_ID f);
      mret (flowRunToResponse (fr_ID f) (fr_Status f) existingSteps)
  | None => runNewFlow r steps
  end.

(** ** The handlers *)

Context {S : Type} {ST : RepoStore D S T}.

Definition ExecuteFlow (r : ExecuteFlowRequest) : M error (S * Env) ExecuteFlowResponse :=
  rpc (with_tx (executeFlowInTx r)).

Record PostJournalRequest := mkPostJournalRequest {
  pj_TenantId : string; pj_IdempotencyKey : string; pj_SourceService : string; pj_ActorId : string;
  pj_Journal : option PbJournal }.
Record PostJournalResponse := mkPostJournalResponse { pjr_JournalId : string; pjr_FlowRunId : string }.

Definition PostJournal (r : PostJournalRequest) : M error (S * Env) PostJournalResponse :=
  res ← ExecuteFlow (mkExecuteFlowRequest (pj_TenantId r) "POST_JOURNAL" (pj_IdempotencyKey r)
          (pj_SourceService r) (pj_ActorId r) None [mkPbStep "post" (pj_Journal r)]);
  mret (mkPostJournalResponse
    (match er_Steps res with s :: _ => sr_JournalId s | [] => "" end) (er_FlowRunId res)).

End Flow.
