(* ===== verification/FlowLaws.v ===== *)
(** * What the orchestrator does to the ledger

    [flow_post] is the abstract effect of a new flow: the run is recorded as
    completed, every step appends one journal, its entries, one flow step and
    one outbox event, and every touched balance grows by the totals of its
    entries.  [executeFlowInTx_new] shows that the orchestrator refines it on
    any backend that keeps the storage contract; the rest of the file draws
    the accounting consequences. *)

From S2P Require Import Prelude Money Ledger Repo Contract Service Flow.
From stdpp Require Import base gmap strings list numbers sorting.
From Stdlib Require Import Qcanon FunctionalExtensionality.

Lemma elem_of_snoc {A} (x y : A) l : x ∈ l ++ [y] ↔ x ∈ l ∨ x = y.
Proof. by rewrite elem_of_app, list_elem_of_singleton. Qed.

Section Totals.
Context {D : DecimalOps} {L : DecimalLaws D}.

Definition add2 (x y : Qc * Qc) : Qc * Qc := (x.1 + y.1, x.2 + y.2)%Qc.

Definition entry_debit (k : key) (e : Entry) : Qc :=
  if bool_decide (entry_key e = k) && (en_Direction e =s DirectionDebit) then val (en_Amount e) else 0%Qc.
Definition entry_credit (k : key) (e : Entry) : Qc :=
  if bool_decide (entry_key e = k) && negb (en_Direction e =s DirectionDebit) then val (en_Amount e) else 0%Qc.

(** Total debits and credits of the entries posted to a key. *)
Definition totals (k : key) (es : list Entry) : Qc * Qc := (Qcsum (entry_debit k) es, Qcsum (entry_credit k) es).

Lemma add2_zero x : add2 x (0, 0)%Qc = x.
Proof. destruct x; unfold add2; simpl. f_equal; ring. Qed.

Lemma totals_nil k : totals k [] = (0, 0)%Qc.
Proof. done. Qed.

Lemma totals_app k l1 l2 : totals k (l1 ++ l2) = add2 (totals k l1) (totals k l2).
Proof. unfold totals, add2; simpl. by rewrite !Qcsum_app. Qed.

Lemma add2_assoc x y z : add2 (add2 x y) z = add2 x (add2 y z).
Proof. unfold add2; simpl. f_equal; ring. Qed.

(** What a pointer of the balance map holds. *)
Definition bal_val (b : balState) : Qc * Qc := (val (bal_debits b), val (bal_credits b)).

Lemma bal_val_bump b e k :
  entry_key e = k →
  bal_val (bumpBalance (en_Direction e) (en_Amount e) b) = add2 (bal_val b) (totals k [e]).
Proof.
  intros Hk. unfold bumpBalance, bal_val, totals, add2, entry_debit, entry_credit; simpl.
  rewrite (bool_decide_eq_true_2 (entry_key e = k)) by done.
  destruct (en_Direction e =s DirectionDebit); simpl; rewrite val_add; f_equal; ring.
Qed.

Lemma totals_other e k : entry_key e ≠ k → totals k [e] = (0, 0)%Qc.
Proof.
  intros Hk. unfold totals, entry_debit, entry_credit; simpl.
  rewrite (bool_decide_eq_false_2 (entry_key e = k)) by done. simpl. f_equal; ring.
Qed.
End Totals.

(** ** The deterministic order of the keys *)

Lemma collect_key_spec l :
  NoDup (unique_keys l) ∧ ∀ k, k ∈ unique_keys l ↔ k ∈ l.
Proof.
  unfold unique_keys.
  enough (Hgen : ∀ acc : gset key * list key, NoDup acc.2 → (∀ k, k ∈ acc.1 ↔ k ∈ acc.2) →
    let r := foldl collect_key acc l in NoDup r.2 ∧ ∀ k, k ∈ r.2 ↔ k ∈ acc.2 ∨ k ∈ l).
  { destruct (Hgen (∅, []) (NoDup_nil_2) ltac:(set_solver)) as [? Hk]. split; [done|].
    intros k. rewrite Hk. set_solver. }
  induction l as [|x l IH]; intros acc Hn Hs; simpl; [set_solver|].
  unfold collect_key at 2 4. case_bool_decide as Hx.
  - destruct (IH acc Hn Hs) as [? Hk]. split; [done|]. intros k. rewrite Hk. set_solver.
  - destruct (IH ({[x]} ∪ acc.1, acc.2 ++ [x])) as [? Hk]; simpl.
    + apply NoDup_app. split_and!; [done| |apply NoDup_singleton]. set_solver.
    + set_solver.
    + split; [done|]. intros k. rewrite Hk. set_solver.
Qed.

Lemma key_leb_spec x y :
  key_leb x y = true ↔ (x.1 ≠ y.1 ∧ String.leb x.1 y.1 = true) ∨ (x.1 = y.1 ∧ String.leb x.2 y.2 = true).
Proof.
  unfold key_leb. destruct (bool_decide_reflect (x.1 = y.1)) as [He|He]; simpl.
  - naive_solver.
  - unfold String.ltb, String.leb. destruct (String.compare x.1 y.1) eqn:Hc; [|naive_solver|naive_solver].
    by apply String.compare_eq_iff in Hc.
Qed.

#[export] Instance key_leb_total : Total (λ x y, key_leb x y).
Proof.
  intros x y. rewrite !Is_true_true, !key_leb_spec.
  destruct (String.leb_total x.1 y.1), (String.leb_total x.2 y.2), (decide (x.1 = y.1)); naive_solver.
Qed.

#[export] Instance key_leb_trans : Transitive (λ x y, key_leb x y).
Proof.
  intros x y z. rewrite !Is_true_true, !key_leb_spec.
  assert (Ht : ∀ a b c, String.leb a b = true → String.leb b c = true → String.leb a c = true).
  { intros a b c H1 H2. apply Is_true_true. apply (transitivity (R:=String.le) (y:=b)); by apply Is_true_true. }
  intros [[Hn1 H1]|[E1 H1]] [[Hn2 H2]|[E2 H2]].
  - left. split; [|by eapply Ht]. intros E. rewrite E in H1. apply Hn2. symmetry. by apply String.leb_antisym.
  - left. rewrite <- E2. done.
  - left. rewrite E1. done.
  - right. split; [congruence|by eapply Ht].
Qed.

#[export] Instance key_leb_antisym : AntiSymm (=) (λ x y, key_leb x y).
Proof.
  intros [a1 c1] [a2 c2]. rewrite !Is_true_true, !key_leb_spec; simpl.
  intros [[Hn1 H1]|[E1 H1]] [[Hn2 H2]|[E2 H2]]; try congruence.
  - destruct Hn1. by apply String.leb_antisym.
  - f_equal; [done|]. by apply String.leb_antisym.
Qed.

Section Ordered.
Context {D : DecimalOps}.

Lemma orderedKeys_perm steps : orderedKeys steps ≡ₚ unique_keys (entry_key <$> (steps ≫= step_entries)).
Proof. apply merge_sort_Permutation. Qed.

Lemma elem_of_orderedKeys steps k :
  k ∈ orderedKeys steps ↔ ∃ e, e ∈ steps ≫= step_entries ∧ entry_key e = k.
Proof.
  rewrite orderedKeys_perm, (proj2 (collect_key_spec _)), list_elem_of_fmap. naive_solver.
Qed.

Lemma NoDup_orderedKeys steps : NoDup (orderedKeys steps).
Proof. rewrite orderedKeys_perm. apply collect_key_spec. Qed.

(** C27. Deadlock freedom of the lock order: the balance keys of a flow are
    locked without repetition, in an order that is sorted and depends only on
    which keys the flow touches, not on how its steps and entries are
    arranged, so that any two flows take their common locks in one global
    order. *)
Theorem orderedKeys_canonical (steps : list StepInput) :
  NoDup (orderedKeys steps) ∧
  StronglySorted (λ x y, key_leb x y) (orderedKeys steps) ∧
  (∀ k, k ∈ orderedKeys steps ↔ ∃ e, e ∈ steps ≫= step_entries ∧ entry_key e = k) ∧
  ∀ steps', (∀ k, k ∈ entry_key <$> (steps ≫= step_entries) ↔ k ∈ entry_key <$> (steps' ≫= step_entries)) →
            orderedKeys steps' = orderedKeys steps.
Proof.
  split_and!; [apply NoDup_orderedKeys|apply (StronglySorted_merge_sort _)|apply elem_of_orderedKeys|].
  intros steps' Hk. apply (StronglySorted_unique (λ x y, key_leb x y)).
  1,2: apply (StronglySorted_merge_sort _).
  apply NoDup_Permutation; [apply NoDup_orderedKeys..|]. intros k.
  rewrite !orderedKeys_perm, !(proj2 (collect_key_spec _)). symmetry. apply Hk.
Qed.
End Ordered.

(** ** The abstract effect of a flow *)

Section Effect.
Context {D : DecimalOps} {L : DecimalLaws D}.
Implicit Types (v : LView) (r : ExecuteFlowRequest) (ks : list key).

(** A step with the journal id it got. *)
Abbreviation doneT := (list (StepInput * string)).

Definition pentry (t j : string) (e : Entry) : PEntry :=
  mkPEntry t j (en_AccountID e) (en_Currency e) (en_Direction e) (val (en_Amount e)).
Definition done_entries (t : string) (x : StepInput * string) : list PEntry := pentry t x.2 <$> step_entries x.1.
Definition done_journal (t run : string) (x : StepInput * string) : JView :=
  mkJView t x.2 (jr_EventID (si_Journal x.1)) run.
Definition done_step (x : StepInput * string) : SView := mkSView (si_StepID x.1) StepCompleted x.2 "".
Definition done_outbox r (run : string) (x : StepInput * string) : OView :=
  mkOView (ef_TenantId r) run (ef_FlowType r +:+ "." +:+ si_StepID x.1) (run +:+ ":" +:+ si_StepID x.1).

(** Journals, entries, steps and outbox events of the steps done. *)
Definition apply_view r (run : string) (l : doneT) v : LView :=
  let t := ef_TenantId r in
  mkLView (lv_acct v) (lv_bal v) (lv_flow v)
    (fput (lv_steps v) t run (lv_steps v t run ++ (done_step <$> l)))
    (lv_journals v ++ (done_journal t run <$> l))
    (lv_entries v ++ (l ≫= done_entries t))
    (lv_outbox v ++ (done_outbox r run <$> l)) (lv_resv v) (lv_resvk v) (lv_open v).

(** The keys of [ks] get a row, credited with the totals of [es]. *)
Definition settled (t : string) ks (es : list Entry) v : LView :=
  lv_set_bal (λ k, if (k.1.1 =s t) && bool_decide ((k.1.2, k.2) ∈ ks)
                   then Some (add2 (lv_balance v k) (totals (k.1.2, k.2) es)) else lv_bal v k) v.

Definition flow_post r (run : string) (l : doneT) v : LView :=
  let steps := l.*1 in
  lv_complete (ef_TenantId r) run
    (settled (ef_TenantId r) (orderedKeys steps) (steps ≫= step_entries)
      (apply_view r run l (lv_add_flow (ef_TenantId r) (ef_IdempotencyKey r) run v))).

(** What the flow checked of an account it touches. *)
Definition acct_ok (t : string) v (k : key) (a : Account) : Prop :=
  lv_acct v t k.1 = Some (acc_view a) ∧ acc_Status a = AccountActive ∧ acc_Currency a = k.2.

Definition normalized (a : Account) (b : Qc * Qc) : Qc :=
  (if acc_NormalBalance a =s NormalCredit then b.2 - b.1 else b.1 - b.2)%Qc.

Definition funded (a : Account) (b : Qc * Qc) : Prop := acc_AllowNegative a = false → (0 <= normalized a b)%Qc.

(** The guards a completed flow passed. *)
Definition flow_guards r (steps : list StepInput) v : Prop :=
  Forall (λ s, ∃ u, Journal_Validate (si_Journal s) = Ok u) steps ∧
  ∀ k, k ∈ orderedKeys steps → ∃ a, acct_ok (ef_TenantId r) v k a ∧
    funded a (add2 (lv_balance v (ef_TenantId r, k.1, k.2)) (totals k (steps ≫= step_entries))).

Definition flow_response (run : string) (l : doneT) : ExecuteFlowResponse :=
  mkExecuteFlowResponse run FLOW_STATUS_COMPLETED
    ((λ x, mkFlowStepResult (si_StepID x.1) StepCompleted x.2 "") <$> l).

Lemma lv_put_bal_same k b v : lv_bal v k = Some b → lv_put_bal k b v = v.
Proof.
  intros Hb. unfold lv_put_bal, lv_set_bal. destruct v; simpl in *. f_equal.
  extensionality k'. by case_bool_decide; subst.
Qed.

Lemma settled_nil t v : settled t [] [] v = v.
Proof.
  unfold settled, lv_set_bal. destruct v; simpl. f_equal. extensionality k.
  by destruct (_ =s _).
Qed.

Lemma lv_balance_settled_nil t ks v k : lv_balance (settled t ks [] v) k = lv_balance v k.
Proof.
  unfold lv_balance, settled; simpl. destruct (_ && _); [|done]. simpl. by rewrite totals_nil, add2_zero.
Qed.

(** Ensuring one more row. *)
Lemma ensure_settled t ks k v :
  lv_ensure (t, k.1, k.2) (settled t ks [] v) = settled t (ks ++ [k]) [] v.
Proof.
  assert (Hset : settled t (ks ++ [k]) [] v =
    lv_put_bal (t, k.1, k.2) (lv_balance v (t, k.1, k.2)) (settled t ks [] v)).
  { unfold settled, lv_put_bal, lv_set_bal; simpl. f_equal. extensionality k'.
    rewrite totals_nil, add2_zero. destruct k' as [[t' a'] c'], k as [a c]; simpl.
    destruct (bool_decide_reflect ((t', a', c') = (t, a, c))) as [Hk|Hk].
    - simplify_eq. rewrite eqs_refl, bool_decide_eq_true_2 by (rewrite ?elem_of_snoc; auto). done.
    - rewrite (bool_decide_ext ((a', c') ∈ ks ++ [(a, c)]) ((a', c') ∈ ks ∨ (a', c') = (a, c))) by apply elem_of_snoc.
      destruct (bool_decide_reflect (t' = t)) as [->|]; simpl; [|done].
      rewrite (bool_decide_ext (_ ∨ _) ((a', c') ∈ ks)); [done|]. split; [|by left]. intros [?|?]; [done|congruence]. }
  rewrite Hset. unfold lv_ensure. destruct (lv_bal (settled t ks [] v) (t, k.1, k.2)) as [b|] eqn:Hb.
  - assert (lv_balance v (t, k.1, k.2) = b) as ->.
    { rewrite <- (lv_balance_settled_nil t ks). unfold lv_balance. by rewrite Hb. }
    symmetry. by apply lv_put_bal_same.
  - assert (lv_balance v (t, k.1, k.2) = (0, 0)%Qc) as ->; [|done].
    rewrite <- (lv_balance_settled_nil t ks). unfold lv_balance. by rewrite Hb.
Qed.

(** The rows of [pre] are updated, the other rows of [ks] are not yet. *)
Definition settling t ks (pre : list key) (es : list Entry) v : LView :=
  lv_set_bal (λ k, if (k.1.1 =s t) && bool_decide ((k.1.2, k.2) ∈ ks)
                   then Some (if bool_decide ((k.1.2, k.2) ∈ pre)
                              then add2 (lv_balance v k) (totals (k.1.2, k.2) es) else lv_balance v k)
                   else lv_bal v k) v.

Lemma settling_nil t ks es v : settling t ks [] es v = settled t ks [] v.
Proof.
  unfold settling, settled. f_equal. extensionality k. destruct (_ && _); [|done].
  by rewrite totals_nil, add2_zero.
Qed.

Lemma settling_all t ks es v : settling t ks ks es v = settled t ks es v.
Proof.
  unfold settling, settled. f_equal. extensionality k.
  destruct (_ =s _); simpl; [|done]. by destruct (bool_decide _).
Qed.

Lemma put_settling t ks (pre : list key) k es v :
  k ∈ ks →
  lv_put_bal (t, k.1, k.2) (add2 (lv_balance v (t, k.1, k.2)) (totals k es)) (settling t ks pre es v) =
  settling t ks (pre ++ [k]) es v.
Proof.
  intros Hin. unfold settling, lv_put_bal, lv_set_bal; simpl. f_equal. extensionality k'.
  destruct k' as [[t' a'] c'], k as [a c]; simpl.
  destruct (bool_decide_reflect ((t', a', c') = (t, a, c))) as [Hk|Hk].
  - simplify_eq. rewrite eqs_refl, !bool_decide_eq_true_2 by (rewrite ?elem_of_snoc; auto). done.
  - destruct (bool_decide_reflect (t' = t)) as [->|]; simpl; [|done].
    rewrite (bool_decide_ext ((a', c') ∈ pre ++ [(a, c)]) ((a', c') ∈ pre)); [done|]. rewrite elem_of_snoc. split; [|by left]. intros [?|?]; [done|congruence].
Qed.
End Effect.

(** ** The orchestrator refines the abstract effect *)

(** Runs the first statement of a computation by its law. *)
Ltac call law := apply wp_bind; eapply wp_mono; [apply law| |done]; cbv beta.

Section Refine.
Context {H : Host} {D : DecimalOps} {L : DecimalLaws D} {T : Type} {R : RepoTx D T} {RL : RepoTxLaws D T}.
Implicit Types (s : T * Env) (v w : LView) (r : ExecuteFlowRequest) (k : key) (ks : list key).

Lemma wp_NewID (Q : string → T * Env → Prop) R0 s : (∀ id e, Q id (s.1, e)) → wp NewID Q R0 s.
Proof. destruct s as [t e]. intros HQ. apply HQ. Qed.
Lemma wp_Now (Q : Time → T * Env → Prop) R0 s : (∀ n e, Q n (s.1, e)) → wp Now Q R0 s.
Proof. destruct s as [t e]. intros HQ. apply HQ. Qed.

(** The balance map holds the balances of [v] plus the totals of [es]. *)
Definition tracks (t : string) ks v (es : list Entry) (st : gmap key balState) : Prop :=
  ∀ k, k ∈ ks → ∃ b, st !! k = Some b ∧ acct_ok t v k (bal_acct b) ∧
    bal_val b = add2 (lv_balance v (t, k.1, k.2)) (totals k es).

Lemma wp_lockKey t ks v k st s :
  vw s.1 = settled t ks [] v → tracks t ks v [] st →
  wpo (lockKey t st k) (λ st' s', vw s'.1 = settled t (ks ++ [k]) [] v ∧ tracks t (ks ++ [k]) v [] st') s.
Proof.
  intros Hv Hst. unfold lockKey. call law_GetAccount. intros a s1 (E1 & Ha & _).
  apply wp_bind, wp_throw_if; [done|]. intros Hact. apply wp_bind, wp_throw_if; [done|]. intros Hccy. eqs.
  call law_LockBalance. intros [[d c] n] s2 [E2 Hb]. apply wp_ret. simpl in Hb.
  rewrite E1, Hv in *. rewrite ensure_settled in E2. split; [done|].
  intros k' Hk'. destruct (decide (k' = k)) as [->|Hne].
  - exists (mkBalState a d c). rewrite lookup_insert, decide_True by done.
    split; [done|]. split; [done|]. rewrite totals_nil, add2_zero. unfold bal_val; simpl.
    by rewrite <- Hb, lv_balance_settled_nil.
  - rewrite lookup_insert_ne by done. apply Hst. rewrite elem_of_snoc in Hk'. by destruct Hk'.
Qed.

Lemma wp_lockKeys t ks v s :
  vw s.1 = v →
  wpo (foldM (lockKey t) ks ∅) (λ st s', vw s'.1 = settled t ks [] v ∧ tracks t ks v [] st) s.
Proof.
  intros Hv. apply (wp_foldM _ _ _ (λ pre st s', vw s'.1 = settled t pre [] v ∧ tracks t pre v [] st)).
  - rewrite settled_nil. split; [done|]. intros k Hk. by apply elem_of_nil in Hk.
  - intros pre k post st s' _ [Hw Hst]. by apply wp_lockKey.
Qed.

Lemma tracks_post t ks v es st e b :
  tracks t ks v es st → st !! entry_key e = Some b →
  tracks t ks v (es ++ [e]) (<[entry_key e := bumpBalance (en_Direction e) (en_Amount e) b]> st).
Proof.
  intros Hst Hb k Hk. destruct (Hst k Hk) as (b' & Hb' & Ha & Hv). rewrite totals_app, <- add2_assoc, <- Hv.
  destruct (decide (entry_key e = k)) as [He|Hne].
  - rewrite He in *. simplify_eq. rewrite lookup_insert, decide_True by done. eexists. split; [done|].
    split; [by unfold bumpBalance; destruct (_ =s _)|]. by apply bal_val_bump.
  - rewrite lookup_insert_ne by done. exists b'. by rewrite totals_other, add2_zero.
Qed.

(** The entry loop of a step: one posted entry each, in order. *)
Lemma wp_postEntries t ks v j es0 es st w s :
  vw s.1 = w → tracks t ks v es0 st → (∀ e, e ∈ es → entry_key e ∈ ks) →
  wpo (foldM (postEntry t j) es st) (λ st' s',
    vw s'.1 = lv_set_entries (lv_entries w ++ (pentry t j <$> es)) w ∧ tracks t ks v (es0 ++ es) st') s.
Proof.
  intros Hw Hst Hks.
  apply (wp_foldM _ _ _ (λ pre st' s',
    vw s'.1 = lv_set_entries (lv_entries w ++ (pentry t j <$> pre)) w ∧ tracks t ks v (es0 ++ pre) st')).
  - simpl. rewrite !app_nil_r. split; [|done]. rewrite Hw. by destruct w.
  - intros pre e post st' s' Hl [Hv' Hst']. unfold postEntry.
    apply wp_bind, wp_NewID. intros id env. call law_InsertEntry. intros [] s2 E2. simpl in E2.
    destruct (Hst' (entry_key e)) as (b & Hb & _); [apply Hks; set_solver|]. rewrite Hb. apply wp_ret.
    rewrite app_assoc. split; [|by apply tracks_post].
    rewrite E2, Hv'. unfold lv_add_entry, lv_set_entries; simpl. by rewrite fmap_app, app_assoc.
Qed.
Lemma fput_fput {A} (f : string → string → A) (t k : string) x y : fput (fput f t k x) t k y = fput f t k y.
Proof. extensionality t'. extensionality k'. unfold fput. by destruct (_ && _). Qed.

Lemma fput_eq {A} (f : string → string → A) (t k : string) x : fput f t k x t k = x.
Proof. unfold fput. by rewrite !eqs_refl. Qed.

Lemma apply_view_nil r (run : string) v : apply_view r run [] v = v.
Proof.
  destruct v. unfold apply_view; simpl. rewrite !app_nil_r. f_equal.
  extensionality t'. extensionality k'. unfold fput. destruct (_ && _) eqn:Hc; [|done]. eqs. by subst.
Qed.

(** One more step done. *)
Lemma apply_view_snoc r (run : string) (l : list (StepInput * string)) x v :
  let t := ef_TenantId r in
  let w := lv_add_journal (done_journal t run x) (apply_view r run l v) in
  lv_add_outbox (done_outbox r run x) (lv_add_step t run (done_step x)
    (lv_set_entries (lv_entries w ++ done_entries t x) w)) = apply_view r run (l ++ [x]) v.
Proof.
  unfold apply_view, lv_add_outbox, lv_add_step, lv_add_journal, lv_set_entries, lv_set_outbox,
    lv_set_steps, lv_set_journals; simpl.
  rewrite fput_eq, fput_fput, bind_app, !fmap_app, !app_assoc; simpl. by rewrite app_nil_r.
Qed.

Definition result_of (x : StepInput * string) : FlowStepResult :=
  mkFlowStepResult (si_StepID x.1) StepCompleted x.2 "".

(** The step loop after the steps of [l]. *)
Definition steps_done r (run : string) ks v (pre : list StepInput) (acc : gmap key balState * list FlowStep) s : Prop :=
  ∃ l : list (StepInput * string), l.*1 = pre ∧ vw s.1 = settled (ef_TenantId r) ks [] (apply_view r run l v) ∧
    tracks (ef_TenantId r) ks v (pre ≫= step_entries) acc.1 ∧
    stepResult <$> acc.2 = result_of <$> l ∧
    Forall (λ x, ∃ u, Journal_Validate (si_Journal x) = Ok u) pre.

Lemma wp_applyStep r run meta ks v pre acc x s :
  steps_done r run ks v pre acc s → (∀ e, e ∈ step_entries x → entry_key e ∈ ks) →
  wpo (applyStep r run meta acc x) (λ acc' s', steps_done r run ks v (pre ++ [x]) acc' s') s.
Proof.
  intros (l & Hl & Hv & Htr & Hres & HF) Hks. destruct acc as [st res]; simpl in *. unfold applyStep.
  destruct (Journal_Validate (si_Journal x)) as [u|er] eqn:Hval; [|by apply wp_throw].
  apply wp_bind, wp_NewID. intros j e1. apply wp_bind, wp_Now. intros n1 e2.
  call law_InsertJournal. intros [] s1 E1. simpl in E1.
  apply wp_bind. eapply wp_mono; [by eapply wp_postEntries| |done]. cbv beta. intros st' s2 [E2 Htr'].
  apply wp_bind, wp_NewID. intros id1 e3. apply wp_bind, wp_Now. intros n2 e4.
  call law_InsertFlowStep. intros [] s3 E3. simpl in E3.
  apply wp_bind, wp_NewID. intros id2 e5. apply wp_bind, wp_Now. intros n3 e6.
  call law_InsertOutbox. intros [] s4 E4. simpl in E4. apply wp_ret.
  exists (l ++ [(x, j)]). rewrite fmap_app, Hl, bind_app. split; [done|]. split.
  - rewrite <- (apply_view_snoc r run l (x, j) v), E4, E3, E2, Hv. done.
  - simpl. rewrite app_nil_r. split; [done|]. split; [by rewrite !fmap_app, Hres|].
    apply Forall_snoc; eauto.
Qed.

Lemma elem_of_step_entries x steps e :
  x ∈ steps → e ∈ step_entries x → entry_key e ∈ orderedKeys steps.
Proof. intros Hx He. apply elem_of_orderedKeys. exists e. rewrite list_elem_of_bind. eauto. Qed.

Lemma wp_applySteps r run meta steps v st s :
  vw s.1 = settled (ef_TenantId r) (orderedKeys steps) [] v →
  tracks (ef_TenantId r) (orderedKeys steps) v [] st →
  wpo (foldM (applyStep r run meta) steps (st, []))
    (λ acc s', steps_done r run (orderedKeys steps) v steps acc s') s.
Proof.
  intros Hv Hst. apply wp_foldM.
  - exists []. rewrite apply_view_nil. by repeat split.
  - intros pre x post acc s' -> Hd. apply wp_applyStep; [done|].
    intros e. apply elem_of_step_entries. set_solver.
Qed.

(** The overdraft check and the write of one balance. *)
Lemma wp_settleKey t ks (pre : list key) es v0 v st k s :
  lv_acct v0 = lv_acct v → lv_bal v0 = lv_bal v →
  vw s.1 = settling t ks pre es v → tracks t ks v0 es st → k ∈ ks →
  wpo (settleKey t st tt k) (λ _ s', vw s'.1 = settling t ks (pre ++ [k]) es v ∧
    ∃ a, acct_ok t v0 k a ∧ funded a (add2 (lv_balance v0 (t, k.1, k.2)) (totals k es))) s.
Proof.
  intros Ha0 Hb0 Hv Htr Hk. unfold settleKey. destruct (Htr k Hk) as (b & -> & Hacc & Hval).
  apply wp_bind, wp_throw_if; [done|]. intros Hf.
  assert (Hbal : lv_balance v0 (t, k.1, k.2) = lv_balance v (t, k.1, k.2)) by (unfold lv_balance; by rewrite Hb0).
  eapply wp_mono; [apply law_UpdateBalance| |done].
  - rewrite Hv. unfold settling; simpl. rewrite eqs_refl; simpl. destruct k; simpl.
    by rewrite bool_decide_eq_true_2.
  - cbv beta. intros [] s' E. rewrite E, Hv. change (val _, val _) with (bal_val b).
    rewrite Hval, Hbal. split; [by apply put_settling|].
    exists (bal_acct b). split; [done|]. intros Hneg. rewrite Hneg in Hf. simpl in Hf.
    rewrite IsNegative_spec, val_NormalizedBalance in Hf. apply bool_decide_eq_false in Hf.
    rewrite <- Hbal, <- Hval. unfold normalized, bal_val; simpl. by apply Qcnot_lt_le.
Qed.

Lemma wp_settleKeys t ks es v0 v st s :
  lv_acct v0 = lv_acct v → lv_bal v0 = lv_bal v →
  vw s.1 = settled t ks [] v → tracks t ks v0 es st →
  wpo (foldM (settleKey t st) ks tt) (λ _ s', vw s'.1 = settled t ks es v ∧
    ∀ k, k ∈ ks → ∃ a, acct_ok t v0 k a ∧ funded a (add2 (lv_balance v0 (t, k.1, k.2)) (totals k es))) s.
Proof.
  intros Ha0 Hb0 Hv Htr. eapply wp_mono.
  - apply (wp_foldM _ _ _ (λ pre _ s', vw s'.1 = settling t ks pre es v ∧
      ∀ k, k ∈ pre → ∃ a, acct_ok t v0 k a ∧ funded a (add2 (lv_balance v0 (t, k.1, k.2)) (totals k es)))).
    + rewrite settling_nil. split; [done|]. intros k Hk. by apply elem_of_nil in Hk.
    + intros pre k post [] s' -> [Hw Hpre]. eapply wp_mono; [eapply wp_settleKey; try done; set_solver| |done].
      cbv beta. intros _ s2 [E Hk]. split; [done|]. intros k' [?| ->]%elem_of_snoc; auto.
  - cbv beta. intros _ s' [E Hk]. by rewrite <- settling_all.
  - done.
Qed.

Lemma wp_runNewFlow r steps s :
  wpo (runNewFlow r steps) (λ res s', ∃ (run : string) (l : list (StepInput * string)), l.*1 = steps ∧
    vw s'.1 = flow_post r run l (vw s.1) ∧ res = flow_response run l ∧
    flow_guards r steps (vw s.1) ∧ lv_flow (vw s.1) (ef_TenantId r) (ef_IdempotencyKey r) = None) s.
Proof.
  unfold runNewFlow. apply wp_bind, wp_NewID. intros run e1. apply wp_bind, wp_Now. intros n1 e2.
  call law_InsertFlowRun. intros [] s1 [E1 Hnone]; simpl in E1, Hnone.
  apply wp_bind. eapply wp_mono; [by apply wp_lockKeys| |done]. cbv beta. intros st s2 [E2 Htr].
  apply wp_bind. eapply wp_mono; [by apply wp_applySteps| |done]. cbv beta.
  intros [st' res] s3 (l & Hl & E3 & Htr' & Hres & HF); simpl in *.
  apply wp_bind. eapply wp_mono; [eapply wp_settleKeys; [| |done|done]; done| |done]. cbv beta.
  intros [] s4 [E4 Hg]. call law_CompleteFlowRun. intros [] s5 E5. apply wp_ret.
  exists run, l. split; [done|]. rewrite E5, E4. unfold flow_post. rewrite Hl. split; [done|].
  split; [by unfold flowRunToResponse, flow_response; rewrite Hres|]. split; [|done]. split; [done|].
  intros k Hk. destruct (Hg k Hk) as (a & Ha & Hfund). by exists a.
Qed.

(** The two paths of the orchestrator. *)
Lemma wp_executeFlowInTx r s :
  wpo (executeFlowInTx r) (λ res s', ∃ steps, stepsFromProto (ef_Steps r) = Ok steps ∧
    match lv_flow (vw s.1) (ef_TenantId r) (ef_IdempotencyKey r) with
    | None => ∃ (run : string) (l : list (StepInput * string)), l.*1 = steps ∧ vw s'.1 = flow_post r run l (vw s.1) ∧
        res = flow_response run l ∧ flow_guards r steps (vw s.1)
    | Some (id, st) => st = FlowCompleted ∧ vw s'.1 = vw s.1 ∧ er_FlowRunId res = id ∧
        er_Status res = FLOW_STATUS_COMPLETED ∧
        (λ x, mkSView (sr_StepId x) (sr_Status x) (sr_JournalId x) (sr_ErrorCode x)) <$> er_Steps res
          ≡ₚ lv_steps (vw s.1) (ef_TenantId r) id
    end) s.
Proof.
  unfold executeFlowInTx. apply wp_bind, wp_lift; [|done]. intros steps Hsteps.
  call law_GetFlowByIdempotency. intros ex s1 [E1 Hex]. rewrite <- Hex. destruct ex as [f|]; simpl.
  - apply wp_bind, wp_throw_if; [done|]. intros Hst. eqs. call law_GetFlowSteps. intros fs s2 [E2 Hfs].
    apply wp_ret. exists steps. split; [done|]. rewrite E2, E1, Hst in *. repeat split; try done.
    simpl. rewrite <- list_fmap_compose. done.
  - eapply wp_mono; [apply wp_runNewFlow| |done]. cbv beta. rewrite E1.
    intros res s' (run & l & ? & ? & ? & ? & _). exists steps. split; [done|]. by exists run, l.
Qed.
End Refine.

(** ** The handler *)

Section Handler.
Context {H : Host} {D : DecimalOps} {L : DecimalLaws D} {S T : Type} {R : RepoTx D T} {RL : RepoTxLaws D T}
  {ST : RepoStore D S T} {SL : RepoStoreLaws D S T}.
Implicit Types (s : S * Env) (v : LView) (r : ExecuteFlowRequest).

Definition is_connect (e : error) : Prop := ∃ cc h, e = ErrConnect cc h.

Lemma ToConnectError_connect e : is_connect (ToConnectError e).
Proof. unfold ToConnectError, is_connect. destruct (as_domain e); eauto. Qed.

(** The outcome of a flow request as a relation between ledgers: a new flow
    or the replay of a completed one. *)
Definition flow_outcome r v (res : ExecuteFlowResponse) (v' : LView) : Prop :=
  ∃ steps, stepsFromProto (ef_Steps r) = Ok steps ∧
    match lv_flow v (ef_TenantId r) (ef_IdempotencyKey r) with
    | None => ∃ (run : string) (l : list (StepInput * string)), l.*1 = steps ∧ v' = flow_post r run l v ∧
        res = flow_response run l ∧ flow_guards r steps v
    | Some (id, st) => st = FlowCompleted ∧ v' = v ∧ er_FlowRunId res = id ∧
        er_Status res = FLOW_STATUS_COMPLETED ∧
        (λ x, mkSView (sr_StepId x) (sr_Status x) (sr_JournalId x) (sr_ErrorCode x)) <$> er_Steps res
          ≡ₚ lv_steps v (ef_TenantId r) id
    end.

Lemma flow_post_open r run l v : lv_open (flow_post r run l v) = lv_open v.
Proof. done. Qed.

Lemma wp_ExecuteFlow r s :
  wp (ExecuteFlow r) (λ res s', flow_outcome r (svw s.1) res (svw s'.1))
    (λ e s', s'.1 = s.1 ∧ is_connect e) s.
Proof.
  apply wp_rpc. eapply wp_mono.
  - apply (wp_with_tx _ (flow_outcome r (svw s.1))). intros t e Ht Ho.
    eapply wp_mono; [apply wp_executeFlowInTx| |done]. cbv beta. intros res s' Hout. simpl in Hout. rewrite Ht in Hout.
    split; [done|]. destruct Hout as (steps & _ & Hout).
    destruct (lv_flow _ _ _) as [[id st]|].
    + by destruct Hout as (_ & -> & _).
    + destruct Hout as (run & l & _ & -> & _). by rewrite flow_post_open.
  - done.
  - intros e s' Hs. split; [done|apply ToConnectError_connect].
Qed.

(** C4. Refinement: a flow request with a new idempotency key that succeeds
    takes the ledger exactly to [flow_post]: one journal, one outbox event
    and one completed flow step per step, one entry per entry in order, every
    touched balance increased by the totals of its entries, the run recorded
    as completed and nothing else changed; and every step was a valid
    balanced journal, every touched account active, in the entry's currency,
    and left funded. *)
Theorem ExecuteFlow_refines r s res s' :
  ExecuteFlow r s = (Ok res, s') →
  lv_flow (svw s.1) (ef_TenantId r) (ef_IdempotencyKey r) = None →
  ∃ (steps : list StepInput) (run : string) (l : list (StepInput * string)),
    stepsFromProto (ef_Steps r) = Ok steps ∧ l.*1 = steps ∧
    svw s'.1 = flow_post r run l (svw s.1) ∧ res = flow_response run l ∧
    flow_guards r steps (svw s.1).
Proof.
  intros Hrun Hnone. pose proof (wp_ok _ _ _ _ _ _ (wp_ExecuteFlow r s) Hrun) as (steps & Hs & Hout).
  rewrite Hnone in Hout. destruct Hout as (run & l & ? & ? & ? & ?). by exists steps, run, l.
Qed.

(** Atomicity: whatever statement fails and wherever a guard rejects, a
    flow request that returns an error leaves the store exactly as it was,
    and the error is a Connect error. *)
Theorem ExecuteFlow_atomic r s :
  match ExecuteFlow r s with
  | (Ok _, _) => True
  | (Err e, s') => s'.1 = s.1 ∧ ∃ cc h, e = ErrConnect cc h
  end.
Proof.
  pose proof (wp_ExecuteFlow r s) as Hwp. unfold wp in Hwp. by destruct (ExecuteFlow r s) as [[res|e] s'].
Qed.

Lemma flow_post_key r run l v :
  lv_flow v (ef_TenantId r) (ef_IdempotencyKey r) = None →
  lv_flow (flow_post r run l v) (ef_TenantId r) (ef_IdempotencyKey r) = Some (run, FlowCompleted).
Proof. intros _. unfold flow_post; simpl. by rewrite fput_eq, !eqs_refl. Qed.

Lemma flow_post_steps r run l v :
  lv_steps (flow_post r run l v) (ef_TenantId r) run =
  lv_steps v (ef_TenantId r) run ++ (done_step <$> l).
Proof. unfold flow_post; simpl. by rewrite fput_eq. Qed.

(** Idempotency: sending a request again after it succeeded, if it
    succeeds, moves no money and writes nothing, and returns the same flow
    run, completed, with the same step results (those recorded for the run,
    in whatever order the store lists them). *)
Theorem ExecuteFlow_idempotent r s res s1 res' s2 :
  ExecuteFlow r s = (Ok res, s1) →
  ExecuteFlow r s1 = (Ok res', s2) →
  lv_flow (svw s.1) (ef_TenantId r) (ef_IdempotencyKey r) = None →
  lv_steps (svw s.1) (ef_TenantId r) (er_FlowRunId res) = [] →
  svw s2.1 = svw s1.1 ∧ er_FlowRunId res' = er_FlowRunId res ∧
  er_Status res' = er_Status res ∧ er_Steps res' ≡ₚ er_Steps res.
Proof.
  intros H1 H2 Hnone Hfresh.
  pose proof (wp_ok _ _ _ _ _ _ (wp_ExecuteFlow r s) H1) as (steps & _ & Ho1).
  pose proof (wp_ok _ _ _ _ _ _ (wp_ExecuteFlow r s1) H2) as (steps2 & _ & Ho2).
  rewrite Hnone in Ho1. destruct Ho1 as (run & l & _ & E1 & -> & _).
  rewrite E1, flow_post_key in Ho2 by done. destruct Ho2 as (_ & E2 & Hid & Hst & Hsteps).
  rewrite E2, E1. split_and!; [done..|]. rewrite flow_post_steps in Hsteps. simpl in Hfresh. rewrite Hfresh in Hsteps; simpl in Hsteps.
  apply (fmap_Permutation (λ x, mkFlowStepResult (sv_step x) (sv_status x) (sv_journal x) (sv_error x))) in Hsteps.
  rewrite <- !list_fmap_compose in Hsteps. rewrite <- Hsteps.
  apply reflexive_eq. symmetry. etransitivity; [|apply list_fmap_id]. apply list_fmap_ext. by intros i [].
Qed.
End Handler.
