(* ===== verification/Books.v ===== *)
(** * The books: the accounting invariant of the ledger

    [ledger_ok] says that the ledger is a correct set of books: every balance
    is the sum of the entries posted to it, every journal balances in every
    currency, every balance row belongs to an account of its currency, and no
    account that may not go negative is negative.  [lv_grows] says that one
    ledger continues another: nothing posted, published or completed is ever
    changed or lost.  Flows preserve both. *)

From S2P Require Import Prelude Money Ledger Repo Contract Service Flow FlowLaws.
From stdpp Require Import base gmap strings list numbers sorting.
From Stdlib Require Import Qcanon.

Section Books.
Context {D : DecimalOps} {L : DecimalLaws D}.
Implicit Types (v : LView) (r : ExecuteFlowRequest) (t j c : string).

Definition pe_at (k : BKey) (e : PEntry) : bool :=
  bool_decide ((pe_tenant e, pe_account e, pe_currency e) = k).
Definition pe_debit (k : BKey) (e : PEntry) : Qc :=
  if pe_at k e && (pe_direction e =s DirectionDebit) then pe_amount e else 0%Qc.
Definition pe_credit (k : BKey) (e : PEntry) : Qc :=
  if pe_at k e && negb (pe_direction e =s DirectionDebit) then pe_amount e else 0%Qc.
Definition posted (k : BKey) (es : list PEntry) : Qc * Qc := (Qcsum (pe_debit k) es, Qcsum (pe_credit k) es).

(** Debits minus credits of the entries a test selects. *)
Definition pe_signed (p : PEntry → bool) (e : PEntry) : Qc :=
  if p e then (if pe_direction e =s DirectionDebit then pe_amount e else - pe_amount e)%Qc else 0%Qc.
Definition in_journal t j c (e : PEntry) : bool :=
  (pe_tenant e =s t) && (pe_journal e =s j) && (pe_currency e =s c).
Definition in_currency t c (e : PEntry) : bool := (pe_tenant e =s t) && (pe_currency e =s c).

Record ledger_ok v : Prop := {
  ok_books : ∀ k, lv_balance v k = posted k (lv_entries v);
  ok_journals : ∀ t j c, Qcsum (pe_signed (in_journal t j c)) (lv_entries v) = 0%Qc;
  ok_trial : ∀ t c, Qcsum (pe_signed (in_currency t c)) (lv_entries v) = 0%Qc;
  ok_rows : ∀ t a c b, lv_bal v (t, a, c) = Some b →
    ∃ acct, lv_acct v t a = Some acct ∧ acc_Currency acct = c;
  ok_funded : ∀ t a c b acct, lv_bal v (t, a, c) = Some b → lv_acct v t a = Some acct → funded acct b;
}.

Lemma posted_app k l1 l2 : posted k (l1 ++ l2) = add2 (posted k l1) (posted k l2).
Proof. unfold posted, add2; simpl. by rewrite !Qcsum_app. Qed.

Lemma posted_other k t (l : list (StepInput * string)) : k.1.1 ≠ t → posted k (l ≫= done_entries t) = (0, 0)%Qc.
Proof.
  intros Hk. unfold posted. f_equal; apply Qcsum_zero; intros e He;
    apply list_elem_of_bind in He as (x & He & _); apply list_elem_of_fmap in He as (en & -> & _);
    unfold pe_debit, pe_credit, pe_at; simpl;
    by rewrite bool_decide_eq_false_2 by (intros <-; done).
Qed.

Lemma pentry_debit t j a c e : pe_debit (t, a, c) (pentry t j e) = entry_debit (a, c) e.
Proof.
  unfold pe_debit, entry_debit, pe_at, pentry, entry_key; simpl.
  rewrite (bool_decide_ext _ ((en_AccountID e, en_Currency e) = (a, c))); [done|]. split; congruence.
Qed.
Lemma pentry_credit t j a c e : pe_credit (t, a, c) (pentry t j e) = entry_credit (a, c) e.
Proof.
  unfold pe_credit, entry_credit, pe_at, pentry, entry_key; simpl.
  rewrite (bool_decide_ext _ ((en_AccountID e, en_Currency e) = (a, c))); [done|]. split; congruence.
Qed.

(** The entries a flow writes are the entries it totals. *)
Lemma posted_done t a c (l : list (StepInput * string)) :
  posted (t, a, c) (l ≫= done_entries t) = totals (a, c) (l.*1 ≫= step_entries).
Proof.
  induction l as [|[x j] l IH]; [done|]. rewrite bind_cons, fmap_cons, bind_cons, posted_app, totals_app, IH. f_equal.
  unfold posted, totals, done_entries; simpl. rewrite !Qcsum_fmap.
  f_equal; apply Qcsum_ext; intros e _; [apply pentry_debit|apply pentry_credit].
Qed.

Lemma totals_untouched steps k : k ∉ orderedKeys steps → totals k (steps ≫= step_entries) = (0, 0)%Qc.
Proof.
  intros Hk. unfold totals. f_equal; apply Qcsum_zero; intros e He;
    (unfold entry_debit, entry_credit; destruct (bool_decide_reflect (entry_key e = k)); [|done]);
    exfalso; apply Hk, elem_of_orderedKeys; eauto.
Qed.

Lemma lv_balance_post r run (l : list (StepInput * string)) v t a c :
  lv_balance (flow_post r run l v) (t, a, c) =
  add2 (lv_balance v (t, a, c)) (posted (t, a, c) (l ≫= done_entries (ef_TenantId r))).
Proof.
  unfold lv_balance at 1, flow_post; simpl.
  destruct (bool_decide_reflect (t = ef_TenantId r)) as [->|Ht]; simpl.
  - rewrite posted_done. case_bool_decide as Hk; [done|]. by rewrite totals_untouched, add2_zero.
  - by rewrite posted_other, add2_zero.
Qed.

(** A new account has no balance yet. *)
Lemma account_ok a v : lv_acct v (acc_TenantID a) (acc_ID a) = None → ledger_ok v → ledger_ok (lv_add_acct a v).
Proof.
  intros Hnone [H1 H2 H3 H4 H5]. split; try done.
  - intros t x c b Hb. simpl in *. unfold fput. destruct (H4 _ _ _ _ Hb) as (acct & Ha & Hc).
    destruct ((t =s acc_TenantID a) && (x =s acc_ID a)) eqn:Hm; [|by exists acct]. eqs. congruence.
  - intros t x c b acct Hb Ha. simpl in *. unfold fput in Ha. destruct (H4 _ _ _ _ Hb) as (acct' & Ha' & _).
    destruct ((t =s acc_TenantID a) && (x =s acc_ID a)) eqn:Hm; [eqs; congruence|]. by eapply H5.
Qed.
Lemma absent_balance v t id c : ledger_ok v → lv_acct v t id = None → lv_balance v (t, id, c) = (0, 0)%Qc.
Proof.
  intros Hok Hn. unfold lv_balance. destruct (lv_bal v _) as [b|] eqn:Hb; [|done].
  apply (ok_rows _ Hok) in Hb as (acct & Ha & _). congruence.
Qed.

(** ** A valid step adds nothing to any signed total *)

Definition valid_step (x : StepInput) : Prop := ∃ u, Journal_Validate (si_Journal x) = Ok u.

Lemma signed_valid t j c e p :
  entry_ok e → (∀ e, p (pentry t j e) = (en_Currency e =s c)) → pe_signed p (pentry t j e) = signed_in c e.
Proof.
  intros (_ & _ & Hd & _) Hp. unfold pe_signed, signed_in. rewrite Hp. simpl.
  unfold Direction_Valid in Hd. destruct (_ =s c); [|done].
  destruct (en_Direction e =s DirectionDebit) eqn:E1, (en_Direction e =s DirectionCredit) eqn:E2; try done.
  eqs. by rewrite E1 in E2.
Qed.

Lemma signed_step t c p (x : StepInput * string) :
  valid_step x.1 →
  (∀ e, p (pentry t x.2 e) = (en_Currency e =s c)) ∨ (∀ e, p (pentry t x.2 e) = false) →
  Qcsum (pe_signed p) (done_entries t x) = 0%Qc.
Proof.
  intros [u Hu] Hp. apply Journal_Validate_sound in Hu as [HF Hz]. unfold done_entries. rewrite Qcsum_fmap.
  destruct Hp as [Hp|Hp].
  - rewrite <- (Hz c). apply Qcsum_ext. intros e He. apply signed_valid; [|done].
    rewrite Forall_forall in HF. by apply HF.
  - apply Qcsum_zero. intros e _. unfold pe_signed. by rewrite Hp.
Qed.

Lemma signed_steps t c p (l : list (StepInput * string)) :
  Forall valid_step l.*1 →
  (∀ x, x ∈ l → (∀ e, p (pentry t x.2 e) = (en_Currency e =s c)) ∨ (∀ e, p (pentry t x.2 e) = false)) →
  Qcsum (pe_signed p) (l ≫= done_entries t) = 0%Qc.
Proof.
  induction l as [|x l IH]; [done|]. intros HF Hp. inversion HF as [|? ? Hx HF']; subst.
  rewrite bind_cons, Qcsum_app, (signed_step t c), IH; [ring|done| |done|].
  - intros y Hy. apply Hp. by right.
  - apply Hp. by left.
Qed.

Lemma in_journal_pentry t0 j0 t j c :
  (∀ e, in_journal t j c (pentry t0 j0 e) = (en_Currency e =s c)) ∨
  (∀ e, in_journal t j c (pentry t0 j0 e) = false).
Proof. unfold in_journal; simpl. destruct (t0 =s t), (j0 =s j); simpl; auto. Qed.

Lemma in_currency_pentry t0 j0 t c :
  (∀ e, in_currency t c (pentry t0 j0 e) = (en_Currency e =s c)) ∨
  (∀ e, in_currency t c (pentry t0 j0 e) = false).
Proof. unfold in_currency; simpl. destruct (t0 =s t); simpl; auto. Qed.

Lemma flow_post_entries r run (l : list (StepInput * string)) v :
  lv_entries (flow_post r run l v) = lv_entries v ++ (l ≫= done_entries (ef_TenantId r)).
Proof. done. Qed.

Lemma flow_post_ok r run (l : list (StepInput * string)) v :
  ledger_ok v → flow_guards r l.*1 v → ledger_ok (flow_post r run l v).
Proof.
  intros Hok [Hval Hg]. split.
  - intros [[t a] c]. rewrite lv_balance_post, flow_post_entries, posted_app. f_equal. apply Hok.
  - intros t j c. rewrite flow_post_entries, Qcsum_app, (ok_journals _ Hok), (signed_steps _ c); [ring|done|].
    intros x _. apply in_journal_pentry.
  - intros t c. rewrite flow_post_entries, Qcsum_app, (ok_trial _ Hok), (signed_steps _ c); [ring|done|].
    intros x _. apply in_currency_pentry.
  - intros t a c b Hb. simpl in *. destruct (_ && _) eqn:Hk; [|by eapply ok_rows]. eqs. subst.
    destruct (Hg (a, c)) as (acct & (Ha & _ & Hc) & _); [done|]. by eexists.
  - intros t a c b acct Hb Hacct. simpl in *. destruct (_ && _) eqn:Hk; [|by eapply ok_funded]. eqs. subst.
    destruct (Hg (a, c)) as (acct' & (Ha & _ & _) & Hf); [done|]. simpl in *.
    injection Hb as <-. rewrite Ha in Hacct. by injection Hacct as <-.
Qed.

(** ** Append-only *)

Record lv_grows (v0 v : LView) : Prop := {
  grows_entries : lv_entries v0 `prefix_of` lv_entries v;
  grows_journals : lv_journals v0 `prefix_of` lv_journals v;
  grows_outbox : lv_outbox v0 `prefix_of` lv_outbox v;
  grows_steps : ∀ t f, lv_steps v0 t f `prefix_of` lv_steps v t f;
  grows_acct : ∀ t a x, lv_acct v0 t a = Some x → lv_acct v t a = Some x;
  grows_flow : ∀ t k id, lv_flow v0 t k = Some (id, FlowCompleted) → lv_flow v t k = Some (id, FlowCompleted);
  grows_resvk : ∀ t k id, rv_id <$> lv_resvk v0 t k = Some id → rv_id <$> lv_resvk v t k = Some id;
}.

#[export] Instance lv_grows_refl : Reflexive lv_grows.
Proof. intros v. by split. Qed.
#[export] Instance lv_grows_trans : Transitive lv_grows.
Proof.
  intros v1 v2 v3 [] []. split; try (by etransitivity; eauto); eauto.
Qed.

Lemma flow_post_grows r run (l : list (StepInput * string)) v :
  lv_flow v (ef_TenantId r) (ef_IdempotencyKey r) = None → lv_grows v (flow_post r run l v).
Proof.
  intros Hnone. split; unfold flow_post; simpl; try (by eexists); [|done| |done].
  - intros t f. unfold fput. destruct (_ && _) eqn:Hm; [|done]. eqs. subst. by eexists.
  - intros t k id Hf. unfold fput. destruct ((t =s ef_TenantId r) && (k =s ef_IdempotencyKey r)) eqn:Hm.
    + eqs. congruence.
    + clear Hm. rewrite Hf. by destruct (_ && _).
Qed.

(** ** The trial balance *)

(** Counting the entries account by account. *)
Lemma posted_accounts t c (accts : list string) es :
  NoDup accts →
  (∀ e, e ∈ es → pe_tenant e = t → pe_currency e = c → pe_account e ∈ accts) →
  (Qcsum (λ a, (posted (t, a, c) es).1) accts - Qcsum (λ a, (posted (t, a, c) es).2) accts =
   Qcsum (pe_signed (in_currency t c)) es)%Qc.
Proof.
  intros Hnd Hin. rewrite <- Qcsum_sub. unfold posted; simpl.
  induction es as [|e es IH]; simpl.
  { rewrite Qcsum_zero; [done|]. intros a _. ring. }
  rewrite <- IH by (intros; apply Hin; [by right|done..]). clear IH.
  rewrite (Qcsum_ext _ (λ a, (pe_debit (t, a, c) e - pe_credit (t, a, c) e) +
    (Qcsum (pe_debit (t, a, c)) es - Qcsum (pe_credit (t, a, c)) es)))%Qc by (intros; ring).
  rewrite Qcsum_add. f_equal.
  specialize (Hin e ltac:(by left)).
  unfold pe_debit, pe_credit, pe_at, pe_signed, in_currency.
  destruct (bool_decide_reflect (pe_tenant e = t)) as [Et|Et]; simpl.
  - destruct (bool_decide_reflect (pe_currency e = c)) as [Ec|Ec]; simpl.
    + specialize (Hin Et Ec). rewrite (Qcsum_single _ (pe_account e)); [|done|done|].
      2:{ intros a _ Ha. rewrite bool_decide_eq_false_2 by congruence. simpl. ring. }
      rewrite bool_decide_eq_true_2 by congruence. simpl. destruct (_ =s _); simpl; ring.
    + apply Qcsum_zero. intros a _. rewrite bool_decide_eq_false_2 by congruence. simpl. ring.
  - apply Qcsum_zero. intros a _. rewrite bool_decide_eq_false_2 by congruence. simpl. ring.
Qed.
End Books.
