(* ===== verification/Accounts.v ===== *)
(** * internal/service: accounts, balances, snapshots and the account queries

    create_account.go, get_account.go, get_balance.go, take_snapshot.go,
    list_activity.go and get_flow.go.  A [timestamppb.Timestamp] is a [Time],
    a nil one is [None]. *)

From S2P Require Import Prelude Money Ledger Repo Contract Service Flow.
From stdpp Require Import base gmap strings list numbers.

(** ** Messages *)

Definition NORMAL_BALANCE_DEBIT : Z := 1.
Definition NORMAL_BALANCE_CREDIT : Z := 2.
Definition ACCOUNT_STATUS_ACTIVE : Z := 1.
Definition ACCOUNT_STATUS_FROZEN : Z := 2.
Definition ACCOUNT_STATUS_CLOSED : Z := 3.

Record PbAccount := mkPbAccount {
  pa_Id : string; pa_TenantId : string; pa_OwnerType : string; pa_OwnerId : string;
  pa_AccountType : string; pa_Currency : string; pa_NormalBalance : Z; pa_AllowNegative : bool;
  pa_Status : Z; pa_CreatedAt : Time }.
Record CreateAccountRequest := mkCreateAccountRequest {
  ca_TenantId : string; ca_OwnerType : string; ca_OwnerId : string; ca_AccountType : string;
  ca_Currency : string; ca_NormalBalance : Z; ca_AllowNegative : bool }.
Record GetBalanceRequest := mkGetBalanceRequest {
  gb_TenantId : string; gb_AccountId : string; gb_Currency : string; gb_AsOf : option Time }.
Record PbBalance := mkPbBalance {
  pb_AccountId : string; pb_Currency : string; pb_PostedDebits : string; pb_PostedCredits : string;
  pb_Normalized : string; pb_Version : Z }.
Record TakeBalanceSnapshotRequest := mkTakeBalanceSnapshotRequest {
  ts_TenantId : string; ts_AccountId : string; ts_Currency : string }.
Record ListAccountActivityRequest := mkListAccountActivityRequest {
  laa_TenantId : string; laa_AccountId : string; laa_Currency : string;
  laa_Since : option Time; laa_Until : option Time; laa_PageSize : Z }.
Record AccountActivityEntry := mkAccountActivityEntry {
  ae_JournalId : string; ae_EntryId : string; ae_Currency : string; ae_Direction : Z;
  ae_Amount : string; ae_CreatedAt : Time; ae_SourceService : string }.

Section Accounts.
Context {H : Host} {D : DecimalOps} {S T : Type} {R : RepoTx D T} {ST : RepoStore D S T}.

(** ** create_account.go *)

Definition normalBalanceFromProto (p : Z) : NormalBalance :=
  if (p =? NORMAL_BALANCE_CREDIT)%Z then NormalCredit else NormalDebit.

Definition accountToProto (a : Account) : PbAccount :=
  mkPbAccount (acc_ID a) (acc_TenantID a) (acc_OwnerType a) (acc_OwnerID a) (acc_AccountType a)
    (acc_Currency a)
    (if acc_NormalBalance a =s NormalCredit then NORMAL_BALANCE_CREDIT else NORMAL_BALANCE_DEBIT)
    (acc_AllowNegative a)
    (if acc_Status a =s AccountFrozen then ACCOUNT_STATUS_FROZEN
     else if acc_Status a =s AccountClosed then ACCOUNT_STATUS_CLOSED else ACCOUNT_STATUS_ACTIVE)
    (acc_CreatedAt a).

Definition account_id (ownerType ownerID accountType currency : string) : string :=
  ownerType +:+ ":" +:+ ownerID +:+ ":" +:+ accountType +:+ ":" +:+ currency.

Definition newAccount (r : CreateAccountRequest) (now : Time) : Account :=
  mkAccount (account_id (ca_OwnerType r) (ca_OwnerId r) (ca_AccountType r) (ca_Currency r))
    (ca_TenantId r) (ca_OwnerType r) (ca_OwnerId r) (ca_AccountType r) (ca_Currency r)
    (normalBalanceFromProto (ca_NormalBalance r)) (ca_AllowNegative r) AccountActive now.

Definition CreateAccount (r : CreateAccountRequest) : M error (S * Env) PbAccount :=
  rpc (throw_if (negb (NormalBalance_Valid (normalBalanceFromProto (ca_NormalBalance r))))
         (ErrDomain CodeInvalidAccountStatus);;
       now ← Now;
       let a := newAccount r now in
       runInTx (tx_InsertAccount a);;
       mret (accountToProto a)).

(** ** get_account.go, get_flow.go *)

Definition GetAccount (tenant id : string) : M error (S * Env) PbAccount :=
  rpc (a ← st_GetAccount tenant id; mret (accountToProto a)).

Definition GetFlow (tenant id : string) : M error (S * Env) ExecuteFlowResponse :=
  rpc (f ← st_GetFlow tenant id;
       match f with
       | None => throw (ErrDomain CodeAccountNotFound)
       | Some f => mret (flowRunToResponse (fr_ID f) (fr_Status f) (fr_Steps f))
       end).

(** ** get_balance.go *)

(** The as-of path: the last snapshot before the instant plus the entries since. *)
Definition balanceAsOf (tenant account currency : string) (at_ : Time) : M error (S * Env) (dec * dec * Z) :=
  snap ← st_GetSnapshotBefore tenant account currency at_;
  let '(d, c, ver, snapAt) :=
    match snap with
    | Some b => (bs_PostedDebits b, bs_PostedCredits b, bs_Version b, bs_SnapshotAt b)
    | None => (decimal_Zero, decimal_Zero, 0%Z, time_zero)
    end in
  '(addD, addC) ← st_SumEntriesBetween tenant account currency snapAt at_;
  mret (dAdd d addD, dAdd c addC, ver).

Definition GetBalance (r : GetBalanceRequest) : M error (S * Env) PbBalance :=
  rpc (a ← st_GetAccount (gb_TenantId r) (gb_AccountId r);
       throw_if (negb (acc_Currency a =s gb_Currency r)) (ErrDomain CodeAccountCurrencyMismatch);;
       '(d, c, ver) ← match gb_AsOf r with
         | Some at_ => balanceAsOf (gb_TenantId r) (gb_AccountId r) (gb_Currency r) at_
         | None => st_GetBalance (gb_TenantId r) (gb_AccountId r) (gb_Currency r)
         end;
       let norm := NormalizedBalance (acc_NormalBalance a) d c in
       mret (mkPbBalance (acc_ID a) (gb_Currency r) (dString d) (dString c) (dString norm) ver)).

(** ** take_snapshot.go *)

Definition snapshotRow (tenant : string) (now : Time) (taken : Z) (b : TenantBalanceRow)
    : M error (S * Env) Z :=
  id ← NewID;
  st_InsertSnapshot (mkBalanceSnapshot id tenant (tb_AccountID b) (tb_Currency b)
    (tb_PostedDebits b) (tb_PostedCredits b) (tb_Version b) now time_zero);;
  mret (int32 (taken + 1)).

Definition TakeBalanceSnapshot (r : TakeBalanceSnapshotRequest) : M error (S * Env) Z :=
  let tenant := ts_TenantId r in
  rpc (throw_if (tenant =s "") (ErrDomain CodeAccountCurrencyMismatch);;
       now ← Now;
       if negb (ts_AccountId r =s "") && negb (ts_Currency r =s "") then
         '(d, c, ver) ← st_GetBalance tenant (ts_AccountId r) (ts_Currency r);
         id ← NewID;
         st_InsertSnapshot (mkBalanceSnapshot id tenant (ts_AccountId r) (ts_Currency r) d c ver now time_zero);;
         mret 1%Z
       else
         rows ← st_ListTenantBalances tenant;
         foldM (snapshotRow tenant now) rows 0%Z).

(** ** list_activity.go *)

Definition activityEntry (row : ActivityRow) : AccountActivityEntry :=
  mkAccountActivityEntry (ar_JournalID row) (ar_EntryID row) (ar_Currency row)
    (if ar_Direction row =s "CREDIT" then DIRECTION_CREDIT else DIRECTION_DEBIT)
    (dString (ar_Amount row)) (ar_CreatedAt row) (ar_SourceService row).

Definition ListAccountActivity (r : ListAccountActivityRequest) : M error (S * Env) (list AccountActivityEntry) :=
  let limit := if (laa_PageSize r <=? 0)%Z || (500 <? laa_PageSize r)%Z then 100%Z else laa_PageSize r in
  rpc (rows ← st_ListAccountActivity (mkListActivityInput (laa_TenantId r) (laa_AccountId r)
                (laa_Currency r) (laa_Since r) (laa_Until r) limit);
       mret (activityEntry <$> rows)).
End Accounts.
