(* ===== verification/Reservations.v ===== *)
(** * internal/service: reservations

    create_reservation.go, commit_reservation.go, release_reservation.go,
    expire_reservation.go, reservation_helpers.go, get_reservation.go and
    list_reservations.go.  Each writing handler moves the money by a flow of
    one step inside its own transaction, then updates the reservation row and
    writes an outbox event. *)

From S2P Require Import Prelude Money Ledger Repo Contract Service Flow.
From stdpp Require Import base gmap strings list numbers.

(** ** Messages *)

Record PbReservation := mkPbReservation {
  pr_Id : string; pr_TenantId : string; pr_Status : string; pr_SourceAccountId : string;
  pr_ReservedAccountId : string; pr_Currency : string; pr_OriginalAmount : string;
  pr_OutstandingAmount : string; pr_CommittedAmount : string; pr_ReleasedAmount : string;
  pr_FlowRunId : string; pr_CreatedAt : Time; pr_UpdatedAt : Time; pr_ExpiresAt : option Time }.
Record CreateReservationRequest := mkCreateReservationRequest {
  cr_TenantId : string; cr_IdempotencyKey : string; cr_SourceService : string; cr_ActorId : string;
  cr_SourceAccountId : string; cr_ReservedAccountId : string; cr_Currency : string;
  cr_Amount : string; cr_ExpiresAt : option Time; cr_Metadata : option Meta }.
Record CommitReservationRequest := mkCommitReservationRequest {
  cm_TenantId : string; cm_IdempotencyKey : string; cm_SourceService : string; cm_ActorId : string;
  cm_ReservationId : string; cm_Amount : string; cm_DestinationAccountId : string }.
Record ReleaseReservationRequest := mkReleaseReservationRequest {
  rl_TenantId : string; rl_IdempotencyKey : string; rl_SourceService : string; rl_ActorId : string;
  rl_ReservationId : string; rl_Amount : string }.
Record ListReservationsRequest := mkListReservationsRequest {
  lrr_TenantId : string; lrr_OwnerType : string; lrr_OwnerId : string; lrr_Status : string;
  lrr_PageSize : Z }.

Section Reservations.
Context {H : Host} {D : DecimalOps} {S T : Type} {R : RepoTx D T} {ST : RepoStore D S T}.
Abbreviation TxM A := (M error (T * Env) A).

(** ** reservation_helpers.go *)

Definition reservationToProto (r : Reservation) : PbReservation :=
  mkPbReservation (rs_ID r) (rs_TenantID r) (rs_Status r) (rs_SourceAccountID r)
    (rs_ReservedAccountID r) (rs_Currency r) (dString (rs_OriginalAmount r))
    (dString (rs_OutstandingAmount r)) (dString (rs_CommittedAmount r))
    (dString (rs_ReleasedAmount r)) (rs_FlowRunID r) (rs_CreatedAt r) (rs_UpdatedAt r) (rs_ExpiresAt r).

(** The one-step flow every reservation handler runs: debit one account,
    credit another. *)
Definition moveFlow (tenant flowType key source actor stepID eventID : string)
    (debit credit currency amount : string) : ExecuteFlowRequest :=
  mkExecuteFlowRequest tenant flowType key source actor None
    [mkPbStep stepID (Some (mkPbJournal eventID
      [mkPbEntry debit currency DIRECTION_DEBIT amount;
       mkPbEntry credit currency DIRECTION_CREDIT amount]))].

Definition parseReservationAmount {X} (s : string) : M error X dec := λ x,
  match ParseAmount s with
  | Ok a => (Ok a, x)
  | Err _ => (Err (ErrDomain CodeReservationAmountExceeds), x)
  end.

(** ** create_reservation.go *)

Definition createFlow (r : CreateReservationRequest) : ExecuteFlowRequest :=
  moveFlow (cr_TenantId r) "CREATE_RESERVATION" (cr_IdempotencyKey r +:+ ":create")
    (cr_SourceService r) (cr_ActorId r) "reserve" (cr_IdempotencyKey r +:+ ":reserve")
    (cr_ReservedAccountId r) (cr_SourceAccountId r) (cr_Currency r) (cr_Amount r).

Definition createReservationInTx (r : CreateReservationRequest) (amount : dec) : TxM Reservation :=
  existing ← tx_GetReservationByIdempotency (cr_TenantId r) (cr_IdempotencyKey r);
  match existing with
  | Some res => mret res
  | None =>
      flowResp ← executeFlowInTx (createFlow r);
      id ← NewID;
      createdAt ← Now;
      updatedAt ← Now;
      let res := mkReservation id (cr_TenantId r) (cr_IdempotencyKey r) (cr_SourceAccountId r)
        (cr_ReservedAccountId r) (cr_Currency r) amount amount decimal_Zero decimal_Zero
        ReservationHeld (cr_ExpiresAt r) (er_FlowRunId flowResp) (structToMap (cr_Metadata r))
        createdAt updatedAt in
      tx_InsertReservation res;;
      outboxID ← NewID;
      now ← Now;
      tx_InsertOutbox (mkOutboxEvent outboxID (cr_TenantId r) id "RESERVATION_CREATED" (id +:+ ":created")
        (list_to_map [("reservation_id", id); ("amount", dString amount); ("currency", cr_Currency r)]) now);;
      mret res
  end.

Definition CreateReservation (r : CreateReservationRequest) : M error (S * Env) PbReservation :=
  rpc (amount ← parseReservationAmount (cr_Amount r);
       res ← with_tx (createReservationInTx r amount);
       mret (reservationToProto res)).

(** ** commit_reservation.go *)

(** A reservation with new amounts, status and update time. *)
Definition withAmounts (r : Reservation) (o c l : dec) (st : ReservationStatus) (now : Time) : Reservation :=
  mkReservation (rs_ID r) (rs_TenantID r) (rs_IdempotencyKey r) (rs_SourceAccountID r)
    (rs_ReservedAccountID r) (rs_Currency r) (rs_OriginalAmount r) o c l st (rs_ExpiresAt r)
    (rs_FlowRunID r) (rs_Metadata r) (rs_CreatedAt r) now.

(** Writes the new amounts and the outbox event. *)
Definition saveReservation (tenant eventType key : string) (payload : Meta) (res : Reservation) : TxM Reservation :=
  tx_UpdateReservationAmounts tenant (rs_ID res) (rs_OutstandingAmount res) (rs_CommittedAmount res)
    (rs_ReleasedAmount res) (rs_Status res);;
  outboxID ← NewID;
  now ← Now;
  tx_InsertOutbox (mkOutboxEvent outboxID (rs_TenantID res) (rs_ID res) eventType key payload now);;
  mret res.

Definition movedPayload (res : Reservation) (amount : dec) : Meta :=
  list_to_map [("reservation_id", rs_ID res); ("amount", dString amount);
    ("outstanding", dString (rs_OutstandingAmount res)); ("status", rs_Status res)].

Definition commitFlow (r : CommitReservationRequest) (res : Reservation) (dst : Account) (amount : dec)
    : ExecuteFlowRequest :=
  moveFlow (cm_TenantId r) "COMMIT_RESERVATION" (rs_ID res +:+ ":commit:" +:+ cm_IdempotencyKey r)
    (cm_SourceService r) (cm_ActorId r) "commit" (rs_ID res +:+ ":commit:" +:+ cm_IdempotencyKey r)
    (acc_ID dst) (rs_ReservedAccountID res) (rs_Currency res) (dString amount).

Definition commitReservationInTx (r : CommitReservationRequest) (amount : dec) : TxM Reservation :=
  res ← tx_LockReservation (cm_TenantId r) (cm_ReservationId r);
  throw_if (ReservationStatus_Closed (rs_Status res)) (ErrDomain CodeReservationClosed);;
  throw_if (GreaterThan amount (rs_OutstandingAmount res)) (ErrDomain CodeReservationAmountExceeds);;
  dst ← tx_GetAccount (cm_TenantId r) (cm_DestinationAccountId r);
  throw_if (negb (acc_Currency dst =s rs_Currency res)) (ErrDomain CodeReservationCurrencyMismatch);;
  executeFlowInTx (commitFlow r res dst amount);;
  let outstanding := dSub (rs_OutstandingAmount res) amount in
  let committed := dAdd (rs_CommittedAmount res) amount in
  now ← Now;
  let st := if IsZero outstanding then ReservationCommitted else ReservationPartial in
  let res' := withAmounts res outstanding committed (rs_ReleasedAmount res) st now in
  saveReservation (cm_TenantId r) "RESERVATION_COMMITTED"
    (rs_ID res +:+ ":committed:" +:+ cm_IdempotencyKey r) (movedPayload res' amount) res'.

Definition CommitReservation (r : CommitReservationRequest) : M error (S * Env) PbReservation :=
  rpc (amount ← parseReservationAmount (cm_Amount r);
       res ← with_tx (commitReservationInTx r amount);
       mret (reservationToProto res)).

(** ** release_reservation.go *)

Definition releaseFlow (r : ReleaseReservationRequest) (res : Reservation) (amount : dec) : ExecuteFlowRequest :=
  moveFlow (rl_TenantId r) "RELEASE_RESERVATION" (rs_ID res +:+ ":release:" +:+ rl_IdempotencyKey r)
    (rl_SourceService r) (rl_ActorId r) "release" (rs_ID res +:+ ":release:" +:+ rl_IdempotencyKey r)
    (rs_SourceAccountID res) (rs_ReservedAccountID res) (rs_Currency res) (dString amount).

Definition releaseReservationInTx (r : ReleaseReservationRequest) (amount : dec) : TxM Reservation :=
  res ← tx_LockReservation (rl_TenantId r) (rl_ReservationId r);
  throw_if (ReservationStatus_Closed (rs_Status res)) (ErrDomain CodeReservationClosed);;
  throw_if (GreaterThan amount (rs_OutstandingAmount res)) (ErrDomain CodeReservationAmountExceeds);;
  executeFlowInTx (releaseFlow r res amount);;
  let outstanding := dSub (rs_OutstandingAmount res) amount in
  let released := dAdd (rs_ReleasedAmount res) amount in
  now ← Now;
  let st := if IsZero outstanding then ReservationReleased else ReservationPartial in
  let res' := withAmounts res outstanding (rs_CommittedAmount res) released st now in
  saveReservation (rl_TenantId r) "RESERVATION_RELEASED"
    (rs_ID res +:+ ":released:" +:+ rl_IdempotencyKey r) (movedPayload res' amount) res'.

Definition ReleaseReservation (r : ReleaseReservationRequest) : M error (S * Env) PbReservation :=
  rpc (amount ← parseReservationAmount (rl_Amount r);
       res ← with_tx (releaseReservationInTx r amount);
       mret (reservationToProto res)).

(** ** expire_reservation.go *)

Definition expireFlow (tenant : string) (res : Reservation) : ExecuteFlowRequest :=
  moveFlow tenant "EXPIRE_RESERVATION" (rs_ID res +:+ ":expire") "scheduler" "system" "expire"
    (rs_ID res +:+ ":expire") (rs_SourceAccountID res) (rs_ReservedAccountID res) (rs_Currency res)
    (dString (rs_OutstandingAmount res)).

Definition expireReservationInTx (tenant id : string) : TxM unit :=
  res ← tx_LockReservation tenant id;
  if ReservationStatus_Closed (rs_Status res) then mret tt
  else
    let amount := rs_OutstandingAmount res in
    if IsZero amount then mret tt
    else
      executeFlowInTx (expireFlow tenant res);;
      now ← Now;
      let res' := withAmounts res (dSub (rs_OutstandingAmount res) amount) (rs_CommittedAmount res)
        (dAdd (rs_ReleasedAmount res) amount) ReservationExpired now in
      saveReservation tenant "RESERVATION_EXPIRED" (rs_ID res +:+ ":expired")
        (list_to_map [("reservation_id", rs_ID res); ("amount", dString amount); ("status", "EXPIRED")]) res';;
      mret tt.

(** Called by the scheduler; its errors are not wrapped. *)
Definition ExpireReservation (tenant id : string) : M error (S * Env) unit :=
  with_tx (expireReservationInTx tenant id).

(** ** get_reservation.go, list_reservations.go *)

Definition GetReservation (tenant id : string) : M error (S * Env) PbReservation :=
  rpc (res ← st_GetReservation tenant id; mret (reservationToProto res)).

Definition ListReservations (r : ListReservationsRequest) : M error (S * Env) (list PbReservation) :=
  rpc (rows ← st_ListReservations (mkListReservationsInput (lrr_TenantId r) (lrr_OwnerType r)
                (lrr_OwnerId r) (lrr_Status r) (lrr_PageSize r));
       mret (reservationToProto <$> rows)).
End Reservations.
