(* ===== verification/ReservationLaws.v ===== *)
(** * The life of a reservation

    [resv_step] is the state machine of a reservation row; the handlers take
    one step of it together with the flow that moves the money.  [resv_ok] is
    its invariant: what is outstanding, committed and released always adds up
    to what was reserved, and a reservation is closed exactly when nothing is
    outstanding. *)

From S2P Require Import Prelude Money Ledger Repo Contract Service Flow FlowLaws Books Reservations.
From stdpp Require Import base gmap strings list numbers.
From Stdlib Require Import Qcanon.

Section Machine.
Implicit Types (rv : RView) (v : LView).
Local Open Scope Qc_scope.

Definition rv_closed rv : bool := ReservationStatus_Closed (rv_status rv).

(** The status after part of the outstanding amount left. *)
Definition rv_next (o : Qc) (final : ReservationStatus) : ReservationStatus :=
  if bool_decide (o = 0) then final else ReservationPartial.

Inductive resv_step rv : RView → Prop :=
| resv_commit a :
    rv_closed rv = false → 0 < a → a <= rv_outstanding rv →
    resv_step rv (rv_amounts (rv_outstanding rv - a) (rv_committed rv + a) (rv_released rv)
      (rv_next (rv_outstanding rv - a) ReservationCommitted) rv)
| resv_release a :
    rv_closed rv = false → 0 < a → a <= rv_outstanding rv →
    resv_step rv (rv_amounts (rv_outstanding rv - a) (rv_committed rv) (rv_released rv + a)
      (rv_next (rv_outstanding rv - a) ReservationReleased) rv)
| resv_expire :
    rv_closed rv = false → rv_outstanding rv ≠ 0 →
    resv_step rv (rv_amounts 0 (rv_committed rv) (rv_released rv + rv_outstanding rv) ReservationExpired rv).

(** The invariant of a reservation. *)
Record rv_ok rv : Prop := {
  rv_sum : rv_outstanding rv + rv_committed rv + rv_released rv = rv_original rv;
  rv_out_nonneg : 0 <= rv_outstanding rv;
  rv_com_nonneg : 0 <= rv_committed rv;
  rv_rel_nonneg : 0 <= rv_released rv;
  rv_positive : 0 < rv_original rv;
  rv_closed_iff : rv_closed rv = true ↔ rv_outstanding rv = 0;
}.

Lemma rv_next_closed o f : ReservationStatus_Closed f = true →
  ReservationStatus_Closed (rv_next o f) = true ↔ o = 0.
Proof. intros Hf. unfold rv_next. case_bool_decide; [done|]. by split. Qed.

Lemma Qcle_sub (a b : Qc) : a <= b → 0 <= b - a.
Proof. intros H. rewrite Qcle_minus_iff in H. exact H. Qed.
Lemma Qcadd_nonneg (a b : Qc) : 0 <= a → 0 <= b → 0 <= a + b.
Proof. intros Ha Hb. replace 0 with (0 + 0) by ring. by apply Qcplus_le_compat. Qed.

Lemma resv_step_ok rv rv' : rv_ok rv → resv_step rv rv' → rv_ok rv'.
Proof.
  intros [Hsum Ho Hc Hr Hp Hiff] Hstep.
  destruct Hstep as [a Hcl Ha Hle|a Hcl Ha Hle|Hcl Hne]; split; simpl; try done;
    try (by apply Qcle_sub); try (apply Qcadd_nonneg; try done; by apply Qclt_le_weak);
    try (rewrite <- Hsum; ring); try (by apply rv_next_closed).
Qed.

(** A closed reservation takes no step; a step keeps the identity and the
    amount reserved, and only lowers what is outstanding. *)
Lemma resv_step_mono rv rv' : rv_ok rv → resv_step rv rv' →
  rv_closed rv = false ∧ rv_id rv' = rv_id rv ∧ rv_original rv' = rv_original rv ∧
  rv_outstanding rv' < rv_outstanding rv ∧ rv_committed rv <= rv_committed rv' ∧ rv_released rv <= rv_released rv'.
Proof.
  intros [Hsum Ho Hc Hr Hp Hiff] Hstep.
  assert (Hlt : ∀ a, 0 < a → rv_outstanding rv - a < rv_outstanding rv).
  { intros a Ha. apply Qclt_minus_iff. replace (rv_outstanding rv + - (rv_outstanding rv - a)) with a by ring. done. }
  assert (Hadd : ∀ a b : Qc, 0 <= a → b <= b + a).
  { intros a b Ha. apply Qcle_minus_iff. replace (b + a + - b) with a by ring. done. }
  destruct Hstep as [a Hcl Ha Hle|a Hcl Ha Hle|Hcl Hne]; simpl; split_and!;
    auto using Qcle_refl, Qclt_le_weak.
  apply Qcle_lt_or_eq in Ho as [Ho|Ho]; [done|]. by rewrite Ho in Hne.
Qed.

(** All reservations of a ledger. *)
Definition resv_ok v : Prop := ∀ t id rv, lv_resv v t id = Some rv →
  rv_ok rv ∧ rv_tenant rv = t ∧ rv_id rv = id.

(** Writes the row of a reservation. *)
Definition lv_save rv v : LView :=
  lv_upd_resv (rv_tenant rv) (rv_id rv) (rv_outstanding rv) (rv_committed rv) (rv_released rv) (rv_status rv) v.

Lemma lv_save_resv rv rv' v t id :
  resv_ok v → lv_resv v (rv_tenant rv) (rv_id rv) = Some rv → resv_step rv rv' →
  lv_resv (lv_save rv' v) t id =
    if (t =s rv_tenant rv) && (id =s rv_id rv) then Some rv' else lv_resv v t id.
Proof.
  intros Hok Hrv Hstep. unfold lv_save, lv_upd_resv, lv_set_resv; simpl.
  assert (Hid : rv_tenant rv' = rv_tenant rv ∧ rv_id rv' = rv_id rv) by (by destruct Hstep).
  destruct Hid as [-> ->]. destruct (lv_resv v t id) as [x|] eqn:Hx.
  - destruct (Hok _ _ _ Hx) as (_ & Ht & Hi). simpl. unfold rv_update. rewrite Ht, Hi.
    destruct ((t =s rv_tenant rv) && (id =s rv_id rv)) eqn:Hm; [|done]. eqs.
    assert (x = rv) as -> by congruence. by destruct Hstep.
  - destruct ((t =s rv_tenant rv) && (id =s rv_id rv)) eqn:Hm; [|done]. eqs. congruence.
Qed.

Lemma lv_save_ok rv rv' v :
  resv_ok v → lv_resv v (rv_tenant rv) (rv_id rv) = Some rv → resv_step rv rv' → resv_ok (lv_save rv' v).
Proof.
  intros Hok Hrv Hstep t id x. rewrite (lv_save_resv rv) by done.
  destruct (_ && _) eqn:Hm; [|by apply Hok]. intros [= <-]. eqs.
  destruct (Hok _ _ _ Hrv) as [Hr _]. split; [by eapply resv_step_ok|]. by destruct Hstep.
Qed.
(** Every reservation of [v0] is still there, some steps further on. *)
Definition resv_life v0 v : Prop := ∀ t id rv, lv_resv v0 t id = Some rv →
  ∃ rv', lv_resv v t id = Some rv' ∧ rtc resv_step rv rv'.

Lemma resv_life_same v0 v v' : lv_resv v' = lv_resv v → resv_life v0 v → resv_life v0 v'.
Proof. intros E Hl t id rv Hrv. rewrite E. by apply Hl. Qed.

Lemma resv_life_save v0 rv rv' v :
  resv_ok v → lv_resv v (rv_tenant rv) (rv_id rv) = Some rv → resv_step rv rv' →
  resv_life v0 v → resv_life v0 (lv_save rv' v).
Proof.
  intros Hok Hrv Hstep Hl t id x Hx. destruct (Hl _ _ _ Hx) as (y & Hy & Hxy).
  rewrite (lv_save_resv rv) by done. destruct (_ && _) eqn:Hm; [|by exists y]. eqs. subst.
  exists rv'. split; [done|]. assert (y = rv) as -> by congruence. by eapply rtc_r.
Qed.

Lemma resv_life_add v0 rv v :
  lv_resv v (rv_tenant rv) (rv_id rv) = None → resv_life v0 v → resv_life v0 (lv_add_resv rv v).
Proof.
  intros Hn Hl t id x Hx. destruct (Hl _ _ _ Hx) as (y & Hy & Hxy). exists y. split; [|done].
  simpl. unfold fput. destruct (_ && _) eqn:Hm; [|done]. eqs. congruence.
Qed.

Lemma rtc_resv_mono rv rv' : rv_ok rv → rtc resv_step rv rv' →
  rv_ok rv' ∧ rv_original rv' = rv_original rv ∧ rv_outstanding rv' <= rv_outstanding rv ∧
  (rv_closed rv = true → rv' = rv).
Proof.
  intros Hok Hsteps. induction Hsteps as [rv|x y z Hxy _ IH]; [by auto using Qcle_refl|].
  destruct (resv_step_mono _ _ Hok Hxy) as (Hcl & _ & Ho & Hlt & _).
  destruct (IH (resv_step_ok _ _ Hok Hxy)) as (Hz & Ho' & Hle & _). split_and!; [done|congruence| |congruence].
  eapply Qcle_trans; [done|]. by apply Qclt_le_weak.
Qed.
End Machine.

(** ** The flow that moves the money *)

Section Move.
Context {D : DecimalOps} {L : DecimalLaws D}.

(** [a] moved: debited to account [d] and credited to account [c]. *)
Definition moves (t d c ccy : string) (a : Qc) (v v' : LView) : Prop :=
  ∀ k, lv_balance v' k = add2 (lv_balance v k)
    ((if bool_decide (k = (t, d, ccy)) then a else 0)%Qc, (if bool_decide (k = (t, c, ccy)) then a else 0)%Qc).

Lemma moveFlow_steps t ft key src act sid ev d c ccy amt steps :
  stepsFromProto (ef_Steps (moveFlow t ft key src act sid ev d c ccy amt)) = Ok steps →
  ∃ a, ParseAmount amt = Ok a ∧ steps ≫= step_entries =
    [mkEntry d ccy DirectionDebit a; mkEntry c ccy DirectionCredit a].
Proof.
  unfold stepsFromProto, moveFlow; simpl. unfold stepFromProto; simpl. unfold entryFromProto; simpl.
  destruct (ParseAmount amt) as [a|e]; [|done]. simpl. intros [= <-]. by exists a.
Qed.

Lemma moveFlow_one t ft key src act sid ev d c ccy amt steps :
  stepsFromProto (ef_Steps (moveFlow t ft key src act sid ev d c ccy amt)) = Ok steps → ∃ st, steps = [st].
Proof.
  unfold stepsFromProto, moveFlow; simpl. unfold stepFromProto; simpl. unfold entryFromProto; simpl.
  destruct (ParseAmount amt) as [a|e]; [|done]. simpl. intros [= <-]. by eexists.
Qed.

Lemma move_totals d c ccy a k :
  totals k [mkEntry d ccy DirectionDebit a; mkEntry c ccy DirectionCredit a] =
  ((if bool_decide (k = (d, ccy)) then val a else 0)%Qc, (if bool_decide (k = (c, ccy)) then val a else 0)%Qc).
Proof.
  unfold totals, entry_debit, entry_credit, entry_key; simpl.
  rewrite (bool_decide_ext ((d, ccy) = k) (k = (d, ccy))), (bool_decide_ext ((c, ccy) = k) (k = (c, ccy)))
    by (split; congruence).
  destruct (bool_decide (k = (d, ccy))), (bool_decide (k = (c, ccy))); simpl; f_equal; ring.
Qed.

(** A flow of this shape, new or replayed. *)
Lemma moveFlow_outcome t ft key src act sid ev d c ccy amt v res v' :
  flow_outcome (moveFlow t ft key src act sid ev d c ccy amt) v res v' →
  ∃ a, ParseAmount amt = Ok a ∧
  ((lv_flow v t key = None ∧ moves t d c ccy (val a) v v') ∨
   (∃ id, lv_flow v t key = Some (id, FlowCompleted) ∧ v' = v)).
Proof.
  intros (steps & Hs & Hout). destruct (moveFlow_steps _ _ _ _ _ _ _ _ _ _ _ _ Hs) as (a & Ha & Hes).
  exists a. split; [done|]. simpl in Hout. destruct (lv_flow v t key) as [[id st]|].
  - right. destruct Hout as (-> & -> & _). by exists id.
  - left. split; [done|]. destruct Hout as (run & l & Hl & -> & _).
    intros [[t' a'] c']. rewrite lv_balance_post. f_equal. simpl.
    destruct (decide (t' = t)) as [->|Ht].
    + rewrite posted_done, Hl, Hes, move_totals. f_equal; (destruct (bool_decide _) eqn:E1;
        [apply bool_decide_eq_true in E1; by rewrite bool_decide_eq_true_2 by congruence
        |apply bool_decide_eq_false in E1; by rewrite bool_decide_eq_false_2 by congruence]).
    + rewrite posted_other by done. by rewrite !bool_decide_eq_false_2 by congruence.
Qed.

(** What a flow never touches. *)
Lemma flow_outcome_frame r v res v' :
  flow_outcome r v res v' →
  lv_acct v' = lv_acct v ∧ lv_resv v' = lv_resv v ∧ lv_resvk v' = lv_resvk v ∧ lv_open v' = lv_open v.
Proof.
  intros (steps & _ & Hout). destruct (lv_flow _ _ _) as [[id st]|].
  - by destruct Hout as (_ & -> & _).
  - by destruct Hout as (run & l & _ & -> & _).
Qed.

Lemma flow_outcome_ok r v res v' : ledger_ok v → flow_outcome r v res v' → ledger_ok v'.
Proof.
  intros Hok (steps & _ & Hout). destruct (lv_flow _ _ _) as [[id st]|].
  - by destruct Hout as (_ & -> & _).
  - destruct Hout as (run & l & <- & -> & _ & Hg). by apply flow_post_ok.
Qed.

Lemma flow_outcome_grows r v res v' : flow_outcome r v res v' → lv_grows v v'.
Proof.
  intros (steps & _ & Hout). destruct (lv_flow _ _ _) as [[id st]|] eqn:Hf.
  - by destruct Hout as (_ & -> & _).
  - destruct Hout as (run & l & _ & -> & _). by apply flow_post_grows.
Qed.

(** Writing a reservation or an outbox event leaves the books alone. *)
Lemma ledger_ok_ext v v' :
  lv_acct v' = lv_acct v → lv_bal v' = lv_bal v → lv_entries v' = lv_entries v → ledger_ok v → ledger_ok v'.
Proof.
  intros Ha Hb He [H1 H2 H3 H4 H5]. split; rewrite ?Ha, ?Hb, ?He; try done.
  intros k. unfold lv_balance. rewrite Hb. apply H1.
Qed.
End Move.

(** ** The handlers *)

Section Bodies.
Context {H : Host} {D : DecimalOps} {L : DecimalLaws D} {T : Type} {R : RepoTx D T} {RL : RepoTxLaws D T}.
Implicit Types (s : T * Env) (v : LView) (res : Reservation) (rv : RView).

Lemma wp_flow r s : wpo (executeFlowInTx r) (λ fres s', flow_outcome r (vw s.1) fres (vw s'.1)) s.
Proof. apply wp_executeFlowInTx. Qed.

(** The end of a handler: the row takes one step and an event is written. *)
Definition resv_effect (f : ExecuteFlowRequest) (ev key : string) v rv rv' v' : Prop :=
  ∃ fres v1, flow_outcome f v fres v1 ∧ resv_step rv rv' ∧
    v' = lv_add_outbox (mkOView (rv_tenant rv) (rv_id rv) ev key) (lv_save rv' v1).

Lemma wp_saveReservation tenant ev key payload res s :
  tenant = rs_TenantID res → lv_resv (vw s.1) tenant (rs_ID res) ≠ None →
  wpo (saveReservation tenant ev key payload res) (λ res' s', res' = res ∧
    vw s'.1 = lv_add_outbox (mkOView (rs_TenantID res) (rs_ID res) ev key) (lv_save (rview res) (vw s.1))) s.
Proof.
  intros -> Hn. unfold saveReservation.
  apply wp_bind. eapply wp_mono; [by apply law_UpdateReservationAmounts| |done]. cbv beta. intros [] s1 E1.
  apply wp_bind, wp_NewID. intros id e. apply wp_bind, wp_Now. intros n e'.
  call law_InsertOutbox. intros [] s2 E2. apply wp_ret. split; [done|]. rewrite E2. simpl. by rewrite E1.
Qed.

Lemma GreaterThan_false a b : GreaterThan a b = false → (val a <= val b)%Qc.
Proof. rewrite GreaterThan_spec. intros Hb%bool_decide_eq_false. by apply Qcnot_lt_le. Qed.

Lemma val_next o f : (if IsZero o then f else ReservationPartial) = rv_next (val o) f.
Proof. unfold rv_next. rewrite IsZero_spec. by case_bool_decide. Qed.

Lemma closed_rview res : ReservationStatus_Closed (rs_Status res) = rv_closed (rview res).
Proof. done. Qed.

(** What a successful commit and release do. *)
Definition commit_post (r : CommitReservationRequest) (amount : dec) (res' : Reservation) v v' : Prop :=
  ∃ res dst,
    lv_resv v (cm_TenantId r) (cm_ReservationId r) = Some (rview res) ∧ rs_ID res = cm_ReservationId r ∧
    lv_acct v (cm_TenantId r) (cm_DestinationAccountId r) = Some (acc_view dst) ∧
    acc_ID dst = cm_DestinationAccountId r ∧
    acc_Currency dst = rs_Currency res ∧
    rv_closed (rview res) = false ∧ (val amount <= rv_outstanding (rview res))%Qc ∧
    rview res' = rv_amounts (rv_outstanding (rview res) - val amount) (rv_committed (rview res) + val amount)
      (rv_released (rview res)) (rv_next (rv_outstanding (rview res) - val amount) ReservationCommitted) (rview res) ∧
    resv_effect (commitFlow r res dst amount) "RESERVATION_COMMITTED"
      (rs_ID res +:+ ":committed:" +:+ cm_IdempotencyKey r) v (rview res) (rview res') v'.

Definition release_post (r : ReleaseReservationRequest) (amount : dec) (res' : Reservation) v v' : Prop :=
  ∃ res,
    lv_resv v (rl_TenantId r) (rl_ReservationId r) = Some (rview res) ∧ rs_ID res = rl_ReservationId r ∧
    rv_closed (rview res) = false ∧ (val amount <= rv_outstanding (rview res))%Qc ∧
    rview res' = rv_amounts (rv_outstanding (rview res) - val amount) (rv_committed (rview res))
      (rv_released (rview res) + val amount) (rv_next (rv_outstanding (rview res) - val amount) ReservationReleased) (rview res) ∧
    resv_effect (releaseFlow r res amount) "RESERVATION_RELEASED"
      (rs_ID res +:+ ":released:" +:+ rl_IdempotencyKey r) v (rview res) (rview res') v'.

Definition expire_post (tenant : string) (res : Reservation) v v' : Prop :=
  (v' = v ∧ (rv_closed (rview res) = true ∨ rv_outstanding (rview res) = 0%Qc)) ∨
  (rv_closed (rview res) = false ∧ rv_outstanding (rview res) ≠ 0%Qc ∧
   resv_effect (expireFlow tenant res) "RESERVATION_EXPIRED" (rs_ID res +:+ ":expired") v (rview res)
     (rv_amounts 0 (rv_committed (rview res)) (rv_released (rview res) + rv_outstanding (rview res))
        ReservationExpired (rview res)) v').

Lemma wp_commitInTx r amount s :
  (0 < val amount)%Qc →
  wpo (commitReservationInTx r amount) (λ res' s', commit_post r amount res' (vw s.1) (vw s'.1)) s.
Proof.
  intros Hpos. unfold commitReservationInTx. call law_LockReservation. intros res s1 (E1 & Hres & Hid & Ht).
  apply wp_bind, wp_throw_if; [done|]. intros Hcl. rewrite closed_rview in Hcl.
  apply wp_bind, wp_throw_if; [done|]. intros Hgt%GreaterThan_false.
  call law_GetAccount. intros dst s2 (E2 & Hdst & Hdid & _).
  apply wp_bind, wp_throw_if; [done|]. intros Hccy. eqs.
  call wp_flow. intros fres s3 Hflow. apply wp_bind, wp_Now. intros now e.
  destruct (flow_outcome_frame _ _ _ _ Hflow) as (_ & Hfr & _).
  rewrite E2, E1 in *. eapply wp_mono; [apply wp_saveReservation; [done|]| |done].
  { simpl. by rewrite Hid, Hfr, Hres. }
  cbv beta. intros res' s4 [-> E4]. simpl in E4. exists res, dst. split_and!; try done.
  - unfold rview at 1; simpl. by rewrite val_sub, val_add, val_next, val_sub.
  - exists fres, (vw s3.1). split; [done|]. split; [|by rewrite E4].
    unfold rview at 2; simpl. rewrite val_sub, val_add, val_next, val_sub. by apply (resv_commit (rview res)).
Qed.

Lemma wp_releaseInTx r amount s :
  (0 < val amount)%Qc →
  wpo (releaseReservationInTx r amount) (λ res' s', release_post r amount res' (vw s.1) (vw s'.1)) s.
Proof.
  intros Hpos. unfold releaseReservationInTx. call law_LockReservation. intros res s1 (E1 & Hres & Hid & Ht).
  apply wp_bind, wp_throw_if; [done|]. intros Hcl. rewrite closed_rview in Hcl.
  apply wp_bind, wp_throw_if; [done|]. intros Hgt%GreaterThan_false.
  call wp_flow. intros fres s3 Hflow. apply wp_bind, wp_Now. intros now e.
  destruct (flow_outcome_frame _ _ _ _ Hflow) as (_ & Hfr & _).
  rewrite E1 in *. eapply wp_mono; [apply wp_saveReservation; [done|]| |done].
  { simpl. by rewrite Hid, Hfr, Hres. }
  cbv beta. intros res' s4 [-> E4]. simpl in E4. exists res. split_and!; try done.
  - unfold rview at 1; simpl. by rewrite val_sub, val_add, val_next, val_sub.
  - exists fres, (vw s3.1). split; [done|]. split; [|by rewrite E4].
    unfold rview at 2; simpl. rewrite val_sub, val_add, val_next, val_sub. by apply (resv_release (rview res)).
Qed.

(** Expiry is a no-op on a closed or empty reservation. *)
Lemma wp_expireInTx tenant id s :
  wpo (expireReservationInTx tenant id) (λ _ s', ∃ res,
    lv_resv (vw s.1) tenant id = Some (rview res) ∧ expire_post tenant res (vw s.1) (vw s'.1)) s.
Proof.
  unfold expireReservationInTx. call law_LockReservation. intros res s1 (E1 & Hres & Hid & Ht).
  destruct (ReservationStatus_Closed _) eqn:Hcl; rewrite closed_rview in Hcl.
  { apply wp_ret. exists res. split; [done|]. left. split; [done|by left]. }
  rewrite IsZero_spec. case_bool_decide as Hz.
  { apply wp_ret. exists res. split; [done|]. left. split; [done|by right]. }
  call wp_flow. intros fres s3 Hflow. apply wp_bind, wp_Now. intros now e.
  destruct (flow_outcome_frame _ _ _ _ Hflow) as (_ & Hfr & _).
  rewrite E1 in *. apply wp_bind. eapply wp_mono; [apply wp_saveReservation; [done|]| |done].
  { simpl. by rewrite Hid, Hfr, Hres. }
  cbv beta. intros res' s4 [-> E4]. apply wp_ret. simpl in E4. exists res. split; [done|]. right.
  split; [done|]. split; [done|]. exists fres, (vw s3.1). split; [done|]. split; [by apply resv_expire|].
  rewrite E4. f_equal. unfold lv_save, rview; simpl. rewrite val_sub, val_add. f_equal. ring.
Qed.

Lemma wp_createInTx r amount s :
  wpo (createReservationInTx r amount) (λ res s',
    match lv_resvk (vw s.1) (cr_TenantId r) (cr_IdempotencyKey r) with
    | Some rv => rview res = rv ∧ vw s'.1 = vw s.1
    | None => ∃ fres v1 id, flow_outcome (createFlow r) (vw s.1) fres v1 ∧
        lv_resv (vw s.1) (cr_TenantId r) id = None ∧
        rview res = mkRView id (cr_TenantId r) (cr_IdempotencyKey r) (cr_SourceAccountId r)
          (cr_ReservedAccountId r) (cr_Currency r) (val amount) (val amount) 0 0 ReservationHeld (er_FlowRunId fres) ∧
        vw s'.1 = lv_add_outbox (mkOView (cr_TenantId r) id "RESERVATION_CREATED" (id +:+ ":created"))
          (lv_add_resv (rview res) v1)
    end) s.
Proof.
  unfold createReservationInTx. call law_GetReservationByIdempotency. intros ex s1 [E1 Hex]. rewrite <- Hex.
  destruct ex as [res|]; simpl; [by apply wp_ret|].
  call wp_flow. intros fres s2 Hflow. rewrite E1 in Hflow.
  apply wp_bind, wp_NewID. intros id e1. apply wp_bind, wp_Now. intros n1 e2. apply wp_bind, wp_Now. intros n2 e3.
  apply wp_bind. eapply wp_mono; [apply law_InsertReservation; apply val_zero| |done].
  cbv beta. intros [] s3 (E3 & Hn & _). simpl in E3, Hn.
  apply wp_bind, wp_NewID. intros oid e4. apply wp_bind, wp_Now. intros n3 e5.
  call law_InsertOutbox. intros [] s4 E4. apply wp_ret. simpl in E4.
  exists fres, (vw s2.1), id. split; [done|].
  destruct (flow_outcome_frame _ _ _ _ Hflow) as (_ & Hfr & _). rewrite Hfr in Hn. split; [done|].
  rewrite E4, E3. unfold rview; simpl. by rewrite val_zero.
Qed.
End Bodies.

(** ** The RPCs *)

Section Rpcs.
Context {H : Host} {D : DecimalOps} {L : DecimalLaws D} {S T : Type} {R : RepoTx D T} {RL : RepoTxLaws D T}
  {ST : RepoStore D S T} {SL : RepoStoreLaws D S T}.
Implicit Types (s : S * Env) (v : LView) (rv : RView).

Lemma ParseAmount_dString a b : ParseAmount (dString a) = Ok b → val b = val a.
Proof.
  intros [Hb _]%ParseAmount_pos. destruct (String_roundtrip a) as (b' & Hb' & Hv). congruence.
Qed.

(** A handler of this shape: parse the amount, run the body in a transaction. *)
Lemma reservation_rpc txt (body : dec → M error (T * Env) Reservation) (Q : dec → Reservation → LView → LView → Prop) s p s' :
  (∀ a t e, (0 < val a)%Qc → vw t = svw s.1 →
     wpo (body a) (λ res x, Q a res (svw s.1) (vw x.1) ∧ lv_open (vw x.1) = lv_open (svw s.1)) (t, e)) →
  rpc (a ← parseReservationAmount txt; res ← with_tx (body a); mret (reservationToProto res)) s = (Ok p, s') →
  ∃ a res, ParseAmount txt = Ok a ∧ p = reservationToProto res ∧ Q a res (svw s.1) (svw s'.1).
Proof.
  intros Hbody Hrun. unfold rpc, mbind, M_bind, parseReservationAmount in Hrun.
  destruct (ParseAmount txt) as [a|e] eqn:Ha; [|done].
  pose proof (wp_with_tx (body a) (λ res v', Q a res (svw s.1) v') s) as Hwp.
  destruct (with_tx (body a) s) as [[res|e] s1] eqn:Hw; [|done]. injection Hrun as <- <-.
  exists a, res. split_and!; try done. refine (wp_ok _ _ _ _ _ _ (Hwp _) Hw).
  intros t e Ht Ho. eapply wp_mono; [apply Hbody; [by apply (ParseAmount_pos _ _ Ha)|done]| |done].
  cbv beta. intros res' s2 [HQ Ho']. split; [done|]. congruence.
Qed.

Lemma resv_effect_open f ev key v rv rv' v' : resv_effect f ev key v rv rv' v' → lv_open v' = lv_open v.
Proof. intros (fres & v1 & Hf & _ & ->). by destruct (flow_outcome_frame _ _ _ _ Hf) as (_ & _ & _ & Ho). Qed.

(** Only this reservation changes. *)
Lemma resv_effect_resv f ev key v rv rv' v' t id :
  resv_ok v → lv_resv v (rv_tenant rv) (rv_id rv) = Some rv → resv_effect f ev key v rv rv' v' →
  lv_resv v' t id = if (t =s rv_tenant rv) && (id =s rv_id rv) then Some rv' else lv_resv v t id.
Proof.
  intros Hok Hrv (fres & v1 & Hf & Hstep & ->). destruct (flow_outcome_frame _ _ _ _ Hf) as (_ & Hr & _ & _).
  simpl. rewrite <- Hr. apply (lv_save_resv rv rv' v1); [|by rewrite Hr|done]. unfold resv_ok. by rewrite Hr.
Qed.

(** The money moves, unless the flow was replayed. *)
Lemma resv_effect_moves t ft key src act sid eid d c ccy a ev ek v rv rv' v' :
  resv_effect (moveFlow t ft key src act sid eid d c ccy (dString a)) ev ek v rv rv' v' →
  (lv_flow v t key = None ∧ moves t d c ccy (val a) v v') ∨
  (∃ id, lv_flow v t key = Some (id, FlowCompleted) ∧ ∀ k, lv_balance v' k = lv_balance v k).
Proof.
  intros (fres & v1 & Hf & _ & ->). destruct (moveFlow_outcome _ _ _ _ _ _ _ _ _ _ _ _ _ _ Hf) as (b & Hb & Hm).
  rewrite (ParseAmount_dString _ _ Hb) in Hm. destruct Hm as [[Hn Hm]|(id & Hid & ->)]; [by left|right].
  by exists id.
Qed.

(** What the handlers did when they answered. *)
Lemma CommitReservation_post (r : CommitReservationRequest) s p s' :
  CommitReservation r s = (Ok p, s') →
  ∃ a res, ParseAmount (cm_Amount r) = Ok a ∧ p = reservationToProto res ∧
    (0 < val a)%Qc ∧ commit_post r a res (svw s.1) (svw s'.1).
Proof.
  intros Hrun. eapply (reservation_rpc _ _ (λ a res v v', (0 < val a)%Qc ∧ commit_post r a res v v')) in Hrun; [done|].
  intros a t e Ha Ht. eapply wp_mono; [by apply wp_commitInTx| |done]. simpl. rewrite Ht. cbv beta.
  intros res x Hp. split; [done|]. destruct Hp as (res0 & dst & Hp). by eapply resv_effect_open, Hp.
Qed.
Lemma ReleaseReservation_post (r : ReleaseReservationRequest) s p s' :
  ReleaseReservation r s = (Ok p, s') →
  ∃ a res, ParseAmount (rl_Amount r) = Ok a ∧ p = reservationToProto res ∧
    (0 < val a)%Qc ∧ release_post r a res (svw s.1) (svw s'.1).
Proof.
  intros Hrun. eapply (reservation_rpc _ _ (λ a res v v', (0 < val a)%Qc ∧ release_post r a res v v')) in Hrun; [done|].
  intros a t e Ha Ht. eapply wp_mono; [by apply wp_releaseInTx| |done]. simpl. rewrite Ht. cbv beta.
  intros res x Hp. split; [done|]. destruct Hp as (res0 & Hp). by eapply resv_effect_open, Hp.
Qed.

(** C15. [CommitReservation]: when it succeeds, the reservation was open and
    had at least the amount outstanding; exactly the amount passed from
    outstanding to committed, the reservation being COMMITTED when nothing is
    left and PARTIAL otherwise; no other reservation changed; and the amount
    moved from the reserved account to the destination and nowhere else,
    unless the commit's flow had already run, in which case no balance
    changed. *)
Theorem CommitReservation_spec (r : CommitReservationRequest) s p s' :
  resv_ok (svw s.1) → CommitReservation r s = (Ok p, s') →
  let v := svw s.1 in let v' := svw s'.1 in
  ∃ a rv rv', ParseAmount (cm_Amount r) = Ok a ∧
    lv_resv v (cm_TenantId r) (cm_ReservationId r) = Some rv ∧
    rv_closed rv = false ∧ (0 < val a)%Qc ∧ (val a <= rv_outstanding rv)%Qc ∧
    rv' = rv_amounts (rv_outstanding rv - val a) (rv_committed rv + val a) (rv_released rv)
            (rv_next (rv_outstanding rv - val a) ReservationCommitted) rv ∧
    (∀ t id, lv_resv v' t id = if (t =s cm_TenantId r) && (id =s cm_ReservationId r) then Some rv' else lv_resv v t id) ∧
    let key := rv_id rv +:+ ":commit:" +:+ cm_IdempotencyKey r in
    ((lv_flow v (cm_TenantId r) key = None ∧
      moves (cm_TenantId r) (cm_DestinationAccountId r) (rv_reserved rv) (rv_currency rv) (val a) v v') ∨
     (∃ id, lv_flow v (cm_TenantId r) key = Some (id, FlowCompleted) ∧ ∀ k, lv_balance v' k = lv_balance v k)).
Proof.
  intros Hok Hrun. cbv zeta.
  apply CommitReservation_post in Hrun.
  destruct Hrun as (a & res' & Ha & -> & Hpos & res & dst & Hres & _ & Hdst & Hid & Hccy & Hcl & Hle & Hrv' & Heff).
  destruct (Hok _ _ _ Hres) as (_ & Ht & Hi).
  exists a, (rview res), (rview res'). split_and!; try done.
  - intros t id. rewrite (resv_effect_resv _ _ _ _ _ _ _ t id Hok ltac:(by rewrite Ht, Hi) Heff).
    by rewrite Ht, Hi.
  - apply resv_effect_moves in Heff. by rewrite Hid in Heff.
Qed.

(** C16. [ReleaseReservation]: when it succeeds, the reservation was open and
    had at least the amount outstanding; exactly the amount passed from
    outstanding to released, the reservation being RELEASED when nothing is
    left and PARTIAL otherwise; no other reservation changed; and the amount
    moved back from the reserved account to the source account, unless the
    release's flow had already run, in which case no balance changed. *)
Theorem ReleaseReservation_spec (r : ReleaseReservationRequest) s p s' :
  resv_ok (svw s.1) → ReleaseReservation r s = (Ok p, s') →
  let v := svw s.1 in let v' := svw s'.1 in
  ∃ a rv rv', ParseAmount (rl_Amount r) = Ok a ∧
    lv_resv v (rl_TenantId r) (rl_ReservationId r) = Some rv ∧
    rv_closed rv = false ∧ (0 < val a)%Qc ∧ (val a <= rv_outstanding rv)%Qc ∧
    rv' = rv_amounts (rv_outstanding rv - val a) (rv_committed rv) (rv_released rv + val a)
            (rv_next (rv_outstanding rv - val a) ReservationReleased) rv ∧
    (∀ t id, lv_resv v' t id = if (t =s rl_TenantId r) && (id =s rl_ReservationId r) then Some rv' else lv_resv v t id) ∧
    let key := rv_id rv +:+ ":release:" +:+ rl_IdempotencyKey r in
    ((lv_flow v (rl_TenantId r) key = None ∧
      moves (rl_TenantId r) (rv_source rv) (rv_reserved rv) (rv_currency rv) (val a) v v') ∨
     (∃ id, lv_flow v (rl_TenantId r) key = Some (id, FlowCompleted) ∧ ∀ k, lv_balance v' k = lv_balance v k)).
Proof.
  intros Hok Hrun. cbv zeta.
  apply ReleaseReservation_post in Hrun.
  destruct Hrun as (a & res' & Ha & -> & Hpos & res & Hres & _ & Hcl & Hle & Hrv' & Heff).
  destruct (Hok _ _ _ Hres) as (_ & Ht & Hi).
  exists a, (rview res), (rview res'). split_and!; try done.
  - intros t id. rewrite (resv_effect_resv _ _ _ _ _ _ _ t id Hok ltac:(by rewrite Ht, Hi) Heff).
    by rewrite Ht, Hi.
  - by apply resv_effect_moves in Heff.
Qed.

Definition create_post (r : CreateReservationRequest) (amount : dec) (res : Reservation) v v' : Prop :=
  match lv_resvk v (cr_TenantId r) (cr_IdempotencyKey r) with
  | Some rv => rview res = rv ∧ v' = v
  | None => ∃ fres v1 id, flow_outcome (createFlow r) v fres v1 ∧
      lv_resv v (cr_TenantId r) id = None ∧
      rview res = mkRView id (cr_TenantId r) (cr_IdempotencyKey r) (cr_SourceAccountId r)
        (cr_ReservedAccountId r) (cr_Currency r) (val amount) (val amount) 0 0 ReservationHeld (er_FlowRunId fres) ∧
      v' = lv_add_outbox (mkOView (cr_TenantId r) id "RESERVATION_CREATED" (id +:+ ":created"))
        (lv_add_resv (rview res) v1)
  end.

Lemma CreateReservation_post (r : CreateReservationRequest) s p s' :
  CreateReservation r s = (Ok p, s') →
  ∃ a res, ParseAmount (cr_Amount r) = Ok a ∧ p = reservationToProto res ∧ create_post r a res (svw s.1) (svw s'.1).
Proof.
  intros Hrun. eapply (reservation_rpc _ _ (create_post r)) in Hrun; [done|].
  intros a t e Ha Ht. eapply wp_mono; [by apply wp_createInTx| |done]. simpl. rewrite Ht. cbv beta.
  intros res x Hp. split; [done|]. simpl in Hp. destruct (lv_resvk _ _ _) as [rv|]; [by destruct Hp as [_ ->]|].
  destruct Hp as (fres & v1 & id & Hf & _ & _ & ->). by destruct (flow_outcome_frame _ _ _ _ Hf) as (_ & _ & _ & Ho).
Qed.

(** C17. [CreateReservation] is idempotent on its key: with a key already
    used it changes nothing and answers with the reservation stored.  With a
    new key it adds one HELD reservation with the whole amount outstanding,
    changes no other, and the amount moves from the source account to the
    reserved account, unless its flow had already run. *)
Theorem CreateReservation_spec (r : CreateReservationRequest) s p s' :
  CreateReservation r s = (Ok p, s') →
  let v := svw s.1 in let v' := svw s'.1 in
  ∃ a res, ParseAmount (cr_Amount r) = Ok a ∧ p = reservationToProto res ∧
    match lv_resvk v (cr_TenantId r) (cr_IdempotencyKey r) with
    | Some rv => rview res = rv ∧ v' = v
    | None =>
        let rv := rview res in
        rv_original rv = val a ∧ rv_outstanding rv = val a ∧ rv_committed rv = 0%Qc ∧
        rv_released rv = 0%Qc ∧ rv_status rv = ReservationHeld ∧
        lv_resv v (cr_TenantId r) (rv_id rv) = None ∧
        (∀ t id, lv_resv v' t id = if (t =s cr_TenantId r) && (id =s rv_id rv) then Some rv else lv_resv v t id) ∧
        ((lv_flow v (cr_TenantId r) (cr_IdempotencyKey r +:+ ":create") = None ∧
          moves (cr_TenantId r) (cr_ReservedAccountId r) (cr_SourceAccountId r) (cr_Currency r) (val a) v v') ∨
         (∃ id, lv_flow v (cr_TenantId r) (cr_IdempotencyKey r +:+ ":create") = Some (id, FlowCompleted) ∧
                ∀ k, lv_balance v' k = lv_balance v k))
    end.
Proof.
  intros Hrun. cbv zeta.
  apply CreateReservation_post in Hrun.
  destruct Hrun as (a & res & Ha & -> & Hp). exists a, res. split; [done|]. split; [done|].
  unfold create_post in Hp. destruct (lv_resvk _ _ _) as [rv|]; [done|].
  destruct Hp as (fres & v1 & id & Hf & Hn & Hrv & ->). rewrite Hrv. simpl.
  destruct (flow_outcome_frame _ _ _ _ Hf) as (_ & Hr & _ & _). split_and!; try done.
  - intros t' id'. unfold fput. by rewrite Hr.
  - destruct (moveFlow_outcome _ _ _ _ _ _ _ _ _ _ _ _ _ _ Hf) as (b & Hb & [[Hk Hm]|(fid & Hk & ->)]).
    + left. split; [done|]. assert (b = a) as -> by congruence. done.
    + right. by exists fid.
Qed.

(** C18. [ExpireReservation] never fails half way: on an open reservation
    with something outstanding it releases all of it and marks the
    reservation EXPIRED, the money moving back to the source account unless
    the expiry flow had already run; on a closed or emptied one it does
    nothing; no other reservation changes; and an error changes nothing. *)
Theorem ExpireReservation_spec (t id : string) s :
  resv_ok (svw s.1) →
  match ExpireReservation t id s with
  | (Err _, s') => s'.1 = s.1
  | (Ok _, s') =>
      let v := svw s.1 in let v' := svw s'.1 in
      ∃ rv, lv_resv v t id = Some rv ∧
      if rv_closed rv || bool_decide (rv_outstanding rv = 0%Qc) then v' = v
      else
        (∀ t' id', lv_resv v' t' id' = if (t' =s t) && (id' =s id)
           then Some (rv_amounts 0 (rv_committed rv) (rv_released rv + rv_outstanding rv) ReservationExpired rv)
           else lv_resv v t' id') ∧
        ((lv_flow v t (rv_id rv +:+ ":expire") = None ∧
          moves t (rv_source rv) (rv_reserved rv) (rv_currency rv) (rv_outstanding rv) v v') ∨
         (∃ f, lv_flow v t (rv_id rv +:+ ":expire") = Some (f, FlowCompleted) ∧ ∀ k, lv_balance v' k = lv_balance v k))
  end.
Proof.
  intros Hok. pose proof (wp_with_tx (expireReservationInTx t id) (λ _ v', ∃ res,
    lv_resv (svw s.1) t id = Some (rview res) ∧ expire_post t res (svw s.1) v') s) as Hwp.
  unfold wp in Hwp at 2. fold (ExpireReservation t id) in Hwp.
  assert (Hbody : ∀ tx e, vw tx = svw s.1 → lv_open (svw s.1) = true →
    wpo (expireReservationInTx t id) (λ _ x, (∃ res,
      lv_resv (svw s.1) t id = Some (rview res) ∧ expire_post t res (svw s.1) (vw x.1)) ∧ lv_open (vw x.1) = true) (tx, e)).
  { intros tx e Ht Ho. eapply wp_mono; [apply wp_expireInTx| |done]. simpl. rewrite Ht. cbv beta.
    intros [] x (res & Hres & Hp). split; [by exists res|].
    destruct Hp as [[-> _]|(_ & _ & Hp)]; [done|]. by rewrite (resv_effect_open _ _ _ _ _ _ _ Hp). }
  specialize (Hwp Hbody). destruct (ExpireReservation t id s) as [[[]|e] s']; [|done]. cbv zeta.
  destruct Hwp as (res & Hres & Hp). exists (rview res). split; [done|].
  destruct (Hok _ _ _ Hres) as (_ & Ht & Hi).
  destruct Hp as [[-> [Hc|Hc]]|(Hc & Hz & Heff)].
  - by rewrite Hc.
  - by rewrite (bool_decide_eq_true_2 _ Hc), orb_true_r.
  - rewrite Hc, (bool_decide_eq_false_2 _ Hz). simpl. split.
    + intros t' id'. rewrite (resv_effect_resv _ _ _ _ _ _ _ t' id' Hok ltac:(by rewrite Ht, Hi) Heff).
      by rewrite Ht, Hi.
    + by apply resv_effect_moves in Heff.
Qed.
End Rpcs.
