(* ===== verification/Exchange.v ===== *)
(** * internal/service: FX rates and exchanges

    fx_helpers.go, put_fx_rate.go, get_fx_rate.go, list_fx_rates.go and
    execute_exchange.go. *)

From S2P Require Import Prelude Money Ledger Repo Contract Service Flow.
From stdpp Require Import base gmap strings list numbers.

Record PbFXRate := mkPbFXRate {
  pf_Id : string; pf_TenantId : string; pf_BaseCurrency : string; pf_QuoteCurrency : string;
  pf_Rate : string; pf_Source : string; pf_EffectiveAt : Time; pf_CreatedAt : Time }.
Record PutFXRateRequest := mkPutFXRateRequest {
  pfr_TenantId : string; pfr_BaseCurrency : string; pfr_QuoteCurrency : string; pfr_Rate : string;
  pfr_Source : string; pfr_EffectiveAt : option Time }.
Record GetFXRateRequest := mkGetFXRateRequest {
  gfr_TenantId : string; gfr_BaseCurrency : string; gfr_QuoteCurrency : string; gfr_At : option Time }.
Record ListFXRatesRequest := mkListFXRatesRequest {
  lfr_TenantId : string; lfr_BaseCurrency : string; lfr_QuoteCurrency : string;
  lfr_Since : option Time; lfr_Until : option Time; lfr_PageSize : Z }.
Record ExecuteExchangeRequest := mkExecuteExchangeRequest {
  ex_TenantId : string; ex_IdempotencyKey : string; ex_SourceService : string; ex_ActorId : string;
  ex_FromAccountId : string; ex_FromCounterAccountId : string;
  ex_ToAccountId : string; ex_ToCounterAccountId : string;
  ex_FromAmount : string; ex_ToAmount : string; ex_Rate : string; ex_RateSource : string;
  ex_Metadata : option Meta }.
Record ExecuteExchangeResponse := mkExecuteExchangeResponse {
  exr_FlowRunId : string; exr_JournalId : string; exr_RateUsed : string; exr_RateSource : string }.

Section Exchange.
Context {H : Host} {D : DecimalOps} {S T : Type} {R : RepoTx D T} {ST : RepoStore D S T}.

(** ** fx_helpers.go and the rate handlers *)

Definition fxRateToProto (r : FXRate) : PbFXRate :=
  mkPbFXRate (fx_ID r) (fx_TenantID r) (fx_BaseCurrency r) (fx_QuoteCurrency r) (dString (fx_Rate r))
    (fx_Source r) (fx_EffectiveAt r) (fx_CreatedAt r).

(** An amount the exchange handlers parse. *)
Definition parseFX {X} (s : string) : M error X dec := λ x,
  match ParseAmount s with
  | Ok a => (Ok a, x)
  | Err _ => (Err (ErrDomain CodeFXAmountMismatch), x)
  end.

Definition PutFXRate (r : PutFXRateRequest) : M error (S * Env) PbFXRate :=
  rpc (rate ← parseFX (pfr_Rate r);
       now ← Now;
       let effective := default now (pfr_EffectiveAt r) in
       id ← NewID;
       got ← st_UpsertFXRate (mkFXRate id (pfr_TenantId r) (pfr_BaseCurrency r) (pfr_QuoteCurrency r)
               rate (pfr_Source r) effective time_zero);
       mret (fxRateToProto got)).

Definition GetFXRate (r : GetFXRateRequest) : M error (S * Env) PbFXRate :=
  rpc (now ← Now;
       let at_ := default now (gfr_At r) in
       got ← st_GetFXRateAt (gfr_TenantId r) (gfr_BaseCurrency r) (gfr_QuoteCurrency r) at_;
       match got with
       | None => throw (ErrDomain CodeFXRateNotFound)
       | Some x => mret (fxRateToProto x)
       end).

Definition ListFXRates (r : ListFXRatesRequest) : M error (S * Env) (list PbFXRate) :=
  rpc (rows ← st_ListFXRates (mkListFXRatesInput (lfr_TenantId r) (lfr_BaseCurrency r)
                (lfr_QuoteCurrency r) (lfr_Since r) (lfr_Until r) (lfr_PageSize r));
       mret (fxRateToProto <$> rows)).

(** ** execute_exchange.go *)

(** The rate: the request's, or the stored one effective now. *)
Definition resolveRate (r : ExecuteExchangeRequest) (fromAcc toAcc : Account) : M error (S * Env) (dec * string) :=
  if negb (ex_Rate r =s "") then
    match NewFromString (ex_Rate r) with
    | Some rate => if IsPositive rate then mret (rate, ex_RateSource r)
                   else throw (ErrDomain CodeFXAmountMismatch)
    | None => throw (ErrDomain CodeFXAmountMismatch)
    end
  else
    now ← Now;
    got ← st_GetFXRateAt (ex_TenantId r) (acc_Currency fromAcc) (acc_Currency toAcc) now;
    match got with
    | None => throw (ErrDomain CodeFXRateNotFound)
    | Some x => mret (fx_Rate x, fx_Source x)
    end.

Definition exchangeMeta (r : ExecuteExchangeRequest) (fromAcc toAcc : Account) (rate : dec) (src : string) : Meta :=
  <["to_currency" := acc_Currency toAcc]> (<["from_currency" := acc_Currency fromAcc]>
    (<["rate_source" := src]> (<["rate" := dString rate]> (structToMap (ex_Metadata r))))).

Definition exchangeFlow (r : ExecuteExchangeRequest) (fromAcc toAcc : Account) (rate : dec) (src : string)
    : ExecuteFlowRequest :=
  mkExecuteFlowRequest (ex_TenantId r) "EXCHANGE" (ex_IdempotencyKey r) (ex_SourceService r) (ex_ActorId r)
    (mapToStruct (exchangeMeta r fromAcc toAcc rate src))
    [mkPbStep "exchange" (Some (mkPbJournal (ex_IdempotencyKey r +:+ ":exchange")
      [mkPbEntry (ex_FromCounterAccountId r) (acc_Currency fromAcc) DIRECTION_DEBIT (ex_FromAmount r);
       mkPbEntry (ex_FromAccountId r) (acc_Currency fromAcc) DIRECTION_CREDIT (ex_FromAmount r);
       mkPbEntry (ex_ToAccountId r) (acc_Currency toAcc) DIRECTION_DEBIT (ex_ToAmount r);
       mkPbEntry (ex_ToCounterAccountId r) (acc_Currency toAcc) DIRECTION_CREDIT (ex_ToAmount r)]))].

Definition exchangeInTx (r : ExecuteExchangeRequest) (fromAmount toAmount : dec) (fromAcc toAcc : Account)
    (rate : dec) (src : string) : M error (T * Env) ExecuteFlowResponse :=
  throw_if (negb (Equal (dMul fromAmount rate) toAmount)) (ErrDomain CodeFXAmountMismatch);;
  executeFlowInTx (exchangeFlow r fromAcc toAcc rate src).

Definition ExecuteExchange (r : ExecuteExchangeRequest) : M error (S * Env) ExecuteExchangeResponse :=
  rpc (fromAmount ← parseFX (ex_FromAmount r);
       toAmount ← parseFX (ex_ToAmount r);
       fromAcc ← st_GetAccount (ex_TenantId r) (ex_FromAccountId r);
       toAcc ← st_GetAccount (ex_TenantId r) (ex_ToAccountId r);
       throw_if (acc_Currency fromAcc =s acc_Currency toAcc) (ErrDomain CodeAccountCurrencyMismatch);;
       '(rate, src) ← resolveRate r fromAcc toAcc;
       flowResp ← with_tx (exchangeInTx r fromAmount toAmount fromAcc toAcc rate src);
       let journalID := match er_Steps flowResp with s :: _ => sr_JournalId s | [] => "" end in
       mret (mkExecuteExchangeResponse (er_FlowRunId flowResp) journalID (dString rate) src)).
End Exchange.
