(* ===== verification/ExchangeLaws.v ===== *)
(** * What an exchange does to the ledger *)

From S2P Require Import Prelude Money Ledger Repo Contract Service Flow FlowLaws Books Reservations.
From S2P Require Import ReservationLaws Exchange.
From stdpp Require Import base gmap strings list numbers.
From Stdlib Require Import Qcanon.

Section Legs.
Context {D : DecimalOps} {L : DecimalLaws D}.

(** What [moves] adds to the balance of a key. *)
Definition leg (t d c ccy : string) (a : Qc) (k : BKey) : Qc * Qc :=
  ((if bool_decide (k = (t, d, ccy)) then a else 0)%Qc, (if bool_decide (k = (t, c, ccy)) then a else 0)%Qc).

Definition exchange_entries (r : ExecuteExchangeRequest) (from to : string) (a b : dec) : list Entry :=
  [mkEntry (ex_FromCounterAccountId r) from DirectionDebit a; mkEntry (ex_FromAccountId r) from DirectionCredit a;
   mkEntry (ex_ToAccountId r) to DirectionDebit b; mkEntry (ex_ToCounterAccountId r) to DirectionCredit b].

Lemma exchangeFlow_steps r fa ta rate src steps a b :
  ParseAmount (ex_FromAmount r) = Ok a → ParseAmount (ex_ToAmount r) = Ok b →
  stepsFromProto (ef_Steps (exchangeFlow r fa ta rate src)) = Ok steps →
  steps ≫= step_entries = exchange_entries r (acc_Currency fa) (acc_Currency ta) a b.
Proof.
  intros Ha Hb. unfold stepsFromProto, exchangeFlow; simpl. unfold stepFromProto; simpl.
  unfold entryFromProto; simpl. rewrite Ha, Hb. simpl. by intros [= <-].
Qed.

Lemma totals_legs r t from to a b x c :
  totals (x, c) (exchange_entries r from to a b) =
  add2 (leg t (ex_FromCounterAccountId r) (ex_FromAccountId r) from (val a) (t, x, c))
       (leg t (ex_ToAccountId r) (ex_ToCounterAccountId r) to (val b) (t, x, c)).
Proof.
  unfold exchange_entries. change ([?e1; ?e2; ?e3; ?e4]) with ([e1; e2] ++ [e3; e4]).
  rewrite totals_app, !move_totals. unfold leg.
  rewrite (bool_decide_ext ((t, x, c) = (t, ex_FromCounterAccountId r, from)) ((x, c) = (ex_FromCounterAccountId r, from))),
    (bool_decide_ext ((t, x, c) = (t, ex_FromAccountId r, from)) ((x, c) = (ex_FromAccountId r, from))),
    (bool_decide_ext ((t, x, c) = (t, ex_ToAccountId r, to)) ((x, c) = (ex_ToAccountId r, to))),
    (bool_decide_ext ((t, x, c) = (t, ex_ToCounterAccountId r, to)) ((x, c) = (ex_ToCounterAccountId r, to)))
    by (split; congruence). done.
Qed.
End Legs.

Section Exchange.
Context {H : Host} {D : DecimalOps} {L : DecimalLaws D} {S T : Type} {R : RepoTx D T} {RL : RepoTxLaws D T}
  {ST : RepoStore D S T} {SL : RepoStoreLaws D S T} {FL : RepoFrameLaws D S T}.
Implicit Types (s : S * Env).

(** What a successful exchange did, with its amounts, currencies and rate. *)
Definition exchange_effect (r : ExecuteExchangeRequest) (a b rate : dec) (from to : string) (v v' : LView) : Prop :=
  from ≠ to ∧ (val a * val rate = val b)%Qc ∧
  ((lv_flow v (ex_TenantId r) (ex_IdempotencyKey r) = None ∧
    ∀ k, lv_balance v' k = add2 (lv_balance v k)
      (add2 (leg (ex_TenantId r) (ex_FromCounterAccountId r) (ex_FromAccountId r) from (val a) k)
            (leg (ex_TenantId r) (ex_ToAccountId r) (ex_ToCounterAccountId r) to (val b) k))) ∨
   (∃ id, lv_flow v (ex_TenantId r) (ex_IdempotencyKey r) = Some (id, FlowCompleted) ∧ v' = v)).

Lemma leg_other t t' d c ccy a x y : t' ≠ t → leg t d c ccy a (t', x, y) = (0, 0)%Qc.
Proof. intros Ht. unfold leg. by rewrite !bool_decide_eq_false_2 by congruence. Qed.

Lemma exchangeFlow_outcome r fa ta rate src a b v res v' :
  ParseAmount (ex_FromAmount r) = Ok a → ParseAmount (ex_ToAmount r) = Ok b →
  flow_outcome (exchangeFlow r fa ta rate src) v res v' →
  (lv_flow v (ex_TenantId r) (ex_IdempotencyKey r) = None ∧
    ∀ k, lv_balance v' k = add2 (lv_balance v k)
      (add2 (leg (ex_TenantId r) (ex_FromCounterAccountId r) (ex_FromAccountId r) (acc_Currency fa) (val a) k)
            (leg (ex_TenantId r) (ex_ToAccountId r) (ex_ToCounterAccountId r) (acc_Currency ta) (val b) k))) ∨
  (∃ id, lv_flow v (ex_TenantId r) (ex_IdempotencyKey r) = Some (id, FlowCompleted) ∧ v' = v).
Proof.
  intros Ha Hb (steps & Hs & Hout). apply (exchangeFlow_steps _ _ _ _ _ _ _ _ Ha Hb) in Hs. simpl in Hout.
  destruct (lv_flow v _ _) as [[id st]|].
  - right. destruct Hout as (-> & -> & _). by exists id.
  - left. split; [done|]. destruct Hout as (run & l & Hl & -> & _). intros [[t x] c].
    rewrite lv_balance_post. f_equal. simpl. destruct (decide (t = ex_TenantId r)) as [->|Ht].
    + rewrite posted_done, Hl, Hs. apply totals_legs.
    + by rewrite posted_other, !leg_other, add2_zero.
Qed.

Lemma wp_exchangeInTx r a b fa ta rate src (x : T * Env) :
  ParseAmount (ex_FromAmount r) = Ok a → ParseAmount (ex_ToAmount r) = Ok b → acc_Currency fa ≠ acc_Currency ta →
  wpo (exchangeInTx r a b fa ta rate src) (λ _ x',
    exchange_effect r a b rate (acc_Currency fa) (acc_Currency ta) (vw x.1) (vw x'.1) ∧
    lv_open (vw x'.1) = lv_open (vw x.1)) x.
Proof.
  intros Ha Hb Hne. unfold exchangeInTx. apply wp_bind, wp_throw_if; [done|]. intros Heq.
  eapply wp_mono; [apply wp_flow| |done]. cbv beta. intros res x' Hf.
  destruct (flow_outcome_frame _ _ _ _ Hf) as (_ & _ & _ & Ho). split; [|done]. split; [done|].
  rewrite negb_false_iff, Equal_spec, bool_decide_eq_true, val_mul in Heq. split; [done|].
  by eapply exchangeFlow_outcome.
Qed.

Lemma frame_ok {A} (m : M error (S * Env) A) s a s' : st_frame m → m s = (Ok a, s') → svw s'.1 = svw s.1.
Proof. intros Hm Hr. specialize (Hm s). by rewrite Hr in Hm. Qed.

Lemma rpc_ok {X A} (m : M error X A) x a x' : rpc m x = (Ok a, x') → m x = (Ok a, x').
Proof. unfold rpc. destruct (m x) as [[]]; [done|done]. Qed.

Lemma parseFX_ok txt s a s' : parseFX txt s = (Ok a, s') → ParseAmount txt = Ok a ∧ s' = s.
Proof. unfold parseFX. destruct (ParseAmount txt); [|done]. by intros [= <- <-]. Qed.

Lemma throw_if_ok {X} c (e : error) (x : X) u x' : throw_if c e x = (Ok u, x') → c = false ∧ x' = x.
Proof. unfold throw_if. destruct c; [done|]. by intros [= _ <-]. Qed.

Lemma st_GetAccount_ok t id s a s' :
  st_GetAccount t id s = (Ok a, s') → lv_acct (svw s.1) t id = Some (acc_view a) ∧ svw s'.1 = svw s.1.
Proof.
  intros Hr. split; [exact (wp_ok _ _ _ _ _ _ (law_st_GetAccount _ _ _) Hr)|].
  eapply frame_ok; [apply frame_st_GetAccount|done].
Qed.

Lemma resolveRate_frame r fa ta s p s' : resolveRate r fa ta s = (Ok p, s') → svw s'.1 = svw s.1.
Proof.
  unfold resolveRate. destruct (negb _).
  - destruct (NewFromString _) as [q|]; [|done]. destruct (IsPositive q); [|done]. by intros [= _ <-].
  - intros Hr. inv_ok Hr. inv_ok Hr. destruct s as [st e]. injection Hrun as <- <-.
    apply frame_ok in Hrun0; [|apply frame_st_GetFXRateAt]. destruct a0; [|done]. by injection Hr as <- <-.
Qed.

(** C19. [ExecuteExchange]: when it succeeds, the two accounts are in
    different currencies, the amount received is exactly the amount given
    times the rate the response reports, and, unless the flow had already
    run, the amount given went from the account to its counter account in
    the first currency and the amount received from the other counter
    account to the other account in the second one, and no other balance
    changed. *)
Theorem ExecuteExchange_spec (r : ExecuteExchangeRequest) s p s' :
  ExecuteExchange r s = (Ok p, s') →
  ∃ fa ta a b rate, lv_acct (svw s.1) (ex_TenantId r) (ex_FromAccountId r) = Some (acc_view fa) ∧
    lv_acct (svw s.1) (ex_TenantId r) (ex_ToAccountId r) = Some (acc_view ta) ∧
    ParseAmount (ex_FromAmount r) = Ok a ∧ ParseAmount (ex_ToAmount r) = Ok b ∧
    exr_RateUsed p = dString rate ∧
    exchange_effect r a b rate (acc_Currency fa) (acc_Currency ta) (svw s.1) (svw s'.1).
Proof.
  intros Hrun%rpc_ok. apply bind_ok in Hrun as (a & s1 & [Ha ->]%parseFX_ok & Hrun).
  apply bind_ok in Hrun as (b & s1 & [Hb ->]%parseFX_ok & Hrun).
  apply bind_ok in Hrun as (fa & s1 & [Hfa E1]%st_GetAccount_ok & Hrun).
  apply bind_ok in Hrun as (ta & s2 & [Hta E2]%st_GetAccount_ok & Hrun). rewrite E1 in Hta, E2.
  apply bind_ok in Hrun as ([] & s3 & [Hne ->]%throw_if_ok & Hrun). eqs.
  apply bind_ok in Hrun as ([rate src] & s4 & E4%resolveRate_frame & Hrun). rewrite E2 in E4.
  apply bind_ok in Hrun as (resp & s5 & Htx & Hrun). injection Hrun as <- <-.
  exists fa, ta, a, b, rate. split_and!; try done.
  pose proof (wp_with_tx (exchangeInTx r a b fa ta rate src)
    (λ _ v', exchange_effect r a b rate (acc_Currency fa) (acc_Currency ta) (svw s4.1) v') s4) as Hwp.
  rewrite <- E4. refine (wp_ok _ _ _ _ _ _ (Hwp _) Htx).
  intros t e Ht Ho. eapply wp_mono; [by apply wp_exchangeInTx| |done]. simpl. rewrite Ht. cbv beta.
  intros res x [He Hx]. split; [done|congruence].
Qed.
End Exchange.
