(* ===== verification/Recon.v ===== *)
(** * internal/recon and the reconciliation handlers

    matcher.go ([Run]), run_reconciliation.go, ingest_external_records.go,
    resolve_discrepancy.go, get_reconciliation_batch.go,
    list_discrepancies.go and recon_helpers.go.  The counters are Go
    [int32]s.  The journals left unmatched are visited in the order of a map
    in Go; here in the order of [map_to_list]. *)

From S2P Require Import Prelude Money Ledger Repo Contract Service Flow.
From stdpp Require Import base gmap strings list numbers pretty.

(** ** Messages *)

Record PbExternalRecord := mkPbExternalRecord {
  pe_Source : string; pe_ExternalRef : string; pe_Amount : string; pe_Currency : string;
  pe_OccurredAt : option Time; pe_AccountId : string; pe_RawPayload : option Meta }.
Record PbReconBatch := mkPbReconBatch {
  prb_Id : string; prb_TenantId : string; prb_Source : string; prb_WindowStart : Time;
  prb_WindowEnd : Time; prb_Status : string; prb_IngestedCount : Z; prb_MatchedCount : Z;
  prb_MismatchedCount : Z; prb_MissingInLedgerCount : Z; prb_MissingInExternalCount : Z;
  prb_StartedAt : Time; prb_ActorId : string; prb_CompletedAt : option Time }.
Record PbDiscrepancy := mkPbDiscrepancy {
  pd_Id : string; pd_TenantId : string; pd_BatchId : string; pd_Type : string;
  pd_ExternalRecordId : string; pd_JournalId : string; pd_Status : string;
  pd_ResolutionJournalId : string; pd_ResolutionNote : string; pd_ResolvedBy : string;
  pd_CreatedAt : Time; pd_ResolvedAt : option Time }.
Record RunReconciliationRequest := mkRunReconciliationRequest {
  rr_TenantId : string; rr_IdempotencyKey : string; rr_Source : string;
  rr_WindowStart : option Time; rr_WindowEnd : option Time; rr_ActorId : string }.
Record ResolveDiscrepancyRequest := mkResolveDiscrepancyRequest {
  rd_TenantId : string; rd_DiscrepancyId : string; rd_IdempotencyKey : string; rd_Resolution : string;
  rd_Note : string; rd_ActorId : string; rd_Adjustment : option ExecuteFlowRequest }.

(** ** matcher.go *)

Section Matcher.
Context {D : DecimalOps}.

Record MatchResult := mkMatchResult {
  mr_Ingested : Z; mr_Matched : Z; mr_Mismatched : Z; mr_MissingInLedger : Z;
  mr_MissingInExternal : Z; mr_Discrepancies : list Discrepancy }.

(** A discrepancy as the matcher returns it: the caller fills in the rest. *)
Definition mkDisc (tenant : string) (ty : DiscrepancyType) (ext journal : string) : Discrepancy :=
  mkDiscrepancy "" tenant "" ty ext journal "" "" "" "" time_zero time_zero.

Definition countMissingInLedger (tenant : string) (res : MatchResult) (e : ExternalRecord) : MatchResult :=
  mkMatchResult (mr_Ingested res) (mr_Matched res) (mr_Mismatched res)
    (int32 (mr_MissingInLedger res + 1)) (mr_MissingInExternal res)
    (mr_Discrepancies res ++ [mkDisc tenant DiscrepancyMissingInLedger (er_ID e) ""]).
Definition countMismatched (tenant : string) (res : MatchResult) (e : ExternalRecord) (j : Journal) : MatchResult :=
  mkMatchResult (mr_Ingested res) (mr_Matched res) (int32 (mr_Mismatched res + 1))
    (mr_MissingInLedger res) (mr_MissingInExternal res)
    (mr_Discrepancies res ++ [mkDisc tenant DiscrepancyAmountMismatch (er_ID e) (jr_ID j)]).
Definition countMatched (res : MatchResult) : MatchResult :=
  mkMatchResult (mr_Ingested res) (int32 (mr_Matched res + 1)) (mr_Mismatched res)
    (mr_MissingInLedger res) (mr_MissingInExternal res) (mr_Discrepancies res).
Definition countMissingInExternal (tenant : string) (res : MatchResult) (j : Journal) : MatchResult :=
  mkMatchResult (mr_Ingested res) (mr_Matched res) (mr_Mismatched res)
    (mr_MissingInLedger res) (int32 (mr_MissingInExternal res + 1))
    (mr_Discrepancies res ++ [mkDisc tenant DiscrepancyMissingInExternal "" (jr_ID j)]).

(** [byEventID[j.EventID] = j], later journals first. *)
Definition byEventID (js : list Journal) : gmap string Journal :=
  foldl (λ m j, <[jr_EventID j := j]> m) ∅ js.

Context {H : Host} {T : Type} {R : RepoTx D T}.

(** The amount check of a record with an anchor account. *)
Definition amountDiffers (tenant : string) (e : ExternalRecord) (j : Journal) : M error (T * Env) bool :=
  if er_AccountID e =s "" then mret false
  else
    '(debits, credits) ← tx_SumJournalEntries tenant (jr_ID j) (er_AccountID e) (er_Currency e);
    mret (negb (Equal (dSub debits credits) (er_Amount e))).

(** One turn of the loop over the external records. *)
Definition matchRecord (tenant : string) (acc : gmap string Journal * MatchResult) (e : ExternalRecord)
    : M error (T * Env) (gmap string Journal * MatchResult) :=
  let '(open, res) := acc in
  match open !! er_ExternalRef e with
  | None => mret (open, countMissingInLedger tenant res e)
  | Some j =>
      differs ← amountDiffers tenant e j;
      if differs : bool then
        tx_UpdateExternalRecordMatch tenant (er_ID e) ExternalMismatched (jr_ID j);;
        mret (delete (er_ExternalRef e) open, countMismatched tenant res e j)
      else
        tx_UpdateExternalRecordMatch tenant (er_ID e) ExternalMatched (jr_ID j);;
        mret (delete (er_ExternalRef e) open, countMatched res)
  end.

Definition matcherRun (tenant source : string) (windowStart windowEnd : Time) : M error (T * Env) MatchResult :=
  ext ← tx_ListExternalRecordsForRecon tenant source windowStart windowEnd;
  journals ← tx_ListJournalsForRecon tenant source windowStart windowEnd;
  '(rest, res) ← foldM (matchRecord tenant) ext
     (byEventID journals, mkMatchResult (int32 (Z.of_nat (length ext))) 0 0 0 0 []);
  mret (foldl (countMissingInExternal tenant) res ((map_to_list rest).*2)).
End Matcher.

(** ** The handlers *)

Section Handlers.
Context {H : Host} {D : DecimalOps} {S T : Type} {R : RepoTx D T} {ST : RepoStore D S T}.
Abbreviation TxM A := (M error (T * Env) A).

Definition opt_time (t : Time) : option Time := if Time_IsZero t then None else Some t.

Definition reconBatchToProto (b : ReconciliationBatch) : PbReconBatch :=
  mkPbReconBatch (rb_ID b) (rb_TenantID b) (rb_Source b) (rb_WindowStart b) (rb_WindowEnd b)
    (rb_Status b) (rb_IngestedCount b) (rb_MatchedCount b) (rb_MismatchedCount b)
    (rb_MissingInLedgerCount b) (rb_MissingInExternalCount b) (rb_StartedAt b) (rb_ActorID b)
    (opt_time (rb_CompletedAt b)).

Definition discrepancyToProto (d : Discrepancy) : PbDiscrepancy :=
  mkPbDiscrepancy (dc_ID d) (dc_TenantID d) (dc_BatchID d) (dc_Type d) (dc_ExternalRecordID d)
    (dc_JournalID d) (dc_Status d) (dc_ResolutionJournalID d) (dc_ResolutionNote d) (dc_ResolvedBy d)
    (dc_CreatedAt d) (opt_time (dc_ResolvedAt d)).

(** ** ingest_external_records.go *)

Definition ingestOne (tenant : string) (acc : Z * Z) (r : PbExternalRecord) : M error (S * Env) (Z * Z) :=
  match ParseAmount (pe_Amount r) with
  | Err _ => throw (ErrDomain CodeUnbalancedJournal)
  | Ok amt =>
      now ← Now;
      id ← NewID;
      ok ← st_InsertExternalRecord (mkExternalRecord id tenant (pe_Source r) (pe_ExternalRef r) amt
             (pe_Currency r) (default now (pe_OccurredAt r)) (pe_AccountId r)
             (structToMap (pe_RawPayload r)) "" "" time_zero);
      mret (if ok : bool then (int32 (acc.1 + 1), acc.2) else (acc.1, int32 (acc.2 + 1)))
  end.

Definition IngestExternalRecords (tenant : string) (records : list PbExternalRecord) : M error (S * Env) (Z * Z) :=
  rpc (foldM (ingestOne tenant) records (0%Z, 0%Z)).

(** ** run_reconciliation.go *)

Definition openDiscrepancy (batch : ReconciliationBatch) (_ : unit) (d0 : Discrepancy) : TxM unit :=
  id ← NewID;
  created ← Now;
  let d := mkDiscrepancy id (dc_TenantID d0) (rb_ID batch) (dc_Type d0) (dc_ExternalRecordID d0)
    (dc_JournalID d0) DiscrepancyOpen (dc_ResolutionJournalID d0) (dc_ResolutionNote d0)
    (dc_ResolvedBy d0) (dc_ResolvedAt d0) created in
  tx_InsertDiscrepancy d;;
  outboxID ← NewID;
  now ← Now;
  tx_InsertOutbox (mkOutboxEvent outboxID (rb_TenantID batch) id "DISCREPANCY_OPENED" (id +:+ ":opened")
    (list_to_map [("discrepancy_id", id); ("type", dc_Type d); ("batch_id", rb_ID batch)]) now).

Definition completeBatch (b : ReconciliationBatch) (res : MatchResult) (now : Time) : ReconciliationBatch :=
  mkReconciliationBatch (rb_ID b) (rb_TenantID b) (rb_IdempotencyKey b) (rb_Source b)
    (rb_WindowStart b) (rb_WindowEnd b) BatchCompleted (mr_Ingested res) (mr_Matched res)
    (mr_Mismatched res) (mr_MissingInLedger res) (mr_MissingInExternal res) (rb_StartedAt b) now (rb_ActorID b).

Definition batchPayload (b : ReconciliationBatch) (res : MatchResult) : Meta :=
  list_to_map [("batch_id", rb_ID b); ("source", rb_Source b); ("matched", pretty (mr_Matched res));
    ("missing_in_ledger", pretty (mr_MissingInLedger res));
    ("missing_in_external", pretty (mr_MissingInExternal res)); ("mismatched", pretty (mr_Mismatched res))].

Definition runReconciliationInTx (r : RunReconciliationRequest) (ws we : Time) : TxM ReconciliationBatch :=
  existing ← tx_GetReconBatchByIdempotency (rr_TenantId r) (rr_IdempotencyKey r);
  match existing with
  | Some b =>
      throw_if (negb (rb_Status b =s BatchCompleted)) (ErrDomain CodeFlowConflict);;
      mret b
  | None =>
      id ← NewID;
      started ← Now;
      let batch := mkReconciliationBatch id (rr_TenantId r) (rr_IdempotencyKey r) (rr_Source r) ws we
        BatchRunning 0 0 0 0 0 started time_zero (rr_ActorId r) in
      tx_InsertReconBatch batch;;
      res ← matcherRun (rr_TenantId r) (rr_Source r) ws we;
      foldM (openDiscrepancy batch) (mr_Discrepancies res) tt;;
      completed ← Now;
      let batch' := completeBatch batch res completed in
      tx_CompleteReconBatch batch';;
      outboxID ← NewID;
      now ← Now;
      tx_InsertOutbox (mkOutboxEvent outboxID (rb_TenantID batch') (rb_ID batch') "RECON_BATCH_COMPLETED"
        (rb_ID batch' +:+ ":completed") (batchPayload batch' res) now);;
      mret batch'
  end.

Definition RunReconciliation (r : RunReconciliationRequest) : M error (S * Env) PbReconBatch :=
  rpc (now1 ← Now;
       let ws := default now1 (rr_WindowStart r) in
       now2 ← Now;
       let we := default now2 (rr_WindowEnd r) in
       b ← with_tx (runReconciliationInTx r ws we);
       mret (reconBatchToProto b)).

(** ** resolve_discrepancy.go *)

Definition adjustmentFlow (key : string) (adj : ExecuteFlowRequest) : ExecuteFlowRequest :=
  mkExecuteFlowRequest (ef_TenantId adj) (ef_FlowType adj) key (ef_SourceService adj) (ef_ActorId adj)
    (ef_Metadata adj) (ef_Steps adj).

(** The journal of the adjustment, or none. *)
Definition runAdjustment (r : ResolveDiscrepancyRequest) (d : Discrepancy) : TxM string :=
  match rd_Adjustment r with
  | Some adj =>
      if rd_Resolution r =s "RESOLVED" then
        res ← executeFlowInTx (adjustmentFlow (dc_ID d +:+ ":resolve:" +:+ rd_IdempotencyKey r) adj);
        mret (match er_Steps res with s :: _ => sr_JournalId s | [] => "" end)
      else mret ""
  | None => mret ""
  end.

Definition resolveDiscrepancyInTx (r : ResolveDiscrepancyRequest) : TxM Discrepancy :=
  d ← tx_LockDiscrepancy (rd_TenantId r) (rd_DiscrepancyId r);
  throw_if (DiscrepancyStatus_Closed (dc_Status d)) (ErrDomain CodeDiscrepancyClosed);;
  journal ← runAdjustment r d;
  resolvedAt ← Now;
  let d' := mkDiscrepancy (dc_ID d) (dc_TenantID d) (dc_BatchID d) (dc_Type d) (dc_ExternalRecordID d)
    (dc_JournalID d) (rd_Resolution r) journal (rd_Note r) (rd_ActorId r) resolvedAt (dc_CreatedAt d) in
  tx_ResolveDiscrepancyRow d';;
  outboxID ← NewID;
  now ← Now;
  tx_InsertOutbox (mkOutboxEvent outboxID (dc_TenantID d') (dc_ID d')
    (if dc_Status d' =s DiscrepancyIgnored then "DISCREPANCY_IGNORED" else "DISCREPANCY_RESOLVED")
    (dc_ID d' +:+ ":" +:+ dc_Status d' +:+ ":" +:+ rd_IdempotencyKey r)
    (list_to_map [("discrepancy_id", dc_ID d'); ("status", dc_Status d');
      ("resolution_journal_id", dc_ResolutionJournalID d')]) now);;
  mret d'.

Definition ResolveDiscrepancy (r : ResolveDiscrepancyRequest) : M error (S * Env) PbDiscrepancy :=
  rpc (throw_if (negb (rd_Resolution r =s "RESOLVED") && negb (rd_Resolution r =s "IGNORED"))
         (ErrDomain CodeAccountCurrencyMismatch);;
       d ← with_tx (resolveDiscrepancyInTx r);
       mret (discrepancyToProto d)).

(** ** get_reconciliation_batch.go, list_discrepancies.go *)

Definition GetReconciliationBatch (tenant id : string) : M error (S * Env) PbReconBatch :=
  rpc (b ← st_GetReconBatch tenant id; mret (reconBatchToProto b)).

Definition ListDiscrepancies (tenant batch status : string) (pageSize : Z) : M error (S * Env) (list PbDiscrepancy) :=
  rpc (rows ← st_ListDiscrepancies (mkListDiscrepanciesInput tenant batch status pageSize);
       mret (discrepancyToProto <$> rows)).
End Handlers.
