(* ===== verification/ReconLaws.v ===== *)
(** * What a reconciliation pass finds

    The matcher judges every external record of a window against the journals
    and the entries of the ledger ([judge]): missing in the ledger, matched or
    mismatched.  [MatcherLaws] is what it needs of the storage: the sums
    of a journal's entries and the match marks of the records.
    [matcherRun_spec] says that its counters, its discrepancies and the marks
    it leaves are those of the judgements. *)

From S2P Require Import Prelude Money Ledger Repo Contract Service Flow FlowLaws Recon.
From stdpp Require Import base gmap strings list numbers.
From Stdlib Require Import Qcanon FunctionalExtensionality.

(** The entries of an account in a journal, in one direction, added up. *)
Definition journal_total (l : list PEntry) (t j a c dir : string) : Qc :=
  Qcsum (λ e, if (pe_tenant e =s t) && (pe_journal e =s j) && (pe_account e =s a) && (pe_currency e =s c) &&
                 (pe_direction e =s dir) then pe_amount e else 0%Qc) l.

(** Match status and matched journal of the record of a tenant and id. *)
Abbreviation Marks := (string → string → option (ExternalRecordStatus * string)).
Definition mark_put (f : Marks) (t id : string) (m : ExternalRecordStatus * string) : Marks :=
  λ t' id', if (t' =s t) && (id' =s id) then (λ _, m) <$> f t id else f t' id'.

(** Updating the rows of a key is a point update of the marks. *)
Lemma sel_mark_put {A} (p : string → string → A → bool) (f : A → A) (mark : A → ExternalRecordStatus * string) m t id l :
  (∀ t id x, p t id (f x) = p t id x) → (∀ x, mark (f x) = m) →
  (∀ t id t' id' x, p t id x = true → p t' id' x = true → t' = t ∧ id' = id) →
  (λ t' id', mark <$> sel (p t' id') (upd (p t id) f l)) = mark_put (λ t' id', mark <$> sel (p t' id') l) t id m.
Proof.
  intros Hp Hm Hkey. extensionality t'. extensionality id'. rewrite sel_upd by done. unfold mark_put.
  destruct ((t' =s t) && (id' =s id)) eqn:Ek; eqs.
  - subst. destruct (sel (p t id) l) as [x|] eqn:Hx; simpl; [|done]. apply sel_some in Hx as [_ ->]. by rewrite Hm.
  - destruct (sel (p t' id') l) as [x|] eqn:Hx; simpl; [|done]. apply sel_some in Hx as [_ Hx]. destruct (p t id x) eqn:Hx2; [|done].
    destruct (Hkey _ _ _ _ _ Hx2 Hx) as [-> ->]. by rewrite !bool_decide_eq_true_2 in Ek.
Qed.

(** What the matcher relies on; [mt_exact] holds where the backend adds the
    entries' amounts up without loss. *)
Class MatcherLaws (D : DecimalOps) {L : DecimalLaws D} (T : Type) {R : RepoTx D T} := {
  mt_entries : T → list PEntry;
  mt_marks : T → Marks;
  mt_exact : T → Prop;
  mt_same (x y : T) : Prop := mt_entries y = mt_entries x ∧ mt_marks y = mt_marks x ∧ (mt_exact x → mt_exact y);
  law_mt_records t src ws we s :
    wpo (tx_ListExternalRecordsForRecon t src ws we) (λ l s',
      mt_same s.1 s'.1 ∧ Forall (λ e, mt_marks s.1 t (er_ID e) ≠ None) l) s;
  law_mt_journals t src ws we s : wpo (tx_ListJournalsForRecon t src ws we) (λ _ s', mt_same s.1 s'.1) s;
  law_mt_sums t j a c s : mt_exact s.1 →
    wpo (tx_SumJournalEntries t j a c) (λ r s', mt_same s.1 s'.1 ∧
      val r.1 = journal_total (mt_entries s.1) t j a c DirectionDebit ∧
      val r.2 = journal_total (mt_entries s.1) t j a c DirectionCredit) s;
  law_mt_update t id st j s :
    wpo (tx_UpdateExternalRecordMatch t id st j) (λ _ s',
      mt_entries s'.1 = mt_entries s.1 ∧ mt_marks s'.1 = mark_put (mt_marks s.1) t id (st, j) ∧
      (mt_exact s.1 → mt_exact s'.1)) s;
}.

Section Matcher.
Context {H : Host} {D : DecimalOps} {L : DecimalLaws D} {T : Type} {R : RepoTx D T} {ML : MatcherLaws D T}.
Implicit Types (s : T * Env) (ext pre : list ExternalRecord) (js : list Journal) (open : gmap string Journal).

Abbreviation ref := er_ExternalRef.

(** ** Judging a record *)

Inductive Verdict := MissingInLedger | Matched (j : Journal) | Mismatched (j : Journal).

(** A record is matched with the journal whose event id it refers to, unless
    it names an account and the journal's debits less its credits there are
    not the record's amount. *)
Definition judge (l : list PEntry) (t : string) open0 (e : ExternalRecord) : Verdict :=
  match open0 !! ref e with
  | None => MissingInLedger
  | Some j =>
      let total := journal_total l t (jr_ID j) (er_AccountID e) (er_Currency e) in
      if (er_AccountID e =s "") || bool_decide (total DirectionDebit - total DirectionCredit = val (er_Amount e))%Qc
      then Matched j else Mismatched j
  end.

Definition is_missing (v : Verdict) : bool := match v with MissingInLedger => true | _ => false end.
Definition is_matched (v : Verdict) : bool := match v with Matched _ => true | _ => false end.
Definition is_mismatched (v : Verdict) : bool := match v with Mismatched _ => true | _ => false end.
(** The records of a class. *)
Definition count (p : Verdict → bool) (f : ExternalRecord → Verdict) ext : Z := Z.of_nat (length (filter (λ e, p (f e)) ext)).

(** The discrepancy to open, and the mark to leave. *)
Definition disc_of (t : string) (e : ExternalRecord) (v : Verdict) : list Discrepancy :=
  match v with
  | MissingInLedger => [mkDisc t DiscrepancyMissingInLedger (er_ID e) ""]
  | Matched _ => []
  | Mismatched j => [mkDisc t DiscrepancyAmountMismatch (er_ID e) (jr_ID j)]
  end.
Definition mark_of (v : Verdict) (old : option (ExternalRecordStatus * string)) : option (ExternalRecordStatus * string) :=
  match v with
  | MissingInLedger => old
  | Matched j => Some (ExternalMatched, jr_ID j)
  | Mismatched j => Some (ExternalMismatched, jr_ID j)
  end.

(** Journals no record refers to. *)
Definition unmatched open0 ext : gmap string Journal := filter (λ kv, kv.1 ∉ ref <$> ext) open0.

(** ** The loop *)

(** Where the journals are [open0], the entries [l] and the first marks [m0],
    the state after the records [pre]. *)
Record matched_state (t : string) (l : list PEntry) (m0 : Marks) (open0 : gmap string Journal) (n : Z) pre open
    (res : MatchResult) (x : T) : Prop := {
  ms_open : open = unmatched open0 pre;
  ms_ingested : mr_Ingested res = n;
  ms_matched : mr_Matched res = count is_matched (judge l t open0) pre;
  ms_mismatched : mr_Mismatched res = count is_mismatched (judge l t open0) pre;
  ms_missing : mr_MissingInLedger res = count is_missing (judge l t open0) pre;
  ms_external : mr_MissingInExternal res = 0%Z;
  ms_discs : mr_Discrepancies res = pre ≫= (λ e, disc_of t e (judge l t open0 e));
  ms_entries : mt_entries x = l;
  ms_exact : mt_exact x;
  ms_marks : ∀ e, e ∈ pre → mt_marks x t (er_ID e) = mark_of (judge l t open0 e) (m0 t (er_ID e));
  ms_others : ∀ t' i, (t' = t → i ∉ er_ID <$> pre) → mt_marks x t' i = m0 t' i;
}.

Lemma unmatched_snoc_unknown open0 pre e :
  open0 !! ref e = None → unmatched open0 (pre ++ [e]) = unmatched open0 pre.
Proof.
  intros He. apply map_eq. intros k. unfold unmatched. rewrite !map_lookup_filter.
  destruct (open0 !! k) as [j|] eqn:Hk; simpl; [|done].
  rewrite fmap_app. simpl. apply option_guard_iff. rewrite elem_of_app, list_elem_of_singleton.
  split; [tauto|]. intros Hn [?| ->]; congruence.
Qed.

Lemma unmatched_snoc_known open0 pre e :
  unmatched open0 (pre ++ [e]) = delete (ref e) (unmatched open0 pre).
Proof.
  apply map_eq. intros k. unfold unmatched. rewrite lookup_delete. case_decide as Hk.
  - subst k. rewrite map_lookup_filter. destruct (open0 !! _) as [j|]; simpl; [|done].
    rewrite option_guard_False; [done|]. rewrite fmap_app, elem_of_app. simpl. rewrite list_elem_of_singleton. tauto.
  - rewrite !map_lookup_filter. destruct (open0 !! _) as [j|]; simpl; [|done].
    rewrite fmap_app. apply option_guard_iff. simpl. rewrite elem_of_app, list_elem_of_singleton.
    intuition congruence.
Qed.

Lemma unmatched_lookup open0 pre e : ref e ∉ ref <$> pre → unmatched open0 pre !! ref e = open0 !! ref e.
Proof.
  intros Hn. unfold unmatched. rewrite map_lookup_filter. destruct (open0 !! ref e); simpl; [|done].
  by rewrite option_guard_True.
Qed.

Lemma count_snoc p f pre e : count p f (pre ++ [e]) = (count p f pre + if p (f e) then 1 else 0)%Z.
Proof. unfold count. rewrite list.filter_app, length_app, filter_cons, filter_nil. destruct (p (f e)); simpl; lia. Qed.
Lemma count_bound p f pre : (0 ≤ count p f pre ≤ Z.of_nat (length pre))%Z.
Proof. unfold count. pose proof (length_filter (λ e, p (f e)) pre). lia. Qed.
Lemma count_total f pre : (count is_matched f pre + count is_mismatched f pre + count is_missing f pre)%Z = Z.of_nat (length pre).
Proof.
  induction pre as [|e pre IH] using rev_ind; [done|]. rewrite !count_snoc, length_app. simpl. destruct (f e); simpl; lia.
Qed.

Lemma matched_state_init t l m0 open0 n x :
  mt_entries x = l → mt_marks x = m0 → mt_exact x →
  matched_state t l m0 open0 n [] open0 (mkMatchResult n 0 0 0 0 []) x.
Proof.
  intros He Hm Hx. split; try done.
  - unfold unmatched. symmetry. apply map_filter_id. intros k j _. simpl. apply not_elem_of_nil.
  - by intros e ?%not_elem_of_nil.
  - intros t' i _. by rewrite Hm.
Qed.

(** The next record, judged [v], with its counters [res'] and marks. *)
Lemma matched_state_next t l m0 open0 n pre open res x e v open' res' y :
  matched_state t l m0 open0 n pre open res x → judge l t open0 e = v → er_ID e ∉ er_ID <$> pre →
  m0 t (er_ID e) ≠ None →
  open' = unmatched open0 (pre ++ [e]) →
  mr_Ingested res' = mr_Ingested res → mr_MissingInExternal res' = 0%Z →
  mr_Matched res' = (mr_Matched res + if is_matched v then 1 else 0)%Z →
  mr_Mismatched res' = (mr_Mismatched res + if is_mismatched v then 1 else 0)%Z →
  mr_MissingInLedger res' = (mr_MissingInLedger res + if is_missing v then 1 else 0)%Z →
  mr_Discrepancies res' = mr_Discrepancies res ++ disc_of t e v →
  mt_entries y = l → mt_exact y →
  mt_marks y = match v with
    | MissingInLedger => mt_marks x
    | Matched j => mark_put (mt_marks x) t (er_ID e) (ExternalMatched, jr_ID j)
    | Mismatched j => mark_put (mt_marks x) t (er_ID e) (ExternalMismatched, jr_ID j)
    end →
  matched_state t l m0 open0 n (pre ++ [e]) open' res' y.
Proof.
  intros [-> Hi Hm Hmm Hu Hx Hd He Hex Hmk Hot] Hv Hid Hrow Ho Hi' Hx' Hm' Hmm' Hu' Hd' He' Hex' Hmk'.
  assert (Hold : mt_marks x t (er_ID e) = m0 t (er_ID e)) by by apply Hot.
  assert (Hput : ∀ t' i, mt_marks y t' i = if (t' =s t) && (i =s er_ID e) then mark_of v (m0 t (er_ID e)) else mt_marks x t' i).
  { intros t' i. rewrite Hmk'. destruct ((t' =s t) && (i =s er_ID e)) eqn:Ek; destruct v; unfold mark_put; rewrite ?Ek; try done.
    - eqs. by subst.
    - rewrite Hold. by destruct (m0 t (er_ID e)).
    - rewrite Hold. by destruct (m0 t (er_ID e)). }
  split; rewrite ?count_snoc, ?Hv; try done; try congruence.
  - rewrite Hd', Hd, bind_app. simpl. by rewrite Hv, app_nil_r.
  - intros e' [He1| ->%list_elem_of_singleton]%elem_of_app; rewrite Hput.
    + rewrite (bool_decide_eq_false_2 (er_ID e' = er_ID e)), andb_false_r; [by apply Hmk|].
      intros E. apply Hid. rewrite <- E. by apply list_elem_of_fmap_2.
    + by rewrite !bool_decide_eq_true_2, Hv.
  - intros t' i Hn. rewrite Hput, fmap_app in *. destruct ((t' =s t) && (i =s er_ID e)) eqn:Ek; eqs.
    + subst. exfalso. apply (Hn eq_refl). apply elem_of_app. right. by apply list_elem_of_singleton.
    + apply Hot. intros -> Hin. apply (Hn eq_refl). apply elem_of_app. by left.
Qed.

(** The amount check of the matcher decides what [judge] does. *)
Lemma wp_amountDiffers t e j s :
  mt_exact s.1 →
  wpo (amountDiffers t e j) (λ b s', mt_same s.1 s'.1 ∧
    ∀ open0, open0 !! ref e = Some j → judge (mt_entries s.1) t open0 e = if b then Mismatched j else Matched j) s.
Proof.
  intros Hx. unfold amountDiffers, judge. destruct (er_AccountID e =s "") eqn:Ea.
  - apply wp_ret. split; [by split|]. by intros open0 ->.
  - apply wp_bind. eapply wp_mono; [by apply law_mt_sums| |done]. cbv beta. intros [d k] s' (Hs & Hd & Hk). simpl in Hd, Hk.
    apply wp_ret. split; [done|]. intros open0 ->. simpl. rewrite Equal_spec, val_sub, Hd, Hk.
    repeat case_bool_decide; simpl; done || congruence.
Qed.

(** One record: the bound keeps the counters away from overflow. *)
Lemma matchRecord_state t l m0 open0 n pre open res e s :
  (Z.of_nat (length pre) < 2 ^ 31 - 1)%Z → ref e ∉ ref <$> pre → er_ID e ∉ er_ID <$> pre → m0 t (er_ID e) ≠ None →
  matched_state t l m0 open0 n pre open res s.1 →
  wpo (matchRecord t (open, res) e) (λ acc s', matched_state t l m0 open0 n (pre ++ [e]) acc.1 acc.2 s'.1) s.
Proof.
  intros Hlen Hfresh Hid Hrow Hst. pose proof Hst as [-> Hi Hm Hmm Hu Hx Hd He Hex _ _]. unfold matchRecord.
  pose proof (count_bound is_matched (judge l t open0) pre). pose proof (count_bound is_mismatched (judge l t open0) pre).
  pose proof (count_bound is_missing (judge l t open0) pre).
  rewrite unmatched_lookup by done. destruct (open0 !! ref e) as [j|] eqn:Hj.
  - apply wp_bind. eapply wp_mono; [by apply wp_amountDiffers| |done]. cbv beta. intros b s1 [(E1 & E2 & E3) Hb].
    specialize (Hb open0 Hj). rewrite He in Hb.
    destruct b; apply wp_bind; (eapply wp_mono; [apply law_mt_update| |done]); cbv beta; intros _ s2 (F1 & F2 & F3); apply wp_ret;
      (eapply matched_state_next; [exact Hst|exact Hb|done|done|by rewrite unmatched_snoc_known|..]); simpl;
      rewrite ?int32_id, ?Z.add_0_r by lia; rewrite ?app_nil_r; try done; try congruence; try (by rewrite F2, E2); by apply F3, E3.
  - apply wp_ret. assert (Hv : judge l t open0 e = MissingInLedger) by (unfold judge; by rewrite Hj).
    eapply matched_state_next; [exact Hst|exact Hv|done|done|by rewrite unmatched_snoc_unknown|..]; simpl;
      rewrite ?int32_id, ?Z.add_0_r by lia; done.
Qed.

Lemma matchRecords_state t l m0 open0 ext s :
  (Z.of_nat (length ext) < 2 ^ 31)%Z → NoDup (ref <$> ext) → NoDup (er_ID <$> ext) →
  Forall (λ e, m0 t (er_ID e) ≠ None) ext → mt_entries s.1 = l → mt_marks s.1 = m0 → mt_exact s.1 →
  wpo (foldM (matchRecord t) ext (open0, mkMatchResult (int32 (Z.of_nat (length ext))) 0 0 0 0 []))
    (λ acc s', matched_state t l m0 open0 (Z.of_nat (length ext)) ext acc.1 acc.2 s'.1) s.
Proof.
  intros Hlen Hnd Hni Hrows He Hm Hx.
  apply (wp_foldM _ _ _ (λ pre acc s', matched_state t l m0 open0 (Z.of_nat (length ext)) pre acc.1 acc.2 s'.1)).
  - rewrite int32_id by lia. by apply matched_state_init.
  - intros pre e post [open res] s' -> Hst. apply matchRecord_state; [..|done].
    + rewrite length_app in Hlen. simpl in Hlen. lia.
    + rewrite fmap_app, fmap_cons in Hnd. apply list.NoDup_app in Hnd as (_ & Hdis & _). intros Hin. apply (Hdis _ Hin). by left.
    + rewrite fmap_app, fmap_cons in Hni. apply list.NoDup_app in Hni as (_ & Hdis & _). intros Hin. apply (Hdis _ Hin). by left.
    + rewrite list.Forall_app, list.Forall_cons in Hrows. apply Hrows.
Qed.

(** The journals left over. *)
Lemma countMissing_spec t js res :
  mr_MissingInExternal res = 0%Z → (Z.of_nat (length js) < 2 ^ 31)%Z →
  let res' := foldl (countMissingInExternal t) res js in
  mr_Ingested res' = mr_Ingested res ∧ mr_Matched res' = mr_Matched res ∧
  mr_Mismatched res' = mr_Mismatched res ∧ mr_MissingInLedger res' = mr_MissingInLedger res ∧
  mr_MissingInExternal res' = Z.of_nat (length js) ∧
  mr_Discrepancies res' = mr_Discrepancies res ++ ((λ j, mkDisc t DiscrepancyMissingInExternal "" (jr_ID j)) <$> js).
Proof.
  intros H0 Hlen. induction js as [|j js IH] using rev_ind; simpl.
  - rewrite app_nil_r. done.
  - rewrite foldl_app. simpl. rewrite length_app in Hlen. simpl in Hlen. destruct IH as (? & ? & ? & ? & E & Ed); [lia|].
    split_and!; try done.
    + simpl. rewrite E, int32_id by lia. rewrite length_app. simpl. lia.
    + simpl. by rewrite Ed, fmap_app, app_assoc.
Qed.

(** C20. The reconciliation matcher: for a window with fewer than 2^31
    records and journals, no repeated reference and no repeated id, where
    the backend's sums are exact, it judges every external record ([judge]):
    missing in the ledger when no journal has its reference as event id,
    mismatched when it names an account and the journal's debits less its
    credits there differ from its amount, matched otherwise.  The counters are
    the sizes of the classes, and no counter overflows; the discrepancies are
    one per missing or mismatched record, in order, each with its type, record
    and journal, then one per journal no record refers to, in some order; a
    matched or mismatched record is left with that status and its journal,
    every other record as it was, and the entries are untouched. *)
Theorem matcherRun_spec (t src : string) (ws we : Time) s res s3 :
  matcherRun t src ws we s = (Ok res, s3) →
  ∃ ext s1 js s2,
    tx_ListExternalRecordsForRecon t src ws we s = (Ok ext, s1) ∧
    tx_ListJournalsForRecon t src ws we s1 = (Ok js, s2) ∧
    (mt_exact s.1 → (Z.of_nat (length ext) < 2 ^ 31)%Z → (Z.of_nat (size (byEventID js)) < 2 ^ 31)%Z →
     NoDup (er_ExternalRef <$> ext) → NoDup (er_ID <$> ext) →
     let verdict := judge (mt_entries s.1) t (byEventID js) in
     let leftover := unmatched (byEventID js) ext in
     mr_Ingested res = Z.of_nat (length ext) ∧
     mr_Matched res = count is_matched verdict ext ∧
     mr_Mismatched res = count is_mismatched verdict ext ∧
     mr_MissingInLedger res = count is_missing verdict ext ∧
     (mr_Matched res + mr_Mismatched res + mr_MissingInLedger res)%Z = mr_Ingested res ∧
     mr_MissingInExternal res = Z.of_nat (size leftover) ∧
     (∃ rest, rest ≡ₚ (map_to_list leftover).*2 ∧
        mr_Discrepancies res = (ext ≫= λ e, disc_of t e (verdict e)) ++
          ((λ j, mkDisc t DiscrepancyMissingInExternal "" (jr_ID j)) <$> rest)) ∧
     (∀ e, e ∈ ext → mt_marks s3.1 t (er_ID e) = mark_of (verdict e) (mt_marks s.1 t (er_ID e))) ∧
     (∀ t' i, (t' = t → i ∉ er_ID <$> ext) → mt_marks s3.1 t' i = mt_marks s.1 t' i) ∧
     mt_entries s3.1 = mt_entries s.1).
Proof.
  intros Hrun. unfold matcherRun in Hrun. apply bind_ok in Hrun as (ext & s1 & H1 & Hrun).
  apply bind_ok in Hrun as (js & s2 & H2 & Hrun). apply bind_ok in Hrun as ([rest r0] & s4 & H3 & Hrun).
  injection Hrun as <- <-. exists ext, s1, js, s2. split; [done|]. split; [done|].
  intros Hex Hlen Hsz Hnd Hni.
  destruct (wp_ok _ _ _ _ _ _ (law_mt_records t src ws we s) H1) as [(E1 & M1 & X1) Hrows].
  destruct (wp_ok _ _ _ _ _ _ (law_mt_journals t src ws we s1) H2) as (E2 & M2 & X2).
  destruct (wp_ok _ _ _ _ _ _ (matchRecords_state t (mt_entries s.1) (mt_marks s.1) (byEventID js) ext s2 Hlen Hnd Hni
    Hrows (eq_trans E2 E1) (eq_trans M2 M1) (X2 (X1 Hex))) H3) as [Ho Hi Hm Hmm Hu Hx Hd He _ Hmk Hot].
  cbn [fst snd] in *. cbv zeta.
  assert (Hrest : length ((map_to_list rest).*2) = size (unmatched (byEventID js) ext))
    by (by rewrite length_fmap, length_map_to_list, Ho).
  destruct (countMissing_spec t (map_to_list rest).*2 r0 Hx) as (-> & -> & -> & -> & -> & ->).
  { rewrite Hrest. pose proof (map_size_filter (λ kv, kv.1 ∉ er_ExternalRef <$> ext) (byEventID js)). unfold unmatched. lia. }
  split_and!; try done.
  - rewrite Hi, Hm, Hmm, Hu. apply count_total.
  - by rewrite Hrest.
  - exists (map_to_list rest).*2. rewrite Ho, <- Hd. done.
Qed.
End Matcher.
