(* ===== verification/Worker.v ===== *)
(** * internal/outbox and internal/scheduler: the background workers

    One tick of each ticker loop: [dispatcherTick] publishes the pending
    outbox events to a sink, [snapshotTick], [expiryTick] and [retentionTick]
    are the scheduler's.  A tick logs errors and goes on, so it returns
    nothing.  The loops ([dispatcherRun], [schedulerRun]) handle the signals
    their [select] receives, in the order it receives them. *)

From S2P Require Import Prelude Money Ledger Repo Contract Service Flow Accounts Reservations.
From stdpp Require Import base gmap strings list numbers.

(** [_ = f(...)]: the error is dropped, the effect stays. *)
Definition ignore {E S A} (m : M E S A) : M E S unit := λ s, (Ok tt, (m s).2).

(** ** Package outbox *)

(** [outbox.Sink]: a delivery target with a state of its own. *)
Class Sink (K : Type) := { Publish : OutboxEvent → K → option error * K }.

(** [LogSink] keeps the events it logged and never fails. *)
#[export] Instance LogSink : Sink (list OutboxEvent) := {| Publish e log := (None, log ++ [e]) |}.

Record OutboxConfig := mkOutboxConfig { oc_Interval : Z; oc_BatchSize : Z }.

Definition NewDispatcher (cfg : OutboxConfig) : OutboxConfig :=
  mkOutboxConfig (if (oc_Interval cfg =? 0)%Z then 250000000%Z else oc_Interval cfg)
    (if (oc_BatchSize cfg =? 0)%Z then 100%Z else oc_BatchSize cfg).

Section Dispatcher.
Context {D : DecimalOps} {S T : Type} {ST : RepoStore D S T} {K : Type} {SK : Sink K}.

(** [RepoAdapter.PendingOutbox] copies the rows to [outbox.Event]s, which have
    the same fields. *)
Definition toEvent (r : OutboxEvent) : OutboxEvent :=
  mkOutboxEvent (ob_ID r) (ob_TenantID r) (ob_AggregateID r) (ob_EventType r) (ob_IdempotencyKey r)
    (ob_Payload r) (ob_CreatedAt r).
Definition adapter_PendingOutbox (n : Z) : M error (S * Env) (list OutboxEvent) :=
  rows ← st_PendingOutbox n; mret (toEvent <$> rows).

Lemma toEvent_id (rows : list OutboxEvent) : toEvent <$> rows = rows.
Proof. induction rows as [|[] rows IH]; [done|]. cbn. unfold toEvent at 1; cbn. f_equal. exact IH. Qed.
Lemma adapter_rows n s : adapter_PendingOutbox n s = st_PendingOutbox n s.
Proof.
  unfold adapter_PendingOutbox, mbind, M_bind. destruct (st_PendingOutbox n s) as [[rows|e] s']; [|done].
  by rewrite toEvent_id.
Qed.

(** One turn of the loop of [tick]. *)
Definition dispatchOne (st : (S * Env) * K) (e : OutboxEvent) : (S * Env) * K :=
  let '(s, k) := st in
  match Publish e k with
  | (Some _, k') => ((st_IncrementOutboxAttempts (ob_ID e) s).2, k')
  | (None, k') => ((st_MarkOutboxPublished (ob_ID e) s).2, k')
  end.

Definition dispatcherTick (cfg : OutboxConfig) (st : (S * Env) * K) : (S * Env) * K :=
  let '(s, k) := st in
  match adapter_PendingOutbox (oc_BatchSize cfg) s with
  | (Err _, s') => (s', k)
  | (Ok events, s') => foldl dispatchOne (s', k) events
  end.

(** [Run]: the ticks its ticker sends until the context is done. *)
Fixpoint dispatcherRun (cfg : OutboxConfig) (ticks : list bool) (st : (S * Env) * K) : (S * Env) * K :=
  match ticks with
  | true :: l => dispatcherRun cfg l (dispatcherTick cfg st)
  | _ => st
  end.
End Dispatcher.

(** ** Package scheduler *)

Definition Second : Z := 1000000000.
Definition Minute : Z := 60 * Second.
Definition Hour : Z := 60 * Minute.

Record SchedulerConfig := mkSchedulerConfig {
  sc_SnapshotTick : Z; sc_SnapshotInterval : Z; sc_ExpiryTick : Z; sc_RetentionTick : Z;
  sc_RetentionAge : Z; sc_BatchN : Z }.

(** The configuration [New] sets. *)
Definition defaultConfig : SchedulerConfig :=
  mkSchedulerConfig (5 * Minute) (24 * Hour) (30 * Second) (1 * Hour) (90 * 24 * Hour) 100.

Section Scheduler.
Context {H : Host} {D : DecimalOps} {S T : Type} {R : RepoTx D T} {ST : RepoStore D S T}.

Definition snapshotTenant (_ : unit) (tenant : string) : M error (S * Env) unit :=
  ignore (TakeBalanceSnapshot (mkTakeBalanceSnapshotRequest tenant "" "")).

Definition snapshotTick (cfg : SchedulerConfig) : M error (S * Env) unit :=
  ignore (now ← Now;
          tenants ← st_ListTenantsDueForSnapshot (now - sc_SnapshotInterval cfg)%Z (sc_BatchN cfg);
          foldM snapshotTenant tenants tt).

Definition expireOne (_ : unit) (r : ExpiredReservation) : M error (S * Env) unit :=
  ignore (ExpireReservation (xr_TenantID r) (xr_ID r)).

Definition expiryTick (cfg : SchedulerConfig) : M error (S * Env) unit :=
  ignore (now ← Now;
          rows ← st_ListExpiredReservations now (sc_BatchN cfg);
          foldM expireOne rows tt).

Definition retentionTick (cfg : SchedulerConfig) : M error (S * Env) unit :=
  ignore (now ← Now; st_PruneSnapshotsOlderThan (now - sc_RetentionAge cfg)%Z (sc_BatchN cfg)).

Inductive Signal := CtxDone | SnapC | ExpC | RetC.

(** [Run]: whatever its [select] receives until the context is done. *)
Fixpoint schedulerRun (cfg : SchedulerConfig) (signals : list Signal) : M error (S * Env) unit :=
  match signals with
  | SnapC :: l => snapshotTick cfg;; schedulerRun cfg l
  | ExpC :: l => expiryTick cfg;; schedulerRun cfg l
  | RetC :: l => retentionTick cfg;; schedulerRun cfg l
  | CtxDone :: _ | [] => mret tt
  end.
End Scheduler.
