(* ===== verification/System.v ===== *)
(** * The whole service: every request and tick keeps the books

    [request] lists the RPCs and the background ticks, [handle] runs one.
    [sys_ok], the books of [Books] and the reservations of [ReservationLaws],
    is an invariant of any sequence of them, on any backend that keeps the
    storage contract. *)

From S2P Require Import Prelude Money Ledger Repo Contract Service Flow FlowLaws Books Accounts Reservations.
From S2P Require Import ReservationLaws Exchange Recon Worker.
From stdpp Require Import base gmap strings list numbers.
From Stdlib Require Import Qcanon.

Section TxOk.
Context {H : Host} {D : DecimalOps} {L : DecimalLaws D} {S T : Type} {R : RepoTx D T} {RL : RepoTxLaws D T}
  {ST : RepoStore D S T} {SL : RepoStoreLaws D S T} {FL : RepoFrameLaws D S T}.
Implicit Types (v : LView).

(** The books and the reservations are right, and the ledger continues [v0]. *)
Record sys_ok (v0 v : LView) : Prop := {
  sys_ledger : ledger_ok v; sys_resv : resv_ok v; sys_grows : lv_grows v0 v;
  sys_life : resv_life v0 v }.
Context (v0 : LView).

(** A transaction body that keeps the invariant and the transaction open. *)
Definition tx_ok {A} (m : M error (T * Env) A) : Prop :=
  ∀ s, sys_ok v0 (vw s.1) → wpo m (λ _ s', sys_ok v0 (vw s'.1) ∧ lv_open (vw s'.1) = lv_open (vw s.1)) s.

Lemma tx_ok_frame {A} (m : M error (T * Env) A) : tx_frame m → tx_ok m.
Proof. intros Hm s Hok. eapply wp_mono; [apply Hm| |done]. cbv beta. by intros _ s' ->. Qed.
Lemma tx_ok_bind {A B} (m : M error (T * Env) A) (f : A → M error (T * Env) B) :
  tx_ok m → (∀ a, tx_ok (f a)) → tx_ok (m ≫= f).
Proof.
  intros Hm Hf s Hok. apply wp_bind. eapply wp_mono; [by apply Hm| |done]. cbv beta. intros a s' [Hok' Ho].
  eapply wp_mono; [by apply Hf| |done]. cbv beta. intros b s2 [Hok2 Ho2]. split; [done|congruence].
Qed.
Lemma tx_ok_ret {A} (a : A) : tx_ok (mret a).
Proof. by intros s Hok. Qed.
Lemma tx_ok_throw {A} e : tx_ok (A:=A) (throw e).
Proof. by intros s Hok. Qed.
Lemma tx_ok_throw_if c e : tx_ok (throw_if c e).
Proof. destruct c; [apply tx_ok_throw|apply tx_ok_ret]. Qed.
Lemma tx_ok_NewID : tx_ok NewID.
Proof. by intros [t e] Hok. Qed.
Lemma tx_ok_Now : tx_ok Now.
Proof. by intros [t e] Hok. Qed.
Lemma tx_ok_foldM {A B} (f : B → A → M error (T * Env) B) l b : (∀ b x, tx_ok (f b x)) → tx_ok (foldM f l b).
Proof. intros Hf. revert b. induction l as [|x l IH]; intros b; simpl; [apply tx_ok_ret|]. by apply tx_ok_bind. Qed.

Lemma outbox_grows o v : lv_grows v (lv_add_outbox o v).
Proof. split; try done. by eexists. Qed.
Lemma save_grows rv v : lv_grows v (lv_save rv v).
Proof.
  split; try done. intros t k id. simpl. destruct (lv_resvk v t k) as [rv'|]; [|done]. simpl.
  unfold rv_update. by destruct (_ && _).
Qed.
Lemma resv_grows rv v : lv_resvk v (rv_tenant rv) (rv_key rv) = None → lv_grows v (lv_add_resv rv v).
Proof.
  intros Hn. split; try done. intros t k id. simpl. unfold fput. destruct (_ && _) eqn:Hm; [|done]. eqs. subst. by rewrite Hn.
Qed.
Lemma account_grows a v : lv_acct v (acc_TenantID a) (acc_ID a) = None → lv_grows v (lv_add_acct a v).
Proof.
  intros Hn. split; try done. intros t x acct Ha. simpl. unfold fput.
  destruct (_ && _) eqn:Hm; [|done]. eqs. congruence.
Qed.

Lemma tx_ok_outbox o : tx_ok (tx_InsertOutbox o).
Proof.
  intros s [Hl Hr Hg Hv]. eapply wp_mono; [apply law_InsertOutbox| |done]. cbv beta. intros [] s' ->.
  split; [|done]. split; [by eapply ledger_ok_ext; last done|done| |done]. etransitivity; [done|apply outbox_grows].
Qed.

Lemma tx_ok_flow r : tx_ok (executeFlowInTx r).
Proof.
  intros s [Hl Hr Hg Hv]. eapply wp_mono; [apply wp_flow| |done]. cbv beta. intros fres s' Hf.
  destruct (flow_outcome_frame _ _ _ _ Hf) as (_ & Hrs & _ & Ho). split; [|done].
  split; [by eapply flow_outcome_ok| | |by eapply resv_life_same].
  - unfold resv_ok. by rewrite Hrs.
  - etransitivity; [done|by eapply flow_outcome_grows].
Qed.

Lemma resv_effect_ok f ev key v rv rv' v' :
  sys_ok v0 v → lv_resv v (rv_tenant rv) (rv_id rv) = Some rv → resv_effect f ev key v rv rv' v' →
  sys_ok v0 v' ∧ lv_open v' = lv_open v.
Proof.
  intros [Hl Hr Hg Hv] Hrv (fres & v1 & Hf & Hstep & ->).
  destruct (flow_outcome_frame _ _ _ _ Hf) as (_ & Hrs & _ & Ho). split; [|done]. split.
  - eapply ledger_ok_ext; [..|by eapply flow_outcome_ok]; done.
  - apply (lv_save_ok rv rv' v1); [|by rewrite Hrs|done]. unfold resv_ok. by rewrite Hrs.
  - etransitivity; [done|]. etransitivity; [by eapply flow_outcome_grows|].
    etransitivity; [apply (save_grows rv')|apply outbox_grows].
  - apply (resv_life_save v0 rv rv' v1); [|by rewrite Hrs|done|by eapply resv_life_same].
    unfold resv_ok. by rewrite Hrs.
Qed.

Lemma resv_found v t id rv : resv_ok v → lv_resv v t id = Some rv → lv_resv v (rv_tenant rv) (rv_id rv) = Some rv.
Proof. intros Hok Hrv. by destruct (Hok _ _ _ Hrv) as (_ & -> & ->). Qed.

Lemma tx_ok_commit r amount : (0 < val amount)%Qc → tx_ok (commitReservationInTx r amount).
Proof.
  intros Hpos s Hok. eapply wp_mono; [by apply wp_commitInTx| |done]. cbv beta.
  intros res' s' (res & dst & Hres & _ & _ & _ & _ & _ & _ & _ & Heff).
  eapply resv_effect_ok; [done| |done]. eapply resv_found; [apply Hok|done].
Qed.

Lemma tx_ok_release r amount : (0 < val amount)%Qc → tx_ok (releaseReservationInTx r amount).
Proof.
  intros Hpos s Hok. eapply wp_mono; [by apply wp_releaseInTx| |done]. cbv beta.
  intros res' s' (res & Hres & _ & _ & _ & _ & Heff).
  eapply resv_effect_ok; [done| |done]. eapply resv_found; [apply Hok|done].
Qed.

Lemma tx_ok_expire t id : tx_ok (expireReservationInTx t id).
Proof.
  intros s Hok. eapply wp_mono; [apply wp_expireInTx| |done]. cbv beta.
  intros [] s' (res & Hres & [[-> _]|(_ & _ & Heff)]); [done|].
  eapply resv_effect_ok; [done| |done]. eapply resv_found; [apply Hok|done].
Qed.

Lemma new_rv_ok id t k src dst c a f : (0 < a)%Qc → rv_ok (mkRView id t k src dst c a a 0 0 ReservationHeld f).
Proof.
  intros Ha. split; simpl; try done; [ring|by apply Qclt_le_weak|].
  split; [done|]. intros ->. done.
Qed.

Lemma tx_ok_create r amount : (0 < val amount)%Qc → tx_ok (createReservationInTx r amount).
Proof.
  intros Hpos s [Hl Hr Hg Hv]. eapply wp_mono; [apply wp_createInTx| |done]. cbv beta. intros res s' Hres.
  destruct (lv_resvk _ _ _) as [rv|] eqn:Hfree; [by destruct Hres as [_ ->]|].
  destruct Hres as (fres & v1 & id & Hf & Hnone & Hrv & ->). rewrite Hrv.
  destruct (flow_outcome_frame _ _ _ _ Hf) as (_ & Hrs & Hks & Ho). split; [|done]. split.
  - eapply ledger_ok_ext; [..|by eapply flow_outcome_ok]; done.
  - intros t' id' rv'. simpl. unfold fput. simpl. rewrite Hrs. destruct (_ && _) eqn:Hm; [|apply Hr].
    intros [= <-]. eqs. subst. split; [by apply new_rv_ok|done].
  - etransitivity; [done|]. etransitivity; [by eapply flow_outcome_grows|].
    etransitivity; [|apply outbox_grows]. apply resv_grows. simpl. by rewrite Hks.
  - apply resv_life_add; [simpl; by rewrite Hrs|by eapply resv_life_same].
Qed.

Lemma tx_ok_account a : tx_ok (tx_InsertAccount a).
Proof.
  intros s [Hl Hr Hg Hv]. eapply wp_mono; [apply law_InsertAccount| |done]. cbv beta.
  intros [] s' [-> Hnone]. split; [|done]. split; [by apply account_ok|done| |done].
  etransitivity; [done|]. by apply account_grows.
Qed.
End TxOk.

#[export] Hint Resolve tx_ok_frame tx_ok_ret tx_ok_throw tx_ok_throw_if tx_ok_NewID tx_ok_Now tx_ok_outbox
  tx_ok_flow tx_ok_commit tx_ok_release tx_ok_expire tx_ok_create tx_ok_account : ledger.

(** The framed operations of a transaction; their class mentions the store,
    which the goal does not. *)
Ltac frame_op :=
  apply tx_ok_frame;
  first [ apply frame_GetReconBatchByIdempotency | apply frame_InsertReconBatch | apply frame_CompleteReconBatch
        | apply frame_ListExternalRecordsForRecon | apply frame_ListJournalsForRecon
        | apply frame_UpdateExternalRecordMatch | apply frame_SumJournalEntries | apply frame_InsertDiscrepancy
        | apply frame_LockDiscrepancy | apply frame_ResolveDiscrepancyRow ].

(** Walks the binds and loops of a transaction body. *)
Ltac tx_walk :=
  repeat first
  [ solve [auto with ledger nocore] | frame_op
  | apply tx_ok_bind; [|intros ?] | apply tx_ok_foldM; intros ? ?
  | match goal with |- tx_ok _ (let '(_, _) := ?x in _) => destruct x end
  | match goal with |- tx_ok _ (match ?x with _ => _ end) => destruct x end ].

Section Bodies.
Context {H : Host} {D : DecimalOps} {L : DecimalLaws D} {S T : Type} {R : RepoTx D T} {RL : RepoTxLaws D T}
  {ST : RepoStore D S T} {SL : RepoStoreLaws D S T} {FL : RepoFrameLaws D S T}.

Lemma tx_ok_exchange v0 r fa ta fc tc rate src : tx_ok v0 (exchangeInTx r fa ta fc tc rate src).
Proof. unfold exchangeInTx. tx_walk. Qed.

Lemma tx_ok_matcher v0 t src ws we : tx_ok v0 (matcherRun t src ws we).
Proof. unfold matcherRun, matchRecord, amountDiffers. tx_walk. Qed.

Lemma tx_ok_reconcile v0 r ws we : tx_ok v0 (runReconciliationInTx r ws we).
Proof.
  unfold runReconciliationInTx, openDiscrepancy. pose proof (tx_ok_matcher v0 (rr_TenantId r) (rr_Source r) ws we).
  tx_walk.
Qed.

Lemma tx_ok_resolve v0 r : tx_ok v0 (resolveDiscrepancyInTx r).
Proof. unfold resolveDiscrepancyInTx, runAdjustment. tx_walk. Qed.
End Bodies.

(** ** Handlers and ticks *)

Section Preserve.
Context {H : Host} {D : DecimalOps} {L : DecimalLaws D} {S T : Type} {R : RepoTx D T} {RL : RepoTxLaws D T}
  {ST : RepoStore D S T} {SL : RepoStoreLaws D S T} {FL : RepoFrameLaws D S T}.

Context (v0 : LView).

Definition preserves {A} (m : M error (S * Env) A) : Prop := ∀ s, sys_ok v0 (svw s.1) → sys_ok v0 (svw (m s).2.1).

Lemma preserves_frame {A} (m : M error (S * Env) A) : st_frame m → preserves m.
Proof. intros Hm s Hok. by rewrite Hm. Qed.
Lemma preserves_bind {A B} (m : M error (S * Env) A) (f : A → M error (S * Env) B) :
  preserves m → (∀ a, preserves (f a)) → preserves (m ≫= f).
Proof.
  intros Hm Hf s Hok. specialize (Hm s Hok). unfold mbind, M_bind.
  destruct (m s) as [[a|e] s']; simpl in *; [by apply Hf|done].
Qed.
Lemma preserves_ret {A} (a : A) : preserves (mret a).
Proof. by intros s Hok. Qed.
Lemma preserves_throw {A} e : preserves (A:=A) (throw e).
Proof. by intros s Hok. Qed.
Lemma preserves_throw_if c e : preserves (throw_if c e).
Proof. destruct c; [apply preserves_throw|apply preserves_ret]. Qed.
Lemma preserves_NewID : preserves NewID.
Proof. by intros [t e] Hok. Qed.
Lemma preserves_Now : preserves Now.
Proof. by intros [t e] Hok. Qed.
Lemma preserves_rpc {A} (m : M error (S * Env) A) : preserves m → preserves (rpc m).
Proof. intros Hm s Hok. specialize (Hm s Hok). unfold rpc. by destruct (m s) as [[a|e] s']. Qed.
Lemma preserves_ignore {A} (m : M error (S * Env) A) : preserves m → preserves (ignore m).
Proof. intros Hm s Hok. by apply Hm. Qed.
Lemma preserves_foldM {A B} (f : B → A → M error (S * Env) B) l b :
  (∀ b x, preserves (f b x)) → preserves (foldM f l b).
Proof.
  intros Hf. revert b. induction l as [|x l IH]; intros b; simpl; [apply preserves_ret|].
  by apply preserves_bind.
Qed.

Lemma preserves_with_tx {A} (body : M error (T * Env) A) : tx_ok v0 body → preserves (with_tx body).
Proof.
  intros Hb s Hok. pose proof (wp_with_tx body (λ _ v, sys_ok v0 v) s) as Hwp.
  unfold wp in Hwp at 2. destruct (with_tx body s) as [[a|e] s']; simpl.
  - apply Hwp. intros t env Ht Ho. eapply wp_mono; [apply Hb; simpl; by rewrite Ht| |done].
    cbv beta. intros b s2 [Hs2 Ho2]. split; [done|]. rewrite Ho2. simpl. by rewrite Ht.
  - rewrite Hwp; [done|]. intros t env Ht Ho. eapply wp_mono; [apply Hb; simpl; by rewrite Ht| |done].
    cbv beta. intros b s2 [Hs2 Ho2]. split; [done|]. rewrite Ho2. simpl. by rewrite Ht.
Qed.

Lemma preserves_runInTx (body : M error (T * Env) unit) : tx_ok v0 body → preserves (runInTx body).
Proof.
  intros Hb s Hok. pose proof (wp_runInTx body (λ v, sys_ok v0 v) s) as Hwp.
  unfold wp in Hwp at 2. destruct (runInTx body s) as [[a|e] s']; simpl.
  - apply Hwp. intros t env Ht Ho. eapply wp_mono; [apply Hb; simpl; by rewrite Ht| |done].
    cbv beta. intros b s2 [Hs2 Ho2]. split; [done|]. rewrite Ho2. simpl. by rewrite Ht.
  - rewrite Hwp; [done|]. intros t env Ht Ho. eapply wp_mono; [apply Hb; simpl; by rewrite Ht| |done].
    cbv beta. intros b s2 [Hs2 Ho2]. split; [done|]. rewrite Ho2. simpl. by rewrite Ht.
Qed.

(** A reservation amount that parses is positive. *)
Lemma preserves_amount {A} txt (f : dec → M error (S * Env) A) :
  (∀ a, (0 < val a)%Qc → preserves (f a)) → preserves (parseReservationAmount txt ≫= f).
Proof.
  intros Hf s Hok. unfold mbind, M_bind, parseReservationAmount.
  destruct (ParseAmount txt) as [a|e] eqn:Ha; [|done]. apply Hf; [|done]. by eapply ParseAmount_pos.
Qed.

Lemma preserves_parseFX txt : preserves (parseFX (X:=S * Env) txt).
Proof. intros s Hok. unfold parseFX. by destruct (ParseAmount txt). Qed.
End Preserve.

#[export] Hint Resolve preserves_ret preserves_throw preserves_throw_if preserves_NewID preserves_Now
  preserves_parseFX tx_ok_exchange : ledger.
#[export] Hint Extern 0 (tx_ok _ (runReconciliationInTx _ _ _)) => apply tx_ok_reconcile : ledger.
#[export] Hint Extern 0 (tx_ok _ (resolveDiscrepancyInTx _)) => apply tx_ok_resolve : ledger.

(** Walks a handler down to its store operations and transactions. *)
Ltac walk :=
  repeat first
  [ solve [auto with ledger nocore]
  | match goal with
    | |- preserves _ (rpc _) => apply preserves_rpc
    | |- preserves _ (ignore _) => apply preserves_ignore
    | |- preserves _ (parseReservationAmount _ ≫= _) => apply preserves_amount; intros ? ?
    | |- preserves _ (with_tx _) => apply preserves_with_tx; auto with ledger nocore
    | |- preserves _ (runInTx _) => apply preserves_runInTx; auto with ledger nocore
    | |- preserves _ (_ ≫= _) => apply preserves_bind; [|intros ?]
    | |- preserves _ (foldM _ _ _) => apply preserves_foldM; intros ? ?
    | |- preserves _ (let '(_, _) := ?x in _) => destruct x
    | |- preserves _ (match ?x with _ => _ end) => destruct x
    end
  | apply preserves_frame;
    solve [ apply frame_st_GetAccount | apply frame_st_GetBalance | apply frame_st_GetFlow
          | apply frame_st_ListAccountActivity | apply frame_st_InsertSnapshot | apply frame_st_GetSnapshotBefore
          | apply frame_st_SumEntriesBetween | apply frame_st_ListTenantBalances
          | apply frame_st_ListTenantsDueForSnapshot | apply frame_st_PruneSnapshotsOlderThan
          | apply frame_st_UpsertFXRate | apply frame_st_GetFXRateAt | apply frame_st_ListFXRates
          | apply frame_st_GetReservation | apply frame_st_ListExpiredReservations | apply frame_st_ListReservations
          | apply frame_st_InsertExternalRecord | apply frame_st_GetReconBatch | apply frame_st_ListDiscrepancies ] ].

(** ** Requests *)

Inductive request :=
| RqCreateAccount (r : CreateAccountRequest)
| RqGetAccount (tenant id : string)
| RqGetBalance (r : GetBalanceRequest)
| RqTakeBalanceSnapshot (r : TakeBalanceSnapshotRequest)
| RqListAccountActivity (r : ListAccountActivityRequest)
| RqExecuteFlow (r : ExecuteFlowRequest)
| RqPostJournal (r : PostJournalRequest)
| RqGetFlow (tenant id : string)
| RqCreateReservation (r : CreateReservationRequest)
| RqCommitReservation (r : CommitReservationRequest)
| RqReleaseReservation (r : ReleaseReservationRequest)
| RqGetReservation (tenant id : string)
| RqListReservations (r : ListReservationsRequest)
| RqPutFXRate (r : PutFXRateRequest)
| RqGetFXRate (r : GetFXRateRequest)
| RqListFXRates (r : ListFXRatesRequest)
| RqExecuteExchange (r : ExecuteExchangeRequest)
| RqIngestExternalRecords (tenant : string) (records : list PbExternalRecord)
| RqRunReconciliation (r : RunReconciliationRequest)
| RqResolveDiscrepancy (r : ResolveDiscrepancyRequest)
| RqGetReconciliationBatch (tenant id : string)
| RqListDiscrepancies (tenant batch status : string) (pageSize : Z)
| RqSnapshotTick (cfg : SchedulerConfig)
| RqExpiryTick (cfg : SchedulerConfig)
| RqRetentionTick (cfg : SchedulerConfig)
| RqMarkOutboxPublished (id : string)
| RqIncrementOutboxAttempts (id : string).

Section System.
Context {H : Host} {D : DecimalOps} {L : DecimalLaws D} {S T : Type} {R : RepoTx D T} {RL : RepoTxLaws D T}
  {ST : RepoStore D S T} {SL : RepoStoreLaws D S T} {FL : RepoFrameLaws D S T}.

(** Serves one request, answer dropped. *)
Definition handle (s : S * Env) (q : request) : S * Env :=
  match q with
  | RqCreateAccount r => (CreateAccount r s).2
  | RqGetAccount t id => (GetAccount t id s).2
  | RqGetBalance r => (GetBalance r s).2
  | RqTakeBalanceSnapshot r => (TakeBalanceSnapshot r s).2
  | RqListAccountActivity r => (ListAccountActivity r s).2
  | RqExecuteFlow r => (ExecuteFlow r s).2
  | RqPostJournal r => (PostJournal r s).2
  | RqGetFlow t id => (GetFlow t id s).2
  | RqCreateReservation r => (CreateReservation r s).2
  | RqCommitReservation r => (CommitReservation r s).2
  | RqReleaseReservation r => (ReleaseReservation r s).2
  | RqGetReservation t id => (GetReservation t id s).2
  | RqListReservations r => (ListReservations r s).2
  | RqPutFXRate r => (PutFXRate r s).2
  | RqGetFXRate r => (GetFXRate r s).2
  | RqListFXRates r => (ListFXRates r s).2
  | RqExecuteExchange r => (ExecuteExchange r s).2
  | RqIngestExternalRecords t l => (IngestExternalRecords t l s).2
  | RqRunReconciliation r => (RunReconciliation r s).2
  | RqResolveDiscrepancy r => (ResolveDiscrepancy r s).2
  | RqGetReconciliationBatch t id => (GetReconciliationBatch t id s).2
  | RqListDiscrepancies t b st n => (ListDiscrepancies t b st n s).2
  | RqSnapshotTick cfg => (snapshotTick cfg s).2
  | RqExpiryTick cfg => (expiryTick cfg s).2
  | RqRetentionTick cfg => (retentionTick cfg s).2
  | RqMarkOutboxPublished id => (st_MarkOutboxPublished id s).2
  | RqIncrementOutboxAttempts id => (st_IncrementOutboxAttempts id s).2
  end.

Lemma handle_ok v0 q s : sys_ok v0 (svw s.1) → sys_ok v0 (svw (handle s q).1).
Proof.
  intros Hok.
  destruct q; simpl;
    lazymatch goal with |- sys_ok v0 (svw (?m s).2.1) => revert s Hok; change (preserves v0 m) end.
  all: unfold CreateAccount, GetAccount, GetBalance, balanceAsOf, TakeBalanceSnapshot, snapshotRow,
    ListAccountActivity, ExecuteFlow, PostJournal, ExecuteFlow, GetFlow, CreateReservation, CommitReservation,
    ReleaseReservation, GetReservation, ListReservations, PutFXRate, GetFXRate, ListFXRates, ExecuteExchange,
    resolveRate, IngestExternalRecords, ingestOne, RunReconciliation, ResolveDiscrepancy,
    GetReconciliationBatch, ListDiscrepancies, snapshotTick, snapshotTenant, expiryTick, expireOne,
    ExpireReservation, retentionTick, TakeBalanceSnapshot, snapshotRow.
  all: walk.
  all: apply preserves_frame; first [apply frame_st_MarkOutboxPublished|apply frame_st_IncrementOutboxAttempts].
Qed.

Lemma handle_all_ok v0 qs s : sys_ok v0 (svw s.1) → sys_ok v0 (svw (foldl handle s qs).1).
Proof. revert s. induction qs as [|q qs IH]; intros s Hok; simpl; [done|]. by apply IH, handle_ok. Qed.

Lemma sys_ok_start v : ledger_ok v → resv_ok v → sys_ok v v.
Proof. intros Hl Hr. split; [done|done|done|]. intros t id rv Hrv. by exists rv. Qed.

(** The trial balance: after any sequence of requests and ticks, for
    every tenant and currency, the total of the posted debits over the
    accounts equals the total of the posted credits, whatever list of
    distinct accounts is summed as long as it covers the accounts with
    entries. *)
Theorem service_trial_balance (qs : list request) (s : S * Env) (t c : string) (accts : list string) :
  ledger_ok (svw s.1) → resv_ok (svw s.1) → NoDup accts →
  let v := svw (foldl handle s qs).1 in
  (∀ e, e ∈ lv_entries v → pe_tenant e = t → pe_currency e = c → pe_account e ∈ accts) →
  Qcsum (λ a, (lv_balance v (t, a, c)).1) accts = Qcsum (λ a, (lv_balance v (t, a, c)).2) accts.
Proof.
  intros Hl Hr Hnd v Hin. destruct (handle_all_ok _ qs s (sys_ok_start _ Hl Hr)) as [[H1 H2 H3 H4 H5] H6 H7 H8].
  pose proof (posted_accounts t c accts _ Hnd Hin) as Hp. rewrite H3 in Hp.
  rewrite (Qcsum_ext (λ a, (lv_balance v (t, a, c)).1) (λ a, (posted (t, a, c) (lv_entries v)).1))
    by (intros a _; by rewrite H1).
  rewrite (Qcsum_ext (λ a, (lv_balance v (t, a, c)).2) (λ a, (posted (t, a, c) (lv_entries v)).2))
    by (intros a _; by rewrite H1).
  by apply Qcsub_0.
Qed.

(** ** Failed requests change nothing *)

Definition atomic {A} (m : M error (S * Env) A) : Prop := ∀ s,
  sys_ok (svw s.1) (svw s.1) → match m s with (Ok _, _) => True | (Err _, s') => svw s'.1 = svw s.1 end.

Lemma atomic_frame {A} (m : M error (S * Env) A) : st_frame m → atomic m.
Proof. intros Hm s _. specialize (Hm s). by destruct (m s) as [[a|e] s']. Qed.
Lemma atomic_seq {A B} (m : M error (S * Env) A) (f : A → M error (S * Env) B) :
  st_frame m → (∀ a, atomic (f a)) → atomic (m ≫= f).
Proof.
  intros Hm Hf s Hok. specialize (Hm s). unfold mbind, M_bind.
  destruct (m s) as [[a|e] s']; simpl in *; [|done]. specialize (Hf a s'). rewrite Hm in Hf. by apply Hf.
Qed.
Lemma atomic_map {A B} (m : M error (S * Env) A) (f : A → B) : atomic m → atomic (a ← m; mret (f a)).
Proof. intros Hm s Hok. specialize (Hm s Hok). unfold mbind, M_bind. by destruct (m s) as [[a|e] s']. Qed.
Lemma atomic_rpc {A} (m : M error (S * Env) A) : atomic m → atomic (rpc m).
Proof. intros Hm s Hok. specialize (Hm s Hok). unfold rpc. by destruct (m s) as [[a|e] s']. Qed.
Lemma atomic_throw_if {A} c e (m : M error (S * Env) A) : atomic m → atomic (throw_if c e;; m).
Proof. intros Hm s Hok. destruct c; [done|]. apply (Hm s Hok). Qed.
Lemma atomic_amount {A} txt (f : dec → M error (S * Env) A) :
  (∀ a, (0 < val a)%Qc → atomic (f a)) → atomic (parseReservationAmount txt ≫= f).
Proof.
  intros Hf s Hok. unfold mbind, M_bind, parseReservationAmount.
  destruct (ParseAmount txt) as [a|e] eqn:Ha; [|done]. apply Hf; [|done]. by eapply ParseAmount_pos.
Qed.
Lemma atomic_tx {A} (body : M error (T * Env) A) : (∀ v0, tx_ok v0 body) → atomic (with_tx body).
Proof.
  intros Hb s Hok. pose proof (wp_with_tx body (λ _ _, True) s) as Hwp.
  unfold wp in Hwp at 2. destruct (with_tx body s) as [[a|e] s']; [done|].
  rewrite Hwp; [done|]. intros t env Ht Ho. eapply wp_mono; [apply (Hb (svw s.1)); simpl; by rewrite Ht| |done].
  cbv beta. intros b x [_ Hx]. split; [done|]. rewrite Hx. simpl. by rewrite Ht.
Qed.
Lemma atomic_runInTx (body : M error (T * Env) unit) : (∀ v0, tx_ok v0 body) → atomic (runInTx body).
Proof.
  intros Hb s Hok. pose proof (wp_runInTx body (λ _, True) s) as Hwp.
  unfold wp in Hwp at 2. destruct (runInTx body s) as [[a|e] s']; [done|].
  rewrite Hwp; [done|]. intros t env Ht Ho. eapply wp_mono; [apply (Hb (svw s.1)); simpl; by rewrite Ht| |done].
  cbv beta. intros b x [_ Hx]. split; [done|]. rewrite Hx. simpl. by rewrite Ht.
Qed.

Lemma frame_Now : st_frame Now.
Proof. by intros [t e]. Qed.
Lemma frame_parseFX txt : st_frame (parseFX txt).
Proof. intros s. unfold parseFX. by destruct (ParseAmount txt). Qed.
Lemma frame_resolveRate r fa ta : st_frame (resolveRate r fa ta).
Proof.
  intros s. unfold resolveRate. destruct (negb _).
  - destruct (NewFromString _) as [q|]; [|done]. by destruct (IsPositive q).
  - unfold mbind, M_bind. destruct s as [st e]. simpl.
    match goal with |- context [st_GetFXRateAt ?a ?b ?c ?d ?x] => pose proof (frame_st_GetFXRateAt a b c d x) as Hf;
      destruct (st_GetFXRateAt a b c d x) as [[[g|]|er] s'] end; by simpl in *.
Qed.

(** The RPCs that write through one transaction. *)
Definition transactional (q : request) : Prop :=
  match q with
  | RqCreateAccount _ | RqExecuteFlow _ | RqPostJournal _ | RqCreateReservation _ | RqCommitReservation _
  | RqReleaseReservation _ | RqExecuteExchange _ | RqRunReconciliation _ | RqResolveDiscrepancy _ => True
  | _ => False
  end.

(** Whether a request is answered with an error. *)
Definition fails (q : request) (s : S * Env) : Prop :=
  let err {A} (o : result error A * (S * Env)) : Prop := ∃ e, o.1 = Err e in
  match q with
  | RqCreateAccount r => err (CreateAccount r s)
  | RqExecuteFlow r => err (ExecuteFlow r s)
  | RqPostJournal r => err (PostJournal r s)
  | RqCreateReservation r => err (CreateReservation r s)
  | RqCommitReservation r => err (CommitReservation r s)
  | RqReleaseReservation r => err (ReleaseReservation r s)
  | RqExecuteExchange r => err (ExecuteExchange r s)
  | RqRunReconciliation r => err (RunReconciliation r s)
  | RqResolveDiscrepancy r => err (ResolveDiscrepancy r s)
  | _ => False
  end.

Lemma atomic_err {A} (m : M error (S * Env) A) s :
  atomic m → sys_ok (svw s.1) (svw s.1) → (∃ e, (m s).1 = Err e) → svw (m s).2.1 = svw s.1.
Proof. intros Hm Hok [e He]. specialize (Hm s Hok). destruct (m s) as [[a|e'] s']; [done|exact Hm]. Qed.

Lemma service_atomic_err (q : request) (s : S * Env) :
  ledger_ok (svw s.1) → resv_ok (svw s.1) → transactional q → fails q s →
  svw (handle s q).1 = svw s.1.
Proof.
  intros Hl Hr Hq Hf. pose proof (sys_ok_start _ Hl Hr) as Hok.
  destruct q; simpl in *; try done; apply atomic_err; try done; clear Hf Hok Hl Hr Hq.
  all: unfold CreateAccount, PostJournal, ExecuteFlow, CreateReservation, CommitReservation, ReleaseReservation,
    ExecuteExchange, RunReconciliation, ResolveDiscrepancy.
  all: repeat first
    [ apply atomic_rpc | apply atomic_throw_if | apply atomic_amount; intros ? ?
    | apply atomic_tx; intros ?; solve [auto with ledger nocore]
    | apply atomic_map
    | apply atomic_seq; [first [apply frame_Now|apply frame_parseFX|apply frame_st_GetAccount|apply frame_resolveRate]|intros ?]
    | match goal with |- atomic (let '(_, _) := ?x in _) => destruct x end ].
  apply atomic_runInTx. auto with ledger nocore.
Qed.

(** C13. All or nothing: a writing RPC answered with an error leaves the
    ledger as it was, whichever of its checks, statements or commit
    failed. *)
Theorem service_atomic (q : request) (s : S * Env) :
  ledger_ok (svw s.1) → resv_ok (svw s.1) → transactional q → fails q s →
  svw (handle s q).1 = svw s.1.
Proof. apply service_atomic_err. Qed.
End System.
