(* ===== verification/Rpc.v ===== *)
(** * The RPC layer: procedures, routing, interceptors and the two clients

    gen/proto/ledger/v1/ledgerv1connect (the generated client and handler of
    the service), internal/service/interceptors, and the Client interface of
    pkg/dledger with its two implementations: [embeddedClient] calls the
    server, [remoteClient] reaches it over HTTP.  The Connect library and the
    network are the class [Connect]: what becomes of each call, what arrives
    of a header, and what a client sees of an error. *)

From S2P Require Import Prelude Money Ledger Repo Contract Service Flow FlowLaws Accounts Reservations Exchange Recon Worker System.
From stdpp Require Import base gmap strings list numbers.
From Stdlib Require Import Ascii.

(** ** Messages *)

Record GetAccountRequest := mkGetAccountRequest { ga_TenantId : string; ga_AccountId : string }.
Record GetFlowRequest := mkGetFlowRequest { gf_TenantId : string; gf_FlowRunId : string }.
Record GetReservationRequest := mkGetReservationRequest { gr_TenantId : string; gr_ReservationId : string }.
Record IngestExternalRecordsRequest := mkIngestExternalRecordsRequest {
  ier_TenantId : string; ier_Records : list PbExternalRecord }.
Record GetReconciliationBatchRequest := mkGetReconciliationBatchRequest {
  grb_TenantId : string; grb_BatchId : string }.
Record ListDiscrepanciesRequest := mkListDiscrepanciesRequest {
  ld_TenantId : string; ld_BatchId : string; ld_Status : string; ld_PageSize : Z }.

(** ** Procedures

    The RPCs of LedgerService with their request and response messages. *)

Inductive Procedure :=
| PCreateAccount
| PGetAccount
| PGetBalance
| PPostJournal
| PExecuteFlow
| PGetFlow
| PListAccountActivity
| PTakeBalanceSnapshot
| PCreateReservation
| PCommitReservation
| PReleaseReservation
| PGetReservation
| PListReservations
| PExecuteExchange
| PPutFXRate
| PGetFXRate
| PListFXRates
| PIngestExternalRecords
| PRunReconciliation
| PGetReconciliationBatch
| PListDiscrepancies
| PResolveDiscrepancy.

#[export] Instance Procedure_eq_dec : EqDecision Procedure.
Proof. solve_decision. Defined.

Definition Req (p : Procedure) : Type :=
  match p with
  | PCreateAccount => CreateAccountRequest
  | PGetAccount => GetAccountRequest
  | PGetBalance => GetBalanceRequest
  | PPostJournal => PostJournalRequest
  | PExecuteFlow => ExecuteFlowRequest
  | PGetFlow => GetFlowRequest
  | PListAccountActivity => ListAccountActivityRequest
  | PTakeBalanceSnapshot => TakeBalanceSnapshotRequest
  | PCreateReservation => CreateReservationRequest
  | PCommitReservation => CommitReservationRequest
  | PReleaseReservation => ReleaseReservationRequest
  | PGetReservation => GetReservationRequest
  | PListReservations => ListReservationsRequest
  | PExecuteExchange => ExecuteExchangeRequest
  | PPutFXRate => PutFXRateRequest
  | PGetFXRate => GetFXRateRequest
  | PListFXRates => ListFXRatesRequest
  | PIngestExternalRecords => IngestExternalRecordsRequest
  | PRunReconciliation => RunReconciliationRequest
  | PGetReconciliationBatch => GetReconciliationBatchRequest
  | PListDiscrepancies => ListDiscrepanciesRequest
  | PResolveDiscrepancy => ResolveDiscrepancyRequest
  end.

Definition Res (p : Procedure) : Type :=
  match p with
  | PCreateAccount => PbAccount
  | PGetAccount => PbAccount
  | PGetBalance => PbBalance
  | PPostJournal => PostJournalResponse
  | PExecuteFlow => ExecuteFlowResponse
  | PGetFlow => ExecuteFlowResponse
  | PListAccountActivity => list AccountActivityEntry
  | PTakeBalanceSnapshot => Z
  | PCreateReservation => PbReservation
  | PCommitReservation => PbReservation
  | PReleaseReservation => PbReservation
  | PGetReservation => PbReservation
  | PListReservations => list PbReservation
  | PExecuteExchange => ExecuteExchangeResponse
  | PPutFXRate => PbFXRate
  | PGetFXRate => PbFXRate
  | PListFXRates => list PbFXRate
  | PIngestExternalRecords => Z * Z
  | PRunReconciliation => PbReconBatch
  | PGetReconciliationBatch => PbReconBatch
  | PListDiscrepancies => list PbDiscrepancy
  | PResolveDiscrepancy => PbDiscrepancy
  end.

(** The names of the procedures: the end of their URLs. *)
Definition LedgerServiceCreateAccountProcedure : string := "/ledger.v1.LedgerService/CreateAccount".
Definition LedgerServiceGetAccountProcedure : string := "/ledger.v1.LedgerService/GetAccount".
Definition LedgerServiceGetBalanceProcedure : string := "/ledger.v1.LedgerService/GetBalance".
Definition LedgerServicePostJournalProcedure : string := "/ledger.v1.LedgerService/PostJournal".
Definition LedgerServiceExecuteFlowProcedure : string := "/ledger.v1.LedgerService/ExecuteFlow".
Definition LedgerServiceGetFlowProcedure : string := "/ledger.v1.LedgerService/GetFlow".
Definition LedgerServiceListAccountActivityProcedure : string := "/ledger.v1.LedgerService/ListAccountActivity".
Definition LedgerServiceTakeBalanceSnapshotProcedure : string := "/ledger.v1.LedgerService/TakeBalanceSnapshot".
Definition LedgerServiceCreateReservationProcedure : string := "/ledger.v1.LedgerService/CreateReservation".
Definition LedgerServiceCommitReservationProcedure : string := "/ledger.v1.LedgerService/CommitReservation".
Definition LedgerServiceReleaseReservationProcedure : string := "/ledger.v1.LedgerService/ReleaseReservation".
Definition LedgerServiceGetReservationProcedure : string := "/ledger.v1.LedgerService/GetReservation".
Definition LedgerServiceListReservationsProcedure : string := "/ledger.v1.LedgerService/ListReservations".
Definition LedgerServiceExecuteExchangeProcedure : string := "/ledger.v1.LedgerService/ExecuteExchange".
Definition LedgerServicePutFXRateProcedure : string := "/ledger.v1.LedgerService/PutFXRate".
Definition LedgerServiceGetFXRateProcedure : string := "/ledger.v1.LedgerService/GetFXRate".
Definition LedgerServiceListFXRatesProcedure : string := "/ledger.v1.LedgerService/ListFXRates".
Definition LedgerServiceIngestExternalRecordsProcedure : string := "/ledger.v1.LedgerService/IngestExternalRecords".
Definition LedgerServiceRunReconciliationProcedure : string := "/ledger.v1.LedgerService/RunReconciliation".
Definition LedgerServiceGetReconciliationBatchProcedure : string := "/ledger.v1.LedgerService/GetReconciliationBatch".
Definition LedgerServiceListDiscrepanciesProcedure : string := "/ledger.v1.LedgerService/ListDiscrepancies".
Definition LedgerServiceResolveDiscrepancyProcedure : string := "/ledger.v1.LedgerService/ResolveDiscrepancy".

(** A service is a handler per procedure: the generated interfaces
    [LedgerServiceHandler] and [LedgerServiceClient], and [Client] of
    pkg/dledger but for [Close]. *)
Definition LedgerService (X : Type) : Type := ∀ p : Procedure, Req p → M error X (Res p).

(** [strings.TrimRight(s, "/")] *)
Fixpoint TrimRight_slash (s : string) : string :=
  match s with
  | "" => ""
  | String c s' => match TrimRight_slash s' with
                   | "" => if bool_decide (c = "/"%char) then "" else String c ""
                   | s'' => String c s''
                   end
  end.

(** [NewLedgerServiceClient]: the URL each method of the client calls. *)
Definition clientURL (baseURL : string) (p : Procedure) : string :=
  TrimRight_slash baseURL +:+
  match p with
  | PCreateAccount => LedgerServiceCreateAccountProcedure
  | PGetAccount => LedgerServiceGetAccountProcedure
  | PGetBalance => LedgerServiceGetBalanceProcedure
  | PPostJournal => LedgerServicePostJournalProcedure
  | PExecuteFlow => LedgerServiceExecuteFlowProcedure
  | PGetFlow => LedgerServiceGetFlowProcedure
  | PListAccountActivity => LedgerServiceListAccountActivityProcedure
  | PTakeBalanceSnapshot => LedgerServiceTakeBalanceSnapshotProcedure
  | PCreateReservation => LedgerServiceCreateReservationProcedure
  | PCommitReservation => LedgerServiceCommitReservationProcedure
  | PReleaseReservation => LedgerServiceReleaseReservationProcedure
  | PGetReservation => LedgerServiceGetReservationProcedure
  | PListReservations => LedgerServiceListReservationsProcedure
  | PExecuteExchange => LedgerServiceExecuteExchangeProcedure
  | PPutFXRate => LedgerServicePutFXRateProcedure
  | PGetFXRate => LedgerServiceGetFXRateProcedure
  | PListFXRates => LedgerServiceListFXRatesProcedure
  | PIngestExternalRecords => LedgerServiceIngestExternalRecordsProcedure
  | PRunReconciliation => LedgerServiceRunReconciliationProcedure
  | PGetReconciliationBatch => LedgerServiceGetReconciliationBatchProcedure
  | PListDiscrepancies => LedgerServiceListDiscrepanciesProcedure
  | PResolveDiscrepancy => LedgerServiceResolveDiscrepancyProcedure
  end.

(** [NewLedgerServiceHandler]: the cases of its switch on the path, in order,
    with the method each handler was made for. *)
Definition cases : list (string * Procedure) :=
  [(LedgerServiceCreateAccountProcedure, PCreateAccount);
   (LedgerServiceGetAccountProcedure, PGetAccount);
   (LedgerServiceGetBalanceProcedure, PGetBalance);
   (LedgerServicePostJournalProcedure, PPostJournal);
   (LedgerServiceExecuteFlowProcedure, PExecuteFlow);
   (LedgerServiceGetFlowProcedure, PGetFlow);
   (LedgerServiceListAccountActivityProcedure, PListAccountActivity);
   (LedgerServiceTakeBalanceSnapshotProcedure, PTakeBalanceSnapshot);
   (LedgerServiceCreateReservationProcedure, PCreateReservation);
   (LedgerServiceCommitReservationProcedure, PCommitReservation);
   (LedgerServiceReleaseReservationProcedure, PReleaseReservation);
   (LedgerServiceGetReservationProcedure, PGetReservation);
   (LedgerServiceListReservationsProcedure, PListReservations);
   (LedgerServiceExecuteExchangeProcedure, PExecuteExchange);
   (LedgerServicePutFXRateProcedure, PPutFXRate);
   (LedgerServiceGetFXRateProcedure, PGetFXRate);
   (LedgerServiceListFXRatesProcedure, PListFXRates);
   (LedgerServiceIngestExternalRecordsProcedure, PIngestExternalRecords);
   (LedgerServiceRunReconciliationProcedure, PRunReconciliation);
   (LedgerServiceGetReconciliationBatchProcedure, PGetReconciliationBatch);
   (LedgerServiceListDiscrepanciesProcedure, PListDiscrepancies);
   (LedgerServiceResolveDiscrepancyProcedure, PResolveDiscrepancy)].

Definition route (path : string) : option Procedure := snd <$> sel (λ c, path =s c.1) cases.

(** What a handler answers that leaves every method to the generated code. *)
Definition UnimplementedLedgerServiceHandler {X} : LedgerService X := λ _ _, throw (ErrConnect CodeUnimplemented None).

(** ** The server *)

Section Server.
Context {H : Host} {D : DecimalOps} {S T : Type} {R : RepoTx D T} {ST : RepoStore D S T}.

Definition Server : LedgerService (S * Env) := λ p,
  match p return Req p → M error (S * Env) (Res p) with
  | PCreateAccount => CreateAccount
  | PGetAccount => λ r, GetAccount (ga_TenantId r) (ga_AccountId r)
  | PGetBalance => GetBalance
  | PPostJournal => PostJournal
  | PExecuteFlow => ExecuteFlow
  | PGetFlow => λ r, GetFlow (gf_TenantId r) (gf_FlowRunId r)
  | PListAccountActivity => ListAccountActivity
  | PTakeBalanceSnapshot => TakeBalanceSnapshot
  | PCreateReservation => CreateReservation
  | PCommitReservation => CommitReservation
  | PReleaseReservation => ReleaseReservation
  | PGetReservation => λ r, GetReservation (gr_TenantId r) (gr_ReservationId r)
  | PListReservations => ListReservations
  | PExecuteExchange => ExecuteExchange
  | PPutFXRate => PutFXRate
  | PGetFXRate => GetFXRate
  | PListFXRates => ListFXRates
  | PIngestExternalRecords => λ r, IngestExternalRecords (ier_TenantId r) (ier_Records r)
  | PRunReconciliation => RunReconciliation
  | PGetReconciliationBatch => λ r, GetReconciliationBatch (grb_TenantId r) (grb_BatchId r)
  | PListDiscrepancies => λ r, ListDiscrepancies (ld_TenantId r) (ld_BatchId r) (ld_Status r) (ld_PageSize r)
  | PResolveDiscrepancy => ResolveDiscrepancy
  end.

(** The request as the system sees it. *)
Definition to_request (p : Procedure) : Req p → request :=
  match p return Req p → request with
  | PCreateAccount => RqCreateAccount
  | PGetAccount => λ r, RqGetAccount (ga_TenantId r) (ga_AccountId r)
  | PGetBalance => RqGetBalance
  | PPostJournal => RqPostJournal
  | PExecuteFlow => RqExecuteFlow
  | PGetFlow => λ r, RqGetFlow (gf_TenantId r) (gf_FlowRunId r)
  | PListAccountActivity => RqListAccountActivity
  | PTakeBalanceSnapshot => RqTakeBalanceSnapshot
  | PCreateReservation => RqCreateReservation
  | PCommitReservation => RqCommitReservation
  | PReleaseReservation => RqReleaseReservation
  | PGetReservation => λ r, RqGetReservation (gr_TenantId r) (gr_ReservationId r)
  | PListReservations => RqListReservations
  | PExecuteExchange => RqExecuteExchange
  | PPutFXRate => RqPutFXRate
  | PGetFXRate => RqGetFXRate
  | PListFXRates => RqListFXRates
  | PIngestExternalRecords => λ r, RqIngestExternalRecords (ier_TenantId r) (ier_Records r)
  | PRunReconciliation => RqRunReconciliation
  | PGetReconciliationBatch => λ r, RqGetReconciliationBatch (grb_TenantId r) (grb_BatchId r)
  | PListDiscrepancies => λ r, RqListDiscrepancies (ld_TenantId r) (ld_BatchId r) (ld_Status r) (ld_PageSize r)
  | PResolveDiscrepancy => RqResolveDiscrepancy
  end.
End Server.

(** ** The interceptors *)

Abbreviation Header := (gmap string string).
Definition Header_Get (h : Header) (key : string) : string := default "" (h !! key).

(** A [connect.UnaryFunc]: a context, here the tenant kept in it, and the
    headers of the request. *)
Definition UnaryFunc (X A : Type) : Type := option string → Header → M error X A.

Definition TenantFromContext (ctx : option string) : string := default "" ctx.

Definition NewTenant {X A} (next : UnaryFunc X A) : UnaryFunc X A := λ ctx h,
  let tid := Header_Get h "X-Tenant-Id" in
  if tid =s "" then throw (ErrConnect CodeInvalidArgument None) else next (Some tid) h.

(** [NewLogging] writes a line to the log, here the tenant and whether the
    call failed, and returns what [next] returned. *)
Record LogLine := mkLogLine { log_tenant : string; log_error : bool }.
Definition NewLogging {X A} (next : UnaryFunc X A) : UnaryFunc (X * list LogLine) A := λ ctx h '(x, log),
  let '(res, x') := next ctx h x in
  (res, (x', log ++ [mkLogLine (TenantFromContext ctx) (negb (succeeds (res, x')))])).

(** ** Connect, net/http and the network

    No handler runs for a call that could not be encoded, sent or read; a
    call whose answer is lost was served all the same. *)

Inductive Fate :=
| NotServed (e : error)
| AnswerLost (e : error)
| Delivered.

Class Connect := {
  rpc_fate : nat → Fate;               (* of the n-th call of the client *)
  header_received : string → string;   (* what a handler reads of a header value that was sent *)
  url_path : string → string;          (* the path a server reads of a URL *)
  wire_error : error → error;          (* what a client gets of a handler's error *)
  not_found : error;                   (* what a client gets of [http.NotFound] *)
  wrong_message : error;               (* what a client gets of a handler made for other messages *)
}.

(** A [*connect.Error] is sent with its code and its metadata. *)
Class ConnectLaws (C : Connect) := {
  wire_error_connect cc h : wire_error (ErrConnect cc h) = ErrConnect cc h;
}.

(** ** The clients *)

Section Clients.
Context {H : Host} {D : DecimalOps} {S T : Type} {R : RepoTx D T} {ST : RepoStore D S T} {C : Connect}.

(** The server process: the store and the log. *)
Abbreviation Process := ((S * Env) * list LogLine)%type.

(** The handler [NewLedgerServiceHandler] returns, with the interceptors of
    cmd/server, the first outermost. *)
Definition ServeHTTP (path : string) (h : Header) (p : Procedure) (r : Req p) : M error Process (Res p) :=
  match route path with
  | None => throw not_found
  | Some p' => if decide (p' = p) then NewTenant (NewLogging (λ _ _, Server p r)) None h else throw wrong_message
  end.

(** [tenantTransport.RoundTrip] *)
Definition RoundTrip_header (tenant : string) (h : Header) : Header := <["X-Tenant-Id" := tenant]> h.

Record Remote := mkRemote { rm_process : Process; rm_calls : nat }.

Definition CallUnary (url tenant : string) (p : Procedure) (r : Req p) : M error Remote (Res p) := λ x,
  let n := Datatypes.S (rm_calls x) in
  match rpc_fate (rm_calls x) with
  | NotServed e => (Err e, mkRemote (rm_process x) n)
  | fate =>
      let '(res, proc) := ServeHTTP (url_path url) (header_received <$> RoundTrip_header tenant ∅) p r (rm_process x) in
      (match fate, res with
       | AnswerLost e, _ => Err e
       | _, Err e => Err (wire_error e)
       | _, Ok a => Ok a
       end, mkRemote proc n)
  end.

Definition embeddedClient : LedgerService (S * Env) := Server.
(** The generated client: each method calls its own URL. *)
Definition ledgerServiceClient (baseURL tenant : string) : LedgerService Remote := λ p r,
  CallUnary (clientURL baseURL p) tenant p r.

(** Each method forwards to the generated client. *)
Definition remoteClient (rpc : LedgerService Remote) : LedgerService Remote := λ p r, rpc p r.

Definition NewRemote (serverURL tenantID : string) : LedgerService Remote :=
  remoteClient (ledgerServiceClient serverURL tenantID).

(** ** What every client promises: a call is served once as the server
    serves it, or not at all; an answer is the server's. *)
Class ClientOf {X} (c : LedgerService X) (served : X → S * Env) :=
  client_call p r x : match c p r x with
    | (Ok a, x') => Server p r (served x) = (Ok a, served x')
    | (Err _, x') => served x' = served x ∨ served x' = (Server p r (served x)).2
    end.

#[export] Instance embedded_client : ClientOf embeddedClient id.
Proof. intros p r x. unfold embeddedClient. simpl. by destruct (Server p r x) as [[a|e] x']; [|right]. Qed.

Definition remote_served (x : Remote) : S * Env := (rm_process x).1.

Lemma ServeHTTP_served path h p r (x : Process) :
  match ServeHTTP path h p r x with
  | (Ok a, x') => Server p r x.1 = (Ok a, x'.1)
  | (Err _, x') => x'.1 = x.1 ∨ x'.1 = (Server p r x.1).2
  end.
Proof.
  unfold ServeHTTP. destruct (route path) as [p'|]; [|by left]. destruct (decide (p' = p)) as [_|]; [|by left].
  unfold NewTenant. destruct (_ =s ""); [by left|]. destruct x as [s log]. unfold NewLogging; simpl.
  destruct (Server p r s) as [[a|e] s']; [done|by right].
Qed.

#[export] Instance remote_client url tenant : ClientOf (NewRemote url tenant) remote_served.
Proof.
  intros p r x. unfold NewRemote, remoteClient, ledgerServiceClient, CallUnary, remote_served.
  pose proof (ServeHTTP_served (url_path (clientURL url p)) (header_received <$> RoundTrip_header tenant ∅) p r (rm_process x)) as Hs.
  destruct (ServeHTTP _ _ p r (rm_process x)) as [[a|e] proc].
  - destruct (rpc_fate (rm_calls x)); simpl; [by left| |done]. right. by rewrite Hs.
  - destruct (rpc_fate (rm_calls x)); simpl; [by left|done|done].
Qed.

Lemma clientURL_route url p :
  (∀ path, url_path (TrimRight_slash url +:+ path) = path) → route (url_path (clientURL url p)) = Some p.
Proof. intros Hurl. unfold clientURL. rewrite Hurl. by destruct p. Qed.

Lemma rpc_connect {X A} (m : M error X A) x e x' : rpc m x = (Err e, x') → is_connect e.
Proof. unfold rpc. destruct (m x) as [[a|e0] s']; [done|]. intros [= <- _]. apply ToConnectError_connect. Qed.

Lemma Server_connect p r x e x' : Server p r x = (Err e, x') → is_connect e.
Proof.
  destruct p; simpl; try apply rpc_connect.
  unfold PostJournal, mbind, M_bind. destruct (ExecuteFlow _ x) as [[a|e0] s'] eqn:Hf; [done|]. intros [= <- _].
  by eapply rpc_connect.
Qed.

(** The server implements every procedure: none falls back to the handler
    the generator provides. *)
Lemma rpc_implements {X A} (m : M error X A) x x' h : rpc m x ≠ (Err (ErrConnect CodeUnimplemented h), x').
Proof.
  unfold rpc. destruct (m x) as [[a|e0] s']; [done|]. unfold ToConnectError.
  destruct (as_domain e0) as [[]|]; simpl; congruence.
Qed.
Lemma Server_implements p r x : (Server p r x).1 ≠ (UnimplementedLedgerServiceHandler p r x).1.
Proof.
  assert (∀ x' h, Server p r x ≠ (Err (ErrConnect CodeUnimplemented h), x')) as Hs.
  { intros x' h. destruct p; simpl; try apply rpc_implements.
    unfold PostJournal, mbind, M_bind. destruct (ExecuteFlow _ x) as [[a|e0] s'] eqn:Hf; [done|]. intros [= -> _].
    by apply rpc_implements in Hf. }
  destruct (Server p r x) as [[a|e] x'] eqn:E; [done|]. simpl. intros [= ->]. by eapply Hs.
Qed.

(** C21. The two clients are one: a call the network delivers, to the URL of
    the server, is answered by the remote client exactly as the embedded
    client would answer it on the server's store (the same answer, or the
    same error with the same code and domain code, whichever of the 22
    procedures it is) and leaves the same store, unless the tenant header
    arrives empty: then it is refused as an invalid argument and changes
    nothing. *)
Theorem remote_is_embedded {CL : ConnectLaws C} (url tenant : string) (p : Procedure) (r : Req p) (x : Remote) :
  (∀ path, url_path (TrimRight_slash url +:+ path) = path) →
  rpc_fate (rm_calls x) = Delivered →
  ((NewRemote url tenant p r x).1, remote_served (NewRemote url tenant p r x).2) =
  if header_received tenant =s "" then (Err (ErrConnect CodeInvalidArgument None), remote_served x)
  else embeddedClient p r (remote_served x).
Proof.
  intros Hurl Hfate. unfold NewRemote, remoteClient, ledgerServiceClient, CallUnary, ServeHTTP. rewrite Hfate, (clientURL_route url p Hurl).
  rewrite decide_True by done. unfold NewTenant, RoundTrip_header, Header_Get. rewrite lookup_fmap, lookup_insert_eq.
  simpl. destruct (header_received tenant =s ""); simpl; [by rewrite wire_error_connect|].
  unfold remote_served, embeddedClient. destruct (rm_process x) as [s log]; simpl.
  destruct (Server p r s) as [[a|e] s'] eqn:Hs; simpl; [done|].
  apply Server_connect in Hs as (cc & h & ->). by rewrite wire_error_connect.
Qed.
End Clients.

(** ** errors.go of pkg/dledger *)

(** [IsErrCode]: the header of a [*connect.Error] that has none reads as the
    empty text. *)
Definition IsErrCode (err : option error) (code : string) : bool :=
  match err with
  | Some (ErrConnect _ h) => from_option code_text "" h =s code
  | _ => false
  end.

(** The codes the package names. *)
Definition ErrCodes : list string :=
  ["INSUFFICIENT_FUNDS"; "ACCOUNT_NOT_FOUND"; "ACCOUNT_CURRENCY_MISMATCH"; "UNBALANCED_JOURNAL";
   "DUPLICATE_IDEMPOTENCY_KEY"; "FLOW_ALREADY_COMPLETED"; "FLOW_CONFLICT"; "INVALID_ACCOUNT_STATUS";
   "SERIALIZATION_RETRY_EXHAUSTED"; "RESERVATION_NOT_FOUND"; "RESERVATION_CLOSED"; "RESERVATION_AMOUNT_EXCEEDS";
   "RESERVATION_CURRENCY_MISMATCH"; "FX_RATE_NOT_FOUND"; "FX_AMOUNT_MISMATCH"; "DISCREPANCY_NOT_FOUND";
   "DISCREPANCY_CLOSED"; "RECON_BATCH_NOT_FOUND"].

(** They are the server's codes without the two that only the DynamoDB
    backend answers. *)
Lemma ErrCodes_mirror c : code_text c ∈ ErrCodes ↔ c ≠ CodeUnsupportedOperation ∧ c ≠ CodeFlowTooLarge.
Proof.
  rewrite <- (bool_decide_eq_true (code_text c ∈ ErrCodes)). split.
  - intros H. split; intros ->; vm_compute in H; discriminate.
  - intros [H1 H2]. destruct c; try done; by vm_compute.
Qed.
