(* ===== verification/Node.v ===== *)
(** * A running ledger process

    Everything that touches one ledger at once: remote clients over a network
    that may lose calls and answers, the embedded client, the dispatcher that
    publishes to a sink and the scheduler (cmd/server and [NewEmbedded] start
    the two loops next to the handler).  One event is one call or one tick,
    and the books stay right under any interleaving of them. *)

From S2P Require Import Prelude Money Ledger Repo Contract Service Flow FlowLaws Books Accounts Reservations ReservationLaws.
From S2P Require Import Exchange Recon Worker System Rpc.
From stdpp Require Import base gmap strings list numbers.
From Stdlib Require Import Qcanon.

Inductive Event :=
| EvRemote (serverURL tenantID : string) (p : Procedure) (r : Req p)
| EvEmbedded (p : Procedure) (r : Req p)
| EvDispatcher (cfg : OutboxConfig) (ticks : list bool)
| EvScheduler (cfg : SchedulerConfig) (signals : list Signal).

Section Node.
Context {H : Host} {D : DecimalOps} {S T : Type} {R : RepoTx D T} {ST : RepoStore D S T} {C : Connect} {K : Type} {SK : Sink K}.

(** The server process with what it logged, the calls made to it and the
    sink of its dispatcher. *)
Record Node := mkNode { nd_remote : Remote (S := S); nd_sink : K }.

Definition nd_store (n : Node) : S * Env := remote_served (nd_remote n).
Definition set_store (s : S * Env) (k : K) (n : Node) : Node :=
  mkNode (mkRemote (s, (rm_process (nd_remote n)).2) (rm_calls (nd_remote n))) k.

Definition node_step (n : Node) (ev : Event) : Node :=
  match ev with
  | EvRemote url tenant p r => mkNode (NewRemote url tenant p r (nd_remote n)).2 (nd_sink n)
  | EvEmbedded p r => set_store (embeddedClient p r (nd_store n)).2 (nd_sink n) n
  | EvDispatcher cfg ticks => let '(s, k) := dispatcherRun cfg ticks (nd_store n, nd_sink n) in set_store s k n
  | EvScheduler cfg signals => set_store (schedulerRun cfg signals (nd_store n)).2 (nd_sink n) n
  end.
End Node.

Section Books.
Context {H : Host} {D : DecimalOps} {L : DecimalLaws D} {S T : Type} {R : RepoTx D T} {RL : RepoTxLaws D T}
  {ST : RepoStore D S T} {SL : RepoStoreLaws D S T} {FL : RepoFrameLaws D S T} {C : Connect} {K : Type} {SK : Sink K}.
Implicit Types (n : Node (S := S) (K := K)).

Lemma Server_handle p r (s : S * Env) : (Server p r s).2 = handle s (to_request p r).
Proof. by destruct p. Qed.

Lemma dispatch_ok v0 evs (st : (S * Env) * K) :
  sys_ok v0 (svw st.1.1) → sys_ok v0 (svw (foldl dispatchOne st evs).1.1).
Proof.
  revert st. induction evs as [|e evs IH]; intros [s k] Hok; simpl in *; [done|]. apply IH.
  destruct (Publish e k) as [[er|] k']; simpl.
  - exact (handle_ok v0 (RqIncrementOutboxAttempts (ob_ID e)) s Hok).
  - exact (handle_ok v0 (RqMarkOutboxPublished (ob_ID e)) s Hok).
Qed.

Lemma dispatcherRun_ok v0 cfg ticks (st : (S * Env) * K) :
  sys_ok v0 (svw st.1.1) → sys_ok v0 (svw (dispatcherRun cfg ticks st).1.1).
Proof.
  revert st. induction ticks as [|[] ticks IH]; intros [s k] Hok; simpl; [done| |done]. apply IH. unfold dispatcherTick.
  rewrite adapter_rows. pose proof (frame_st_PendingOutbox (oc_BatchSize cfg) s) as E.
  destruct (st_PendingOutbox (oc_BatchSize cfg) s) as [[evs|e] s']; simpl in *; rewrite <- E in Hok; [by apply dispatch_ok|done].
Qed.

Lemma schedulerRun_ok v0 cfg signals (s : S * Env) :
  sys_ok v0 (svw s.1) → sys_ok v0 (svw (schedulerRun cfg signals s).2.1).
Proof.
  revert s. induction signals as [|[] signals IH]; intros s Hok; simpl; [done|done| | |].
  - apply IH. exact (handle_ok v0 (RqSnapshotTick cfg) s Hok).
  - apply IH. exact (handle_ok v0 (RqExpiryTick cfg) s Hok).
  - apply IH. exact (handle_ok v0 (RqRetentionTick cfg) s Hok).
Qed.

Lemma node_step_ok v0 n ev : sys_ok v0 (svw (nd_store n).1) → sys_ok v0 (svw (nd_store (node_step n ev)).1).
Proof.
  intros Hok. destruct ev as [url tenant p r|p r|cfg ticks|cfg signals]; simpl.
  - unfold nd_store; simpl. pose proof (client_call (c := NewRemote url tenant) p r (nd_remote n)) as Hc.
    assert (Hh : sys_ok v0 (svw (Server p r (nd_store n)).2.1)) by (rewrite Server_handle; by apply handle_ok).
    destruct (NewRemote url tenant p r (nd_remote n)) as [[a|e] x']; simpl.
    + unfold nd_store in Hh. by rewrite Hc in Hh.
    + by destruct Hc as [->| ->].
  - unfold nd_store at 1; simpl. rewrite Server_handle. by apply handle_ok.
  - pose proof (dispatcherRun_ok v0 cfg ticks (nd_store n, nd_sink n) Hok) as Hd.
    by destruct (dispatcherRun cfg ticks (nd_store n, nd_sink n)) as [s k].
  - by apply schedulerRun_ok.
Qed.

(** The books of a running process are right: under any interleaving of
    calls of any remote and embedded clients, whatever calls and answers the
    network loses, of dispatcher and scheduler loops, whatever the sink
    refuses and whatever statements fail, the balances are the totals of the
    posted entries, journals balance in every currency, no account that may
    not go negative is negative, reservations add up, and what was posted
    before stays as it was. *)
Theorem process_keeps_books (evs : list Event) n :
  ledger_ok (svw (nd_store n).1) → resv_ok (svw (nd_store n).1) →
  let v0 := svw (nd_store n).1 in let v := svw (nd_store (foldl node_step n evs)).1 in
  (∀ k, lv_balance v k = posted k (lv_entries v)) ∧
  (∀ t j c, Qcsum (pe_signed (in_journal t j c)) (lv_entries v) = 0%Qc) ∧
  (∀ t a c b acct, lv_bal v (t, a, c) = Some b → lv_acct v t a = Some acct → funded acct b) ∧
  (∀ t id rv, lv_resv v t id = Some rv → rv_ok rv) ∧
  lv_entries v0 `prefix_of` lv_entries v ∧ lv_journals v0 `prefix_of` lv_journals v.
Proof.
  intros Hl Hr v0 v.
  assert (Hgen : ∀ evs' m, sys_ok v0 (svw (nd_store m).1) → sys_ok v0 (svw (nd_store (foldl node_step m evs')).1)).
  { induction evs' as [|ev evs' IH]; intros m Hm; simpl; [done|]. by apply IH, node_step_ok. }
  destruct (Hgen evs n (sys_ok_start _ Hl Hr)) as [[H1 H2 H3 H4 H5] H6 [] H8]. split_and!; try done.
  intros t id rv Hrv. by destruct (H6 _ _ _ Hrv).
Qed.
End Books.
