(* ===== verification/Threads.v ===== *)
(** * Threads that share a store

    A goroutine is a tree of atomic operations on a state all goroutines
    share: one store call, one transaction, one reading of the clock.  Between
    two of its operations the others may do any of theirs.  [run] is a thread
    alone; [schedule] interleaves a pool of them.  [safely] is what one thread
    keeps whatever the others do, when they keep an invariant [I] and change
    the state only as a preorder [R] allows ([each_safely], when every
    operation of the thread does, wherever it starts); [pool_safe] puts the
    threads together.  A schedule that leaves no thread out for ever
    ([fair]) ends them all ([pool_finishes]). *)

From S2P Require Import Prelude Ledger Service.
From stdpp Require Import base list.

(** ** Programs *)

Inductive Prog (X A : Type) : Type :=
| Ret (r : result error A)
| Op (B : Type) (m : M error X B) (k : result error B → Prog X A).
Arguments Ret {_ _} r.
Arguments Op {_ _ _} m k.

Section Monad.
Context {X : Type}.

(** Goes on with what the outcome says. *)
Fixpoint presume {A B} (f : result error A → Prog X B) (p : Prog X A) : Prog X B :=
  match p with
  | Ret r => f r
  | Op m k => Op m (λ r, presume f (k r))
  end.
Definition pbind {A B} (f : A → Prog X B) : Prog X A → Prog X B :=
  presume (λ r, match r with Ok a => f a | Err e => Ret (Err e) end).
#[global] Instance Prog_ret : MRet (Prog X) := λ A a, Ret (Ok a).
#[global] Instance Prog_bind : MBind (Prog X) := λ A B f p, pbind f p.

(** One atomic operation. *)
Definition op {A} (m : M error X A) : Prog X A := Op m Ret.
Definition pthrow {A} (e : error) : Prog X A := Ret (Err e).
Definition pthrow_if (c : bool) (e : error) : Prog X unit := if c then pthrow e else mret tt.
Definition plift {A} (r : result error A) : Prog X A := Ret r.

(** [rpc] and [ignore] *)
Definition prpc {A} : Prog X A → Prog X A := presume (λ r, Ret (match r with Err e => Err (ToConnectError e) | r => r end)).
Definition pignore {A} : Prog X A → Prog X unit := presume (λ _, Ret (Ok tt)).

Fixpoint pfold {A B} (f : B → A → Prog X B) (l : list A) (acc : B) : Prog X B :=
  match l with
  | [] => mret acc
  | x :: l' => acc' ← f acc x; pfold f l' acc'
  end.

(** ** A thread alone *)

Fixpoint run {A} (p : Prog X A) : M error X A := λ x,
  match p with
  | Ret r => (r, x)
  | Op m k => let '(r, x') := m x in run (k r) x'
  end.

Lemma run_op {A} (m : M error X A) x : run (op m) x = m x.
Proof. simpl. by destruct (m x). Qed.
Lemma run_presume {A B} (f : result error A → Prog X B) (p : Prog X A) x :
  run (presume f p) x = let '(r, x') := run p x in run (f r) x'.
Proof. revert x. induction p as [r|C m k IH]; intros x; simpl; [done|]. destruct (m x). apply IH. Qed.
Lemma run_bind {A B} (p : Prog X A) (f : A → Prog X B) x : run (p ≫= f) x = (run p ≫= λ a, run (f a)) x.
Proof. unfold mbind, Prog_bind, pbind, M_bind. rewrite run_presume. by destruct (run p x) as [[] ?]. Qed.
Lemma run_rpc {A} (p : Prog X A) x : run (prpc p) x = rpc (run p) x.
Proof. unfold prpc, rpc. rewrite run_presume. by destruct (run p x) as [[] ?]. Qed.
Lemma run_ignore {A} (p : Prog X A) x : run (pignore p) x = (Ok tt, (run p x).2).
Proof. unfold pignore. rewrite run_presume. by destruct (run p x). Qed.
Lemma run_throw_if c e x : run (pthrow_if c e) x = throw_if (S := X) c e x.
Proof. by destruct c. Qed.

Lemma bind_ext {A B} (m m' : M error X A) (f f' : A → M error X B) :
  (∀ x, m x = m' x) → (∀ a x, f a x = f' a x) → ∀ x, (m ≫= f) x = (m' ≫= f') x.
Proof. intros Hm Hf x. unfold mbind, M_bind. rewrite Hm. by destruct (m' x) as [[a|e] x']. Qed.
Lemma run_fold {A B} (f : B → A → Prog X B) (g : B → A → M error X B) l acc :
  (∀ b a x, run (f b a) x = g b a x) → ∀ x, run (pfold f l acc) x = foldM g l acc x.
Proof.
  intros Hfg. revert acc. induction l as [|a l IH]; intros acc x; [done|]. simpl. rewrite run_bind.
  apply bind_ext; auto.
Qed.

(** ** Threads together *)

Definition Pool : Type := list (Prog X unit) * X.

(** Thread [i] does its next operation, if it has one. *)
Definition step (s : Pool) (i : nat) : Pool :=
  match s.1 !! i with
  | Some (Op m k) => let '(r, x') := m s.2 in (<[i := k r]> s.1, x')
  | _ => s
  end.
Definition schedule (s : Pool) (l : list nat) : Pool := foldl step s l.

Lemma schedule_app s l1 l2 : schedule s (l1 ++ l2) = schedule (schedule s l1) l2.
Proof. apply foldl_app. Qed.

(** A schedule may run one thread to its end before the others move. *)
Lemma thread_alone (ps : list (Prog X unit)) i p x :
  ps !! i = Some p →
  ∃ l, schedule (ps, x) l = (<[i := Ret (run p x).1]> ps, (run p x).2).
Proof.
  revert ps x. induction p as [r|C m k IH]; intros ps x Hp.
  - exists []. simpl. by rewrite list_insert_id.
  - simpl. destruct (m x) as [r x'] eqn:Hm.
    destruct (IH r (<[i := k r]> ps) x') as [l Hl]; [by rewrite list_lookup_insert_eq; [|eapply lookup_lt_Some]|].
    exists (i :: l). simpl. unfold step at 1. simpl. rewrite Hp, Hm.
    change (schedule (<[i := k r]> ps, x') l = (<[i := Ret (run (k r) x').1]> ps, (run (k r) x').2)).
    by rewrite Hl, list_insert_insert_eq.
Qed.

(** In particular the threads may run one after the other. *)
Lemma pool_in_order ps x : ∃ l, (schedule (ps, x) l).2 = foldl (λ x p, (run p x).2) x ps.
Proof.
  assert (∀ qs, ∃ l, (schedule (qs ++ ps, x) l).2 = foldl (λ x p, (run p x).2) x ps) as Hgen; [|by apply (Hgen [])].
  revert x. induction ps as [|p ps IH]; intros x qs; [by exists []|].
  destruct (thread_alone (qs ++ p :: ps) (length qs) p x) as [l1 Hl1]; [by apply list_lookup_middle|].
  destruct (IH (run p x).2 (qs ++ [Ret (run p x).1])) as [l2 Hl2].
  exists (l1 ++ l2). rewrite schedule_app, Hl1. simpl. rewrite <- Hl2, <- app_assoc. simpl.
  by rewrite insert_app_r_alt, Nat.sub_diag by done.
Qed.

(** ** Fair schedules *)

(** A schedule that goes on for ever and leaves out no thread for ever. *)
Definition fair (n : nat) (f : nat → nat) : Prop := ∀ i t, i < n → ∃ t', t ≤ t' ∧ f t' = i.
(** The pool after the first [t] turns. *)
Definition at_turn (s : Pool) (f : nat → nat) (t : nat) : Pool := schedule s (f <$> seq 0 t).
Definition finished (p : Prog X unit) : Prop := match p with Ret _ => True | _ => False end.

Lemma at_turn_S s f t : at_turn s f (S t) = step (at_turn s f t) (f t).
Proof. unfold at_turn. by rewrite seq_S, fmap_app, schedule_app. Qed.

Lemma step_other s i j : i ≠ j → (step s j).1 !! i = s.1 !! i.
Proof.
  intros Hij. unfold step. destruct (s.1 !! j) as [[r|C m k]|]; try done.
  destruct (m s.2) as [r x']. simpl. by rewrite list_lookup_insert_ne.
Qed.
Lemma step_finished s i j p : s.1 !! i = Some p → finished p → (step s j).1 !! i = Some p.
Proof.
  intros Hp Hf. destruct (decide (i = j)) as [<-|Hij]; [|by rewrite step_other].
  unfold step. rewrite Hp. by destruct p.
Qed.

(** Until its next turn a thread waits. *)
Lemma waits s (f : nat → nat) i t n p :
  (at_turn s f t).1 !! i = Some p → (∀ t', t ≤ t' < t + n → f t' ≠ i) → (at_turn s f (t + n)).1 !! i = Some p.
Proof.
  intros Hp. induction n as [|n IH]; intros Hn; [by rewrite Nat.add_0_r|].
  rewrite Nat.add_succ_r, at_turn_S, step_other; [|intros Hf; eapply (Hn (t + n)); [lia|done]].
  apply IH. intros t' Ht. apply Hn. lia.
Qed.
Lemma next_turn (f : nat → nat) i t : (∃ t', t ≤ t' ∧ f t' = i) → ∃ n, f (t + n) = i ∧ ∀ t', t ≤ t' < t + n → f t' ≠ i.
Proof.
  intros (t' & Ht & Hf). remember (t' - t) as d eqn:Hd. revert t Ht Hd. induction d as [|d IH]; intros t Ht Hd.
  - exists 0. split; [by replace (t + 0) with t' by lia|lia].
  - destruct (decide (f t = i)) as [Hfi|Hfi]; [exists 0; split; [by rewrite Nat.add_0_r|lia]|].
    destruct (IH (S t)) as (n & Hn & Hb); [lia..|]. exists (S n). split; [by rewrite Nat.add_succ_r|].
    intros u Hu. destruct (decide (u = t)) as [->|]; [done|]. apply Hb. lia.
Qed.

Lemma thread_finishes s f i t p :
  fair (length s.1) f → i < length s.1 → (at_turn s f t).1 !! i = Some p →
  ∃ n, ∀ u, t + n ≤ u → ∃ q, (at_turn s f u).1 !! i = Some q ∧ finished q.
Proof.
  intros Hf Hi. revert t. induction p as [r|C m k IH]; intros t Hp.
  - exists 0. intros u Hu. exists (Ret r). split; [|done].
    replace u with (t + (u - t)) by lia. generalize (u - t). intros n. induction n as [|n IH]; [by rewrite Nat.add_0_r|].
    rewrite Nat.add_succ_r, at_turn_S. by apply step_finished.
  - destruct (next_turn f i t (Hf i t Hi)) as (n & Hfn & Hn). pose proof (waits s f i t n _ Hp Hn) as Hw.
    destruct (m (at_turn s f (t + n)).2) as [r x'] eqn:Hm.
    destruct (IH r (S (t + n))) as [n' Hn'].
    { rewrite at_turn_S, Hfn. unfold step. rewrite Hw, Hm. simpl. rewrite list_lookup_insert_eq; [done|by eapply lookup_lt_Some]. }
    exists (S n + n'). intros u Hu. apply Hn'. lia.
Qed.

(** Every thread ends: a tree of operations has no endless branch, and a fair
    schedule takes each thread down its tree. *)
Lemma pool_finishes s f : fair (length s.1) f → ∃ t, Forall finished (at_turn s f t).1.
Proof.
  intros Hf.
  assert (Hlen : ∀ t, length (at_turn s f t).1 = length s.1).
  { induction t as [|t IH]; [done|]. rewrite at_turn_S. unfold step.
    destruct (_ !! _) as [[r|C m k]|]; try done. destruct (m _). simpl. by rewrite length_insert. }
  assert (Hall : ∀ n, n ≤ length s.1 → ∃ t, ∀ i u, i < n → t ≤ u → ∃ q, (at_turn s f u).1 !! i = Some q ∧ finished q).
  { induction n as [|n IH]; intros Hn; [exists 0; lia|]. destruct IH as [t Ht]; [lia|].
    destruct (lookup_lt_is_Some_2 (at_turn s f 0).1 n) as [p Hp]; [by rewrite Hlen|].
    destruct (thread_finishes s f n 0 p Hf Hn Hp) as [t' Ht']. exists (t + t'). intros i u Hi Hu.
    destruct (decide (i = n)) as [->|]; [apply Ht'; lia|apply Ht; lia]. }
  destruct (Hall (length s.1)) as [t Ht]; [done|]. exists t. apply Forall_lookup. intros i p Hp.
  destruct (Ht i t) as (q & Hq & Hfq); [rewrite <- (Hlen t); by eapply lookup_lt_Some|done|]. congruence.
Qed.

(** ** Each operation of a thread *)

Section Each.
Context (P : ∀ B, M error X B → Prop).

Fixpoint each {A} (p : Prog X A) : Prop :=
  match p with
  | Ret _ => True
  | Op m k => P _ m ∧ ∀ r, each (k r)
  end.

Lemma each_ret {A} (r : result error A) : each (Ret r).
Proof. done. Qed.
Lemma each_op {A} (m : M error X A) : P A m → each (op m).
Proof. done. Qed.
Lemma each_presume {A B} (f : result error A → Prog X B) (p : Prog X A) :
  each p → (∀ r, each (f r)) → each (presume f p).
Proof. intros Hp Hf. induction p as [r|C m k IH]; [apply Hf|]. destruct Hp as [Hm Hk]. split; auto. Qed.
Lemma each_bind {A B} (p : Prog X A) (f : A → Prog X B) : each p → (∀ a, each (f a)) → each (p ≫= f).
Proof. intros Hp Hf. apply each_presume; [done|]. intros [a|e]; [apply Hf|done]. Qed.
Lemma each_fold {A B} (f : B → A → Prog X B) l acc : (∀ b a, each (f b a)) → each (pfold f l acc).
Proof.
  intros Hf. revert acc. induction l as [|a l IH]; intros acc; simpl; [done|]. by apply each_bind.
Qed.
(** What holds of each operation of a thread holds of those it has left. *)
Lemma step_each ps x i : Forall each ps → Forall each (step (ps, x) i).1.
Proof.
  intros Hps. unfold step; simpl. destruct (ps !! i) as [[r|C m k]|] eqn:Hi; try done.
  destruct (proj1 (Forall_lookup _ _) Hps i _ Hi) as [_ Hk]. destruct (m x) as [r x']. apply Forall_insert; [done|apply Hk].
Qed.
Lemma schedule_each s l : Forall each s.1 → Forall each (schedule s l).1.
Proof.
  revert s. induction l as [|i l IH]; intros [ps x] Hps; [done|]. apply (IH (step (ps, x) i)). by apply step_each.
Qed.
End Each.

(** ** Rely and guarantee *)

Section Safe.
Context (I : X → Prop) (R : X → X → Prop) `{HR : !PreOrder R}.

(** Started in a state the others may change by [R], every operation of [p]
    keeps [I] and changes the state by [R]; [Q] holds of the outcome, and
    goes on to hold. *)
Fixpoint safely {A} (p : Prog X A) (Q : result error A → X → Prop) (x : X) : Prop :=
  match p with
  | Ret r => ∀ y, I y → R x y → Q r y
  | Op m k => ∀ y, I y → R x y → let '(r, y') := m y in I y' ∧ R y y' ∧ safely (k r) Q y'
  end.

Lemma safely_later {A} (p : Prog X A) Q x y : R x y → safely p Q x → safely p Q y.
Proof. intros Hxy. destruct p as [r|C m k]; intros Hp z Hz Hyz; (apply Hp; [done|by etransitivity]). Qed.

Lemma safely_mono {A} (p : Prog X A) (Q Q' : result error A → X → Prop) x :
  (∀ r y, I y → R x y → Q r y → Q' r y) → safely p Q x → safely p Q' x.
Proof.
  revert x. induction p as [r|C m k IH]; intros x HQ Hp y Hy Hxy; [by apply HQ, Hp|].
  specialize (Hp y Hy Hxy). destruct (m y) as [r y']. destruct Hp as (Hy' & Hyy' & Hk). split_and!; [done..|].
  apply IH; [|done]. intros r' z Hz Hyz. apply HQ; [done|]. etransitivity; [done|]. by etransitivity.
Qed.

Lemma safely_presume {A B} (f : result error A → Prog X B) (p : Prog X A) Q x :
  safely p (λ r, safely (f r) Q) x → safely (presume f p) Q x.
Proof.
  revert x. induction p as [r|C m k IH]; intros x Hp; simpl in *.
  - destruct (f r) as [r'|C m k]; simpl in *; intros y Hy Hxy; exact (Hp y Hy Hxy y Hy (reflexivity y)).
  - intros y Hy Hxy. specialize (Hp y Hy Hxy). destruct (m y) as [r y']. destruct Hp as (? & ? & ?). auto.
Qed.

Lemma safely_op {A} (m : M error X A) Q x :
  (∀ y, I y → R x y → let '(r, y') := m y in I y' ∧ R y y' ∧ ∀ z, I z → R y' z → Q r z) → safely (op m) Q x.
Proof. done. Qed.

(** A thread each of whose operations is safe wherever it starts. *)
Lemma each_safely (P : ∀ B, M error X B → Prop) {A} (p : Prog X A) :
  (∀ B (m : M error X B) y, P B m → I y → I (m y).2 ∧ R y (m y).2) →
  each P p → ∀ x, safely p (λ _ _, True) x.
Proof.
  intros HP. induction p as [r|C m k IH]; intros Hp x; [done|]. destruct Hp as [Hm Hk]. intros y Hy _.
  specialize (HP C m y Hm Hy). destruct (m y) as [r y'], HP. auto.
Qed.

Lemma step_safe ps x i :
  I x → Forall (λ p, safely p (λ _ _, True) x) ps →
  let '(ps', x') := step (ps, x) i in I x' ∧ R x x' ∧ Forall (λ p, safely p (λ _ _, True) x') ps'.
Proof.
  intros Hx Hps. unfold step; simpl. destruct (ps !! i) as [[r|C m k]|] eqn:Hi; try by split.
  pose proof (proj1 (Forall_lookup _ _) Hps i _ Hi x Hx (reflexivity x)) as Hm.
  destruct (m x) as [r x']. destruct Hm as (Hx' & Hxx' & Hk). split_and!; [done..|].
  apply Forall_insert; [|done]. eapply list.Forall_impl; [done|]. intros p. by apply safely_later.
Qed.

(** Whatever the schedule, a pool of safe threads keeps the invariant and
    changes the state by [R]. *)
Lemma pool_safe ps x l :
  I x → Forall (λ p, safely p (λ _ _, True) x) ps →
  I (schedule (ps, x) l).2 ∧ R x (schedule (ps, x) l).2.
Proof.
  revert ps x. induction l as [|i l IH]; intros ps x Hx Hps; [done|]. simpl.
  pose proof (step_safe ps x i Hx Hps) as Hs. destruct (step (ps, x) i) as [ps' x'].
  destruct Hs as (Hx' & Hxx' & Hps'). destruct (IH ps' x' Hx' Hps') as [HI HRl]. split; [done|by etransitivity].
Qed.
End Safe.
End Monad.
Arguments Pool X : clear implicits.

(** ** Threads on a part of the state *)

Section Part.
Context {X K : Type}.

Definition on_fst {A} (m : M error X A) : M error (X * K) A := λ '(x, k), let '(r, x') := m x in (r, (x', k)).

Fixpoint on_store {A} (p : Prog X A) : Prog (X * K) A :=
  match p with
  | Ret r => Ret r
  | Op m k => Op (on_fst m) (λ r, on_store (k r))
  end.

Lemma run_on_store {A} (p : Prog X A) x k : run (on_store p) (x, k) = let '(r, x') := run p x in (r, (x', k)).
Proof. revert x. induction p as [r|C m c IH]; intros x; simpl; [done|]. destruct (m x). apply IH. Qed.

Lemma each_on_store (P : ∀ B, M error X B → Prop) (Q : ∀ B, M error (X * K) B → Prop) {A} (p : Prog X A) :
  (∀ B (m : M error X B), P B m → Q B (on_fst m)) → each P p → each Q (on_store p).
Proof. intros HPQ. induction p as [r|C m k IH]; intros Hp; [done|]. destruct Hp as [Hm Hk]. split; auto. Qed.
End Part.

(** Walks a thread down to its operations. *)
Ltac operations :=
  repeat first
  [ apply each_ret
  | match goal with
    | |- each _ (prpc _) => apply each_presume
    | |- each _ (pignore _) => apply each_presume
    | |- each _ (_ ≫= _) => apply each_bind
    | |- each _ (pfold _ _ _) => apply each_fold
    | |- each _ (mret _) => apply each_ret
    | |- each _ (pthrow _) => apply each_ret
    | |- each _ (pthrow_if ?c _) => destruct c
    | |- each _ (let '(_, _) := ?x in _) => destruct x
    | |- each _ (match ?x with _ => _ end) => destruct x
    | |- ∀ _, _ => intros ?
    end ].
