(* ===== verification/Interleave.v ===== *)
(** * The service with its requests interleaved

    Every handler and tick as a thread, split at the calls it makes on the
    store: a transaction is one operation (the stores isolate it), and so is
    every call outside one.  Run alone, a thread is the handler it is made of
    ([thread_is_handler]); in a pool, the calls of different requests
    interleave in any order. *)

From S2P Require Import Prelude Money Ledger Repo Contract Service Flow FlowLaws Books Accounts Reservations ReservationLaws.
From S2P Require Import Exchange Recon Worker System Rpc Node Threads.
From stdpp Require Import base gmap strings list numbers.
From Stdlib Require Import Qcanon.

Section Handlers.
Context {H : Host} {D : DecimalOps} {S T : Type} {R : RepoTx D T} {ST : RepoStore D S T}.
Abbreviation Thread A := (Prog (S * Env) A).

(** ** The handlers that call the store more than once *)

Definition CreateAccount_ops (r : CreateAccountRequest) : Thread PbAccount :=
  prpc (pthrow_if (negb (NormalBalance_Valid (normalBalanceFromProto (ca_NormalBalance r))))
          (ErrDomain CodeInvalidAccountStatus);;
        now ← op Now;
        let a := newAccount r now in
        op (runInTx (tx_InsertAccount a));;
        mret (accountToProto a)).

Definition balanceAsOf_ops (tenant account currency : string) (at_ : Time) : Thread (dec * dec * Z) :=
  snap ← op (st_GetSnapshotBefore tenant account currency at_);
  let '(d, c, ver, snapAt) :=
    match snap with
    | Some b => (bs_PostedDebits b, bs_PostedCredits b, bs_Version b, bs_SnapshotAt b)
    | None => (decimal_Zero, decimal_Zero, 0%Z, time_zero)
    end in
  '(addD, addC) ← op (st_SumEntriesBetween tenant account currency snapAt at_);
  mret (dAdd d addD, dAdd c addC, ver).

Definition GetBalance_ops (r : GetBalanceRequest) : Thread PbBalance :=
  prpc (a ← op (st_GetAccount (gb_TenantId r) (gb_AccountId r));
        pthrow_if (negb (acc_Currency a =s gb_Currency r)) (ErrDomain CodeAccountCurrencyMismatch);;
        '(d, c, ver) ← match gb_AsOf r with
          | Some at_ => balanceAsOf_ops (gb_TenantId r) (gb_AccountId r) (gb_Currency r) at_
          | None => op (st_GetBalance (gb_TenantId r) (gb_AccountId r) (gb_Currency r))
          end;
        let norm := NormalizedBalance (acc_NormalBalance a) d c in
        mret (mkPbBalance (acc_ID a) (gb_Currency r) (dString d) (dString c) (dString norm) ver)).

Definition snapshotRow_ops (tenant : string) (now : Time) (taken : Z) (b : TenantBalanceRow) : Thread Z :=
  id ← op NewID;
  op (st_InsertSnapshot (mkBalanceSnapshot id tenant (tb_AccountID b) (tb_Currency b)
    (tb_PostedDebits b) (tb_PostedCredits b) (tb_Version b) now time_zero));;
  mret (int32 (taken + 1)).

Definition TakeBalanceSnapshot_ops (r : TakeBalanceSnapshotRequest) : Thread Z :=
  let tenant := ts_TenantId r in
  prpc (pthrow_if (tenant =s "") (ErrDomain CodeAccountCurrencyMismatch);;
        now ← op Now;
        if negb (ts_AccountId r =s "") && negb (ts_Currency r =s "") then
          '(d, c, ver) ← op (st_GetBalance tenant (ts_AccountId r) (ts_Currency r));
          id ← op NewID;
          op (st_InsertSnapshot (mkBalanceSnapshot id tenant (ts_AccountId r) (ts_Currency r) d c ver now time_zero));;
          mret 1%Z
        else
          rows ← op (st_ListTenantBalances tenant);
          pfold (snapshotRow_ops tenant now) rows 0%Z).

Definition PutFXRate_ops (r : PutFXRateRequest) : Thread PbFXRate :=
  prpc (rate ← op (parseFX (pfr_Rate r));
        now ← op Now;
        let effective := default now (pfr_EffectiveAt r) in
        id ← op NewID;
        got ← op (st_UpsertFXRate (mkFXRate id (pfr_TenantId r) (pfr_BaseCurrency r) (pfr_QuoteCurrency r)
                rate (pfr_Source r) effective time_zero));
        mret (fxRateToProto got)).

Definition GetFXRate_ops (r : GetFXRateRequest) : Thread PbFXRate :=
  prpc (now ← op Now;
        let at_ := default now (gfr_At r) in
        got ← op (st_GetFXRateAt (gfr_TenantId r) (gfr_BaseCurrency r) (gfr_QuoteCurrency r) at_);
        match got with
        | None => pthrow (ErrDomain CodeFXRateNotFound)
        | Some x => mret (fxRateToProto x)
        end).

Definition resolveRate_ops (r : ExecuteExchangeRequest) (fromAcc toAcc : Account) : Thread (dec * string) :=
  if negb (ex_Rate r =s "") then
    match NewFromString (ex_Rate r) with
    | Some rate => if IsPositive rate then mret (rate, ex_RateSource r)
                   else pthrow (ErrDomain CodeFXAmountMismatch)
    | None => pthrow (ErrDomain CodeFXAmountMismatch)
    end
  else
    now ← op Now;
    got ← op (st_GetFXRateAt (ex_TenantId r) (acc_Currency fromAcc) (acc_Currency toAcc) now);
    match got with
    | None => pthrow (ErrDomain CodeFXRateNotFound)
    | Some x => mret (fx_Rate x, fx_Source x)
    end.

Definition ExecuteExchange_ops (r : ExecuteExchangeRequest) : Thread ExecuteExchangeResponse :=
  prpc (fromAmount ← op (parseFX (ex_FromAmount r));
        toAmount ← op (parseFX (ex_ToAmount r));
        fromAcc ← op (st_GetAccount (ex_TenantId r) (ex_FromAccountId r));
        toAcc ← op (st_GetAccount (ex_TenantId r) (ex_ToAccountId r));
        pthrow_if (acc_Currency fromAcc =s acc_Currency toAcc) (ErrDomain CodeAccountCurrencyMismatch);;
        '(rate, src) ← resolveRate_ops r fromAcc toAcc;
        flowResp ← op (with_tx (exchangeInTx r fromAmount toAmount fromAcc toAcc rate src));
        let journalID := match er_Steps flowResp with s :: _ => sr_JournalId s | [] => "" end in
        mret (mkExecuteExchangeResponse (er_FlowRunId flowResp) journalID (dString rate) src)).

Definition ingestOne_ops (tenant : string) (acc : Z * Z) (r : PbExternalRecord) : Thread (Z * Z) :=
  match ParseAmount (pe_Amount r) with
  | Err _ => pthrow (ErrDomain CodeUnbalancedJournal)
  | Ok amt =>
      now ← op Now;
      id ← op NewID;
      ok ← op (st_InsertExternalRecord (mkExternalRecord id tenant (pe_Source r) (pe_ExternalRef r) amt
             (pe_Currency r) (default now (pe_OccurredAt r)) (pe_AccountId r)
             (structToMap (pe_RawPayload r)) "" "" time_zero));
      mret (if ok : bool then (int32 (acc.1 + 1), acc.2) else (acc.1, int32 (acc.2 + 1)))
  end.

Definition IngestExternalRecords_ops (tenant : string) (records : list PbExternalRecord) : Thread (Z * Z) :=
  prpc (pfold (ingestOne_ops tenant) records (0%Z, 0%Z)).

Definition RunReconciliation_ops (r : RunReconciliationRequest) : Thread PbReconBatch :=
  prpc (now1 ← op Now;
        let ws := default now1 (rr_WindowStart r) in
        now2 ← op Now;
        let we := default now2 (rr_WindowEnd r) in
        b ← op (with_tx (runReconciliationInTx r ws we));
        mret (reconBatchToProto b)).

(** ** The server: the other handlers make one call or one transaction. *)

Definition ServerOps (p : Procedure) : Req p → Thread (Res p) :=
  match p with
  | PCreateAccount => CreateAccount_ops
  | PGetBalance => GetBalance_ops
  | PTakeBalanceSnapshot => TakeBalanceSnapshot_ops
  | PExecuteExchange => ExecuteExchange_ops
  | PPutFXRate => PutFXRate_ops
  | PGetFXRate => GetFXRate_ops
  | PIngestExternalRecords => λ r, IngestExternalRecords_ops (ier_TenantId r) (ier_Records r)
  | PRunReconciliation => RunReconciliation_ops
  | q => λ r, op (Server q r)
  end.

(** ** The scheduler *)

Definition snapshotTick_ops (cfg : SchedulerConfig) : Thread unit :=
  pignore (now ← op Now;
           tenants ← op (st_ListTenantsDueForSnapshot (now - sc_SnapshotInterval cfg)%Z (sc_BatchN cfg));
           pfold (λ _ t, pignore (TakeBalanceSnapshot_ops (mkTakeBalanceSnapshotRequest t "" ""))) tenants tt).

Definition expiryTick_ops (cfg : SchedulerConfig) : Thread unit :=
  pignore (now ← op Now;
           rows ← op (st_ListExpiredReservations now (sc_BatchN cfg));
           pfold (λ _ r, pignore (op (ExpireReservation (xr_TenantID r) (xr_ID r)))) rows tt).

Definition retentionTick_ops (cfg : SchedulerConfig) : Thread unit :=
  pignore (now ← op Now; op (st_PruneSnapshotsOlderThan (now - sc_RetentionAge cfg)%Z (sc_BatchN cfg))).

Fixpoint schedulerRun_ops (cfg : SchedulerConfig) (signals : list Signal) : Thread unit :=
  match signals with
  | SnapC :: l => snapshotTick_ops cfg;; schedulerRun_ops cfg l
  | ExpC :: l => expiryTick_ops cfg;; schedulerRun_ops cfg l
  | RetC :: l => retentionTick_ops cfg;; schedulerRun_ops cfg l
  | CtxDone :: _ | [] => mret tt
  end.

(** ** A client: what it calls next depends on the answers so far, or on
    their loss. *)
Inductive Script : Type :=
| Stop
| Call (p : Procedure) (r : Req p) (next : result error (Res p) → Script).

Fixpoint client (sc : Script) : Thread unit :=
  match sc with
  | Stop => mret tt
  | Call p r next => presume (λ a, client (next a)) (ServerOps p r)
  end.
End Handlers.

(** ** A thread alone is its handler *)

Lemma rpc_ext {X A} (m m' : M error X A) : (∀ x, m x = m' x) → ∀ x, rpc m x = rpc m' x.
Proof. intros Hm x. unfold rpc. by rewrite Hm. Qed.
Lemma ignore_ext {X A} (m m' : M error X A) : (∀ x, m x = m' x) → ∀ x, (Ok (E := error) tt, (m x).2) = ignore m' x.
Proof. intros Hm x. unfold ignore. by rewrite Hm. Qed.

Create HintDb threads.
(** Walks a thread and its handler in step. *)
Ltac alone :=
  intros;
  match goal with
  | |- run (prpc _) ?x = _ => rewrite run_rpc; revert x; apply rpc_ext; alone
  | |- run (pignore _) ?x = _ => rewrite run_ignore; revert x; apply ignore_ext; alone
  | |- run (_ ≫= _) ?x = _ => rewrite run_bind; revert x; apply bind_ext; alone
  | |- run (op _) _ = _ => apply run_op
  | |- run (pthrow_if _ _) _ = _ => apply run_throw_if
  | |- run (pfold _ _ _) ?x = _ => revert x; apply run_fold; alone
  | |- run (let '(_, _) := ?a in _) _ = _ => destruct a; alone
  | |- run (match ?a with _ => _ end) _ = _ => destruct a; alone
  | |- _ => solve [reflexivity | auto with threads]
  end.

Section Alone.
Context {H : Host} {D : DecimalOps} {S T : Type} {R : RepoTx D T} {ST : RepoStore D S T}.

Lemma GetBalance_alone (r : GetBalanceRequest) (x : S * Env) : run (GetBalance_ops r) x = GetBalance r x.
Proof. unfold GetBalance_ops, GetBalance, balanceAsOf_ops, balanceAsOf. alone. Qed.
Lemma TakeBalanceSnapshot_alone (r : TakeBalanceSnapshotRequest) (x : S * Env) :
  run (TakeBalanceSnapshot_ops r) x = TakeBalanceSnapshot r x.
Proof. unfold TakeBalanceSnapshot_ops, TakeBalanceSnapshot, snapshotRow_ops, snapshotRow. alone. Qed.
#[local] Hint Resolve TakeBalanceSnapshot_alone : threads.
Lemma ExecuteExchange_alone (r : ExecuteExchangeRequest) (x : S * Env) :
  run (ExecuteExchange_ops r) x = ExecuteExchange r x.
Proof. unfold ExecuteExchange_ops, ExecuteExchange, resolveRate_ops, resolveRate. alone. Qed.
Lemma IngestExternalRecords_alone tenant records (x : S * Env) :
  run (IngestExternalRecords_ops tenant records) x = IngestExternalRecords tenant records x.
Proof. unfold IngestExternalRecords_ops, IngestExternalRecords, ingestOne_ops, ingestOne. alone. Qed.

Lemma CreateAccount_alone r (x : S * Env) : run (CreateAccount_ops r) x = CreateAccount r x.
Proof. unfold CreateAccount_ops, CreateAccount. alone. Qed.
Lemma PutFXRate_alone r (x : S * Env) : run (PutFXRate_ops r) x = PutFXRate r x.
Proof. unfold PutFXRate_ops, PutFXRate. alone. Qed.
Lemma GetFXRate_alone r (x : S * Env) : run (GetFXRate_ops r) x = GetFXRate r x.
Proof. unfold GetFXRate_ops, GetFXRate. alone. Qed.
Lemma RunReconciliation_alone r (x : S * Env) : run (RunReconciliation_ops r) x = RunReconciliation r x.
Proof. unfold RunReconciliation_ops, RunReconciliation. alone. Qed.

(** Every procedure's thread, run alone, answers and does exactly what the
    server does. *)
Lemma thread_is_handler (p : Procedure) (r : Req p) (x : S * Env) : run (ServerOps p r) x = Server p r x.
Proof.
  destruct p;
    first [ apply CreateAccount_alone | apply GetBalance_alone | apply TakeBalanceSnapshot_alone
          | apply ExecuteExchange_alone | apply PutFXRate_alone | apply GetFXRate_alone
          | apply IngestExternalRecords_alone | apply RunReconciliation_alone | apply run_op ].
Qed.

Lemma scheduler_alone cfg signals (x : S * Env) : run (schedulerRun_ops cfg signals) x = schedulerRun cfg signals x.
Proof.
  revert x. induction signals as [|[] l IH]; intros x; try done; cbn [schedulerRun_ops schedulerRun]; rewrite run_bind; apply bind_ext;
    try (intros; apply IH).
  - unfold snapshotTick_ops, snapshotTick, snapshotTenant. alone.
  - unfold expiryTick_ops, expiryTick, expireOne. alone.
  - unfold retentionTick_ops, retentionTick. alone.
Qed.
End Alone.

(** ** The process *)

Section Process.
Context {H : Host} {D : DecimalOps} {S T : Type} {R : RepoTx D T} {ST : RepoStore D S T} {K : Type} {SK : Sink K}.

(** The store, the state of the sink, and the ids of the events the sink
    has accepted so far. *)
Abbreviation Shared := ((S * Env) * (K * list string))%type.

Definition publish (e : OutboxEvent) : M error Shared unit := λ '(s, (k, acc)),
  match Publish e k with
  | (Some er, k') => (Err er, (s, (k', acc)))
  | (None, k') => (Ok tt, (s, (k', acc ++ [ob_ID e])))
  end.

(** One turn of the dispatcher's loop: the sink and the store are called one
    after the other. *)
Definition dispatchOne_ops (_ : unit) (e : OutboxEvent) : Prog Shared unit :=
  presume (λ r, pignore (on_store (op
    match r with Ok _ => st_MarkOutboxPublished (ob_ID e) | Err _ => st_IncrementOutboxAttempts (ob_ID e) end)))
    (op (publish e)).

Definition dispatcherTick_ops (cfg : OutboxConfig) : Prog Shared unit :=
  pignore (events ← on_store (op (adapter_PendingOutbox (oc_BatchSize cfg))); pfold dispatchOne_ops events tt).

Fixpoint dispatcherRun_ops (cfg : OutboxConfig) (ticks : list bool) : Prog Shared unit :=
  match ticks with
  | true :: l => dispatcherTick_ops cfg;; dispatcherRun_ops cfg l
  | _ => mret tt
  end.

(** What runs at the same time: clients, schedulers and dispatchers, those
    of other server processes on the same database included. *)
Inductive Task :=
| TClient (sc : Script)
| TScheduler (cfg : SchedulerConfig) (signals : list Signal)
| TDispatcher (cfg : OutboxConfig) (ticks : list bool).

Definition thread (t : Task) : Prog Shared unit :=
  match t with
  | TClient sc => on_store (client sc)
  | TScheduler cfg signals => on_store (schedulerRun_ops cfg signals)
  | TDispatcher cfg ticks => dispatcherRun_ops cfg ticks
  end.

Definition process (ts : list Task) (x : Shared) (l : list nat) : Shared := (schedule (thread <$> ts, x) l).2.

(** A dispatcher alone does what [dispatcherRun] does. *)
Lemma dispatchOne_alone e (x : Shared) :
  let '(r, ((s, (k, _)))) := run (dispatchOne_ops tt e) x in
  r = Ok tt ∧ (s, k) = dispatchOne (x.1, x.2.1) e.
Proof.
  destruct x as [s [k acc]]. unfold dispatchOne_ops, dispatchOne. cbn [fst snd]. rewrite run_presume, run_op. unfold publish.
  destruct (Publish e k) as [[er|] k']; rewrite run_ignore, run_on_store, run_op; cbv beta iota;
    [destruct (st_IncrementOutboxAttempts _ s) | destruct (st_MarkOutboxPublished _ s)]; by split.
Qed.

Lemma dispatchAll_alone evs (x : Shared) :
  let '(r, (s, (k, _))) := run (pfold dispatchOne_ops evs tt) x in
  r = Ok tt ∧ (s, k) = foldl dispatchOne (x.1, x.2.1) evs.
Proof.
  revert x. induction evs as [|e evs IH]; intros x; [by destruct x as [s [k acc]]|].
  cbn [pfold foldl]. rewrite run_bind. unfold mbind, M_bind. pose proof (dispatchOne_alone e x) as H1.
  destruct (run (dispatchOne_ops tt e) x) as [r [s [k acc]]]. destruct H1 as [-> <-]. apply (IH (s, (k, acc))).
Qed.

Lemma dispatcher_alone cfg ticks (x : Shared) :
  let '(r, (s, (k, _))) := run (dispatcherRun_ops cfg ticks) x in
  (s, k) = dispatcherRun cfg ticks (x.1, x.2.1).
Proof.
  revert x. induction ticks as [|[] l IH]; intros x; try by destruct x as [s [k acc]].
  cbn [dispatcherRun_ops dispatcherRun]. rewrite run_bind. unfold mbind, M_bind, dispatcherTick_ops.
  rewrite run_ignore, run_bind. unfold mbind at 1, M_bind at 1. destruct x as [s [k acc]].
  rewrite run_on_store, run_op. unfold dispatcherTick. simpl.
  destruct (adapter_PendingOutbox _ s) as [[evs|e] s']; simpl; [|apply (IH (s', (k, acc)))].
  pose proof (dispatchAll_alone evs (s', (k, acc))) as H1.
  destruct (run (pfold dispatchOne_ops evs tt) (s', (k, acc))) as [r [s2 [k2 acc2]]]. destruct H1 as [-> E].
  simpl in *. rewrite <- E. apply (IH (s2, (k2, acc2))).
Qed.
End Process.

(** ** The books under interleaving *)

Definition anything {X} (_ _ : X) : Prop := True.
#[export] Instance anything_preorder X : PreOrder (@anything X).
Proof. by split. Qed.

Section Books.
Context {H : Host} {D : DecimalOps} {L : DecimalLaws D} {S T : Type} {R : RepoTx D T} {RL : RepoTxLaws D T}
  {ST : RepoStore D S T} {SL : RepoStoreLaws D S T} {FL : RepoFrameLaws D S T} {K : Type} {SK : Sink K}.
Context (v0 : LView).

Definition books (x : S * Env) : Prop := sys_ok v0 (svw x.1).
Definition sharedBooks (y : (S * Env) * (K * list string)) : Prop := books y.1.

Lemma preserves_Server p r : preserves v0 (Server p r).
Proof. intros s Hs. rewrite Server_handle. by apply handle_ok. Qed.

Abbreviation preserving := (each (λ A, preserves v0 (A:=A))).

Lemma preserving_ServerOps p r : preserving (ServerOps p r).
Proof.
  destruct p; unfold ServerOps, CreateAccount_ops, GetBalance_ops, balanceAsOf_ops, TakeBalanceSnapshot_ops,
    snapshotRow_ops, PutFXRate_ops, GetFXRate_ops, ExecuteExchange_ops, resolveRate_ops, IngestExternalRecords_ops,
    ingestOne_ops, RunReconciliation_ops; operations.
  all: apply each_op; first [apply preserves_Server | solve [walk]].
Qed.

Lemma preserving_client sc : preserving (client sc).
Proof.
  induction sc as [|p r next IH]; cbn [client]; [apply each_ret|]. apply each_presume; [apply preserving_ServerOps|done].
Qed.

Lemma preserving_scheduler cfg signals : preserving (schedulerRun_ops cfg signals).
Proof.
  assert (∀ r, preserving (TakeBalanceSnapshot_ops r)) as Hsnap by exact (preserving_ServerOps PTakeBalanceSnapshot).
  induction signals as [|[] l IH]; cbn [schedulerRun_ops]; try apply each_ret.
  all: apply each_bind; [|done].
  all: unfold snapshotTick_ops, expiryTick_ops, retentionTick_ops; operations; try apply Hsnap.
  all: apply each_op; unfold ExpireReservation; walk.
Qed.

(** An operation on the store and the sink that keeps the books. *)
Definition keeps {A} (m : M error ((S * Env) * (K * list string)) A) : Prop := ∀ y, sharedBooks y → sharedBooks (m y).2.
Abbreviation keeping := (each (λ A, keeps (A:=A))).

Lemma keeping_part {A} (p : Prog (S * Env) A) : preserving p → keeping (on_store p).
Proof. apply each_on_store. intros B m Hm [s k] Hs. specialize (Hm s Hs). unfold on_fst. by destruct (m s). Qed.

Lemma keeping_dispatcher cfg ticks : keeping (dispatcherRun_ops cfg ticks).
Proof.
  induction ticks as [|[] l IH]; cbn [dispatcherRun_ops]; try apply each_ret.
  apply each_bind; [|done]. unfold dispatcherTick_ops, dispatchOne_ops; operations.
  - apply keeping_part, each_op. intros s Hs. rewrite adapter_rows. by apply preserves_frame; [apply frame_st_PendingOutbox|].
  - apply each_presume; [|intros []; operations; apply keeping_part, each_op, preserves_frame].
    + apply each_op. intros [s [k acc]] Hs. unfold publish. by destruct (Publish _ k) as [[] ?].
    + apply frame_st_MarkOutboxPublished.
    + apply frame_st_IncrementOutboxAttempts.
Qed.

Lemma keeping_thread t : keeping (thread t).
Proof.
  destruct t; cbn [thread].
  - apply keeping_part, preserving_client.
  - apply keeping_part, preserving_scheduler.
  - apply keeping_dispatcher.
Qed.
End Books.

Section Theorems.
Context {H : Host} {D : DecimalOps} {L : DecimalLaws D} {S T : Type} {R : RepoTx D T} {RL : RepoTxLaws D T}
  {ST : RepoStore D S T} {SL : RepoStoreLaws D S T} {FL : RepoFrameLaws D S T} {K : Type} {SK : Sink K}.
Implicit Types (x : (S * Env) * (K * list string)) (ts : list Task).

Lemma process_ok v0 ts x l : sharedBooks v0 x → sharedBooks v0 (process ts x l).
Proof.
  intros Hx. apply (pool_safe (sharedBooks v0) anything (thread <$> ts) x l Hx).
  apply Forall_fmap, list.Forall_forall. intros t _.
  apply (each_safely _ _ (λ A, keeps v0 (A:=A))); [|apply keeping_thread]. intros B m y Hm Hy. split; [by apply Hm|done].
Qed.

(** The calls of a list of requests, each by a client of its own, may run one
    after the other: what a sequence of requests does is what one of the
    schedules does. *)
Lemma requests_in_order (calls : list (sigT Req)) x :
  ∃ l, (process ((λ c, TClient (Call (projT1 c) (projT2 c) (λ _, Stop))) <$> calls) x l).1 =
    foldl (λ s c, (Server (projT1 c) (projT2 c) s).2) x.1 calls.
Proof.
  destruct (pool_in_order (thread <$> ((λ c : sigT Req, TClient (Call (projT1 c) (projT2 c) (λ _, Stop))) <$> calls)) x) as [l Hl].
  exists l. unfold process. rewrite Hl. clear. revert x. induction calls as [|[p r] calls IH]; intros [s k]; [done|].
  rewrite !fmap_cons. cbn [foldl]. rewrite IH. f_equal. cbn [thread client projT1 projT2 fst].
  rewrite run_on_store, run_presume, thread_is_handler. by destruct (Server p r s).
Qed.

(** C1. The books stay right when everything runs at once.  Any number of
    clients whose next call may depend on what the earlier ones answered,
    schedulers and dispatchers of any number of server processes do their
    store calls and transactions in any order, between the calls of each
    other's requests and ticks, whatever the sink refuses and whatever
    statements fail: the balances are the totals of the posted entries,
    journals balance in every currency, every balance row belongs to an
    account of its currency, no account that may not go negative is negative; what was posted stays as it was; and every reservation moved
    only along its life cycle, and adds up. *)
Theorem interleaved_keeps_books ts (l : list nat) x :
  ledger_ok (svw x.1.1) → resv_ok (svw x.1.1) →
  let v0 := svw x.1.1 in let v := svw (process ts x l).1.1 in
  (∀ k, lv_balance v k = posted k (lv_entries v)) ∧
  (∀ t j c, Qcsum (pe_signed (in_journal t j c)) (lv_entries v) = 0%Qc) ∧
  (∀ t a c b, lv_bal v (t, a, c) = Some b → ∃ acct, lv_acct v t a = Some acct ∧ acc_Currency acct = c) ∧
  (∀ t a c b acct, lv_bal v (t, a, c) = Some b → lv_acct v t a = Some acct → funded acct b) ∧
  lv_entries v0 `prefix_of` lv_entries v ∧ lv_journals v0 `prefix_of` lv_journals v ∧
  lv_outbox v0 `prefix_of` lv_outbox v ∧
  (∀ t id rv, lv_resv v0 t id = Some rv → ∃ rv', lv_resv v t id = Some rv' ∧ rtc resv_step rv rv') ∧
  (∀ t id rv, lv_resv v t id = Some rv → rv_ok rv).
Proof.
  intros Hl Hr v0 v. destruct (process_ok v0 ts x l (sys_ok_start _ Hl Hr)) as [[H1 H2 H3 H4 H5] H6 [] H8].
  split_and!; try done. intros t id rv Hrv. by destruct (H6 _ _ _ Hrv).
Qed.
End Theorems.
