(* ===== verification/Dispatch.v ===== *)
(** * The dispatchers of a busy ledger

    Any number of dispatchers, clients and schedulers interleaved
    ([Interleave]): no event of the outbox is lost, and an event is marked
    published only after the sink accepted it.  [OutboxTxLaws],
    [OutboxCommitLaws] and [OutboxStoreLaws] are what a backend must promise
    of its outbox table for that; [SqliteDispatch] and
    [CrdbDispatch] show that the SQL backends do. *)

From S2P Require Import Prelude Money Ledger Repo Contract Sql Service Flow Accounts Reservations.
From S2P Require Import Exchange Recon Worker Rpc Threads Interleave.
From stdpp Require Import base gmap strings list numbers.

(** ** Outbox tables *)

Record OutRow := mkOutRow { or_id : string; or_key : string; or_payload : Meta; or_published : bool }.

(** [tbl'] has the rows of [tbl]; those newly published have their id in [ids]. *)
Definition published_rows (ids : list string) (tbl tbl' : list OutRow) : Prop :=
  Forall2 (λ r r', or_id r' = or_id r ∧ or_key r' = or_key r ∧ or_payload r' = or_payload r ∧
    (or_published r = true → or_published r' = true) ∧
    (or_published r' = true → or_published r = true ∨ or_id r ∈ ids)) tbl tbl'.

Lemma published_rows_refl ids tbl : published_rows ids tbl tbl.
Proof. apply Forall2_same_length_lookup_2; [done|]. intros i x y Hx Hy. simplify_eq. split_and!; auto. Qed.

Lemma published_rows_trans ids t1 t2 t3 :
  published_rows ids t1 t2 → published_rows ids t2 t3 → published_rows ids t1 t3.
Proof.
  unfold published_rows. intros H12. revert t3. induction H12 as [|x y t1 t2 Hxy _ IH]; intros t3 H23; inversion H23; subst.
  - constructor.
  - constructor; [|by apply IH]. destruct Hxy as (E1 & E2 & E3 & Hu1 & Hp1).
    match goal with Hz : _ ∧ _ |- _ => destruct Hz as (F1 & F2 & F3 & Hu2 & Hp2) end.
    split_and!; try congruence; [auto|]. intros Hz. destruct (Hp2 Hz) as [Hy|Hy]; [auto|]. right. congruence.
Qed.

Lemma published_rows_mono ids ids' tbl tbl' : ids ⊆ ids' → published_rows ids tbl tbl' → published_rows ids' tbl tbl'.
Proof. intros Hi. apply Forall2_impl. intros r r' (? & ? & ? & ? & Hp). split_and!; try done. intros Hr. destruct (Hp Hr); auto. Qed.

(** An update of rows that keeps ids, keys and payloads. *)
Lemma published_upd {Row} (out : Row → OutRow) ids p (f : Row → Row) l :
  (∀ r, or_id (out (f r)) = or_id (out r) ∧ or_key (out (f r)) = or_key (out r) ∧
    or_payload (out (f r)) = or_payload (out r) ∧
    (or_published (out r) = true → or_published (out (f r)) = true) ∧
    (or_published (out (f r)) = true → or_published (out r) = true ∨ (p r = true → or_id (out r) ∈ ids))) →
  published_rows ids (out <$> l) (out <$> upd p f l).
Proof.
  intros Hf. unfold upd. rewrite <- list_fmap_compose. apply Forall2_fmap_2, Forall_Forall2_diag, list.Forall_forall.
  intros r _. unfold compose. destruct (p r) eqn:Hp; [|split_and!; auto].
  destruct (Hf r) as (E1 & E2 & E3 & Hu & Hn). split_and!; try done. intros Hr. destruct (Hn Hr); auto.
Qed.

(** The rows of [tbl], and new ones that are not published. *)
Definition outbox_more (tbl tbl' : list OutRow) : Prop :=
  ∃ new, tbl' = tbl ++ new ∧ Forall (λ r, or_published r = false) new.

#[export] Instance outbox_more_preorder : PreOrder outbox_more.
Proof.
  split.
  - intros tbl. exists []. by rewrite app_nil_r.
  - intros t1 t2 t3 (n1 & -> & H1) (n2 & -> & H2). exists (n1 ++ n2). by rewrite app_assoc, Forall_app.
Qed.

(** ** Computations that only add unpublished events *)

Section More.
Context {X : Type} (g : X → list OutRow).

Definition more {A} (m : M error (X * Env) A) : Prop := ∀ s, outbox_more (g s.1) (g (m s).2.1).

Lemma more_bind {A B} (m : M error (X * Env) A) (f : A → M error (X * Env) B) :
  more m → (∀ a, more (f a)) → more (m ≫= f).
Proof.
  intros Hm Hf s. specialize (Hm s). unfold mbind, M_bind. destruct (m s) as [[a|e] s']; simpl in *; [|done].
  etransitivity; [done|apply Hf].
Qed.
Lemma more_ret {A} (a : A) : more (mret a).
Proof. by intros s. Qed.
Lemma more_throw {A} e : more (A := A) (throw e).
Proof. by intros s. Qed.
Lemma more_throw_if c e : more (throw_if c e).
Proof. by destruct c; intros s. Qed.
Lemma more_NewID `{Host} : more NewID.
Proof. by intros [x e]. Qed.
Lemma more_Now `{Host} : more Now.
Proof. by intros [x e]. Qed.
Lemma more_lift {A} (r : result error A) : more (lift_result r).
Proof. by intros s. Qed.
Lemma more_parseFX `{DecimalOps} txt : more (parseFX txt).
Proof. intros s. unfold parseFX. by destruct (ParseAmount txt). Qed.
Lemma more_parseReservationAmount `{DecimalOps} txt : more (parseReservationAmount txt).
Proof. intros s. unfold parseReservationAmount. by destruct (ParseAmount txt). Qed.
Lemma more_foldM {A B} (f : B → A → M error (X * Env) B) l b : (∀ b a, more (f b a)) → more (foldM f l b).
Proof. intros Hf. revert b. induction l as [|a l IH]; intros b; simpl; [apply more_ret|by apply more_bind]. Qed.
Lemma more_none {A} (m : M error (X * Env) A) : more m → more (no_rows_none m).
Proof. intros Hm s. specialize (Hm s). unfold no_rows_none. by destruct (m s) as [[a|[]] s']. Qed.
Lemma more_code {A} c (m : M error (X * Env) A) : more m → more (no_rows_code c m).
Proof. intros Hm s. specialize (Hm s). unfold no_rows_code. by destruct (m s) as [[a|[]] s']. Qed.
Lemma more_rpc {A} (m : M error (X * Env) A) : more m → more (rpc m).
Proof. intros Hm s. specialize (Hm s). unfold rpc. by destruct (m s) as [[a|e] s']. Qed.
End More.

(** Walks a computation down to its calls. *)
Ltac more_walk :=
  repeat first
  [ apply more_ret | apply more_throw | apply more_throw_if | apply more_NewID | apply more_Now | apply more_lift
  | apply more_parseFX | apply more_parseReservationAmount
  | match goal with
    | |- more _ (_ ≫= _) => apply more_bind
    | |- more _ (foldM _ _ _) => apply more_foldM
    | |- more _ (no_rows_none _) => apply more_none
    | |- more _ (no_rows_code _ _) => apply more_code
    | |- more _ (rpc _) => apply more_rpc
    | |- more _ (let '(_, _) := ?x in _) => destruct x
    | |- more _ (match ?x with _ => _ end) => destruct x
    | |- ∀ _, _ => intros ?
    end
  | solve [auto with outbox nocore] ].
Create HintDb outbox.


(** ** What a backend promises *)

Section Interface.
Context {D : DecimalOps} {S T : Type} {R : RepoTx D T} {ST : RepoStore D S T} (gs : S → list OutRow) (gt : T → list OutRow).

(** The operations of a transaction add unpublished events at the end and
    change no other. *)
Class OutboxTxLaws : Prop := {
  more_tx_GetFlowByIdempotency a b : more gt (tx_GetFlowByIdempotency a b);
  more_tx_GetAccount a b : more gt (tx_GetAccount a b);
  more_tx_LockBalance a b c : more gt (tx_LockBalance a b c);
  more_tx_EnsureBalanceRow a b c : more gt (tx_EnsureBalanceRow a b c);
  more_tx_UpdateBalance a b c d e : more gt (tx_UpdateBalance a b c d e);
  more_tx_InsertAccount a : more gt (tx_InsertAccount a);
  more_tx_InsertFlowRun a : more gt (tx_InsertFlowRun a);
  more_tx_CompleteFlowRun a b : more gt (tx_CompleteFlowRun a b);
  more_tx_InsertJournal a : more gt (tx_InsertJournal a);
  more_tx_InsertEntry a b c d e f g : more gt (tx_InsertEntry a b c d e f g);
  more_tx_InsertFlowStep a : more gt (tx_InsertFlowStep a);
  more_tx_InsertOutbox a : more gt (tx_InsertOutbox a);
  more_tx_GetFlowSteps a b : more gt (tx_GetFlowSteps a b);
  more_tx_InsertReservation a : more gt (tx_InsertReservation a);
  more_tx_LockReservation a b : more gt (tx_LockReservation a b);
  more_tx_GetReservationByIdempotency a b : more gt (tx_GetReservationByIdempotency a b);
  more_tx_UpdateReservationAmounts a b c d e f : more gt (tx_UpdateReservationAmounts a b c d e f);
  more_tx_GetReconBatchByIdempotency a b : more gt (tx_GetReconBatchByIdempotency a b);
  more_tx_InsertReconBatch a : more gt (tx_InsertReconBatch a);
  more_tx_CompleteReconBatch a : more gt (tx_CompleteReconBatch a);
  more_tx_ListExternalRecordsForRecon a b c d : more gt (tx_ListExternalRecordsForRecon a b c d);
  more_tx_ListJournalsForRecon a b c d : more gt (tx_ListJournalsForRecon a b c d);
  more_tx_UpdateExternalRecordMatch a b c d : more gt (tx_UpdateExternalRecordMatch a b c d);
  more_tx_SumJournalEntries a b c d : more gt (tx_SumJournalEntries a b c d);
  more_tx_InsertDiscrepancy a : more gt (tx_InsertDiscrepancy a);
  more_tx_LockDiscrepancy a b : more gt (tx_LockDiscrepancy a b);
  more_tx_ResolveDiscrepancyRow a : more gt (tx_ResolveDiscrepancyRow a) }.

(** A transaction works on the rows it began with, and a commit makes them
    the rows of the store, or leaves those as they were. *)
Class OutboxCommitLaws : Prop := {
  begin_rows s : match st_BeginFlowTx s with
    | (Ok t, s') => gt t = gs s.1 ∧ gs s'.1 = gs s.1
    | (Err _, s') => gs s'.1 = gs s.1
    end;
  commit_rows s t e : let s' := (tx_Commit ((s, t), e)).2.1.1 in gs s' = gs s ∨ gs s' = gt t;
  rollback_rows s t e : gs (tx_Rollback ((s, t), e)).2.1.1 = gs s }.

(** Outside a transaction only the two operations of the dispatcher change
    events; marking one marks no other. *)
Class OutboxStoreLaws : Prop := {
  more_st_GetAccount a b : more gs (st_GetAccount a b);
  more_st_GetBalance a b c : more gs (st_GetBalance a b c);
  more_st_GetFlow a b : more gs (st_GetFlow a b);
  more_st_ListAccountActivity a : more gs (st_ListAccountActivity a);
  more_st_PendingOutbox a : more gs (st_PendingOutbox a);
  more_st_InsertSnapshot a : more gs (st_InsertSnapshot a);
  more_st_GetSnapshotBefore a b c d : more gs (st_GetSnapshotBefore a b c d);
  more_st_SumEntriesBetween a b c d e : more gs (st_SumEntriesBetween a b c d e);
  more_st_ListTenantBalances a : more gs (st_ListTenantBalances a);
  more_st_ListTenantsDueForSnapshot a b : more gs (st_ListTenantsDueForSnapshot a b);
  more_st_PruneSnapshotsOlderThan a b : more gs (st_PruneSnapshotsOlderThan a b);
  more_st_UpsertFXRate a : more gs (st_UpsertFXRate a);
  more_st_GetFXRateAt a b c d : more gs (st_GetFXRateAt a b c d);
  more_st_ListFXRates a : more gs (st_ListFXRates a);
  more_st_GetReservation a b : more gs (st_GetReservation a b);
  more_st_ListExpiredReservations a b : more gs (st_ListExpiredReservations a b);
  more_st_ListReservations a : more gs (st_ListReservations a);
  more_st_InsertExternalRecord a : more gs (st_InsertExternalRecord a);
  more_st_ListExternalRecordsForRecon a b c d : more gs (st_ListExternalRecordsForRecon a b c d);
  more_st_ListJournalsForRecon a b c d : more gs (st_ListJournalsForRecon a b c d);
  more_st_GetReconBatch a b : more gs (st_GetReconBatch a b);
  more_st_ListDiscrepancies a : more gs (st_ListDiscrepancies a);
  more_st_GetDiscrepancy a b : more gs (st_GetDiscrepancy a b);
  mark_rows id s : published_rows [id] (gs s.1) (gs (st_MarkOutboxPublished id s).2.1);
  attempts_rows id s : published_rows [] (gs s.1) (gs (st_IncrementOutboxAttempts id s).2.1) }.
End Interface.

#[export] Hint Resolve
  more_tx_GetFlowByIdempotency more_tx_GetAccount more_tx_LockBalance more_tx_EnsureBalanceRow
  more_tx_UpdateBalance more_tx_InsertAccount more_tx_InsertFlowRun more_tx_CompleteFlowRun
  more_tx_InsertJournal more_tx_InsertEntry more_tx_InsertFlowStep more_tx_InsertOutbox more_tx_GetFlowSteps
  more_tx_InsertReservation more_tx_LockReservation more_tx_GetReservationByIdempotency
  more_tx_UpdateReservationAmounts more_tx_GetReconBatchByIdempotency more_tx_InsertReconBatch
  more_tx_CompleteReconBatch more_tx_ListExternalRecordsForRecon more_tx_ListJournalsForRecon
  more_tx_UpdateExternalRecordMatch more_tx_SumJournalEntries more_tx_InsertDiscrepancy
  more_tx_LockDiscrepancy more_tx_ResolveDiscrepancyRow more_st_GetAccount more_st_GetBalance more_st_GetFlow
  more_st_ListAccountActivity more_st_PendingOutbox more_st_InsertSnapshot more_st_GetSnapshotBefore
  more_st_SumEntriesBetween more_st_ListTenantBalances more_st_ListTenantsDueForSnapshot
  more_st_PruneSnapshotsOlderThan more_st_UpsertFXRate more_st_GetFXRateAt more_st_ListFXRates
  more_st_GetReservation more_st_ListExpiredReservations more_st_ListReservations more_st_InsertExternalRecord
  more_st_ListExternalRecordsForRecon more_st_ListJournalsForRecon more_st_GetReconBatch
  more_st_ListDiscrepancies more_st_GetDiscrepancy : outbox.

Section Bodies.
Context {H : Host} {D : DecimalOps} {S T : Type} {R : RepoTx D T} {ST : RepoStore D S T}.
Context {gs : S → list OutRow} {gt : T → list OutRow} {TL : OutboxTxLaws gt} {CL : OutboxCommitLaws gs gt} {SL : OutboxStoreLaws gs}.

Abbreviation st_more := (more gs).
Abbreviation tx_more := (more gt).

Lemma more_flow r : tx_more (executeFlowInTx r).
Proof. unfold executeFlowInTx, runNewFlow, lockKey, applyStep, postEntry, settleKey. more_walk. Qed.
#[local] Hint Resolve more_flow : outbox.

Lemma more_create r amount : tx_more (createReservationInTx r amount).
Proof. unfold createReservationInTx. more_walk. Qed.
Lemma more_commit r amount : tx_more (commitReservationInTx r amount).
Proof. unfold commitReservationInTx, saveReservation. more_walk. Qed.
Lemma more_release r amount : tx_more (releaseReservationInTx r amount).
Proof. unfold releaseReservationInTx, saveReservation. more_walk. Qed.
Lemma more_expire t id : tx_more (expireReservationInTx t id).
Proof. unfold expireReservationInTx, saveReservation. more_walk. Qed.
Lemma more_exchange r fa ta fc tc rate src : tx_more (exchangeInTx r fa ta fc tc rate src).
Proof. unfold exchangeInTx. more_walk. Qed.
Lemma more_reconcile r ws we : tx_more (runReconciliationInTx r ws we).
Proof. unfold runReconciliationInTx, openDiscrepancy, matcherRun, matchRecord, amountDiffers. more_walk. Qed.
Lemma more_resolve r : tx_more (resolveDiscrepancyInTx r).
Proof. unfold resolveDiscrepancyInTx, runAdjustment. more_walk. Qed.
Lemma more_account a : tx_more (tx_InsertAccount a).
Proof. more_walk. Qed.

(** ** The store *)

Lemma more_with_tx {A} (body : M error (T * Env) A) : tx_more body → st_more (with_tx body).
Proof.
  intros Hb s. unfold with_tx. pose proof (begin_rows gs gt s) as HB.
  destruct (st_BeginFlowTx s) as [[t|er] [st env]]; simpl in *; [|by rewrite HB]. destruct HB as [Ht Hs]. simpl in Hs.
  specialize (Hb (t, env)). simpl in Hb. rewrite Ht, <- Hs in Hb. rewrite <- Hs. clear s Ht Hs.
  destruct (body (t, env)) as [[a|er] [t' env']]; simpl in Hb.
  - pose proof (commit_rows gs gt st t' env') as HC. cbv zeta in HC.
    assert (outbox_more (gs st) (gs (tx_Commit (st, t', env')).2.1.1)) as HC' by (destruct HC as [->| ->]; done). clear HC.
    destruct (tx_Commit _) as [[[]|er] [[st1 t1] env1]]; simpl in *; [done|].
    pose proof (rollback_rows gs gt st1 t1 env1) as HR. destruct (tx_Rollback _) as [r [[st2 t2] env2]]. simpl in *. by rewrite HR.
  - pose proof (rollback_rows gs gt st t' env') as HR. destruct (tx_Rollback _) as [r [[st2 t2] env2]]. simpl in *. by rewrite HR.
Qed.

Lemma more_runInTx (body : M error (T * Env) unit) : tx_more body → st_more (runInTx body).
Proof.
  intros Hb s. unfold runInTx. pose proof (begin_rows gs gt s) as HB.
  destruct (st_BeginFlowTx s) as [[t|er] [st env]]; simpl in *; [|by rewrite HB]. destruct HB as [Ht Hs]. simpl in Hs.
  specialize (Hb (t, env)). simpl in Hb. rewrite Ht, <- Hs in Hb. rewrite <- Hs. clear s Ht Hs.
  destruct (body (t, env)) as [[a|er] [t' env']]; simpl in Hb.
  - pose proof (commit_rows gs gt st t' env') as HC. destruct (tx_Commit _) as [r [[st1 t1] env1]]. simpl in *. by destruct HC as [->| ->].
  - pose proof (rollback_rows gs gt st t' env') as HR. destruct (tx_Rollback _) as [r [[st2 t2] env2]]. simpl in *. by rewrite HR.
Qed.
#[local] Hint Resolve more_with_tx more_runInTx more_create more_commit more_release more_expire more_exchange
  more_reconcile more_resolve more_account : outbox.

Lemma more_Server p r : st_more (Server p r).
Proof.
  destruct p; unfold Server, CreateAccount, GetAccount, GetBalance, balanceAsOf, PostJournal, ExecuteFlow, GetFlow,
    ListAccountActivity, TakeBalanceSnapshot, snapshotRow, CreateReservation, CommitReservation, ReleaseReservation,
    GetReservation, ListReservations, ExecuteExchange, resolveRate, PutFXRate, GetFXRate, ListFXRates,
    IngestExternalRecords, ingestOne, RunReconciliation, GetReconciliationBatch, ListDiscrepancies, ResolveDiscrepancy;
    more_walk.
Qed.

Lemma more_pending n : st_more (adapter_PendingOutbox n).
Proof. unfold adapter_PendingOutbox. more_walk. Qed.

(** ** Threads *)

Abbreviation adding := (each (λ A, more gs (A:=A))).

Lemma adding_ServerOps p r : adding (ServerOps p r).
Proof.
  destruct p; unfold ServerOps, CreateAccount_ops, GetBalance_ops, balanceAsOf_ops, TakeBalanceSnapshot_ops,
    snapshotRow_ops, PutFXRate_ops, GetFXRate_ops, ExecuteExchange_ops, resolveRate_ops, IngestExternalRecords_ops,
    ingestOne_ops, RunReconciliation_ops; operations.
  all: apply each_op; first [apply more_Server | solve [more_walk]].
Qed.

Lemma adding_client sc : adding (client sc).
Proof.
  induction sc as [|p r next IH]; cbn [client]; [apply each_ret|]. apply each_presume; [apply adding_ServerOps|done].
Qed.

Lemma adding_scheduler cfg signals : adding (schedulerRun_ops cfg signals).
Proof.
  assert (∀ r, adding (TakeBalanceSnapshot_ops r)) as Hsnap by exact (adding_ServerOps PTakeBalanceSnapshot).
  induction signals as [|[] l IH]; cbn [schedulerRun_ops]; try apply each_ret.
  all: apply each_bind; [|done].
  all: unfold snapshotTick_ops, expiryTick_ops, retentionTick_ops; operations; try apply Hsnap.
  all: apply each_op; unfold ExpireReservation; more_walk.
Qed.
End Bodies.

(** [tbl'] has the events of [tbl], and new ones; those newly published have
    their id in [ids]. *)
Definition outbox_moves (ids : list string) (tbl tbl' : list OutRow) : Prop :=
  ∃ old new, tbl' = old ++ new ∧ published_rows ids tbl old ∧ Forall (λ r, or_published r = true → or_id r ∈ ids) new.

Lemma moves_refl ids tbl : outbox_moves ids tbl tbl.
Proof. exists tbl, []. rewrite app_nil_r. split_and!; [done|apply published_rows_refl|done]. Qed.

Lemma moves_trans ids ids' t1 t2 t3 :
  ids ⊆ ids' → outbox_moves ids t1 t2 → outbox_moves ids' t2 t3 → outbox_moves ids' t1 t3.
Proof.
  intros Hi (o1 & n1 & -> & Hp1 & Hn1) (o2 & n2 & -> & Hp2 & Hn2).
  apply Forall2_app_inv_l in Hp2 as (a & b & Ha & Hb & ->).
  exists a, (b ++ n2). split; [by rewrite app_assoc|]. split.
  - eapply published_rows_trans; [by eapply published_rows_mono|done].
  - apply Forall_app; split; [|done]. clear -Hi Hb Hn1. induction Hb as [|r r' n1 b (E & _ & _ & _ & Hr) _ IH]; [done|].
    apply list.Forall_cons in Hn1 as [Hr1 Hn1]. constructor; [|by apply IH]. intros Hp. rewrite E. destruct (Hr Hp); auto.
Qed.

Section Dispatchers.
Context {H : Host} {D : DecimalOps} {S T : Type} {R : RepoTx D T} {ST : RepoStore D S T} {K : Type} {SK : Sink K}.
Context {gs : S → list OutRow} {gt : T → list OutRow} {TL : OutboxTxLaws gt} {CL : OutboxCommitLaws gs gt} {SL : OutboxStoreLaws gs}.
Abbreviation Shared := ((S * Env) * (K * list string))%type.
Implicit Types x y : Shared.

Definition dispatched x y : Prop := x.2.2 `prefix_of` y.2.2 ∧ outbox_moves y.2.2 (gs x.1.1) (gs y.1.1).
#[local] Instance dispatched_preorder : PreOrder dispatched.
Proof.
  split; [intros x; split; [done|apply moves_refl]|]. intros x y z [H1 M1] [H2 M2]. split; [by etransitivity|].
  eapply moves_trans; [|done|done]. destruct H2 as [k ->]. set_solver.
Qed.

Abbreviation safe p x := (safely (λ _, True) dispatched p (λ _ _, True) x).

Lemma dispatched_by ids (m : M error (S * Env) ()) x :
  ids ⊆ x.2.2 → (∀ s, published_rows ids (gs s.1) (gs (m s).2.1)) → safe (on_store (op m)) x.
Proof.
  intros Hi Hm [s [k acc]] _ [[ext Hacc] _]. specialize (Hm s). cbn. destruct (m s) as [r s']. split_and!; try done.
  split; [done|]. exists (gs s'.1), []. rewrite app_nil_r. split_and!; [done| |done].
  eapply published_rows_mono; [|done]. simpl in *. set_solver.
Qed.

Lemma safe_part {A} (p : Prog (S * Env) A) x : each (λ A, more gs (A:=A)) p → safe (on_store p) x.
Proof.
  intros Hp. apply (each_safely _ _ (λ B m, ∀ y, dispatched y (m y).2)).
  - intros B m y Hm _. split; [done|apply Hm].
  - revert Hp. apply each_on_store. intros B m Hm [s [k acc]]. specialize (Hm s). unfold on_fst.
    destruct (m s) as [r s']. destruct Hm as (new & Hnew & Hp). split; [done|]. exists (gs s.1), new.
    split_and!; [done|apply published_rows_refl|]. eapply list.Forall_impl; [done|]. intros r' Hr. simpl. congruence.
Qed.

(** An event is marked only once the sink has accepted it. *)
Lemma safe_dispatchOne e x : safe (dispatchOne_ops tt e) x.
Proof.
  unfold dispatchOne_ops. apply safely_presume; [apply _|].
  eapply (safely_mono _ _ _ (λ r y, match r with Ok _ => ob_ID e ∈ y.2.2 | Err _ => True end)).
  - intros r y _ _ Hr. unfold pignore. apply safely_presume; [apply _|]. eapply (safely_mono _ _ _ (λ _ _, True)); [done|].
    destruct r as [[]|er].
    + apply (dispatched_by [ob_ID e]); [by intros i ->%list_elem_of_singleton|by apply mark_rows].
    + apply (dispatched_by []); [set_solver|by apply attempts_rows].
  - intros [s [k acc]] _ _. unfold publish. destruct (Publish e k) as [[er|] k'].
    + split_and!; [done|split; [done|apply moves_refl]|done].
    + split_and!; [done|split; [by eexists|apply moves_refl]|].
      intros [s' [k2 acc']] _ [[ext ->] _]. simpl. set_solver.
Qed.

Lemma safe_seq {A} (p : Prog Shared A) (q : A → Prog Shared ()) x :
  (∀ x, safe p x) → (∀ a x, safe (q a) x) → safe (p ≫= q) x.
Proof.
  intros Hp Hq. unfold mbind, Prog_bind, pbind. apply safely_presume; [apply _|].
  eapply (safely_mono _ _ _ (λ _ _, True)); [|apply Hp]. intros [a|er] y _ _ _; [apply Hq|done].
Qed.

Lemma safe_dispatcher cfg ticks x : safe (dispatcherRun_ops cfg ticks) x.
Proof.
  revert x. induction ticks as [|[] l IH]; intros x; try done. cbn [dispatcherRun_ops].
  apply safe_seq; [|done]. clear x. intros x. unfold dispatcherTick_ops, pignore. apply safely_presume; [apply _|].
  eapply (safely_mono _ _ _ (λ _ _, True)); [done|]. apply safe_seq; clear x.
  - intros x. apply safe_part, each_op, more_pending.
  - intros evs x. revert x. induction evs as [|e evs IHe]; intros x; [done|]. cbn [pfold].
    apply safe_seq; [intros x'; apply safe_dispatchOne|]. intros [] x'. apply IHe.
Qed.

Lemma safe_thread t x : safe (thread t) x.
Proof.
  destruct t; cbn [thread].
  - apply safe_part, adding_client.
  - apply safe_part, adding_scheduler.
  - apply safe_dispatcher.
Qed.

(** C24. The dispatchers of a busy ledger lose no event and mark none published
    that the sink did not accept: with any number of dispatchers (of any
    number of processes), clients and schedulers interleaved call by call,
    whatever the sink and the driver do, the outbox keeps its events in order
    with their keys and payloads, new ones come after them, published ones
    stay published, and every event that became published is one the sink
    accepted. *)
Theorem interleaved_dispatch_safe (ts : list Task) (l : list nat) x :
  let y := process ts x l in
  x.2.2 `prefix_of` y.2.2 ∧
  ∃ old new, gs y.1.1 = old ++ new ∧ published_rows y.2.2 (gs x.1.1) old ∧
    ∀ r, r ∈ new → or_published r = true → or_id r ∈ y.2.2.
Proof.
  cbv zeta. destruct (pool_safe (λ _, True) dispatched (thread <$> ts) x l I) as [_ [Hacc (old & new & Ho & Hp & Hn)]].
  { apply Forall_fmap, list.Forall_forall. intros t _. apply safe_thread. }
  split; [done|]. exists old, new. split_and!; [done..|]. exact (proj1 (list.Forall_forall _ _) Hn).
Qed.
End Dispatchers.
