(* ===== verification/Wallet.v ===== *)
(** * pkg/dledger: the wallet

    wallet.go and wallet_types.go: the layer a prediction market uses, over
    any [Client], here any [LedgerService].  [structpb.NewStruct] is the
    class [Structpb]; an error that [fmt.Errorf] wraps with %w keeps its
    code, so it is the error it wraps. *)

From S2P Require Import Prelude Money Ledger Repo Contract Service Flow Accounts Reservations Exchange Recon Rpc.
From stdpp Require Import base gmap strings list numbers.

(** ** wallet_types.go *)

Record PlayerAccounts := mkPlayerAccounts { pl_Available : string; pl_Reserved : string }.
Record Receipt := mkReceipt { rc_JournalID : string; rc_FlowRunID : string }.
(** [dledger.Reservation] *)
Record SDKReservation := mkSDKReservation {
  sr_ID : string; sr_State : string; sr_OriginalAmount : string; sr_OutstandingAmount : string;
  sr_CommittedAmount : string; sr_ReleasedAmount : string; sr_ExpiresAt : Time }.
Record DepositInput := mkDepositInput {
  di_PlayerID : string; di_Currency : string; di_Amount : string; di_FundingAccountID : string;
  di_ExternalRef : string; di_IdempotencyKey : string; di_SourceService : string }.
Record WithdrawInput := mkWithdrawInput {
  wi_PlayerID : string; wi_Currency : string; wi_Amount : string; wi_WithdrawalAccountID : string;
  wi_ExternalRef : string; wi_IdempotencyKey : string; wi_SourceService : string }.
Record ReserveInput := mkReserveInput {
  ri_PlayerID : string; ri_Currency : string; ri_Amount : string; ri_ExpiresAt : Time;
  ri_IdempotencyKey : string; ri_SourceService : string; ri_Metadata : Meta }.
Record CommitInput := mkCommitInput {
  ci_ReservationID : string; ci_DestinationAccountID : string; ci_Amount : string;
  ci_IdempotencyKey : string; ci_SourceService : string }.
Record ReleaseInput := mkReleaseInput {
  li_ReservationID : string; li_Amount : string; li_IdempotencyKey : string; li_SourceService : string }.
Record SettleInput := mkSettleInput {
  si_PlayerID : string; si_Currency : string; si_Amount : string; si_PoolAccountID : string;
  si_ExternalRef : string; si_IdempotencyKey : string; si_SourceService : string }.

(** [structpb.NewStruct] refuses texts that are not UTF-8. *)
Class Structpb := { NewStruct : Meta → option Meta }.

(** ** wallet.go *)

Record Wallet := mkWallet { wl_tenant : string; wl_ownerType : string }.
Definition WithOwnerType (t : string) (w : Wallet) : Wallet := mkWallet (wl_tenant w) t.
Definition NewWallet (tenantID : string) (opts : list (Wallet → Wallet)) : Wallet :=
  foldl (λ w fn, fn w) (mkWallet tenantID "user") opts.

Record accountAmount := mkAccountAmount { aa_accountID : string; aa_currency : string; aa_amount : string }.
Record postJournalArgs := mkPostJournalArgs {
  pa_IdempotencyKey : string; pa_SourceService : string; pa_EventID : string;
  pa_Debit : accountAmount; pa_Credit : accountAmount }.

Definition accountID (w : Wallet) (ownerID acctType currency : string) : string :=
  wl_ownerType w +:+ ":" +:+ ownerID +:+ ":" +:+ acctType +:+ ":" +:+ currency.

Definition resvToSDK (p : PbReservation) : SDKReservation :=
  mkSDKReservation (pr_Id p) (pr_Status p) (pr_OriginalAmount p) (pr_OutstandingAmount p)
    (pr_CommittedAmount p) (pr_ReleasedAmount p) (default time_zero (pr_ExpiresAt p)).

(** [connect.CodeOf(err) == connect.CodeAlreadyExists] *)
Definition already_exists (e : error) : bool :=
  match e with ErrConnect cc _ => bool_decide (cc = CodeAlreadyExists) | _ => false end.

Section Wallet.
Context {D : DecimalOps} {SP : Structpb} {X : Type} (c : LedgerService X) (w : Wallet).

Record WalletSnapshot := mkWalletSnapshot {
  ws_PlayerID : string; ws_Currency : string; ws_Available : dec; ws_Reserved : dec;
  ws_OpenReservations : list SDKReservation }.

Definition ensureAccount (ownerID acctType currency : string) : M error X unit := λ x,
  match c PCreateAccount (mkCreateAccountRequest (wl_tenant w) (wl_ownerType w) ownerID acctType currency
            NORMAL_BALANCE_DEBIT false) x with
  | (Ok _, x1) => (Ok tt, x1)
  | (Err err, x1) =>
      if already_exists err then (Ok tt, x1)
      else match c PGetAccount (mkGetAccountRequest (wl_tenant w) (accountID w ownerID acctType currency)) x1 with
           | (Ok _, x2) => (Ok tt, x2)
           | (Err _, x2) => (Err err, x2)
           end
  end.

Definition EnsurePlayerAccounts (playerID currency : string) : M error X PlayerAccounts :=
  let avail := accountID w playerID "cash_available" currency in
  let resv := accountID w playerID "cash_reserved" currency in
  ensureAccount playerID "cash_available" currency;;
  ensureAccount playerID "cash_reserved" currency;;
  mret (mkPlayerAccounts avail resv).

Definition postJournal (a : postJournalArgs) : M error X Receipt :=
  resp ← c PPostJournal (mkPostJournalRequest (wl_tenant w) (pa_IdempotencyKey a) (pa_SourceService a) ""
    (Some (mkPbJournal (pa_EventID a)
      [mkPbEntry (aa_accountID (pa_Debit a)) (aa_currency (pa_Debit a)) DIRECTION_DEBIT (aa_amount (pa_Debit a));
       mkPbEntry (aa_accountID (pa_Credit a)) (aa_currency (pa_Credit a)) DIRECTION_CREDIT (aa_amount (pa_Credit a))])));
  mret (mkReceipt (pjr_JournalId resp) (pjr_FlowRunId resp)).

Definition Deposit (i : DepositInput) : M error X Receipt :=
  let avail := accountID w (di_PlayerID i) "cash_available" (di_Currency i) in
  postJournal (mkPostJournalArgs (di_IdempotencyKey i) (di_SourceService i) (di_ExternalRef i)
    (mkAccountAmount avail (di_Currency i) (di_Amount i))
    (mkAccountAmount (di_FundingAccountID i) (di_Currency i) (di_Amount i))).

Definition Withdraw (i : WithdrawInput) : M error X Receipt :=
  let avail := accountID w (wi_PlayerID i) "cash_available" (wi_Currency i) in
  postJournal (mkPostJournalArgs (wi_IdempotencyKey i) (wi_SourceService i) (wi_ExternalRef i)
    (mkAccountAmount (wi_WithdrawalAccountID i) (wi_Currency i) (wi_Amount i))
    (mkAccountAmount avail (wi_Currency i) (wi_Amount i))).

Definition Settle (i : SettleInput) : M error X Receipt :=
  let avail := accountID w (si_PlayerID i) "cash_available" (si_Currency i) in
  postJournal (mkPostJournalArgs (si_IdempotencyKey i) (si_SourceService i) (si_ExternalRef i)
    (mkAccountAmount avail (si_Currency i) (si_Amount i))
    (mkAccountAmount (si_PoolAccountID i) (si_Currency i) (si_Amount i))).

Definition Reserve (i : ReserveInput) : M error X SDKReservation :=
  let src := accountID w (ri_PlayerID i) "cash_available" (ri_Currency i) in
  let resv := accountID w (ri_PlayerID i) "cash_reserved" (ri_Currency i) in
  md ← (if bool_decide (ri_Metadata i = ∅) then mret None
        else match NewStruct (ri_Metadata i) with
             | Some md => mret (Some md)
             | None => throw (ErrOther "metadata")
             end);
  p ← c PCreateReservation (mkCreateReservationRequest (wl_tenant w) (ri_IdempotencyKey i) (ri_SourceService i) ""
        src resv (ri_Currency i) (ri_Amount i)
        (if Time_IsZero (ri_ExpiresAt i) then None else Some (ri_ExpiresAt i)) md);
  mret (resvToSDK p).

Definition Commit (i : CommitInput) : M error X SDKReservation :=
  p ← c PCommitReservation (mkCommitReservationRequest (wl_tenant w) (ci_IdempotencyKey i) (ci_SourceService i) ""
        (ci_ReservationID i) (ci_Amount i) (ci_DestinationAccountID i));
  mret (resvToSDK p).

Definition Release (i : ReleaseInput) : M error X SDKReservation :=
  p ← c PReleaseReservation (mkReleaseReservationRequest (wl_tenant w) (li_IdempotencyKey i) (li_SourceService i) ""
        (li_ReservationID i) (li_Amount i));
  mret (resvToSDK p).

Definition balance (account currency : string) : M error X dec :=
  resp ← c PGetBalance (mkGetBalanceRequest (wl_tenant w) account currency None);
  match NewFromString (pb_Normalized resp) with
  | Some d => mret d
  | None => throw (ErrOther "parse balance")
  end.

(** One turn of the loop over the statuses. *)
Definition openOf (playerID currency : string) (open : list SDKReservation) (status : string)
    : M error X (list SDKReservation) :=
  lr ← c PListReservations (mkListReservationsRequest (wl_tenant w) (wl_ownerType w) playerID status 0);
  mret (foldl (λ open p, if negb (pr_Currency p =s currency) then open else open ++ [resvToSDK p]) open lr).

Definition GetWallet (playerID currency : string) : M error X WalletSnapshot :=
  avail ← balance (accountID w playerID "cash_available" currency) currency;
  resv ← balance (accountID w playerID "cash_reserved" currency) currency;
  open ← foldM (openOf playerID currency) ["HELD"; "PARTIAL"] [];
  mret (mkWalletSnapshot playerID currency avail resv open).
End Wallet.
