(* ===== verification/Embedded.v ===== *)
(** * pkg/dledger: starting and closing an embedded ledger

    embedded.go ([NewEmbedded], [Close]) and options.go.  What it does to the
    world (opening and closing stores, creating the DynamoDB table, running
    migrations, starting the two loops, cancelling their context) is recorded
    as a list of actions, each with its outcome; which fail is the class
    [Platform]. *)

From S2P Require Import Prelude Money Ledger Repo Service Worker.
From stdpp Require Import base gmap strings list numbers.

(** ** options.go *)

Definition SQLite : string := "sqlite".
Definition CRDB : string := "crdb".
Definition DynamoDB : string := "dynamodb".

Inductive MigrateMode := MigrateAuto | MigrateSkip.
Definition is_auto (m : MigrateMode) : bool := match m with MigrateAuto => true | MigrateSkip => false end.

Record Options := mkOptions {
  op_Backend : string; op_DSN : string; op_MigrateMode : MigrateMode;
  op_DisableScheduler : bool; op_SchedulerExpiryTick : Z }.

(** ** The world *)

Inductive Action :=
| OpenStore (backend dsn : string)
| EnsureTable
| RunMigrations (driver dsn dialect : string)
| CloseStore
| StartDispatcher (cfg : OutboxConfig)
| StartScheduler (cfg : SchedulerConfig)
| Cancel.

(** ** Effects

    A program acts on the world; the trace holds its actions so far, with the
    errors of those that failed. *)

Abbreviation TraceOf Act := (list (Act * option error)).
Class World (Act : Type) := { act_fails : Act → TraceOf Act → option error }.

Section Effects.
Context {E Act : Type} {W : World Act}.

(** An action whose error the program handles; [f] is what it makes of it. *)
Definition attempt (a : Act) (f : error → E) : M E (TraceOf Act) unit := λ tr,
  (match act_fails a tr with None => Ok tt | Some e => Err (f e) end, tr ++ [(a, act_fails a tr)]).
(** An action whose error the program drops. *)
Definition try (a : Act) : M E (TraceOf Act) unit := λ tr, (Ok tt, tr ++ [(a, act_fails a tr)]).
(** A started goroutine cannot fail. *)
Definition start (a : Act) : M E (TraceOf Act) unit := λ tr, (Ok tt, tr ++ [(a, None)]).

Definition count (p : Act * option error → bool) (tr : TraceOf Act) : nat := length (filter (λ x, p x) tr).
End Effects.

Abbreviation Trace := (TraceOf Action).
Abbreviation Platform := (World Action).

Section Embedded.
Context {PF : Platform}.

Definition perform (a : Action) : M error Trace unit := attempt a id.

(** [if err := m; err != nil { _ = store.Close(); return nil, err }] *)
Definition or_close (m : M error Trace unit) : M error Trace unit := λ tr,
  match m tr with
  | (Err e, tr') => (Err e, (perform CloseStore tr').2)
  | r => r
  end.

(** ** embedded.go *)

(** The switch on the backend: opens the store and says which migrations
    remain. *)
Definition openBackend (o : Options) : M error Trace (option (string * string)) :=
  if (op_Backend o =s SQLite) || (op_Backend o =s "") then
    perform (OpenStore SQLite (op_DSN o));; mret (Some ("sqlite", "sqlite3"))
  else if op_Backend o =s CRDB then
    perform (OpenStore CRDB (op_DSN o));; mret (Some ("pgx", "postgres"))
  else if op_Backend o =s DynamoDB then
    perform (OpenStore DynamoDB (op_DSN o));;
    (if is_auto (op_MigrateMode o) then or_close (perform EnsureTable) else mret tt);;
    mret None
  else throw (ErrOther "dledger: unknown backend").

Definition dispatcherConfig : OutboxConfig := NewDispatcher (mkOutboxConfig 250000000 100).

(** [sched.Cfg.ExpiryTick] is overridden by a positive option. *)
Definition schedulerConfig (o : Options) : SchedulerConfig :=
  if (0 <? op_SchedulerExpiryTick o)%Z
  then mkSchedulerConfig (sc_SnapshotTick defaultConfig) (sc_SnapshotInterval defaultConfig) (op_SchedulerExpiryTick o)
         (sc_RetentionTick defaultConfig) (sc_RetentionAge defaultConfig) (sc_BatchN defaultConfig)
  else defaultConfig.

Record EmbeddedClient := mkEmbeddedClient { em_closed : bool }.

Definition NewEmbedded (o : Options) : M error Trace EmbeddedClient :=
  throw_if (op_DSN o =s "") (ErrOther "dledger: Options.DSN required");;
  mig ← openBackend o;
  match mig with
  | Some (driver, dialect) =>
      if is_auto (op_MigrateMode o) then or_close (perform (RunMigrations driver (op_DSN o) dialect)) else mret tt
  | None => mret tt
  end;;
  start (StartDispatcher dispatcherConfig);;
  (if op_DisableScheduler o then mret tt else start (StartScheduler (schedulerConfig o)));;
  mret (mkEmbeddedClient false).

(** [Close]: its body runs once; the error is the store's the first time. *)
Definition Close : M error (EmbeddedClient * Trace) unit := λ '(c, tr),
  if em_closed c then (Ok tt, (c, tr))
  else let '(res, tr') := perform CloseStore (tr ++ [(Cancel, None)]) in (res, (mkEmbeddedClient true, tr')).

(** ** No store is left open *)

Definition opened (x : Action * option error) : bool :=
  match x with (OpenStore _ _, None) => true | _ => false end.
Definition closed (x : Action * option error) : bool := match x with (CloseStore, _) => true | _ => false end.
Definition started (x : Action * option error) : bool :=
  match x with (StartDispatcher _, _) | (StartScheduler _, _) => true | _ => false end.

(** [n] calls of [Close], one after the other. *)
Fixpoint closeTimes (n : nat) (s : EmbeddedClient * Trace) : EmbeddedClient * Trace :=
  match n with O => s | S n' => closeTimes n' (Close s).2 end.

Lemma closeTimes_closed n s : em_closed s.1 = true → closeTimes n s = s.
Proof. revert s. induction n as [|n IH]; intros [c tr] Hc; simpl in *; [done|]. rewrite Hc. by apply IH. Qed.

(** The next branch of a run. *)
Ltac branch :=
  match goal with
  | |- context [match act_fails ?a ?tr with None => Ok _ | Some _ => _ end] => destruct (act_fails a tr)
  | |- context [is_auto ?m] => destruct (is_auto m)
  | |- context [op_DisableScheduler ?o] => destruct (op_DisableScheduler o)
  end; simpl.

(** The life of an embedded ledger, whatever fails: when [NewEmbedded]
    fails it leaves no store open and has started no loop; when it succeeds
    exactly one store is open, the dispatcher runs, and the scheduler runs
    unless it is disabled; and closing the client, however many times, closes
    that store exactly once, after cancelling the loops. *)
Theorem embedded_lifecycle (o : Options) :
  match NewEmbedded o [] with
  | (Err _, tr) => count opened tr = count closed tr ∧ count started tr = 0%nat
  | (Ok c, tr) =>
      count opened tr = 1%nat ∧ count closed tr = 0%nat ∧
      count started tr = (if op_DisableScheduler o then 1 else 2)%nat ∧
      ∀ n, (closeTimes (S n) (c, tr)).2 = tr ++ [(Cancel, None); (CloseStore, act_fails CloseStore (tr ++ [(Cancel, None)]))]
  end.
Proof.
  unfold NewEmbedded, openBackend, or_close, perform, attempt, start, id, mbind, M_bind, mret, M_ret, throw, throw_if.
  destruct (op_DSN o =s ""); [done|]. simpl.
  destruct ((op_Backend o =s SQLite) || (op_Backend o =s "")); [|destruct (op_Backend o =s CRDB); [|destruct (op_Backend o =s DynamoDB); [|done]]];
    simpl; unfold count, opened, closed, started; repeat branch;
    split_and?; try done; intros n; by rewrite closeTimes_closed.
Qed.
End Embedded.
