(* ===== verification/Migrations.v ===== *)
(** * pkg/dledger: several ledgers migrate at once

    runMigrations of embedded.go.  Goose keeps its dialect and its file system
    in package variables; every embedded ledger of a process sets them, and a
    mutex keeps two from setting them under each other's feet.  Here any
    number of calls run statement by statement, in any order; [concurrent_migrations]
    says that it is as if they had run one after the other. *)

From S2P Require Import Prelude Ledger Service.
From stdpp Require Import base strings list numbers.

(** ** The libraries: database/sql and goose

    [G] holds the package variables of goose, [W] the databases, [FS] a file
    system of migrations. *)
Class Goose (G W FS : Type) := {
  sql_Open : string → string → option error;                      (* driver, dsn *)
  goose_SetDialect : string → G → option error * G;
  goose_SetBaseFS : FS → G → G;
  goose_UpContext : string → string → string → G → W → option error * W }.  (* driver, dsn, directory *)

(** A dialect is known or not whatever was set before, and once a known
    dialect and a file system are set nothing older matters. *)
Class GooseLaws {G W FS : Type} (GO : Goose G W FS) : Prop := {
  law_dialect d g g' : (goose_SetDialect d g).1 = (goose_SetDialect d g').1;
  law_settings d fs driver dsn dir g g' w :
    (goose_SetDialect d g).1 = None →
    goose_UpContext driver dsn dir (goose_SetBaseFS fs (goose_SetDialect d g).2) w =
    goose_UpContext driver dsn dir (goose_SetBaseFS fs (goose_SetDialect d g').2) w }.

Section Migrations.
Context {G W FS : Type} {GO : Goose G W FS}.

(** ** One call, statement by statement *)

Record Migration := mkMigration { mg_driver : string; mg_dsn : string; mg_fs : FS; mg_dialect : string }.

(** The next statement of a call: [sql.Open], [gooseMu.Lock],
    [goose.SetDialect], [goose.SetBaseFS], [goose.UpContext], the deferred
    [gooseMu.Unlock] and [db.Close], and after them with the error it returns. *)
Inductive Point :=
| AtOpen | AtLock | AtDialect | AtBaseFS | AtUp
| AtUnlock (res : option error) | AtClose (res : option error) | Returned (res : option error).

(** The calls of a process, who holds [gooseMu], goose's variables, the
    databases. *)
Record MState := mkMState {
  ms_calls : list (Migration * Point); ms_mutex : option nat; ms_goose : G; ms_world : W }.
Implicit Types (m : Migration) (p : Point) (s : MState) (g : G) (w : W) (ms : list Migration) (o l : list nat).

(** Call [i] does its next statement; [None] where it waits for the mutex or
    has returned. *)
Definition runMigrations (i : nat) m p (mutex : option nat) g w : option (Point * option nat * G * W) :=
  match p with
  | AtOpen => Some (match sql_Open (mg_driver m) (mg_dsn m) with None => AtLock | Some e => Returned (Some e) end, mutex, g, w)
  | AtLock => match mutex with None => Some (AtDialect, Some i, g, w) | Some _ => None end
  | AtDialect => let '(r, g') := goose_SetDialect (mg_dialect m) g in
      Some (match r with None => AtBaseFS | Some e => AtUnlock (Some e) end, mutex, g', w)
  | AtBaseFS => Some (AtUp, mutex, goose_SetBaseFS (mg_fs m) g, w)
  | AtUp => let '(r, w') := goose_UpContext (mg_driver m) (mg_dsn m) "." g w in Some (AtUnlock r, mutex, g, w')
  | AtUnlock r => Some (AtClose r, None, g, w)
  | AtClose r => Some (Returned r, mutex, g, w)
  | Returned _ => None
  end.

Definition mstep s (i : nat) : option MState :=
  '(m, p) ← ms_calls s !! i;
  '(p', mutex', g', w') ← runMigrations i m p (ms_mutex s) (ms_goose s) (ms_world s);
  Some (mkMState (<[i := (m, p')]> (ms_calls s)) mutex' g' w').
(** A schedule; a turn of a call that cannot go on is lost. *)
Definition mrun s l : MState := foldl (λ s i, default s (mstep s i)) s l.
Definition mstart ms g w : MState := mkMState ((λ m, (m, AtOpen)) <$> ms) None g w.

(** ** One after the other *)

(** A call that nothing interrupts. *)
Definition migrate_alone g m w : option error * W :=
  match sql_Open (mg_driver m) (mg_dsn m) with
  | Some e => (Some e, w)
  | None =>
      match goose_SetDialect (mg_dialect m) g with
      | (Some e, _) => (Some e, w)
      | (None, g1) => goose_UpContext (mg_driver m) (mg_dsn m) "." (goose_SetBaseFS (mg_fs m) g1) w
      end
  end.

(** The calls of [o], in that order: who returned what, and the databases. *)
Definition serial_step g ms (x : list (nat * option error) * W) (i : nat) : list (nat * option error) * W :=
  match ms !! i with
  | Some m => let '(r, w') := migrate_alone g m x.2 in (x.1 ++ [(i, r)], w')
  | None => x
  end.
Definition serial g ms o w : list (nat * option error) * W := foldl (serial_step g ms) ([], w) o.

Lemma serial_snoc g ms o w i : serial g ms (o ++ [i]) w = serial_step g ms (serial g ms o w) i.
Proof. unfold serial. by rewrite foldl_app. Qed.

Lemma mrun_cons s i l : mrun s (i :: l) = mrun (default s (mstep s i)) l.
Proof. done. Qed.
Lemma mstep_only m p mutex g w :
  mstep (mkMState [(m, p)] mutex g w) 0 =
  '(p', mutex', g', w') ← runMigrations 0 m p mutex g w; Some (mkMState [(m, p')] mutex' g' w').
Proof. done. Qed.

(** It is a call alone, once it is the only one. *)
Lemma runMigrations_alone m g w :
  let s := mrun (mstart [m] g w) (replicate 7 0) in
  ms_calls s = [(m, Returned (migrate_alone g m w).1)] ∧ ms_world s = (migrate_alone g m w).2 ∧ ms_mutex s = None.
Proof.
  unfold migrate_alone, mstart. cbn [fmap list_fmap replicate].
  rewrite mrun_cons, mstep_only. cbn [runMigrations].
  destruct (sql_Open _ _) as [e|]; [done|]. cbn [mbind option_bind from_option id].
  rewrite mrun_cons, mstep_only. cbn [runMigrations mbind option_bind from_option id].
  rewrite mrun_cons, mstep_only. cbn [runMigrations].
  destruct (goose_SetDialect _ _) as [[e|] g1]; [done|]. cbn [mbind option_bind from_option id].
  rewrite mrun_cons, mstep_only. cbn [runMigrations mbind option_bind from_option id].
  rewrite mrun_cons, mstep_only. cbn [runMigrations].
  by destruct (goose_UpContext _ _ _ _ _).
Qed.

(** ** The invariant *)

Definition outcome p : option (option error) :=
  match p with AtUnlock r | AtClose r | Returned r => Some r | _ => None end.
Definition holds p : bool :=
  match p with AtDialect | AtBaseFS | AtUp | AtUnlock _ => true | _ => false end.

(** What goose's variables are while a call is under way. *)
Definition settings m p g : Prop :=
  match p with
  | AtBaseFS => ∃ g0, goose_SetDialect (mg_dialect m) g0 = (None, g)
  | AtUp => ∃ g0 g1, goose_SetDialect (mg_dialect m) g0 = (None, g1) ∧ g = goose_SetBaseFS (mg_fs m) g1
  | _ => True
  end.
(** A call that is past [sql.Open] passed it. *)
Definition passed m p : Prop :=
  match p with AtLock | AtDialect | AtBaseFS | AtUp => sql_Open (mg_driver m) (mg_dsn m) = None | _ => True end.

Record mutex_ok s : Prop := {
  mo_holder i m p : ms_calls s !! i = Some (m, p) → holds p = true ↔ ms_mutex s = Some i;
  mo_valid i : ms_mutex s = Some i → i < length (ms_calls s);
  mo_settings i m p : ms_calls s !! i = Some (m, p) → settings m p (ms_goose s) ∧ passed m p }.

(** [o]: the calls whose outcome is settled, in the order in which it was. *)
Record settled g ms w o s : Prop := {
  se_calls : fst <$> ms_calls s = ms;
  se_nodup : NoDup o;
  se_in i : i ∈ o ↔ ∃ m p r, ms_calls s !! i = Some (m, p) ∧ outcome p = Some r;
  se_world : ms_world s = (serial g ms o w).2;
  se_results i m p r : ms_calls s !! i = Some (m, p) → outcome p = Some r → (i, r) ∈ (serial g ms o w).1 }.

Lemma mstart_ok ms g w : mutex_ok (mstart ms g w) ∧ settled g ms w [] (mstart ms g w).
Proof.
  assert (Hp : ∀ i m p, ((λ m, (m, AtOpen)) <$> ms) !! i = Some (m, p) → p = AtOpen).
  { intros i m p. rewrite list_lookup_fmap. destruct (ms !! i); simpl; congruence. }
  split; split; simpl; try done.
  - intros i m p ->%Hp. done.
  - intros i m p ->%Hp. done.
  - rewrite <- list_fmap_compose. apply list_fmap_id.
  - by apply NoDup_nil_2.
  - intros i. split; [by intros ?%elem_of_nil|]. by intros (m & p & r & ->%Hp & ?).
  - by intros i m p r ->%Hp ?.
Qed.

(** ** Every step keeps it *)

Lemma mstep_inv s i s' :
  mstep s i = Some s' → ∃ m p p' mutex' g' w', ms_calls s !! i = Some (m, p) ∧
    runMigrations i m p (ms_mutex s) (ms_goose s) (ms_world s) = Some (p', mutex', g', w') ∧
    s' = mkMState (<[i := (m, p')]> (ms_calls s)) mutex' g' w'.
Proof.
  unfold mstep. intros Hs. destruct (ms_calls s !! i) as [[m p]|] eqn:Hi; [|done]. simpl in Hs.
  destruct (runMigrations _ _ _ _ _ _) as [[[[p' mutex'] g'] w']|] eqn:Hr; [|done]. simpl in Hs. injection Hs as <-.
  by exists m, p, p', mutex', g', w'.
Qed.

Lemma not_holding m p g : holds p = false → settings m p g.
Proof. by destruct p. Qed.

(** The state after call [i] went from [p] to [p']. *)
Lemma lookup_call {calls : list (Migration * Point)} {i m p p' j m' q} :
  calls !! i = Some (m, p) → <[i := (m, p')]> calls !! j = Some (m', q) →
  (j = i ∧ m' = m ∧ q = p') ∨ (j ≠ i ∧ calls !! j = Some (m', q)).
Proof.
  intros Hi Hj. destruct (decide (i = j)) as [->|Hij].
  - rewrite list_lookup_insert_eq in Hj by (by eapply lookup_lt_Some). left. by simplify_eq.
  - rewrite list_lookup_insert_ne in Hj by done. by right.
Qed.

Lemma mutex_step s i s' : mutex_ok s → mstep s i = Some s' → mutex_ok s'.
Proof.
  intros [Hh Hv Hse] (m & p & p' & mutex' & g' & w' & Hi & Hr & ->)%mstep_inv.
  pose proof (Hh _ _ _ Hi) as Hhi. destruct (Hse _ _ _ Hi) as [Hsi Hpi].
  assert (Hlen : i < length (ms_calls s)) by by eapply lookup_lt_Some.
  assert (Hown : holds p = true → ∀ j m' q, j ≠ i → ms_calls s !! j = Some (m', q) → holds q = false).
  { intros Hp j m' q Hj Hq. apply Hhi in Hp. destruct (holds q) eqn:Hhq; [|done]. apply (Hh _ _ _ Hq) in Hhq. congruence. }
  assert (Hnew : (∀ j, j ≠ i → mutex' = Some j ↔ ms_mutex s = Some j) ∧ (holds p' = true ↔ mutex' = Some i) ∧
    (ms_goose s = g' ∨ holds p = true) ∧ settings m p' g' ∧ passed m p').
  { destruct p; simpl in Hr.
    - injection Hr as <- <- <- <-. destruct (sql_Open _ _) eqn:Hopen; simpl in *; split_and!; auto; naive_solver.
    - destruct (ms_mutex s) eqn:Hm; [done|]. injection Hr as <- <- <- <-. simpl. split_and!; auto; naive_solver.
    - destruct (goose_SetDialect _ _) as [[e|] g1] eqn:Hd; injection Hr as <- <- <- <-; simpl; split_and!; eauto; naive_solver.
    - injection Hr as <- <- <- <-. destruct Hsi as [g0 Hg0]. simpl. split_and!; eauto; naive_solver.
    - destruct (goose_UpContext _ _ _ _ _) as [r w1]. injection Hr as <- <- <- <-. simpl. split_and!; auto; naive_solver.
    - injection Hr as <- <- <- <-. simpl in *. split_and!; auto; [|naive_solver].
      intros j Hj. split; [done|]. destruct Hhi as [Hhi _]. rewrite Hhi; [|done]. congruence.
    - injection Hr as <- <- <- <-. simpl in *. split_and!; auto; naive_solver.
    - done. }
  destruct Hnew as (Hmu & Hmi & Hg & Hs' & Hp'). split; simpl.
  - intros j m' q Hj. destruct (lookup_call Hi Hj) as [(-> & -> & ->)|[Hji Hj']]; [done|].
    rewrite Hmu by done. by eapply Hh.
  - intros j Hj. rewrite length_insert. destruct (decide (j = i)) as [->|Hji]; [done|]. apply Hv. by apply Hmu.
  - intros j m' q Hj. destruct (lookup_call Hi Hj) as [(-> & -> & ->)|[Hji Hj']]; [done|].
    destruct (Hse _ _ _ Hj') as [Hsj Hpj]. split; [|done]. destruct Hg as [<-|Hp]; [done|]. apply not_holding. by eapply Hown.
Qed.

Section Settled.
Context {GL : GooseLaws GO} (g : G) (ms : list Migration) (w : W).

Lemma calls_kept (calls : list (Migration * Point)) i m p p' : calls !! i = Some (m, p) → fst <$> <[i := (m, p')]> calls = fst <$> calls.
Proof. intros Hi. rewrite list_fmap_insert. apply list_insert_id. by rewrite list_lookup_fmap, Hi. Qed.

(** A statement that settles nothing. *)
Lemma settled_keep o s i m p p' mutex' g' :
  settled g ms w o s → ms_calls s !! i = Some (m, p) → outcome p' = outcome p →
  settled g ms w o (mkMState (<[i := (m, p')]> (ms_calls s)) mutex' g' (ms_world s)).
Proof.
  intros [Hc Hnd Hin Hw Hres] Hi Hp. assert (Hlen : i < length (ms_calls s)) by by eapply lookup_lt_Some. split; simpl; try done.
  - by erewrite calls_kept.
  - intros j. rewrite Hin. destruct (decide (i = j)) as [->|Hij].
    + rewrite list_lookup_insert_eq by done. rewrite Hi. split; intros (m' & q & r & [= <- <-] & Hq).
      * exists m, p', r. by rewrite Hp.
      * exists m, p, r. by rewrite <- Hp.
    + by rewrite list_lookup_insert_ne.
  - intros j m' q r Hj Hq. destruct (lookup_call Hi Hj) as [(-> & -> & ->)|[_ Hj']]; [|by eapply Hres].
    eapply Hres; [done|congruence].
Qed.

(** A statement that settles what call [i] returns. *)
Lemma settled_snoc o s i m p p' mutex' g' w' r :
  settled g ms w o s → ms_calls s !! i = Some (m, p) → outcome p = None → outcome p' = Some r →
  migrate_alone g m (ms_world s) = (r, w') →
  settled g ms w (o ++ [i]) (mkMState (<[i := (m, p')]> (ms_calls s)) mutex' g' w').
Proof.
  intros [Hc Hnd Hin Hw Hres] Hi Hp Hp' Hm. assert (Hlen : i < length (ms_calls s)) by by eapply lookup_lt_Some.
  assert (Hms : ms !! i = Some m) by by rewrite <- Hc, list_lookup_fmap, Hi.
  assert (Hser : serial g ms (o ++ [i]) w = ((serial g ms o w).1 ++ [(i, r)], w')).
  { rewrite serial_snoc. unfold serial_step. by rewrite Hms, <- Hw, Hm. }
  split; simpl; rewrite ?Hser; try done.
  - by erewrite calls_kept.
  - apply list.NoDup_app. split_and!; [done| |by apply NoDup_singleton]. intros j Hj ->%list_elem_of_singleton.
    apply Hin in Hj as (m' & q & r' & Hj & Hq). rewrite Hi in Hj. congruence.
  - intros j. rewrite elem_of_app, Hin, list_elem_of_singleton. destruct (decide (i = j)) as [->|Hij].
    + rewrite list_lookup_insert_eq by done. split; [|by right]. intros _. by exists m, p', r.
    + rewrite list_lookup_insert_ne by done. naive_solver.
  - intros j m' q r' Hj Hq. simpl. apply elem_of_app. destruct (lookup_call Hi Hj) as [(-> & -> & ->)|[_ Hj']].
    + right. apply list_elem_of_singleton. congruence.
    + left. by eapply Hres.
Qed.

Lemma settled_step o s i s' :
  mutex_ok s → settled g ms w o s → mstep s i = Some s' → ∃ o', settled g ms w (o ++ o') s'.
Proof.
  intros Hmu Hse (m & p & p' & mutex' & g' & w' & Hi & Hr & ->)%mstep_inv.
  destruct (mo_settings _ Hmu _ _ _ Hi) as [Hset Hpass].
  assert (Hkeep : w' = ms_world s → outcome p' = outcome p → ∃ o', settled g ms w (o ++ o') (mkMState (<[i:=(m, p')]> (ms_calls s)) mutex' g' w')).
  { intros -> Hp. exists []. rewrite app_nil_r. by eapply settled_keep. }
  assert (Hnew : ∀ r, outcome p = None → outcome p' = Some r → migrate_alone g m (ms_world s) = (r, w') →
    ∃ o', settled g ms w (o ++ o') (mkMState (<[i:=(m, p')]> (ms_calls s)) mutex' g' w')).
  { intros r H1 H2 H3. exists [i]. by eapply settled_snoc. }
  destruct p; simpl in Hr, Hset, Hpass.
  - injection Hr as <- <- <- <-. destruct (sql_Open _ _) as [e|] eqn:Hopen; [|by apply Hkeep].
    apply (Hnew (Some e)); [done..|]. unfold migrate_alone. by rewrite Hopen.
  - destruct (ms_mutex s); [done|]. injection Hr as <- <- <- <-. by apply Hkeep.
  - destruct (goose_SetDialect (mg_dialect m) (ms_goose s)) as [[e|] g1] eqn:Hd; injection Hr as <- <- <- <-; [|by apply Hkeep].
    apply (Hnew (Some e)); [done..|]. unfold migrate_alone. rewrite Hpass.
    pose proof (law_dialect (mg_dialect m) g (ms_goose s)) as He. rewrite Hd in He.
    destruct (goose_SetDialect _ g) as [? ?]. simpl in He. by subst.
  - injection Hr as <- <- <- <-. by apply Hkeep.
  - destruct (goose_UpContext _ _ _ _ _) as [r w1] eqn:Hup. injection Hr as <- <- <- <-. apply (Hnew r); [done..|].
    destruct Hset as (g0 & g1 & Hd & Hgo). unfold migrate_alone. rewrite Hpass.
    pose proof (law_dialect (mg_dialect m) g g0) as He. rewrite Hd in He.
    pose proof (law_settings (mg_dialect m) (mg_fs m) (mg_driver m) (mg_dsn m) "." g g0 (ms_world s) He) as Hl. rewrite Hd in Hl.
    destruct (goose_SetDialect _ g) as [o1 g2]. cbn [fst snd] in *. subst o1. rewrite Hl, <- Hgo. exact Hup.
  - injection Hr as <- <- <- <-. by apply Hkeep.
  - injection Hr as <- <- <- <-. by apply Hkeep.
  - done.
Qed.

Lemma mrun_ok l : ∃ o, mutex_ok (mrun (mstart ms g w) l) ∧ settled g ms w o (mrun (mstart ms g w) l).
Proof.
  induction l as [|i l [o [Hmu Hse]]] using rev_ind; [exists []; apply mstart_ok|].
  unfold mrun. rewrite foldl_app. simpl. fold (mrun (mstart ms g w) l).
  destruct (mstep (mrun (mstart ms g w) l) i) as [s'|] eqn:Hs; simpl; [|by exists o].
  destruct (settled_step _ _ _ _ Hmu Hse Hs) as [o' Hse']. exists (o ++ o'). split; [by eapply mutex_step|done].
Qed.
End Settled.

(** ** No call waits for ever *)

Definition returned p : bool := match p with Returned _ => true | _ => false end.
(** The statements a call has left. *)
Definition rank p : nat :=
  match p with
  | AtOpen => 7 | AtLock => 6 | AtDialect => 5 | AtBaseFS => 4 | AtUp => 3 | AtUnlock _ => 2 | AtClose _ => 1 | Returned _ => 0
  end.
Definition ranks s : nat := sum_list ((λ c, rank c.2) <$> ms_calls s).
(** The turns that are not lost. *)
Fixpoint effective s l : nat :=
  match l with
  | [] => 0
  | i :: l' => match mstep s i with Some s' => Datatypes.S (effective s' l') | None => effective s l' end
  end.

Lemma ranks_start ms g w : ranks (mstart ms g w) = 7 * length ms.
Proof.
  unfold ranks, mstart. cbn [ms_calls]. induction ms as [|m ms IH]; [done|]. rewrite !fmap_cons.
  change (7 + sum_list ((λ c, rank c.2) <$> ((λ m, (m, AtOpen)) <$> ms)) = 7 * S (length ms)). rewrite IH. lia.
Qed.

Lemma sum_list_insert_lt (l : list nat) i (a b : nat) : l !! i = Some a → b < a → sum_list (<[i := b]> l) < sum_list l.
Proof.
  revert i. induction l as [|x l IH]; intros [|i] Hi Hab; simpl in *; [done..| |].
  - injection Hi as ->. lia.
  - specialize (IH i Hi Hab). lia.
Qed.

Lemma mstep_rank s i s' : mstep s i = Some s' → ranks s' < ranks s.
Proof.
  intros (m & p & p' & mutex' & g' & w' & Hi & Hr & ->)%mstep_inv.
  unfold ranks. simpl. rewrite list_fmap_insert. eapply sum_list_insert_lt; [by rewrite list_lookup_fmap, Hi|].
  destruct p; simpl in Hr; repeat case_match; simplify_eq; simpl; lia.
Qed.

Lemma effective_rank s l : effective s l ≤ ranks s.
Proof.
  revert s. induction l as [|i l IH]; intros s; simpl; [lia|]. destruct (mstep s i) as [s'|] eqn:Hs; [|done].
  specialize (IH s'). apply mstep_rank in Hs. lia.
Qed.

Lemma ranks_run s l : ranks (mrun s l) ≤ ranks s.
Proof.
  revert s. induction l as [|i l IH]; intros s; [done|]. rewrite mrun_cons. etransitivity; [apply IH|].
  destruct (mstep s i) as [s'|] eqn:Hs; simpl; [|done]. apply mstep_rank in Hs. lia.
Qed.

(** The holder of the mutex can go on; when nobody holds it every call can. *)
Lemma progress s :
  mutex_ok s → (Forall (λ c, returned c.2 = true) (ms_calls s) ∧ ms_mutex s = None) ∨ ∃ i s', mstep s i = Some s'.
Proof.
  intros [Hh Hv _]. destruct (ms_mutex s) as [j|] eqn:Hmu.
  - right. exists j. destruct (lookup_lt_is_Some_2 (ms_calls s) j) as [[m p] Hj]; [by apply Hv|].
    pose proof (proj2 (Hh _ _ _ Hj) eq_refl) as Hp. unfold mstep. rewrite Hj. simpl.
    destruct p; try done; simpl; repeat case_match; simpl; by eexists.
  - destruct (decide (Forall (λ c, returned c.2 = true) (ms_calls s))) as [|Hn]; [by left|]. right.
    apply not_Forall_Exists in Hn; [|apply _]. apply list.Exists_exists in Hn as ([m p] & [i Hi]%list_elem_of_lookup & Hp).
    exists i. unfold mstep. rewrite Hi, Hmu. simpl. destruct p; simpl in *; try done; repeat case_match; simpl; by eexists.
Qed.

Definition all_returned s : Prop := Forall (λ c, returned c.2 = true) (ms_calls s) ∧ ms_mutex s = None.

Lemma finishes s : mutex_ok s → ∃ l, length l ≤ ranks s ∧ all_returned (mrun s l).
Proof.
  remember (ranks s) as n eqn:Hn. revert s Hn. induction n as [n IH] using lt_wf_ind. intros s -> Hmu.
  destruct (progress s Hmu) as [Hd|(i & s' & Hs)]; [by exists []; split; [simpl; lia|]|].
  pose proof (mstep_rank _ _ _ Hs) as Hlt. destruct (IH (ranks s') Hlt s' eq_refl) as (l & Hl & Hd); [by eapply mutex_step|].
  exists (i :: l). simpl. rewrite Hs. split; [lia|done].
Qed.

(** C36. Migrations of several embedded ledgers at once, in any order of their
    statements, are as if they had run one after the other: there is no
    deadlock (from every moment on some schedule of at most seven turns for each call lets
    all of them return) and no livelock (no schedule has more turns in which a
    statement is done); and when no call can go on all have returned, the
    mutex is free, and some order of the calls, each made alone with its own
    dialect and file system, leaves the databases as they are and returns to
    every call what it returned. *)
Theorem concurrent_migrations {GL : GooseLaws GO} ms g w l :
  let s := mrun (mstart ms g w) l in
  (∃ l', length l' ≤ 7 * length ms ∧ all_returned (mrun s l')) ∧
  effective (mstart ms g w) l ≤ 7 * length ms ∧
  ((∀ i, mstep s i = None) →
    all_returned s ∧ ∃ o, o ≡ₚ seq 0 (length ms) ∧ ms_world s = (serial g ms o w).2 ∧
    ∀ i m, ms !! i = Some m → ∃ r, ms_calls s !! i = Some (m, Returned r) ∧ (i, r) ∈ (serial g ms o w).1).
Proof.
  intros s. destruct (mrun_ok g ms w l) as (o & Hmu & [Hc Hnd Hin Hw Hres]). fold s in Hmu, Hc, Hin, Hw, Hres.
  rewrite <- (ranks_start ms g w). split_and!; [|apply effective_rank|].
  - destruct (finishes s Hmu) as (l' & Hl' & Hd). exists l'. split; [|done]. etransitivity; [done|].
    pose proof (ranks_run (mstart ms g w) l). unfold s. lia.
  - intros Hstuck. destruct (progress s Hmu) as [[Hd Hm]|(i & s' & Hs)]; [|by rewrite Hstuck in Hs]. split; [by split|].
    assert (Hall : ∀ i m, ms !! i = Some m → ∃ r, ms_calls s !! i = Some (m, Returned r)).
    { intros i m Hi. rewrite <- Hc, list_lookup_fmap in Hi. destruct (ms_calls s !! i) as [[m' p]|] eqn:Hci; [|done].
      injection Hi as ->. pose proof (proj1 (Forall_lookup _ _) Hd _ _ Hci) as Hp. destruct p; try done. by eexists. }
    exists o. split_and!; [|done|].
    + apply NoDup_Permutation; [done|apply NoDup_seq|]. intros i. rewrite Hin, elem_of_seq. split.
      * intros (m & p & r & Hi & _). apply lookup_lt_Some in Hi. rewrite <- Hc, length_fmap. lia.
      * intros [_ Hi]. destruct (lookup_lt_is_Some_2 ms i) as [m Hm']; [lia|]. destruct (Hall _ _ Hm') as [r Hr]. by exists m, (Returned r), r.
    + intros i m Hi. destruct (Hall _ _ Hi) as [r Hr]. exists r. split; [done|]. by eapply Hres.
Qed.
End Migrations.

(** ** A process with three embedded ledgers *)

(** Goose as two strings, what was set last; a database as the migrations run
    on it. *)
#[local] Instance goose_strings : Goose (string * string) (list (string * string * string)) string := {|
  sql_Open driver dsn := if (driver =s "sqlite") || (driver =s "pgx") then None else Some (ErrOther "unknown driver");
  goose_SetDialect d g := if (d =s "sqlite3") || (d =s "postgres") then (None, (d, g.2)) else (Some (ErrOther "unknown dialect"), g);
  goose_SetBaseFS fs g := (g.1, fs);
  goose_UpContext driver dsn dir g w := (None, w ++ [(dsn, g.1, g.2)]) |}.
#[local] Instance goose_strings_laws : GooseLaws goose_strings.
Proof.
  split; simpl.
  - intros d g g'. by destruct (_ || _).
  - intros d fs driver dsn dir g g' w Hd. by destruct (_ || _).
Qed.

Definition three_ledgers : list Migration :=
  [mkMigration "sqlite" "a.db" "sqlite files" "sqlite3"; mkMigration "pgx" "postgres://b" "crdb files" "postgres";
   mkMigration "mysql" "c" "sqlite files" "sqlite3"].
Definition three_turns : list nat := [0; 1; 2; 1; 0; 1; 1; 0; 1; 1; 0; 0; 1; 0; 0; 0; 0; 0].

Lemma concurrent_migrations_witness :
  let s := mrun (mstart three_ledgers ("", "") []) three_turns in
  all_returned s ∧ (∃ o, o ≡ₚ [0; 1; 2] ∧ ms_world s = (serial ("", "") three_ledgers o []).2) ∧
  ms_world s = [("postgres://b", "postgres", "crdb files"); ("a.db", "sqlite3", "sqlite files")].
Proof.
  intros s. assert (Hs : ∀ i, mstep s i = None).
  { assert (E0 : mstep s 0 = None) by (vm_compute; reflexivity). assert (E1 : mstep s 1 = None) by (vm_compute; reflexivity).
    assert (E2 : mstep s 2 = None) by (vm_compute; reflexivity). assert (Hlen : length (ms_calls s) = 3) by (vm_compute; reflexivity).
    intros [|[|[|i]]]; [exact E0|exact E1|exact E2|].
    unfold mstep. rewrite lookup_ge_None_2; [done|]. rewrite Hlen. lia. }
  destruct (concurrent_migrations three_ledgers ("", "") [] three_turns) as (_ & _ & Hend).
  destruct (Hend Hs) as [Hd (o & Ho & Hw & _)]. split; [exact Hd|]. split; [exists o; split; [exact Ho|exact Hw]|]. vm_compute. reflexivity.
Defined.
