(* ===== verification/Opening.v ===== *)
(** * Opening and closing the SQL stores

    [Open] and [Close] of src/internal/repo/sqlite/store.go and
    src/internal/repo/crdb/store.go, as actions on the world ([Embedded]). *)

From S2P Require Import Prelude Ledger Service Embedded.
From stdpp Require Import base strings list numbers.

Inductive DbAct :=
| SqlOpen (driver dsn : string)       (* database/sql *)
| Ping
| SetMaxOpenConns (n : Z)
| CloseDB
| ParseConfig (dsn : string)          (* pgxpool *)
| NewWithConfig (dsn : string)
| ClosePool.

(** [fmt.Errorf("what: %w", err)]: the domain code and the Connect code of
    [err] stay visible, the text gets longer. *)
Definition wrap (what : string) (e : error) : error :=
  match e with ErrOther s => ErrOther (what +:+ ": " +:+ s) | _ => e end.

Section Opening.
Context {W : World DbAct}.
Abbreviation Log := (TraceOf DbAct).

(** [sqlite.Store] and [crdb.Store]: a handle or a pool, and queries on it. *)
Inductive SqlStore := SqliteStore | CrdbStore.

Definition sqlite_dsn (dsn : string) : string := dsn +:+ "?_journal_mode=WAL&_busy_timeout=5000&_foreign_keys=on".

Definition sqlite_Open (dsn : string) : M error Log SqlStore :=
  attempt (SqlOpen "sqlite" (sqlite_dsn dsn)) (wrap "open sqlite");;
  attempt Ping (wrap "ping sqlite");;
  start (SetMaxOpenConns 1);;
  mret SqliteStore.

Definition crdb_Open (dsn : string) : M error Log SqlStore :=
  attempt (ParseConfig dsn) (wrap "parse dsn");;
  attempt (NewWithConfig dsn) (wrap "connect");;
  mret CrdbStore.

Definition sqlite_Close : M error Log unit := attempt CloseDB id.
(** [Pool.Close] returns nothing. *)
Definition crdb_Close : M error Log unit := start ClosePool.
Definition store_Close (s : SqlStore) : M error Log unit :=
  match s with SqliteStore => sqlite_Close | CrdbStore => crdb_Close end.

(** Handles and pools opened, and closed. *)
Definition db_opened (x : DbAct * option error) : bool :=
  match x with (SqlOpen _ _, None) | (NewWithConfig _, None) => true | _ => false end.
Definition db_closed (x : DbAct * option error) : bool :=
  match x with (CloseDB, _) | (ClosePool, _) => true | _ => false end.

(** A CockroachDB store that fails to open has opened no pool; one that
    opens has opened one, which [Close] closes. *)
Lemma crdb_Open_clean dsn :
  match crdb_Open dsn [] with
  | (Err _, log) => count db_opened log = 0%nat
  | (Ok s, log) => count db_opened log = 1%nat ∧ count db_closed (store_Close s log).2 = 1%nat
  end.
Proof.
  unfold crdb_Open, attempt, start, mbind, M_bind, mret, M_ret. simpl.
  destruct (act_fails (ParseConfig dsn) _); simpl; [done|]. by destruct (act_fails (NewWithConfig dsn) _).
Qed.

(** An opened SQLite store has one connection, so that its transactions run
    one at a time; but where the ping fails the handle is not closed: nobody
    else has it, and it stays open. *)
Lemma sqlite_Open_leaks dsn :
  match sqlite_Open dsn [] with
  | (Err _, log) => count db_closed log = 0%nat ∧ (count db_opened log = 1%nat ↔ (Ping, None) ∉ log ∧ log.*1 = [SqlOpen "sqlite" (sqlite_dsn dsn); Ping])
  | (Ok s, log) => count db_opened log = 1%nat ∧ log.*1 = [SqlOpen "sqlite" (sqlite_dsn dsn); Ping; SetMaxOpenConns 1] ∧
      count db_closed (store_Close s log).2 = 1%nat
  end.
Proof.
  unfold sqlite_Open, attempt, start, mbind, M_bind, mret, M_ret. simpl.
  destruct (act_fails (SqlOpen _ _) _) as [e|]; simpl; [split; [done|]; split; [done|by intros [_ [=]]]|].
  destruct (act_fails Ping _) as [e|]; simpl; [|done]. split; [done|]. split; [intros _|done]. split; [|done].
  intros [[=]|[[=]|[]%elem_of_nil]%elem_of_cons]%elem_of_cons.
Qed.
End Opening.
