(* ===== verification/Cmd.v ===== *)
(** * cmd/server, cmd/migrate and internal/observability

    The two programs from their flags to their end.  What they do to the
    world is a trace of actions (see Embedded); an exit is the error of the
    computation, with the status it gives to [os.Exit], which runs no
    deferred call.  Flags are given as parsed, [None] where the command line
    leaves one out; log lines are dropped. *)

From S2P Require Import Prelude Money Ledger Repo Service Worker Rpc Embedded.
From stdpp Require Import base gmap strings list numbers.

(** ** The world *)

Inductive Act :=
| NewResource (service : string)
| NewExporter (insecure : bool)
| SetTracerProvider (batcher : bool)
| ShutdownTracer
| Do (a : Action)
| ListenAndServe (addr : string)
| StartListener
| Signalled
| Shutdown (timeout : Z)
| StopSignals
| SetDialect (dialect : string)
| OpenDB (driver dsn : string)
| Goose (command : string) (path : list string)
| CloseDB.

Section Cmd.
Context {W : World Act} (Getenv : string → string).

(** ** internal/observability/otel.go *)

(** [cmp.Or] of two strings *)
Definition cmp_Or (a b : string) : string := if a =s "" then b else a.

(** Its last step, [SetTracerProvider], cannot fail. *)
Definition Setup (service : string) : M error (TraceOf Act) unit :=
  attempt (NewResource service) id;;
  let endpoint := cmp_Or (Getenv "OTEL_EXPORTER_OTLP_TRACES_ENDPOINT") (Getenv "OTEL_EXPORTER_OTLP_ENDPOINT") in
  (if endpoint =s "" then mret tt
   else attempt (NewExporter (Getenv "OTEL_EXPORTER_OTLP_INSECURE" =s "true")) id);;
  start (SetTracerProvider (negb (endpoint =s ""))).

(** ** cmd/server/main.go *)

Record ServerFlags := mkServerFlags { sf_backend : option string; sf_dsn : option string; sf_addr : option string }.

(** [if err != nil { log.Error; os.Exit(n) }] *)
Definition or_exit (n : Z) (m : M error (TraceOf Act) unit) : M Z (TraceOf Act) unit := λ tr,
  match m tr with (Ok a, tr') => (Ok a, tr') | (Err _, tr') => (Err n, tr') end.

(** The switch on the backend. *)
Definition openStore (backend dsn : string) : M Z (TraceOf Act) unit :=
  if backend =s "sqlite" then attempt (Do (OpenStore SQLite dsn)) (λ _, 1%Z)
  else if backend =s "crdb" then attempt (Do (OpenStore CRDB dsn)) (λ _, 1%Z)
  else throw 2%Z.

(** What the mux serves at a path. *)
Inductive Page := HealthPage | LedgerPage | NoPage.
Definition mux (path : string) : Page :=
  if path =s "/healthz" then HealthPage
  else if String.prefix "/ledger.v1.LedgerService/" path then LedgerPage else NoPage.

(** ** cmd/migrate/main.go *)

Record MigrateFlags := mkMigrateFlags {
  mf_backend : option string; mf_dir : option string; mf_dsn : option string; mf_args : list string }.

(** The switch on the backend: the driver, the DSN and the directory. *)
Definition migrateTarget (backend dsn : string) : M Z (TraceOf Act) (string * string * string) :=
  if backend =s "sqlite" then
    try (SetDialect "sqlite3");; mret ("sqlite", if dsn =s "" then "./ledger.db" else dsn, "sqlite")
  else if backend =s "crdb" then
    try (SetDialect "postgres");; mret ("pgx", if dsn =s "" then Getenv "DATABASE_URL" else dsn, "crdb")
  else throw 2%Z.

(** [Goose] holds the elements [filepath.Join] joins. *)
Definition migrate (f : MigrateFlags) : M Z (TraceOf Act) unit :=
  match mf_args f with
  | [] => throw 2%Z
  | cmd :: _ =>
      '(driver, dsn, sub) ← migrateTarget (default "sqlite" (mf_backend f)) (default "" (mf_dsn f));
      throw_if (dsn =s "") 2%Z;;
      attempt (OpenDB driver dsn) (λ _, 1%Z);;
      attempt (Goose cmd [default "internal/sdk/migrations" (mf_dir f); sub]) (λ _, 1%Z);;
      try CloseDB
  end.
End Cmd.

(** ** What the programs do *)

Definition db_touched (x : Act * option error) : bool := match x with (OpenDB _ _, None) => true | _ => false end.

Section Laws.
Context {W : World Act} (Getenv : string → string).

(** The tracing endpoint of the environment. *)
Definition tracing : bool :=
  negb (cmp_Or (Getenv "OTEL_EXPORTER_OTLP_TRACES_ENDPOINT") (Getenv "OTEL_EXPORTER_OTLP_ENDPOINT") =s "").
Definition setup_actions : list Act :=
  NewResource "ledger-service" ::
  (if tracing then [NewExporter (Getenv "OTEL_EXPORTER_OTLP_INSECURE" =s "true")] else []) ++ [SetTracerProvider tracing].

(** The startup actions, which end the program when they fail. *)
Definition startup (a : Act) : bool :=
  match a with NewResource _ | NewExporter _ | Do (OpenStore _ _) => true | _ => false end.
Definition start_failed (tr : TraceOf Act) : bool :=
  any (λ x, match x with (a, Some _) => startup a | _ => false end) tr.
(** Tracing was set up. *)
Definition traced (tr : TraceOf Act) : bool := any (λ x, match x with (SetTracerProvider _, _) => true | _ => false end) tr.

Lemma Setup_run tr :
  match or_exit 1 (Setup Getenv "ledger-service") tr with
  | (Ok _, tr') => tr' = tr ++ ((λ a, (a, None)) <$> setup_actions)
  | (Err n, tr') => n = 1%Z ∧ ∃ l, tr' = tr ++ l ∧ start_failed l = true ∧ traced l = false
  end.
Proof.
  unfold or_exit, Setup, setup_actions, tracing, attempt, start, mbind, M_bind, mret, M_ret, id.
  destruct (act_fails (NewResource _) tr) eqn:Hr.
  { split; [done|]. by exists [(NewResource "ledger-service", Some e)]. }
  destruct (cmp_Or _ _ =s ""); simpl; [by rewrite <- app_assoc|].
  destruct (act_fails (NewExporter _) _) eqn:He; simpl; rewrite <- !app_assoc; [|done].
  split; [done|]. by eexists.
Qed.

(** The store the flags name, if the server knows its backend. *)
Definition store_of (backend : string) : option string :=
  if backend =s "sqlite" then Some SQLite else if backend =s "crdb" then Some CRDB else None.

Lemma openStore_run backend dsn tr :
  openStore backend dsn tr =
  match store_of backend with
  | None => (Err 2%Z, tr)
  | Some b => (match act_fails (Do (OpenStore b dsn)) tr with None => Ok tt | Some _ => Err 1%Z end,
               tr ++ [(Do (OpenStore b dsn), act_fails (Do (OpenStore b dsn)) tr)])
  end.
Proof. unfold openStore, store_of, attempt, throw. by repeat case_match. Qed.

(** What [migrateTarget] chooses: dialect, driver, DSN and directory. *)
Definition target_of (backend dsn : string) : option (string * (string * string * string)) :=
  if backend =s "sqlite" then Some ("sqlite3", ("sqlite", if dsn =s "" then "./ledger.db" else dsn, "sqlite"))
  else if backend =s "crdb" then Some ("postgres", ("pgx", if dsn =s "" then Getenv "DATABASE_URL" else dsn, "crdb"))
  else None.

Lemma migrateTarget_run backend dsn tr :
  migrateTarget Getenv backend dsn tr =
  match target_of backend dsn with
  | None => (Err 2%Z, tr)
  | Some (dialect, t) => (Ok t, tr ++ [(SetDialect dialect, act_fails (SetDialect dialect) tr)])
  end.
Proof. unfold migrateTarget, target_of, mbind, M_bind, try, throw, mret, M_ret. by repeat case_match. Qed.

Lemma target_of_embedded `{PF : Platform} backend dsn dialect driver dsn' sub o tr :
  target_of backend dsn = Some (dialect, (driver, dsn', sub)) → op_Backend o = backend →
  act_fails (OpenStore backend (op_DSN o)) tr = None → (openBackend o tr).1 = Ok (Some (driver, dialect)).
Proof.
  unfold target_of, openBackend. intros Ht -> Hok.
  destruct (backend =s "sqlite") eqn:E1; [|destruct (backend =s "crdb") eqn:E2; [|done]]; simplify_eq;
    apply eqs_true in E1 || apply eqs_true in E2; subst backend;
    unfold mbind, M_bind, perform, attempt; simpl; unfold SQLite, CRDB; by rewrite Hok.
Qed.

End Laws.

(** Every path of the service is the ledger's, and the health check is no
    procedure: it answers without the tenant header and without the store. *)
Lemma mux_routes path p : route path = Some p → mux path = LedgerPage.
Proof.
  unfold route. destruct (sel _ _) as [[q p']|] eqn:Hs; [intros _|done].
  apply sel_some in Hs as [Hin Hq]. simpl in Hq. apply eqs_true in Hq as ->.
  assert (forallb (λ c : string * Procedure, match mux c.1 with LedgerPage => true | _ => false end) cases = true) as Hall by done.
  pose proof (check_all _ _ Hall _ Hin) as Hc. simpl in Hc. by destruct (mux q).
Qed.

(** The migration command runs the command it is given once, on one database
    that it opens and closes, with the driver and the dialect [NewEmbedded]
    uses for that backend; it exits with status 2 before it opens anything,
    and with status 1 when the database does not open or the migration
    fails. *)
Theorem migrate_lifecycle {W : World Act} {PF : Platform} (Getenv : string → string) (f : MigrateFlags) :
  match migrate Getenv f [] with
  | (Err n, tr) => (n = 2%Z ∧ count db_touched tr = 0%nat) ∨ n = 1%Z
  | (Ok _, tr) =>
      ∃ driver dialect dsn sub cmd args, mf_args f = cmd :: args ∧ dsn ≠ "" ∧
      tr.*1 = [SetDialect dialect; OpenDB driver dsn; Goose cmd [default "internal/sdk/migrations" (mf_dir f); sub]; CloseDB] ∧
      ∀ o tr', op_Backend o = default "sqlite" (mf_backend f) →
        act_fails (OpenStore (op_Backend o) (op_DSN o)) tr' = None →
        (openBackend o tr').1 = Ok (Some (driver, dialect))
  end.
Proof.
  unfold migrate. destruct (mf_args f) as [|cmd args]; [by left|].
  unfold mbind, M_bind at 1. rewrite migrateTarget_run.
  destruct (target_of _ _ _) as [[dialect [[driver dsn] sub]]|] eqn:Ht; [|by left].
  unfold throw_if, throw, attempt, try, mbind, M_bind, mret, M_ret. cbv beta iota.
  destruct (dsn =s "") eqn:Ed; [by left|].
  destruct (act_fails (OpenDB driver dsn) _); [by right|].
  destruct (act_fails (Goose _ _) _); [by right|].
  exists driver, dialect, dsn, sub, cmd, args. split_and!; [done|by intros ->|done|].
  intros o tr' Ho Hok. rewrite Ho in Hok. by eapply target_of_embedded.
Qed.
