(* ===== verification/ServerProcess.v ===== *)
(** * cmd/server/main.go: the server as a process

    The statements of [main] with their deferred calls, next to the goroutines
    it starts, the connections of the HTTP server, the deadline of the
    shutdown and the signals of the operator.  One step is one statement of
    [main], one deferred call, or one event of the others; [server_process] is
    about every reachable state.  [os.Exit] and the end of [main] stop
    everything; [os.Exit] runs no deferred call. *)

From S2P Require Import Prelude Money Ledger Repo Service Worker Rpc Embedded Cmd.
From stdpp Require Import base gmap strings list numbers relations.

(** ** State *)

Inductive Goroutine := GDispatcher | GScheduler | GListener.

Inductive Stmt :=
| SNotify              (* ctx, stop := signal.NotifyContext(...); defer stop() *)
| SSetup               (* observability.Setup; defer shutdownOtel *)
| SOpen                (* the switch on the backend; defer store.Close *)
| SGo (g : Goroutine)
| SAwait               (* <-ctx.Done() *)
| STimeout             (* context.WithTimeout; defer cancel() *)
| SShutdown            (* httpSrv.Shutdown is called *)
| SDrain.              (* and returns *)

Inductive Deferred := DStop | DTracer | DClose | DCancel.
#[export] Instance deferred_eq_dec : EqDecision Deferred.
Proof. solve_decision. Defined.
Inductive Loop := Unborn | Running | Returned.
(** The goroutine of the listener: spawned, listening, returned from
    [ListenAndServe] without having listened or after [Shutdown], or because
    accepting failed, which leaves the connections it had. *)
Inductive Listener := LUnborn | LSpawned | LListening | LReturned | LBroken.
Inductive Handle := HNone | HOpen | HClosed.

Record Proc := mkProc {
  pr_main : list Stmt;         (* the statements left *)
  pr_defers : list Deferred;   (* the deferred calls, the last first *)
  pr_exit : option Z;          (* the exit status, once the process has ended *)
  pr_done : bool;              (* ctx is done *)
  pr_disp : Loop; pr_sched : Loop; pr_http : Listener;
  pr_closing : bool;           (* Shutdown has been called *)
  pr_busy : nat;               (* connections that are not idle *)
  pr_deadline : bool;          (* the time of the shutdown is over *)
  pr_store : Handle;
  pr_trace : TraceOf Act;
}.

Definition main_body : list Stmt :=
  [SNotify; SSetup; SOpen; SGo GDispatcher; SGo GScheduler; SGo GListener; SAwait; STimeout; SShutdown].
Definition boot : Proc := mkProc main_body [] None false Unborn Unborn LUnborn false 0 false HNone [].

Section Server.
Context {W : World Act} (Getenv : string → string) (f : ServerFlags).
Abbreviation backend := (default "sqlite" (sf_backend f)).
Abbreviation dsn := (default "./ledger.db" (sf_dsn f)).

(** ** Steps *)

Definition set_main l s := mkProc l (pr_defers s) (pr_exit s) (pr_done s) (pr_disp s) (pr_sched s) (pr_http s)
  (pr_closing s) (pr_busy s) (pr_deadline s) (pr_store s) (pr_trace s).
Definition set_defers l s := mkProc (pr_main s) l (pr_exit s) (pr_done s) (pr_disp s) (pr_sched s) (pr_http s)
  (pr_closing s) (pr_busy s) (pr_deadline s) (pr_store s) (pr_trace s).
Definition set_exit n s := mkProc (pr_main s) (pr_defers s) (Some n) (pr_done s) (pr_disp s) (pr_sched s) (pr_http s)
  (pr_closing s) (pr_busy s) (pr_deadline s) (pr_store s) (pr_trace s).
Definition set_done s := mkProc (pr_main s) (pr_defers s) (pr_exit s) true (pr_disp s) (pr_sched s) (pr_http s)
  (pr_closing s) (pr_busy s) (pr_deadline s) (pr_store s) (pr_trace s).
Definition set_disp x s := mkProc (pr_main s) (pr_defers s) (pr_exit s) (pr_done s) x (pr_sched s) (pr_http s)
  (pr_closing s) (pr_busy s) (pr_deadline s) (pr_store s) (pr_trace s).
Definition set_sched x s := mkProc (pr_main s) (pr_defers s) (pr_exit s) (pr_done s) (pr_disp s) x (pr_http s)
  (pr_closing s) (pr_busy s) (pr_deadline s) (pr_store s) (pr_trace s).
Definition set_http x s := mkProc (pr_main s) (pr_defers s) (pr_exit s) (pr_done s) (pr_disp s) (pr_sched s) x
  (pr_closing s) (pr_busy s) (pr_deadline s) (pr_store s) (pr_trace s).
Definition set_closing s := mkProc (pr_main s) (pr_defers s) (pr_exit s) (pr_done s) (pr_disp s) (pr_sched s) (pr_http s)
  true (pr_busy s) (pr_deadline s) (pr_store s) (pr_trace s).
Definition set_busy n s := mkProc (pr_main s) (pr_defers s) (pr_exit s) (pr_done s) (pr_disp s) (pr_sched s) (pr_http s)
  (pr_closing s) n (pr_deadline s) (pr_store s) (pr_trace s).
Definition set_deadline s := mkProc (pr_main s) (pr_defers s) (pr_exit s) (pr_done s) (pr_disp s) (pr_sched s) (pr_http s)
  (pr_closing s) (pr_busy s) true (pr_store s) (pr_trace s).
Definition set_handle x s := mkProc (pr_main s) (pr_defers s) (pr_exit s) (pr_done s) (pr_disp s) (pr_sched s) (pr_http s)
  (pr_closing s) (pr_busy s) (pr_deadline s) x (pr_trace s).
Definition set_trace tr s := mkProc (pr_main s) (pr_defers s) (pr_exit s) (pr_done s) (pr_disp s) (pr_sched s) (pr_http s)
  (pr_closing s) (pr_busy s) (pr_deadline s) (pr_store s) tr.
(** [defer], and an action whose error is dropped. *)
Definition defer d s := set_defers (d :: pr_defers s) s.
Definition act a s := set_trace (pr_trace s ++ [(a, act_fails a (pr_trace s))]) s.

(** A call that ends the program with its error. *)
Definition must (m : M Z (TraceOf Act) unit) (ok : Proc → Proc) (s : Proc) : Proc :=
  match m (pr_trace s) with
  | (Ok _, tr) => ok (set_trace tr s)
  | (Err n, tr) => set_exit n (set_trace tr s)
  end.

(** One statement of [main], with the statements after it; [None]: blocked. *)
Definition exec (st : Stmt) (rest : list Stmt) (s : Proc) : option Proc :=
  let next := set_main rest in
  match st with
  | SNotify => Some (next (defer DStop s))
  | SSetup => Some (must (or_exit 1 (Setup Getenv "ledger-service")) (λ s, next (defer DTracer s)) s)
  | SOpen => Some (must (openStore backend dsn) (λ s, next (defer DClose (set_handle HOpen s))) s)
  | SGo GDispatcher =>
      Some (next (set_disp Running (act (Do (StartDispatcher (NewDispatcher (mkOutboxConfig 250000000 100)))) s)))
  | SGo GScheduler => Some (next (set_sched Running (act (Do (StartScheduler defaultConfig)) s)))
  | SGo GListener => Some (next (set_http LSpawned (act StartListener s)))
  | SAwait => if pr_done s then Some (next s) else None
  | STimeout => Some (next (defer DCancel s))
  | SShutdown => Some (set_main (SDrain :: rest) (set_closing (act (Shutdown 10000000000) s)))
  | SDrain => if (pr_busy s =? 0)%nat || pr_deadline s then Some (next s) else None
  end.

Definition run_deferred (d : Deferred) (s : Proc) : Proc :=
  match d with
  | DCancel => s
  | DClose => set_handle HClosed (act (Do CloseStore) s)
  | DTracer => act ShutdownTracer s
  | DStop => set_done (act StopSignals s)
  end.

Definition main_step (s : Proc) : option Proc :=
  match pr_main s with
  | st :: rest => exec st rest s
  | [] => match pr_defers s with
          | d :: ds => Some (run_deferred d (set_defers ds s))
          | [] => Some (set_exit 0 s)
          end
  end.

(** What happens next: a step of [main]; an interrupt or SIGTERM; a tick of a
    loop, or its return; the call of [ListenAndServe], its return; a
    connection that becomes busy, or idle; the deadline of the shutdown. *)
Inductive Label := LMain | LSignal | LTick (g : Goroutine) | LReturn (g : Goroutine) | LListen | LAccept | LIdle | LDeadline.

Definition is_running (x : Loop) : bool := match x with Running => true | _ => false end.
Definition loop_step (l : Label) (s : Proc) : option Proc :=
  match l with
  | LTick GDispatcher => if is_running (pr_disp s) then Some s else None
  | LTick GScheduler => if is_running (pr_sched s) then Some s else None
  | LReturn GDispatcher => if is_running (pr_disp s) && pr_done s then Some (set_disp Returned s) else None
  | LReturn GScheduler => if is_running (pr_sched s) && pr_done s then Some (set_sched Returned s) else None
  | _ => None
  end.

(** The HTTP server: it does not listen once [Shutdown] was called, and no
    connection gets busy from then on. *)
Definition http_step (addr : string) (l : Label) (s : Proc) : option Proc :=
  match l, pr_http s with
  | LListen, LSpawned =>
      if pr_closing s then Some (set_http LReturned s)
      else Some (set_http (match act_fails (ListenAndServe addr) (pr_trace s) with None => LListening | Some _ => LReturned end)
                   (act (ListenAndServe addr) s))
  | LReturn GListener, LListening => Some (set_http (if pr_closing s then LReturned else LBroken) s)
  | LAccept, (LListening | LBroken) => if pr_closing s then None else Some (set_busy (S (pr_busy s)) s)
  | LIdle, _ => match pr_busy s with O => None | S n => Some (set_busy n s) end
  | _, _ => None
  end.

Definition fire (l : Label) (s : Proc) : option Proc :=
  match pr_exit s with
  | Some _ => None
  | None =>
      match l with
      | LMain => main_step s
      | LSignal => if bool_decide (DStop ∈ pr_defers s) then Some (set_done (set_trace (pr_trace s ++ [(Signalled, None)]) s)) else None
      | LDeadline => match pr_main s with SDrain :: _ => Some (set_deadline s) | _ => None end
      | LTick _ | LReturn GDispatcher | LReturn GScheduler => loop_step l s
      | _ => http_step (default ":8080" (sf_addr f)) l s
      end
  end.

(** A run of given steps, and how many of them are steps of [main]. *)
Fixpoint fires (ls : list Label) (s : Proc) : option Proc :=
  match ls with [] => Some s | l :: ls' => s' ← fire l s; fires ls' s' end.
Definition is_main (l : Label) : bool := match l with LMain => true | _ => false end.
Definition main_steps (ls : list Label) : nat := length (filter (λ l, is_main l) ls).
End Server.

(** ** What holds in every state *)

(** The actions of [main] itself. *)
Definition own (a : Act) : bool := match a with Signalled | ListenAndServe _ => false | _ => true end.
Definition own_acts (tr : TraceOf Act) : list Act := filter (λ a, own a) tr.*1.
Definition born (x : Loop) : bool := match x with Unborn => false | _ => true end.
Definition spawned (x : Listener) : bool := match x with LUnborn => false | _ => true end.
(** Nothing was opened and nothing was started. *)
Definition untouched (s : Proc) : Prop :=
  pr_store s = HNone ∧ pr_disp s = Unborn ∧ pr_sched s = Unborn ∧ pr_http s = LUnborn ∧ pr_busy s = 0%nat.

Lemma own_acts_app tr tr' : own_acts (tr ++ tr') = own_acts tr ++ own_acts tr'.
Proof. unfold own_acts. by rewrite fmap_app, list.filter_app. Qed.
Lemma start_failed_app tr tr' : start_failed (tr ++ tr') = start_failed tr || start_failed tr'.
Proof. apply existsb_app. Qed.
Section Invariant.
Context {W : World Act} (Getenv : string → string) (f : ServerFlags).
Abbreviation backend := (default "sqlite" (sf_backend f)).
Abbreviation dsn := (default "./ledger.db" (sf_dsn f)).
Abbreviation addr := (default ":8080" (sf_addr f)).

(** The actions of a server that starts, on the backend [b], and those of its
    end, in the order of its statements and deferred calls. *)
Definition setup_acts : list Act := setup_actions Getenv.
Definition open_acts (b : string) : list Act := setup_acts ++ [Do (OpenStore b dsn)].
Definition disp_acts b : list Act := open_acts b ++ [Do (StartDispatcher dispatcherConfig)].
Definition sched_acts b : list Act := disp_acts b ++ [Do (StartScheduler defaultConfig)].
Definition serve_acts b : list Act := sched_acts b ++ [StartListener].
Definition shut_acts b : list Act := serve_acts b ++ [Shutdown 10000000000].
Definition closed_acts b : list Act := shut_acts b ++ [Do CloseStore].
Definition tracer_acts b : list Act := closed_acts b ++ [ShutdownTracer].
Definition all_acts b : list Act := tracer_acts b ++ [StopSignals].

(** Where [main] is: its statements left, its deferred calls, the store, what
    it has started (dispatcher, scheduler, listener), whether ctx must be
    done, whether it called [Shutdown] and is back from it, and its actions. *)
Record Stage := mkStage {
  pt_main : list Stmt; pt_defers : list Deferred; pt_store : Handle;
  pt_disp : bool; pt_sched : bool; pt_http : bool; pt_done : bool; pt_closing : bool; pt_drained : bool; pt_acts : list Act }.

Definition early : list Stage :=
  [mkStage main_body [] HNone false false false false false false [];
   mkStage (drop 1 main_body) [DStop] HNone false false false false false false [];
   mkStage (drop 2 main_body) [DTracer; DStop] HNone false false false false false false setup_acts].
Definition late (b : string) : list Stage :=
  [mkStage (drop 3 main_body) [DClose; DTracer; DStop] HOpen false false false false false false (open_acts b);
   mkStage (drop 4 main_body) [DClose; DTracer; DStop] HOpen true false false false false false (disp_acts b);
   mkStage (drop 5 main_body) [DClose; DTracer; DStop] HOpen true true false false false false (sched_acts b);
   mkStage (drop 6 main_body) [DClose; DTracer; DStop] HOpen true true true false false false (serve_acts b);
   mkStage (drop 7 main_body) [DClose; DTracer; DStop] HOpen true true true true false false (serve_acts b);
   mkStage (drop 8 main_body) [DCancel; DClose; DTracer; DStop] HOpen true true true true false false (serve_acts b);
   mkStage [SDrain] [DCancel; DClose; DTracer; DStop] HOpen true true true true true false (shut_acts b);
   mkStage [] [DCancel; DClose; DTracer; DStop] HOpen true true true true true true (shut_acts b);
   mkStage [] [DClose; DTracer; DStop] HOpen true true true true true true (shut_acts b);
   mkStage [] [DTracer; DStop] HClosed true true true true true true (closed_acts b);
   mkStage [] [DStop] HClosed true true true true true true (tracer_acts b);
   mkStage [] [] HClosed true true true true true true (all_acts b)].
Definition stages : list Stage := early ++ from_option late [] (store_of backend).

Record at_stage (s : Proc) (p : Stage) : Prop := {
  ap_exit : pr_exit s = None;
  ap_main : pr_main s = pt_main p; ap_defers : pr_defers s = pt_defers p; ap_store : pr_store s = pt_store p;
  ap_disp : born (pr_disp s) = pt_disp p; ap_sched : born (pr_sched s) = pt_sched p; ap_http : spawned (pr_http s) = pt_http p;
  ap_done : pt_done p = true → pr_done s = true;
  ap_closing : pr_closing s = pt_closing p;
  ap_drained : pt_drained p = true → pr_busy s = 0%nat ∨ pr_deadline s = true;
  ap_idle : pt_http p = false → pr_busy s = 0%nat;
  ap_started : start_failed (pr_trace s) = false;
  ap_acts : own_acts (pr_trace s) = pt_acts p;
}.

(** A process that has ended. *)
Definition ended (s : Proc) (n : Z) : Prop :=
  pr_exit s = Some n ∧
  n = (if start_failed (pr_trace s) then 1 else match store_of backend with Some _ => 0 | None => 2 end)%Z ∧
  (n ≠ 0%Z → untouched s) ∧
  (n = 0%Z → pr_store s = HClosed ∧ pr_done s = true ∧ pr_closing s = true ∧ (pr_busy s = 0%nat ∨ pr_deadline s = true) ∧
    ∃ b, store_of backend = Some b ∧ own_acts (pr_trace s) = all_acts b).

Definition proc_ok (s : Proc) : Prop := (∃ p, p ∈ stages ∧ at_stage s p) ∨ ∃ n, ended s n.

Lemma stages_all p : p ∈ stages →
  (pt_drained p = true → pt_closing p = true) ∧ (pt_store p = HNone → pt_http p = false) ∧
  (pt_store p = HClosed → pt_done p = true ∧ pt_drained p = true).
Proof.
  intros Hp. unfold stages in Hp. apply elem_of_app in Hp as [Hp|Hp].
  - repeat (apply elem_of_cons in Hp as [->|Hp]; [done|]). by apply not_elem_of_nil in Hp.
  - destruct (store_of backend) as [b|]; [|by apply not_elem_of_nil in Hp]. simpl in Hp.
    repeat (apply elem_of_cons in Hp as [->|Hp]; [done|]). by apply not_elem_of_nil in Hp.
Qed.

(** What is not a step of [main] leaves [main] where it is. *)
Lemma aside_ok l s s' p :
  l ≠ LMain → fire Getenv f l s = Some s' → p ∈ stages → at_stage s p → at_stage s' p.
Proof.
  intros Hl Hf Hin [He Hm Hd Hs H1 H2 H3 Hdone Hc Hdr Hi Ht Ha]. unfold fire in Hf. rewrite He in Hf. destruct (stages_all p Hin) as [Hp _].
  assert (Hsig : ∀ a r, own a = false → startup a = false →
    start_failed (pr_trace s ++ [(a, r)]) = false ∧ own_acts (pr_trace s ++ [(a, r)]) = pt_acts p).
  { intros a r Hown Hst. rewrite start_failed_app, own_acts_app, Ht, Ha. unfold start_failed, own_acts, any. simpl.
    rewrite ?Hst, filter_cons, decide_False by (rewrite Hown; by intros []). rewrite filter_nil, app_nil_r. destruct r; by rewrite ?Hst. }
  destruct l as [| |g|g| | | |]; [done|..].
  - case_bool_decide; [|done]. injection Hf as <-. destruct (Hsig Signalled None); [done..|]. by split.
  - destruct g; simpl in Hf; [| |done]; destruct (is_running _); simplify_eq; by split.
  - destruct g; simpl in Hf.
    + destruct (pr_disp s) eqn:E; simpl in Hf; [done| |done]. destruct (pr_done s) eqn:Ed; [|done]. injection Hf as <-. by split.
    + destruct (pr_sched s) eqn:E; simpl in Hf; [done| |done]. destruct (pr_done s) eqn:Ed; [|done]. injection Hf as <-. by split.
    + destruct (pr_http s) eqn:E; simpl in Hf; try done. injection Hf as <-. split; try done; simpl; by destruct (pr_closing s).
  - simpl in Hf. destruct (pr_http s) eqn:E; try done.
    destruct (Hsig (ListenAndServe addr) (act_fails (ListenAndServe addr) (pr_trace s))); [done..|].
    destruct (pr_closing s) eqn:Ec; injection Hf as <-; split; simpl; first [done|congruence|by destruct (act_fails _ _)].
  - simpl in Hf.
    assert (Hacc : pr_closing s = false → spawned (pr_http s) = true → at_stage (set_busy (S (pr_busy s)) s) p).
    { intros Ec Eh. split; try done; simpl.
      - intros Hd'. rewrite (Hp Hd') in Hc. congruence.
      - congruence. }
    destruct (pr_http s) eqn:E; try done; destruct (pr_closing s) eqn:Ec; try done; injection Hf as <-; by apply Hacc.
  - simpl in Hf. assert (Hidle : ∀ n, pr_busy s = S n → at_stage (set_busy n s) p).
    { intros n En. split; try done; simpl; [|intros Hh; specialize (Hi Hh); congruence].
      intros Hd'. destruct (Hdr Hd'); [congruence|by right]. }
    destruct (pr_http s); destruct (pr_busy s) eqn:Eb; try done; injection Hf as <-; by apply Hidle.
  - destruct (pr_main s) as [|[] ?] eqn:Em; try done. injection Hf as <-. split; simpl; first [done|congruence|by right].
Qed.

(** The clean startup: only its own actions, none of them failed. *)
Lemma clean_acts l : Forall (λ a, own a = true) l →
  own_acts ((λ a, (a, None)) <$> l) = l ∧ start_failed ((λ a, (a, None)) <$> l) = false.
Proof.
  intros Hl. split; [|by induction l as [|a l IH]; [|apply list.Forall_cons in Hl as [_ Hl]; auto]].
  unfold own_acts. rewrite <- list_fmap_compose, list_fmap_id.
  induction Hl as [|a l Ha _ IH]; [done|]. rewrite filter_cons, decide_True by (by rewrite Ha). by rewrite IH.
Qed.

(** An action of [main] whose error does not matter. *)
Lemma act_ok a s l :
  own a = true → startup a = false → start_failed (pr_trace s) = false → own_acts (pr_trace s) = l →
  start_failed (pr_trace (act a s)) = false ∧ own_acts (pr_trace (act a s)) = l ++ [a].
Proof.
  intros Ho Hs Ht <-. unfold act. simpl. rewrite start_failed_app, own_acts_app, Ht. unfold start_failed, own_acts, any. simpl.
  rewrite Hs, filter_cons, decide_True by (by rewrite Ho). by destruct (act_fails _ _).
Qed.

Lemma main_early_ok s s' p :
  main_step Getenv f s = Some s' → p ∈ early → at_stage s p → proc_ok s'.
Proof.
  intros Hf Hp [He Hm Hd Hs H1 H2 H3 Hdone Hc Hdr Hi Ht Ha]. unfold main_step in Hf. rewrite Hm in Hf.
  assert (Hun : pt_store p = HNone → pt_disp p = false → pt_sched p = false → pt_http p = false → untouched s).
  { intros E0 E1 E2 E3. rewrite E1 in H1. rewrite E2 in H2. rewrite E3 in H3. split_and!; [congruence| | | |by apply Hi].
    - by destruct (pr_disp s).
    - by destruct (pr_sched s).
    - by destruct (pr_http s). }
  repeat (apply elem_of_cons in Hp as [->|Hp]); [..|by apply not_elem_of_nil in Hp]; simpl in *; specialize (Hun eq_refl eq_refl eq_refl eq_refl).
  - injection Hf as <-. left. eexists. split; [by apply elem_of_app; left; right; left|]. split; simpl; first [done|congruence].
  - injection Hf as <-. unfold must. pose proof (Setup_run Getenv (pr_trace s)) as Hrun.
    destruct (or_exit 1 _ _) as [[[]|n] tr].
    + left. eexists. split; [by apply elem_of_app; left; right; right; left|]. subst tr.
      destruct (clean_acts (setup_actions Getenv)) as [C1 C2]; [unfold setup_actions; destruct (tracing Getenv); by repeat constructor|].
      split; simpl; rewrite ?start_failed_app, ?own_acts_app, ?Ht, ?Ha, ?C1, ?C2; first [done|congruence].
    + destruct Hrun as [-> (l & -> & Hl & _)]. right. exists 1%Z. split; [done|]. simpl. rewrite start_failed_app, Hl, orb_true_r.
      done.
  - injection Hf as <-. unfold must. rewrite openStore_run. destruct (store_of backend) as [b|] eqn:Hb.
    + destruct (act_fails _ _) as [e|] eqn:Hr.
      * right. exists 1%Z. split; [done|]. simpl. rewrite start_failed_app. unfold start_failed at 2. simpl. by rewrite orb_true_r.
      * left. eexists. split; [apply elem_of_app; right; rewrite Hb; by left|].
        split; simpl; rewrite ?start_failed_app, ?own_acts_app, ?Ht, ?Ha; first [done|congruence].
    + right. exists 2%Z. split; [done|]. simpl. rewrite Ht, Hb. done.
Qed.

Ltac next_stage k :=
  left; eexists; split; [apply elem_of_app; right; lazymatch goal with Hb : store_of _ = Some _ |- _ => rewrite Hb end;
    apply list_elem_of_lookup_2 with k; reflexivity|].

Lemma main_late_ok b s s' p :
  main_step Getenv f s = Some s' → store_of backend = Some b → p ∈ late b → at_stage s p → proc_ok s'.
Proof.
  intros Hf Hb Hp [He Hm Hd Hs H1 H2 H3 Hdone Hc Hdr Hi Ht Ha]. unfold main_step in Hf. rewrite Hm in Hf.
  assert (Hact : ∀ a, own a = true → startup a = false →
    start_failed (pr_trace (act a s)) = false ∧ own_acts (pr_trace (act a s)) = pt_acts p ++ [a]) by (intros; by apply act_ok).
  simpl in Hp. repeat (apply elem_of_cons in Hp as [->|Hp]); [..|by apply not_elem_of_nil in Hp]; simpl in *.
  - injection Hf as <-. destruct (Hact (Do (StartDispatcher dispatcherConfig))); [done..|]. next_stage 1%nat. by split.
  - injection Hf as <-. destruct (Hact (Do (StartScheduler defaultConfig))); [done..|]. next_stage 2%nat. by split.
  - injection Hf as <-. destruct (Hact StartListener); [done..|]. next_stage 3%nat. by split.
  - destruct (pr_done s) eqn:Ed; [|done]. injection Hf as <-. next_stage 4%nat. by split.
  - injection Hf as <-. next_stage 5%nat. split; simpl; first [done|congruence].
  - injection Hf as <-. destruct (Hact (Shutdown 10000000000)); [done..|]. next_stage 6%nat. by split.
  - destruct (_ || _) eqn:Ew; [|done]. injection Hf as <-. next_stage 7%nat. split; try done. intros _. simpl.
    apply orb_true_iff in Ew as [Ew|Ew]; [left; by apply Nat.eqb_eq|by right].
  - rewrite Hd in Hf. injection Hf as <-. next_stage 8%nat. by split.
  - rewrite Hd in Hf. injection Hf as <-. destruct (Hact (Do CloseStore)); [done..|]. next_stage 9%nat. by split.
  - rewrite Hd in Hf. injection Hf as <-. destruct (Hact ShutdownTracer); [done..|]. next_stage 10%nat. by split.
  - rewrite Hd in Hf. injection Hf as <-. destruct (Hact StopSignals); [done..|]. next_stage 11%nat. by split.
  - rewrite Hd in Hf. injection Hf as <-. right. exists 0%Z. split; [done|]. simpl. rewrite Ht, Hb.
    split_and!; [done|done|]. intros _. split_and!; [done|by apply Hdone|done|by apply Hdr|by exists b].
Qed.

Lemma fire_ok l s s' : fire Getenv f l s = Some s' → proc_ok s → proc_ok s'.
Proof.
  intros Hf [(p & Hp & Hat)|(n & Hn & _)]; [|unfold fire in Hf; by rewrite Hn in Hf].
  assert (l = LMain ∨ l ≠ LMain) as [->|Hl] by (destruct l; by (left; done) || (right; done)).
  - unfold fire in Hf. rewrite (ap_exit _ _ Hat) in Hf. pose proof Hp as Hp'. apply elem_of_app in Hp' as [He|Hlate]; [by eapply main_early_ok|].
    destruct (store_of backend) as [b|] eqn:Hb; [|by apply not_elem_of_nil in Hlate]. by eapply main_late_ok.
  - left. exists p. split; [done|]. by eapply aside_ok.
Qed.

Lemma fires_ok ls s s' : fires Getenv f ls s = Some s' → proc_ok s → proc_ok s'.
Proof.
  revert s. induction ls as [|l ls IH]; intros s; simpl; [by intros [= ->]|].
  destruct (fire Getenv f l s) as [s1|] eqn:E; simpl; [|done]. intros Hs Hok. eapply IH; [done|]. by eapply fire_ok.
Qed.
Lemma boot_ok : proc_ok boot.
Proof. left. eexists. split; [by apply elem_of_app; left; left|]. by split. Qed.

(** *** [main] does not run for ever *)

(** A bound on the steps [main] still has to do. *)
Definition weight (st : Stmt) : nat :=
  match st with SNotify | SSetup | SOpen | STimeout | SShutdown => 2 | SGo _ | SAwait | SDrain => 1 end.
Definition to_do (s : Proc) : nat :=
  match pr_exit s with Some _ => 0 | None => S (sum_list (weight <$> pr_main s) + length (pr_defers s)) end.

Lemma main_step_to_do s s' : pr_exit s = None → main_step Getenv f s = Some s' → (to_do s' < to_do s)%nat.
Proof.
  intros He. assert (Hto : to_do s = S (sum_list (weight <$> pr_main s) + length (pr_defers s))) by (unfold to_do; by rewrite He).
  assert (Hex : ∀ n s1, (to_do (set_exit n s1) < to_do s)%nat) by (intros; rewrite Hto; unfold to_do; simpl; lia).
  assert (Hnext : ∀ s1, pr_exit s1 = None → (sum_list (weight <$> pr_main s1) + length (pr_defers s1) < sum_list (weight <$> pr_main s) + length (pr_defers s))%nat →
    (to_do s1 < to_do s)%nat) by (intros s1 E1 Hlt; rewrite Hto; unfold to_do; rewrite E1; lia).
  unfold main_step. destruct (pr_main s) as [|st rest] eqn:Em.
  - destruct (pr_defers s) as [|d ds] eqn:Ed; intros [= <-]; [apply Hex|]. destruct d; apply Hnext; simpl; rewrite ?Em; first [done|csimpl; lia].
  - change (sum_list (weight <$> st :: rest)) with (weight st + sum_list (weight <$> rest))%nat in Hnext.
    intros Hs. destruct st as [| | |[]| | | |]; simpl in Hs; unfold must in Hs; repeat case_match; simplify_eq;
      first [apply Hex|apply Hnext; [done|csimpl; lia]].
Qed.

Lemma fire_to_do l s s' :
  fire Getenv f l s = Some s' → (to_do s' + (if is_main l then 1 else 0) ≤ to_do s)%nat.
Proof.
  assert (Hsame : ∀ s1, pr_exit s1 = pr_exit s → pr_main s1 = pr_main s → pr_defers s1 = pr_defers s → (to_do s1 + 0 ≤ to_do s)%nat)
    by (intros s1 E1 E2 E3; unfold to_do; rewrite E1, E2, E3; lia).
  unfold fire. destruct (pr_exit s) eqn:He; [done|]. destruct l as [| |[]|[]| | | |]; simpl.
  { intros Hf. apply main_step_to_do in Hf; [lia|done]. }
  all: repeat case_match; intros ?; simplify_eq; apply Hsame; simpl; congruence.
Qed.

Lemma fires_to_do ls s s' : fires Getenv f ls s = Some s' → (to_do s' + main_steps ls ≤ to_do s)%nat.
Proof.
  revert s. induction ls as [|l ls IH]; intros s; simpl; [intros [= ->]; unfold main_steps; simpl; lia|].
  destruct (fire Getenv f l s) as [s1|] eqn:E; simpl; [|done]. intros Hs%IH. apply fire_to_do in E.
  unfold main_steps in *. rewrite filter_cons. destruct l; simpl in *; lia.
Qed.

(** [main] is blocked only while it waits for a signal. *)
Definition waits (s : Proc) : Prop := head (pr_main s) = Some SAwait ∧ pr_done s = false.
Lemma main_blocked s :
  main_step Getenv f s = None → waits s ∨ ∃ rest, pr_main s = SDrain :: rest.
Proof.
  unfold main_step, waits. destruct (pr_main s) as [|[| | |[]| | | |] rest]; simpl; try done; [by destruct (pr_defers s)| |by eauto].
  destruct (pr_done s); [done|by left].
Qed.
Lemma main_moves s : pr_exit s = None → waits s ∨ ∃ l s', l ∈ [LMain; LDeadline] ∧ fire Getenv f l s = Some s'.
Proof.
  intros He. destruct (main_step Getenv f s) as [s'|] eqn:E.
  - right. exists LMain, s'. split; [by left|]. unfold fire. by rewrite He.
  - apply main_blocked in E as [?|[rest E]]; [by left|]. right. exists LDeadline, (set_deadline s). split; [by right; left|].
    unfold fire. by rewrite He, E.
Qed.
End Invariant.

(** C37. The server program as a process, in any run: whatever fails, whatever
    its flags and environment say, and however the steps of [main], the two
    loops, the listener, the connections, the signals and the deadline of the
    shutdown interleave.

    If it has ended, its status is 1 exactly when tracing or the store could
    not be set up, 2 exactly when they did not fail but the backend is
    unknown, and 0 otherwise.  With a status other than 0 no store was opened
    and no goroutine started; with status 0 it did the actions of its life in
    this order, one store opened and closed, and the deferred calls last
    first.  While connections are busy the store is open, and it is closed only
    once [Shutdown] was called and no connection is busy or the deadline has
    passed.  [main] is stuck only while it waits for a signal, and it never
    takes more than fifteen steps. *)
Theorem server_process {W : World Act} (Getenv : string → string) (f : ServerFlags) (ls : list Label) (s : Proc) :
  fires Getenv f ls boot = Some s →
  let known := store_of (default "sqlite" (sf_backend f)) in
  (∀ n, pr_exit s = Some n →
     n = (if start_failed (pr_trace s) then 1 else match known with Some _ => 0 | None => 2 end)%Z ∧
     (n ≠ 0%Z → untouched s) ∧
     (n = 0%Z → pr_store s = HClosed ∧ ∃ b, known = Some b ∧ own_acts (pr_trace s) =
        setup_actions Getenv ++
        [Do (OpenStore b (default "./ledger.db" (sf_dsn f))); Do (StartDispatcher dispatcherConfig);
         Do (StartScheduler defaultConfig); StartListener; Shutdown 10000000000; Do CloseStore; ShutdownTracer; StopSignals])) ∧
  (pr_busy s ≠ 0%nat → pr_store s = HOpen ∨ pr_store s = HClosed ∧ pr_deadline s = true) ∧
  (pr_store s = HClosed → pr_done s = true ∧ pr_closing s = true) ∧
  (pr_exit s = None → waits s ∨ ∃ l s', l ∈ [LMain; LDeadline] ∧ fire Getenv f l s = Some s') ∧
  (main_steps ls ≤ 15)%nat.
Proof.
  intros Hrun known. pose proof (fires_ok Getenv f _ _ _ Hrun (boot_ok Getenv f)) as Hok.
  pose proof (fires_to_do Getenv f _ _ _ Hrun) as Hsteps.
  split; [|split; [|split; [|split; [apply main_moves|unfold to_do in Hsteps at 2; simpl in Hsteps; lia]]]].
  - intros n Hn. destruct Hok as [(p & _ & Hat)|(m & Hm & Hst & Hno & Hyes)]; [by rewrite (ap_exit _ _ Hat) in Hn|].
    rewrite Hm in Hn. injection Hn as <-. split; [exact Hst|]. split; [exact Hno|]. intros H0.
    destruct (Hyes H0) as (Hc & _ & _ & _ & b & Hb & Ha). split; [exact Hc|]. exists b. split; [exact Hb|]. rewrite Ha.
    unfold all_acts, tracer_acts, closed_acts, shut_acts, serve_acts, sched_acts, disp_acts, open_acts, setup_acts.
    by rewrite <- !app_assoc.
  - intros Hb. destruct Hok as [(p & Hp & [_ _ _ Hs _ _ _ _ _ Hdr Hi _ _])|(m & _ & _ & Hno & Hyes)].
    + destruct (stages_all _ _ p Hp) as (_ & P1 & P2). destruct (pt_store p) eqn:Ep; rewrite Hs; [by destruct Hb; auto|by left|].
      right. split; [done|]. by destruct (Hdr (proj2 (P2 eq_refl))).
    + destruct (decide (m = 0%Z)) as [->|Hm]; [|by destruct (Hno Hm) as (_ & _ & _ & _ & ?)].
      destruct (Hyes eq_refl) as (Hc & _ & _ & [?|?] & _); [done|by right].
  - intros Hc. destruct Hok as [(p & Hp & [_ _ _ Hs _ _ _ Hd Hcl _ _ _ _])|(m & _ & _ & Hno & Hyes)].
    + destruct (stages_all _ _ p Hp) as (P0 & _ & P2). rewrite Hs in Hc. destruct (P2 Hc) as [Hd' Hdr].
      split; [by apply Hd|]. rewrite Hcl. by apply P0.
    + destruct (decide (m = 0%Z)) as [->|Hm]; [by destruct (Hyes eq_refl) as (_ & ? & ? & _)|].
      destruct (Hno Hm) as (E & _). by rewrite E in Hc.
Qed.

(** ** Runs *)

(** Everything works; or the port is taken. *)
Definition calm : World Act := {| act_fails _ _ := None |}.
Definition port_taken : World Act := {| act_fails a _ := match a with ListenAndServe _ => Some (ErrOther "address already in use") | _ => None end |}.
Definition no_env : string → string := λ _, "".
Definition flags (backend : string) : ServerFlags := mkServerFlags (Some backend) None None.

(** Starts, serves two connections, and shuts down with one still busy. *)
Definition serving : list Label :=
  replicate 6 LMain ++ [LListen; LTick GDispatcher; LAccept; LAccept; LTick GScheduler; LSignal; LMain; LMain; LMain; LReturn GListener; LIdle].

(** Ends in good order; or at once, its backend being unknown. *)
Definition in_order : list Label := serving ++ [LIdle] ++ replicate 6 LMain.
Definition after (w : World Act) (backend : string) (ls : list Label) : Proc :=
  default boot (fires (W:=w) no_env (flags backend) ls boot).

Lemma server_process_witness :
  (let s := after calm "sqlite" in_order in
   pr_exit s = Some 0%Z ∧ pr_store s = HClosed ∧ own_acts (pr_trace s) = all_acts no_env (flags "sqlite") SQLite) ∧
  (let s := after calm "dynamodb" (replicate 3 LMain) in pr_exit s = Some 2%Z ∧ untouched s).
Proof.
  assert (E : fires (W:=calm) no_env (flags "sqlite") in_order boot = Some (after calm "sqlite" in_order)) by (vm_compute; reflexivity).
  assert (E' : fires (W:=calm) no_env (flags "dynamodb") (replicate 3 LMain) boot = Some (after calm "dynamodb" (replicate 3 LMain)))
    by (vm_compute; reflexivity).
  destruct (server_process no_env (flags "sqlite") _ _ E) as (Hend & _).
  destruct (server_process no_env (flags "dynamodb") _ _ E') as (Hend' & _).
  assert (Hx : pr_exit (after calm "sqlite" in_order) = Some 0%Z) by (vm_compute; reflexivity).
  assert (Hx' : pr_exit (after calm "dynamodb" (replicate 3 LMain)) = Some 2%Z) by (vm_compute; reflexivity).
  destruct (Hend 0%Z Hx) as (_ & _ & Hlife). destruct (Hlife eq_refl) as (Hc & b & Hb & Ha).
  destruct (Hend' 2%Z Hx') as (_ & Hno & _). injection Hb as <-.
  split; [split; [exact Hx|split; [exact Hc|exact Ha]]|split; [exact Hx'|apply Hno; discriminate]].
Defined.

(** [main] does not wait for the loops: the dispatcher can still tick when the
    store is closed, although the shutdown was in time. *)
Example tick_after_close :
  let s := after calm "sqlite" (serving ++ [LIdle] ++ replicate 3 LMain) in
  pr_store s = HClosed ∧ pr_busy s = 0%nat ∧ pr_exit s = None ∧ pr_disp s = Running ∧
  fire (W:=calm) no_env (flags "sqlite") (LTick GDispatcher) s = Some s.
Proof. by vm_compute. Qed.

(** Where the port is taken the listener returns, and the process stays,
    waiting for a signal without serving anyone. *)
Example deaf_server :
  let s := after port_taken "sqlite" (replicate 6 LMain ++ [LListen]) in
  pr_exit s = None ∧ pr_http s = LReturned ∧ waits s ∧ fire (W:=port_taken) no_env (flags "sqlite") LAccept s = None.
Proof. by vm_compute. Qed.
