(* ===== verification/Once.v ===== *)
(** * Commits and releases mark their keys

    A commit or a release puts an outbox event keyed by the reservation and
    the request's idempotency key.  On a backend with a unique outbox key that
    event keeps a second request with the same key from counting again; the
    lemmas here say so of one request, [Races] of requests that race. *)

From S2P Require Import Prelude Money Ledger Repo Contract Service Flow FlowLaws Books Reservations.
From S2P Require Import ReservationLaws Exchange Recon Worker Accounts System.
From stdpp Require Import base gmap strings list numbers.
From Stdlib Require Import Qcanon.

Section Fresh.
Context {H : Host} {D : DecimalOps} {L : DecimalLaws D} {S T : Type} {R : RepoTx D T} {RL : RepoTxLaws D T}
  {ST : RepoStore D S T} {SL : RepoStoreLaws D S T} {FL : RepoFrameLaws D S T} {OU : OutboxUnique D T}.
Implicit Types (v : LView).

Definition outbox_keys v : list string := ov_key <$> lv_outbox v.

Lemma grows_keys v v' k : lv_grows v v' → k ∈ outbox_keys v → k ∈ outbox_keys v'.
Proof.
  intros Hg. destruct (grows_outbox _ _ Hg) as [l Hl]. unfold outbox_keys. rewrite Hl, fmap_app, elem_of_app. by left.
Qed.

Lemma wp_save_fresh tenant ev key payload res (s : T * Env) :
  tenant = rs_TenantID res → lv_resv (vw s.1) tenant (rs_ID res) ≠ None →
  wpo (saveReservation tenant ev key payload res) (λ _ _, key ∉ outbox_keys (vw s.1)) s.
Proof.
  intros -> Hn. unfold saveReservation.
  apply wp_bind. eapply wp_mono; [by apply law_UpdateReservationAmounts| |done]. cbv beta. intros [] s1 E1.
  apply wp_bind, wp_NewID. intros id e. apply wp_bind, wp_Now. intros n e'.
  call law_outbox_fresh. intros [] s2 Hf. apply wp_ret. simpl in Hf. by rewrite E1 in Hf.
Qed.

Definition commit_key (r : CommitReservationRequest) : string :=
  cm_ReservationId r +:+ ":committed:" +:+ cm_IdempotencyKey r.
Definition release_key (r : ReleaseReservationRequest) : string :=
  rl_ReservationId r +:+ ":released:" +:+ rl_IdempotencyKey r.

Lemma wp_commit_fresh r amount (s : T * Env) :
  wpo (commitReservationInTx r amount) (λ _ _, commit_key r ∉ outbox_keys (vw s.1)) s.
Proof.
  unfold commitReservationInTx. call law_LockReservation. intros res s1 (E1 & Hres & Hid & Ht).
  apply wp_bind, wp_throw_if; [done|]. intros _. apply wp_bind, wp_throw_if; [done|]. intros _.
  call law_GetAccount. intros dst s2 (E2 & _). apply wp_bind, wp_throw_if; [done|]. intros _.
  call wp_flow. intros fres s3 Hflow. apply wp_bind, wp_Now. intros now e.
  destruct (flow_outcome_frame _ _ _ _ Hflow) as (_ & Hfr & _). rewrite E2, E1 in *.
  eapply wp_mono; [apply wp_save_fresh; [done|]| |done].
  { simpl. by rewrite Hid, Hfr, Hres. }
  cbv beta. intros _ s4 Hf Hin. apply Hf. simpl. rewrite Hid.
  by eapply grows_keys; [eapply flow_outcome_grows|].
Qed.

Lemma wp_release_fresh r amount (s : T * Env) :
  wpo (releaseReservationInTx r amount) (λ _ _, release_key r ∉ outbox_keys (vw s.1)) s.
Proof.
  unfold releaseReservationInTx. call law_LockReservation. intros res s1 (E1 & Hres & Hid & Ht).
  apply wp_bind, wp_throw_if; [done|]. intros _. apply wp_bind, wp_throw_if; [done|]. intros _.
  call wp_flow. intros fres s3 Hflow. apply wp_bind, wp_Now. intros now e.
  destruct (flow_outcome_frame _ _ _ _ Hflow) as (_ & Hfr & _). rewrite E1 in *.
  eapply wp_mono; [apply wp_save_fresh; [done|]| |done].
  { simpl. by rewrite Hid, Hfr, Hres. }
  cbv beta. intros _ s4 Hf Hin. apply Hf. simpl. rewrite Hid.
  by eapply grows_keys; [eapply flow_outcome_grows|].
Qed.

Lemma resv_effect_key f ev key v rv rv' v' : resv_effect f ev key v rv rv' v' → key ∈ outbox_keys v'.
Proof.
  intros (fres & v1 & _ & _ & ->). unfold outbox_keys; simpl. rewrite fmap_app, elem_of_app. right. by left.
Qed.

(** A successful commit found its key free and took it. *)
Lemma CommitReservation_key r s p s' :
  CommitReservation r s = (Ok p, s') → commit_key r ∉ outbox_keys (svw s.1) ∧ commit_key r ∈ outbox_keys (svw s'.1).
Proof.
  intros Hrun.
  eapply (reservation_rpc _ _ (λ a res' v v', commit_key r ∉ outbox_keys v ∧ commit_key r ∈ outbox_keys v')) in Hrun.
  { by destruct Hrun as (a & res' & _ & _ & ?). }
  intros a t e Ha Ht.
  eapply wp_mono; [apply (wp_conj _ _ _ _ _ _ (wp_commit_fresh r a _) (wp_commitInTx r a _ Ha))| |done].
  simpl. rewrite Ht. cbv beta. intros res' x [Hf (res & dst & Hres & Hid & _ & _ & _ & _ & _ & _ & Heff)].
  split; [|by eapply resv_effect_open]. split; [done|]. apply resv_effect_key in Heff. by rewrite Hid in Heff.
Qed.

Lemma ReleaseReservation_key r s p s' :
  ReleaseReservation r s = (Ok p, s') → release_key r ∉ outbox_keys (svw s.1) ∧ release_key r ∈ outbox_keys (svw s'.1).
Proof.
  intros Hrun.
  eapply (reservation_rpc _ _ (λ a res' v v', release_key r ∉ outbox_keys v ∧ release_key r ∈ outbox_keys v')) in Hrun.
  { by destruct Hrun as (a & res' & _ & _ & ?). }
  intros a t e Ha Ht.
  eapply wp_mono; [apply (wp_conj _ _ _ _ _ _ (wp_release_fresh r a _) (wp_releaseInTx r a _ Ha))| |done].
  simpl. rewrite Ht. cbv beta. intros res' x [Hf (res & Hres & Hid & _ & _ & _ & Heff)].
  split; [|by eapply resv_effect_open]. split; [done|]. apply resv_effect_key in Heff. by rewrite Hid in Heff.
Qed.

End Fresh.
