(* ===== verification/Races.v ===== *)
(** * Requests that race

    What a pool of clients, schedulers and dispatchers ([Interleave]) promises
    about one request among the others: nothing posted is ever taken back,
    reservations live their life, and of all the requests that carry one
    idempotency key, whenever they run and however they were interleaved, at
    most one counts. *)

From S2P Require Import Prelude Money Ledger Repo Contract Service Flow FlowLaws Books Accounts Reservations ReservationLaws.
From S2P Require Import Exchange Recon Worker System Once Rpc Node Threads Interleave.
From stdpp Require Import base gmap strings list numbers.
From Stdlib Require Import Qcanon.

Section Races.
Context {H : Host} {D : DecimalOps} {L : DecimalLaws D} {S T : Type} {R : RepoTx D T} {RL : RepoTxLaws D T}
  {ST : RepoStore D S T} {SL : RepoStoreLaws D S T} {FL : RepoFrameLaws D S T} {K : Type} {SK : Sink K}.
Abbreviation Shared := ((S * Env) * (K * list string))%type.
Implicit Types (x y : Shared) (ts : list Task) (s : Pool Shared) (l : list nat).

(** The ledger of a moment. *)
Definition ledger_of (y : Shared) : LView := svw y.1.1.

(** Pools that can only keep the books, whatever ledger they start from. *)
Definition orderly s : Prop := ∀ v0, Forall (each (λ A, keeps v0 (A := A))) s.1.

Lemma orderly_start ts x : orderly (thread <$> ts, x).
Proof. intros v0. apply Forall_fmap, list.Forall_forall. intros t _. apply keeping_thread. Qed.
Lemma orderly_later s l : orderly s → orderly (schedule s l).
Proof. intros Hs v0. by apply schedule_each. Qed.

(** Every moment continues the ledger of the earlier ones. *)
Lemma later_ok v0 s l : orderly s → sharedBooks v0 s.2 → sharedBooks v0 (schedule s l).2.
Proof.
  destruct s as [ps x]. intros Hs Hx. apply (pool_safe (sharedBooks v0) anything ps x l Hx).
  eapply list.Forall_impl; [apply (Hs v0)|]. intros p Hp.
  apply (each_safely _ _ (λ A, keeps v0 (A:=A))); [|done]. intros B m y Hm Hy. split; [by apply Hm|done].
Qed.
Lemma moment_ok ts x l :
  ledger_ok (ledger_of x) → resv_ok (ledger_of x) →
  let y := (schedule (thread <$> ts, x) l).2 in ledger_ok (ledger_of y) ∧ resv_ok (ledger_of y).
Proof.
  intros Hl Hr. destruct (later_ok (ledger_of x) _ l (orderly_start ts x) (sys_ok_start _ Hl Hr)) as [Hl' Hr' _ _]. by split.
Qed.
Lemma later_grows s l :
  orderly s → ledger_ok (ledger_of s.2) → resv_ok (ledger_of s.2) →
  let s' := schedule s l in
  ledger_ok (ledger_of s'.2) ∧ resv_ok (ledger_of s'.2) ∧ lv_grows (ledger_of s.2) (ledger_of s'.2) ∧
  resv_life (ledger_of s.2) (ledger_of s'.2).
Proof.
  intros Hs Hl Hr s'. by destruct (later_ok (ledger_of s.2) s l Hs (sys_ok_start _ Hl Hr)) as [H1 H2 H3 H4].
Qed.

(** C14. The ledger is append-only while everything runs at once: whatever
    any clients, schedulers and dispatchers do, in any order of their calls, the entries,
    journals, outbox events and recorded flow steps already there stay, in
    order, with new ones only after them; no account changes; and a completed
    flow stays completed under its idempotency key. *)
Theorem interleaved_append_only ts x l :
  ledger_ok (ledger_of x) → resv_ok (ledger_of x) →
  let v := ledger_of x in let v' := ledger_of (process ts x l) in
  lv_entries v `prefix_of` lv_entries v' ∧ lv_journals v `prefix_of` lv_journals v' ∧
  lv_outbox v `prefix_of` lv_outbox v' ∧
  (∀ t f, lv_steps v t f `prefix_of` lv_steps v' t f) ∧
  (∀ t a acct, lv_acct v t a = Some acct → lv_acct v' t a = Some acct) ∧
  (∀ t k id, lv_flow v t k = Some (id, FlowCompleted) → lv_flow v' t k = Some (id, FlowCompleted)).
Proof. intros Hl Hr. by destruct (later_grows _ l (orderly_start ts x) Hl Hr) as (_ & _ & [] & _). Qed.

(** C11. The life of a reservation while everything runs at once: it only
    takes steps of its state machine (commit, release, expire); its amounts
    keep adding up to what was reserved, what is outstanding never grows, and
    a closed reservation never changes. *)
Theorem interleaved_reservation_life ts x l (t id : string) (rv : RView) :
  ledger_ok (ledger_of x) → resv_ok (ledger_of x) → lv_resv (ledger_of x) t id = Some rv →
  ∃ rv', lv_resv (ledger_of (process ts x l)) t id = Some rv' ∧ rtc resv_step rv rv' ∧
    rv_original rv' = rv_original rv ∧
    (rv_outstanding rv' + rv_committed rv' + rv_released rv' = rv_original rv)%Qc ∧
    (0 <= rv_outstanding rv' <= rv_outstanding rv)%Qc ∧
    (rv_closed rv = true → rv' = rv).
Proof.
  intros Hl Hr Hrv. destruct (later_grows _ l (orderly_start ts x) Hl Hr) as (_ & _ & _ & Hlife).
  destruct (Hlife _ _ _ Hrv) as (rv' & Hrv' & Hsteps). destruct (Hr _ _ _ Hrv) as [Hok _].
  destruct (rtc_resv_mono _ _ Hok Hsteps) as ([Hsum Hnn _ _ _ _] & Ho & Hle & Hcl).
  exists rv'. split_and!; try done. by rewrite Hsum.
Qed.

(** ** One request of the pool *)

(** Thread [i] is about to make this call, a procedure whose handler makes a
    single call on the store; its answer; and the moment after. *)
Definition calling s (i : nat) (p : Procedure) (r : Req p) : Prop :=
  ∃ c, s.1 !! i = Some (Op (on_fst (Server p r)) c).
Definition reply s (p : Procedure) (r : Req p) : result error (Res p) := (Server p r s.2.1).1.

Lemma calling_step s i p r : calling s i p r → (step s i).2 = ((Server p r s.2.1).2, s.2.2).
Proof.
  intros [c Hc]. unfold step. rewrite Hc. destruct s as [ps [y k]]. simpl. unfold on_fst. by destruct (Server p r y).
Qed.

(** A client that makes the call next is about to make it. *)
Lemma calling_client ts x i p r next :
  ts !! i = Some (TClient (Call p r next)) → ServerOps p r = op (Server p r) → calling (thread <$> ts, x) i p r.
Proof.
  intros Hi Hop. eexists. simpl. rewrite list_lookup_fmap, Hi. simpl. by rewrite Hop.
Qed.

(** It stays about to make it while the others take their turns. *)
Lemma calling_waits s i p r l : calling s i p r → i ∉ l → calling (schedule s l) i p r.
Proof.
  intros [c Hc]. revert s Hc. induction l as [|j l IH]; intros s Hc Hi; [by exists c|].
  apply not_elem_of_cons in Hi as [Hij Hi]. apply (IH (step s j)); [|done]. by rewrite step_other.
Qed.

Lemma calling_first ts x l i p r next :
  ts !! i = Some (TClient (Call p r next)) → ServerOps p r = op (Server p r) → i ∉ l →
  calling (schedule (thread <$> ts, x) l) i p r.
Proof. intros Hi Hop Hl. apply calling_waits; [by eapply calling_client|done]. Qed.
Lemma calling_second ts x l1 i l2 j p r next :
  ts !! j = Some (TClient (Call p r next)) → ServerOps p r = op (Server p r) → j ∉ l1 ++ i :: l2 →
  calling (schedule (step (schedule (thread <$> ts, x) l1) i) l2) j p r.
Proof.
  intros Hj Hop Hl. replace (schedule (step _ i) l2) with (schedule (thread <$> ts, x) (l1 ++ i :: l2)) by by rewrite schedule_app.
  by eapply calling_first.
Qed.

(** A call answered with an error, of an RPC that writes through one
    transaction, changes nothing. *)
Lemma refused_keeps s i p r e :
  calling s i p r → ledger_ok (ledger_of s.2) → resv_ok (ledger_of s.2) →
  transactional (to_request p r) → reply s p r = Err e → ledger_of (step s i).2 = ledger_of s.2.
Proof.
  intros Hc Hl Hr Ht He. rewrite (calling_step _ _ _ _ Hc). unfold ledger_of, reply in *. simpl.
  rewrite Server_handle. apply service_atomic_err; [done..|].
  destruct p; simpl in *; try done; by exists e.
Qed.

(** Two moments of a pool: thread [i] takes a step, the pool goes on with
    [l2], and thread [j] takes one. *)
Lemma race_moments ts x l1 i l2 :
  ledger_ok (ledger_of x) → resv_ok (ledger_of x) →
  let s1 := schedule (thread <$> ts, x) l1 in let s2 := step s1 i in let s3 := schedule s2 l2 in
  (ledger_ok (ledger_of s1.2) ∧ resv_ok (ledger_of s1.2)) ∧
  (ledger_ok (ledger_of s3.2) ∧ resv_ok (ledger_of s3.2)) ∧ lv_grows (ledger_of s2.2) (ledger_of s3.2).
Proof.
  intros Hl Hr s1 s2 s3. split; [by apply moment_ok|].
  destruct (moment_ok ts x (l1 ++ [i]) Hl Hr) as [Hl2 Hr2]. rewrite schedule_app in Hl2, Hr2.
  assert (Ho : orderly s2) by apply (orderly_later s1 [i]), orderly_later, orderly_start.
  by destruct (later_grows s2 l2 Ho Hl2 Hr2) as (Hl3 & Hr3 & Hg & _).
Qed.

Definition served s p r : Prop := ∃ a, reply s p r = Ok a.
Lemma reply_cases s p r : served s p r ∨ ∃ e, reply s p r = Err e.
Proof. unfold served. destruct (reply s p r) as [a|e]; [left|right]; by eexists. Qed.

(** A request that changes the ledger was answered without an error. *)
Lemma changed_served s i p r :
  calling s i p r → ledger_ok (ledger_of s.2) → resv_ok (ledger_of s.2) → transactional (to_request p r) →
  ledger_of (step s i).2 ≠ ledger_of s.2 → served s p r.
Proof.
  intros Hc Hl Hr Ht Hne. destruct (reply_cases s p r) as [?|[e He]]; [done|].
  by destruct Hne; eapply refused_keeps.
Qed.

(** *** Flows *)

Lemma flow_key_taken (r : ExecuteFlowRequest) s i res :
  calling s i PExecuteFlow r → reply s PExecuteFlow r = Ok res →
  lv_flow (ledger_of (step s i).2) (ef_TenantId r) (ef_IdempotencyKey r) = Some (er_FlowRunId res, FlowCompleted).
Proof.
  intros Hc Ha. rewrite (calling_step _ _ _ _ Hc). unfold ledger_of, reply in *. simpl in *.
  destruct (ExecuteFlow r s.2.1) as [a y'] eqn:Hrun. simpl in *. subst a.
  pose proof (wp_ok _ _ _ _ _ _ (wp_ExecuteFlow r _) Hrun) as (steps & _ & Hout).
  destruct (lv_flow (svw s.2.1.1) _ _) as [[id st]|] eqn:Hf.
  - destruct Hout as (-> & -> & -> & _). by rewrite Hf.
  - destruct Hout as (run & ps & _ & -> & -> & _). by rewrite flow_post_key.
Qed.

Lemma flow_key_replays (r : ExecuteFlowRequest) s j id res :
  calling s j PExecuteFlow r → reply s PExecuteFlow r = Ok res →
  lv_flow (ledger_of s.2) (ef_TenantId r) (ef_IdempotencyKey r) = Some (id, FlowCompleted) →
  ledger_of (step s j).2 = ledger_of s.2 ∧ er_FlowRunId res = id ∧ er_Status res = FLOW_STATUS_COMPLETED.
Proof.
  intros Hc Ha Hkey. rewrite (calling_step _ _ _ _ Hc). unfold ledger_of, reply in *. simpl in *.
  destruct (ExecuteFlow r s.2.1) as [a y'] eqn:Hrun. simpl in *. subst a.
  pose proof (wp_ok _ _ _ _ _ _ (wp_ExecuteFlow r _) Hrun) as (steps & _ & Hout). rewrite Hkey in Hout.
  by destruct Hout as (_ & -> & -> & -> & _).
Qed.

(** C2. Exactly once: let any number of flow requests with one idempotency key
    race in a pool of clients, schedulers and dispatchers.  Once one of them
    has succeeded, every other, however much later it runs and whatever ran
    in between, posts nothing and, if it succeeds, answers with the same flow
    run, completed; so at most one of them changes the ledger. *)
Theorem racing_flows_post_once ts x (l1 l2 : list nat) (i j : nat) (r r' : ExecuteFlowRequest) :
  ledger_ok (ledger_of x) → resv_ok (ledger_of x) →
  ef_TenantId r' = ef_TenantId r → ef_IdempotencyKey r' = ef_IdempotencyKey r →
  let s1 := schedule (thread <$> ts, x) l1 in let s2 := step s1 i in
  let s3 := schedule s2 l2 in let s4 := step s3 j in
  calling s1 i PExecuteFlow r → calling s3 j PExecuteFlow r' →
  (ledger_of s2.2 ≠ ledger_of s1.2 → ledger_of s4.2 = ledger_of s3.2) ∧
  ∀ res, reply s1 PExecuteFlow r = Ok res →
    ledger_of s4.2 = ledger_of s3.2 ∧
    ∀ res', reply s3 PExecuteFlow r' = Ok res' →
      er_FlowRunId res' = er_FlowRunId res ∧ er_Status res' = FLOW_STATUS_COMPLETED.
Proof.
  intros Hl Hr Ht Hk s1 s2 s3 s4 H1 H3.
  destruct (race_moments ts x l1 i l2 Hl Hr) as ([Hl1 Hr1] & [Hl3 Hr3] & Hg). fold s1 s2 s3 in Hl1, Hr1, Hl3, Hr3, Hg.
  assert (Hok : ∀ res, reply s1 PExecuteFlow r = Ok res → ledger_of s4.2 = ledger_of s3.2 ∧
    ∀ res', reply s3 PExecuteFlow r' = Ok res' → er_FlowRunId res' = er_FlowRunId res ∧ er_Status res' = FLOW_STATUS_COMPLETED).
  { intros res Hres. pose proof (grows_flow _ _ Hg _ _ _ (flow_key_taken r s1 i res H1 Hres)) as Hkey. rewrite <- Ht, <- Hk in Hkey.
    destruct (reply_cases s3 PExecuteFlow r') as [[res' Ha]|[e He]].
    - destruct (flow_key_replays r' s3 j _ _ H3 Ha Hkey) as [E Hans]. split; [done|]. intros res2 Ha2. rewrite Ha in Ha2. injection Ha2 as <-. exact Hans.
    - split; [by eapply refused_keeps|]. intros res' Ha. congruence. }
  split; [|done]. intros Hne. destruct (changed_served _ _ _ _ H1 Hl1 Hr1 I Hne) as [res Hres]. by eapply Hok.
Qed.

(** *** Reservations *)

Lemma reservation_key_taken (r : CreateReservationRequest) s i p :
  calling s i PCreateReservation r → reply s PCreateReservation r = Ok p →
  rv_id <$> lv_resvk (ledger_of (step s i).2) (cr_TenantId r) (cr_IdempotencyKey r) = Some (pr_Id p) ∧
  (lv_resvk (ledger_of s.2) (cr_TenantId r) (cr_IdempotencyKey r) ≠ None → ledger_of (step s i).2 = ledger_of s.2).
Proof.
  intros Hc Ha. rewrite (calling_step _ _ _ _ Hc). unfold ledger_of, reply in *. simpl in *.
  destruct (CreateReservation r s.2.1) as [a y'] eqn:Hrun. simpl in *. subst a.
  apply CreateReservation_post in Hrun as (a & res & _ & -> & Hp). unfold create_post in Hp.
  destruct (lv_resvk (svw s.2.1.1) _ _) as [rv|] eqn:Hk.
  - destruct Hp as [<- ->]. by rewrite Hk.
  - destruct Hp as (fres & v1 & id & _ & _ & Hrv & ->). split; [|done]. rewrite Hrv. simpl. unfold fput. simpl.
    rewrite !eqs_refl. simpl. f_equal. symmetry. exact (f_equal rv_id Hrv).
Qed.

(** C25. Reservations are created exactly once: let any number of requests for
    a reservation with one idempotency key race in a pool of clients,
    schedulers and dispatchers.  Once one of them has succeeded, every other,
    however much later it runs and whatever ran in between, moves and reserves
    nothing and, if it succeeds, answers with the same reservation; so at most
    one of them changes the ledger. *)
Theorem racing_creations_reserve_once ts x (l1 l2 : list nat) (i j : nat) (r r' : CreateReservationRequest) :
  ledger_ok (ledger_of x) → resv_ok (ledger_of x) →
  cr_TenantId r' = cr_TenantId r → cr_IdempotencyKey r' = cr_IdempotencyKey r →
  let s1 := schedule (thread <$> ts, x) l1 in let s2 := step s1 i in
  let s3 := schedule s2 l2 in let s4 := step s3 j in
  calling s1 i PCreateReservation r → calling s3 j PCreateReservation r' →
  (ledger_of s2.2 ≠ ledger_of s1.2 → ledger_of s4.2 = ledger_of s3.2) ∧
  ∀ p, reply s1 PCreateReservation r = Ok p →
    ledger_of s4.2 = ledger_of s3.2 ∧ ∀ p', reply s3 PCreateReservation r' = Ok p' → pr_Id p' = pr_Id p.
Proof.
  intros Hl Hr Ht Hk s1 s2 s3 s4 H1 H3.
  destruct (race_moments ts x l1 i l2 Hl Hr) as ([Hl1 Hr1] & [Hl3 Hr3] & Hg). fold s1 s2 s3 in Hl1, Hr1, Hl3, Hr3, Hg.
  assert (Hok : ∀ p, reply s1 PCreateReservation r = Ok p →
    ledger_of s4.2 = ledger_of s3.2 ∧ ∀ p', reply s3 PCreateReservation r' = Ok p' → pr_Id p' = pr_Id p).
  { intros p Hp. destruct (reservation_key_taken r s1 i p H1 Hp) as [Hkey _]. apply (grows_resvk _ _ Hg) in Hkey. rewrite <- Ht, <- Hk in Hkey.
    destruct (reply_cases s3 PCreateReservation r') as [[p' Ha]|[e He]].
    - destruct (reservation_key_taken r' s3 j p' H3 Ha) as [Hkey' Hsame].
      assert (E : ledger_of s4.2 = ledger_of s3.2) by (apply Hsame; by destruct (lv_resvk (ledger_of s3.2) _ _)).
      split; [done|]. intros p2 Ha2. fold s4 in Hkey'. rewrite E, Hkey in Hkey'. congruence.
    - split; [by eapply refused_keeps|]. intros p' Ha. congruence. }
  split; [|done]. intros Hne. destruct (changed_served _ _ _ _ H1 Hl1 Hr1 I Hne) as [p Hp]. by eapply Hok.
Qed.

(** Every request is answered: under a schedule that leaves no thread out for
    ever, every client gets the answers to all its calls, and every scheduler
    and dispatcher gets through its ticks. *)
Lemma fair_process_finishes ts x f :
  fair (length ts) f → ∃ t, Forall finished (at_turn (thread <$> ts, x) f t).1.
Proof. intros Hf. apply pool_finishes. simpl. by rewrite length_fmap. Qed.

(** *** Commits and releases *)

Context {OU : OutboxUnique D T}.

(** The key under which a commit or a release records its event. *)
Definition move_key (p : Procedure) : Req p → option string :=
  match p return Req p → option string with
  | PCommitReservation => λ r, Some (commit_key r)
  | PReleaseReservation => λ r, Some (release_key r)
  | _ => λ _, None
  end.

Lemma move_key_taken s i p r a k :
  move_key p r = Some k → calling s i p r → reply s p r = Ok a →
  k ∉ outbox_keys (ledger_of s.2) ∧ k ∈ outbox_keys (ledger_of (step s i).2).
Proof.
  intros Hk Hc Ha. rewrite (calling_step _ _ _ _ Hc). unfold ledger_of, reply in *. simpl in *.
  destruct p; simpl in *; try done; injection Hk as <-.
  - destruct (CommitReservation r s.2.1) as [? y'] eqn:Hrun. simpl in *. subst. by apply CommitReservation_key in Hrun.
  - destruct (ReleaseReservation r s.2.1) as [? y'] eqn:Hrun. simpl in *. subst. by apply ReleaseReservation_key in Hrun.
Qed.

Lemma move_key_transactional p r k : move_key p r = Some k → transactional (to_request p r).
Proof. by destruct p. Qed.

(** C12. A commit or a release of a reservation counts at most once per
    idempotency key: on a backend with a unique outbox key, of all the commits
    of a reservation with one key, or all its releases, that race in a pool,
    once one has succeeded every other is answered with an error and leaves
    the ledger as it was, however much later it runs and whatever ran in
    between; so at most one of them moves money.  This is less than the
    design of the reservations asks for, a retry that answers as the first
    commit or release did: the money is safe, but a client that lost the
    answer gets an error (see [repeated_commit_refused] of InterleaveRun). *)
Theorem racing_moves_count_once ts x (l1 l2 : list nat) (i j : nat) (p p' : Procedure) (r : Req p) (r' : Req p') (k : string) :
  ledger_ok (ledger_of x) → resv_ok (ledger_of x) →
  move_key p r = Some k → move_key p' r' = Some k →
  let s1 := schedule (thread <$> ts, x) l1 in let s2 := step s1 i in
  let s3 := schedule s2 l2 in let s4 := step s3 j in
  calling s1 i p r → calling s3 j p' r' →
  served s1 p r ∨ ledger_of s2.2 ≠ ledger_of s1.2 →
  (∃ e, reply s3 p' r' = Err e) ∧ ledger_of s4.2 = ledger_of s3.2.
Proof.
  intros Hl Hr Hk Hk' s1 s2 s3 s4 H1 H3 Hone.
  destruct (race_moments ts x l1 i l2 Hl Hr) as ([Hl1 Hr1] & [Hl3 Hr3] & Hg). fold s1 s2 s3 in Hl1, Hr1, Hl3, Hr3, Hg.
  assert (served s1 p r) as [a Ha].
  { destruct Hone as [?|Hne]; [done|]. eapply changed_served; eauto using move_key_transactional. }
  destruct (move_key_taken _ _ _ _ _ _ Hk H1 Ha) as [_ Hin]. eapply grows_keys in Hin; [|exact Hg].
  destruct (reply_cases s3 p' r') as [[a' Ha']|[e He]].
  - by destruct (move_key_taken _ _ _ _ _ _ Hk' H3 Ha') as [Hfree _].
  - split; [by exists e|]. eapply refused_keeps; eauto using move_key_transactional.
Qed.
End Races.
