(* ===== verification/AccountLaws.v ===== *)
(** * Accounts, balances and errors as the clients see them *)

From S2P Require Import Prelude Money Ledger Repo Contract Service Flow FlowLaws Books Accounts ExchangeLaws.
From stdpp Require Import base gmap strings list numbers.
From Stdlib Require Import Qcanon.

(** ** errors.go *)

(** [ToConnectError] loses no domain code: the code a client reads from
    the response header is the one the service raised, whatever kind of error
    it was; an error without a domain code is Internal; converting twice is
    converting once; and every domain code has a text of its own. *)
Theorem ToConnectError_faithful (e : error) :
  as_domain (ToConnectError e) = as_domain e ∧
  (∀ c, IsDomainCode (ToConnectError e) c = IsDomainCode e c) ∧
  ToConnectError e = ErrConnect (match as_domain e with Some c => connect_code c | None => CodeInternal end) (as_domain e) ∧
  ToConnectError (ToConnectError e) = ToConnectError e ∧
  (∀ c c', code_text c = code_text c' → c = c').
Proof.
  assert (Hd : as_domain (ToConnectError e) = as_domain e) by (unfold ToConnectError; by destruct (as_domain e)).
  assert (He : ToConnectError e = ErrConnect (match as_domain e with Some c => connect_code c | None => CodeInternal end) (as_domain e))
    by (unfold ToConnectError; by destruct (as_domain e)).
  split_and!; try done.
  - intros c. unfold IsDomainCode. by rewrite Hd.
  - unfold ToConnectError at 1. rewrite Hd. by rewrite He; destruct (as_domain e).
  - intros c c'. by destruct c, c'.
Qed.

Section Accounts.
Context {H : Host} {D : DecimalOps} {L : DecimalLaws D} {S T : Type} {R : RepoTx D T} {RL : RepoTxLaws D T}
  {ST : RepoStore D S T} {SL : RepoStoreLaws D S T} {FL : RepoFrameLaws D S T}.
Implicit Types (s : S * Env).

Lemma wp_InsertAccount_open a (x : T * Env) :
  wpo (tx_InsertAccount a) (λ _ x', (lv_acct (vw x.1) (acc_TenantID a) (acc_ID a) = None ∧
    vw x'.1 = lv_add_acct a (vw x.1)) ∧ lv_open (vw x'.1) = lv_open (vw x.1)) x.
Proof. eapply wp_mono; [apply law_InsertAccount| |done]. cbv beta. by intros [] x' [-> Hn]. Qed.

(** [CreateAccount]: when it succeeds, the account id, built from the
    owner, the account type and the currency, was free in the tenant, the
    new account is active, has the requested normal balance and overdraft
    permission, starts with a zero balance when the books are right, and
    nothing else in the ledger changed. *)
Theorem CreateAccount_spec (r : CreateAccountRequest) s p s' :
  CreateAccount r s = (Ok p, s') →
  let id := account_id (ca_OwnerType r) (ca_OwnerId r) (ca_AccountType r) (ca_Currency r) in
  lv_acct (svw s.1) (ca_TenantId r) id = None ∧
  pa_Id p = id ∧ pa_Status p = ACCOUNT_STATUS_ACTIVE ∧ pa_AllowNegative p = ca_AllowNegative r ∧
  (pa_NormalBalance p = NORMAL_BALANCE_CREDIT ↔ ca_NormalBalance r = NORMAL_BALANCE_CREDIT) ∧
  (∃ a, accountToProto a = p ∧ svw s'.1 = lv_add_acct a (svw s.1)) ∧
  (ledger_ok (svw s.1) → lv_balance (svw s'.1) (ca_TenantId r, id, ca_Currency r) = (0, 0)%Qc).
Proof.
  intros Hrun%rpc_ok. cbv zeta. apply bind_ok in Hrun as ([] & s1 & [_ ->]%throw_if_ok & Hrun).
  apply bind_ok in Hrun as (now & s1 & Hnow & Hrun). destruct s as [st e]. injection Hnow as <- <-.
  apply bind_ok in Hrun as ([] & s2 & Htx & Hrun). injection Hrun as <- <-.
  set (a := newAccount r (host_now (e_now e))) in *.
  assert (Hpost : lv_acct (svw st) (ca_TenantId r) (acc_ID a) = None ∧ svw s2.1 = lv_add_acct a (svw st)).
  { refine (wp_ok _ _ _ _ _ _ (wp_runInTx (tx_InsertAccount a) (λ v', lv_acct (svw st) (ca_TenantId r) (acc_ID a) = None ∧
      v' = lv_add_acct a (svw st)) _ _) Htx).
    intros t e' Ht Ho. eapply wp_mono; [apply wp_InsertAccount_open| |done]. simpl in *. rewrite Ht. cbv beta.
    intros _ x [[Hn ->] Hx]. done. }
  destruct Hpost as [Hnone Hv].
  simpl in *. split_and!; try done.
  - unfold normalBalanceFromProto. by destruct (Z.eqb_spec (ca_NormalBalance r) NORMAL_BALANCE_CREDIT); split.
  - by exists a.
  - intros Hok. rewrite Hv. by apply (absent_balance (svw st)).
Qed.

(** [GetBalance] without an instant: the texts it answers with denote the
    posted debits and credits of the account's balance, hence, when the books
    are right, the sums of the entries posted to it, and their difference in
    the direction of the account's normal balance; it changes nothing. *)
Theorem GetBalance_spec (r : GetBalanceRequest) s p s' :
  gb_AsOf r = None → GetBalance r s = (Ok p, s') →
  let k := (gb_TenantId r, gb_AccountId r, gb_Currency r) in
  svw s'.1 = svw s.1 ∧
  ∃ a, lv_acct (svw s.1) (gb_TenantId r) (gb_AccountId r) = Some (acc_view a) ∧ acc_Currency a = gb_Currency r ∧
    (text_val (pb_PostedDebits p), text_val (pb_PostedCredits p)) = lv_balance (svw s.1) k ∧
    text_val (pb_Normalized p) = normalized a (lv_balance (svw s.1) k) ∧
    (ledger_ok (svw s.1) → (text_val (pb_PostedDebits p), text_val (pb_PostedCredits p)) = posted k (lv_entries (svw s.1))).
Proof.
  intros Hnone Hrun%rpc_ok. cbv zeta. rewrite Hnone in Hrun.
  apply bind_ok in Hrun as (a & s1 & [Ha E1]%st_GetAccount_ok & Hrun).
  apply bind_ok in Hrun as ([] & s2 & [Hc ->]%throw_if_ok & Hrun). eqs.
  apply bind_ok in Hrun as ([[d c] ver] & s3 & Hb & Hrun). injection Hrun as <- <-.
  pose proof (wp_ok _ _ _ _ _ _ (law_st_GetBalance _ _ _ _) Hb) as Hbal.
  apply frame_ok in Hb; [|apply frame_st_GetBalance]. rewrite E1 in *. split; [done|].
  exists a. simpl in *. rewrite !text_val_String, val_NormalizedBalance, Hbal. split_and!; try done.
  intros Hok. rewrite <- Hbal. apply (ok_books _ Hok).
Qed.
End Accounts.
