(* ===== verification/SqliteSystem.v ===== *)
(** * The service on SQLite

    The system theorems on the SQLite tables themselves, and what only shows
    on a concrete store: balances as of an instant and the publication state
    of the outbox. *)

From S2P Require Import Prelude Money Ledger Repo Contract Sql SqliteDb Sqlite SqliteLaws Service Flow FlowLaws.
From S2P Require Import Books Accounts Reservations ReservationLaws Exchange Recon ReconLaws Worker System.
From stdpp Require Import base gmap strings list numbers.
From Stdlib Require Import Qcanon.

Section Sqlite.
Context {H : Host} {D : DecimalOps} {L : DecimalLaws D} {SE : SqlEngine D} {SL : SqlEngineLaws D SE}.

Lemma db_empty_ok : sys_ok (svw db_empty) (svw db_empty).
Proof. apply sys_ok_start; [by split|by intros t id rv]. Qed.

(** The TEXT amounts of the entries a test selects, added up. *)
Definition entry_total (p : LedgerEntryRow → bool) (l : list LedgerEntryRow) : Qc :=
  Qcsum (λ r, if p r then text_val (e_amount r) else 0%Qc) l.
Definition entry_at (t a c : string) (r : LedgerEntryRow) : bool :=
  (e_tenant_id r =s t) && (e_account_id r =s a) && (e_currency r =s c).

Lemma posted_rows t a c l :
  posted (t, a, c) (row_entry <$> l) =
  (entry_total (λ r, entry_at t a c r && (e_direction r =s DirectionDebit)) l,
   entry_total (λ r, entry_at t a c r && negb (e_direction r =s DirectionDebit)) l).
Proof.
  unfold posted, entry_total. rewrite !Qcsum_fmap.
  f_equal; apply Qcsum_ext; intros r _; unfold pe_debit, pe_credit, pe_at, entry_at, row_entry; simpl;
    destruct (bool_decide_reflect (e_tenant_id r = t)), (bool_decide_reflect (e_account_id r = a)),
      (bool_decide_reflect (e_currency r = c)); simpl;
    first [by rewrite bool_decide_eq_true_2 by congruence | by rewrite bool_decide_eq_false_2 by congruence].
Qed.

(** C10. The SQLite tables are right: after any sequence of requests and
    ticks on an empty database, whatever statements the driver failed, every
    row of account_balances stores exactly the totals of the ledger_entries
    rows of its account and currency, and over all the entries of a tenant
    and currency the debits equal the credits. *)
Theorem sqlite_tables_right (qs : list request) (e : Env) (t a c : string) (row : AccountBalanceRow) :
  let db := (foldl handle (db_empty, e) qs).1 in
  sel (bal_row t a c) (t_balances db) = Some row →
  text_val (b_posted_debits row) =
    entry_total (λ r, entry_at t a c r && (e_direction r =s DirectionDebit)) (t_entries db) ∧
  text_val (b_posted_credits row) =
    entry_total (λ r, entry_at t a c r && negb (e_direction r =s DirectionDebit)) (t_entries db) ∧
  entry_total (λ r, (e_tenant_id r =s t) && (e_currency r =s c) && (e_direction r =s DirectionDebit)) (t_entries db) =
  entry_total (λ r, (e_tenant_id r =s t) && (e_currency r =s c) && negb (e_direction r =s DirectionDebit)) (t_entries db).
Proof.
  intros db Hrow. pose proof (handle_all_ok _ qs (db_empty, e) db_empty_ok) as [[H1 _ H3 _ _] _ _ _].
  fold db in H1, H3. specialize (H1 (t, a, c)). specialize (H3 t c). unfold lv_balance in H1. simpl in H1, H3.
  rewrite Hrow in H1. simpl in H1. rewrite posted_rows in H1. injection H1 as Hd Hc.
  split; [done|]. split; [done|]. apply Qcsub_0. rewrite <- H3. unfold entry_total.
  rewrite <- Qcsum_sub, Qcsum_fmap. apply Qcsum_ext. intros r _. unfold pe_signed, in_currency, row_entry; simpl.
  destruct ((e_tenant_id r =s t) && (e_currency r =s c)), (e_direction r =s DirectionDebit); simpl; ring.
Qed.
(** ** Balances as of an instant *)

Definition debit_row (r : LedgerEntryRow) : bool := e_direction r =s "DEBIT".
Definition credit_row (r : LedgerEntryRow) : bool := e_direction r =s "CREDIT".

(** The entries of a key up to a stamp, in one direction. *)
Definition total_until (t a c : string) (dir : LedgerEntryRow → bool) (u : stamp) (l : list LedgerEntryRow) : Qc :=
  entry_total (λ r, entry_at t a c r && (e_created_at r <=? u)%Z && dir r) l.

(** A snapshot row that holds the balance of its instant. *)
Definition snapshot_exact (db : DB) (sn : BalanceSnapshotRow) : Prop :=
  let total dir := total_until (sn_tenant_id sn) (sn_account_id sn) (sn_currency sn) dir (sn_snapshot_at sn) (t_entries db) in
  text_val (sn_posted_debits sn) = total debit_row ∧ text_val (sn_posted_credits sn) = total credit_row.

Lemma total_split t a c dir x u l :
  (x ≤ u)%Z →
  (total_until t a c dir x l +
   entry_total (λ r, (entry_at t a c r && (x <? e_created_at r)%Z && (e_created_at r <=? u)%Z) && dir r) l =
   total_until t a c dir u l)%Qc.
Proof.
  intros Hxu. unfold total_until, entry_total. rewrite <- Qcsum_add. apply Qcsum_ext. intros r _.
  destruct (entry_at t a c r), (dir r), (Z.leb_spec (e_created_at r) x), (Z.leb_spec (e_created_at r) u),
    (Z.ltb_spec x (e_created_at r)); simpl; try ring; lia.
Qed.

Lemma total_before t a c dir x l :
  (∀ r, r ∈ l → (x < e_created_at r)%Z) → total_until t a c dir x l = 0%Qc.
Proof.
  intros Hx. apply Qcsum_zero. intros r Hr. specialize (Hx r Hr).
  destruct (Z.leb_spec (e_created_at r) x); [lia|]. by rewrite andb_false_r.
Qed.

Lemma select_one_ok {A} (f : DB → option A) s r s' :
  select_one f s = (Ok r, s') → f s.1 = Some r ∧ s'.1 = s.1.
Proof.
  destruct s as [db e]. unfold select_one, statement. destruct (host_fault _); [done|]. simpl.
  destruct (f db) eqn:Hf; [|done]. by intros [= -> <-].
Qed.

Lemma select_none_ok {A} (f : DB → option A) s r s' :
  no_rows_none (select_one f) s = (Ok r, s') → f s.1 = r ∧ s'.1 = s.1.
Proof.
  destruct s as [db e]. unfold no_rows_none, select_one, statement. destruct (host_fault _); [done|]. simpl.
  destruct (f db) eqn:Hf; by intros [= <- <-].
Qed.

(** The sums the engine returns, when its REAL arithmetic is exact. *)
Definition real_sum_exact : Prop := ∀ l, val (sql_real_sum l) = Qcsum text_val l.

Lemma SumEntriesBetween_ok t a c x u s d k s' :
  real_sum_exact → sqs_SumEntriesBetween t a c x u s = (Ok (d, k), s') →
  let total dir := entry_total (λ r, (entry_at t a c r && (sqliteTimeFormat x <? e_created_at r)%Z &&
    (e_created_at r <=? sqliteTimeFormat u)%Z) && dir r) (t_entries s.1) in
  val d = total debit_row ∧ val k = total credit_row.
Proof.
  intros Hex Hrun. apply select_one_ok in Hrun as [Hf _]. injection Hf as <- <-.
  rewrite !Hex, !Qcsum_fmap, !Qcsum_filter. unfold entry_total, entry_at, debit_row, credit_row.
  split; apply Qcsum_ext; intros r _; by destruct ((_ =s _) && _ && _ && _ && _), (_ =s _).
Qed.

(** Balances as of an instant: when the engine's sums are exact, every
    snapshot of the account holds the balance of its own instant, and no
    entry is older than year 1, [GetBalance] as of an instant answers with
    the totals of exactly the entries created up to that instant
    (to the millisecond), however many snapshots there are. *)
Theorem balanceAsOf_exact (t a c : string) (at_ : Time) (db : DB) (e : Env) d k ver s' :
  real_sum_exact →
  (∀ sn, sn ∈ t_snapshots db → snap_row t a c sn = true → snapshot_exact db sn) →
  (∀ r, r ∈ t_entries db → (sqliteTimeFormat time_zero < e_created_at r)%Z) →
  (time_zero ≤ at_)%Z →
  balanceAsOf t a c at_ (db, e) = (Ok (d, k, ver), s') →
  val d = total_until t a c debit_row (sqliteTimeFormat at_) (t_entries db) ∧
  val k = total_until t a c credit_row (sqliteTimeFormat at_) (t_entries db).
Proof.
  intros Hex Hsn Hold Hat Hrun. apply bind_ok in Hrun as (snap & s1 & Hsnap & Hrun).
  apply bind_ok in Hsnap as (row & s2 & Hrow & Hret). injection Hret as <- <-.
  apply select_none_ok in Hrow as [Hrow E1]. simpl in Hrow, E1.
  destruct row as [sn|]; simpl in Hrun.
  - apply head_Some_elem_of in Hrow. rewrite (sql_order_by_perm _ _), list_elem_of_filter in Hrow.
    destruct Hrow as [[Hkey Hle]%Is_true_true%andb_true_iff Hin]. apply Z.leb_le in Hle.
    destruct (Hsn sn Hin Hkey) as [Hd Hk]. unfold snap_row in Hkey. eqs. subst t a c.
    apply bind_ok in Hrun as ([d0 k0] & s3 & Hsum & Hrun). injection Hrun as <- <- <- <-.
    apply (SumEntriesBetween_ok _ _ _ _ _ _ _ _ _ Hex) in Hsum as [Ed Ek].
    unfold sqliteTimeFormat in Ed at 1, Ek at 1. unfold parseTime in Ed, Ek. rewrite Z.div_mul in Ed, Ek by done.
    rewrite E1 in Ed, Ek. rewrite !val_add, Ed, Ek. unfold parse_or_zero. rewrite !val_default, Hd, Hk.
    split; by apply total_split.
  - apply bind_ok in Hrun as ([d0 k0] & s3 & Hsum & Hrun). injection Hrun as <- <- <- <-.
    apply (SumEntriesBetween_ok _ _ _ _ _ _ _ _ _ Hex) in Hsum as [Ed Ek].
    rewrite E1 in Ed, Ek. rewrite !val_add, Ed, Ek, !val_zero.
    assert (Hz : (sqliteTimeFormat time_zero ≤ sqliteTimeFormat at_)%Z) by (apply Z.div_le_mono; lia).
    split.
    + rewrite <- (total_split t a c debit_row _ _ _ Hz). by rewrite (total_before t a c debit_row).
    + rewrite <- (total_split t a c credit_row _ _ _ Hz). by rewrite (total_before t a c credit_row).
Qed.

(** ** The outbox dispatcher *)

Context {K : Type} {SK : Sink K}.

(** The ids of the events the sink accepts, published in order from [k]. *)
Fixpoint accepted (k : K) (evs : list OutboxEvent) : list string :=
  match evs with
  | [] => []
  | e :: evs' =>
      match Publish e k with
      | (None, k') => ob_ID e :: accepted k' evs'
      | (Some _, k') => accepted k' evs'
      end
  end.

Definition is_published (r : OutboxEventRow) : bool := o_publish_state r =s "PUBLISHED".

(** [tbl'] has the rows of [tbl]; those newly published have their id in [ids]. *)
Definition published_by (ids : list string) (tbl tbl' : list OutboxEventRow) : Prop :=
  Forall2 (λ r r', o_id r' = o_id r ∧ o_idempotency_key r' = o_idempotency_key r ∧ o_payload r' = o_payload r ∧
    (is_published r = true → is_published r' = true) ∧
    (is_published r' = true → is_published r = true ∨ o_id r ∈ ids)) tbl tbl'.

Lemma published_by_refl ids tbl : published_by ids tbl tbl.
Proof. apply Forall2_same_length_lookup_2; [done|]. intros i x y Hx Hy. simplify_eq. split_and!; auto. Qed.

Lemma published_by_trans ids1 ids2 t1 t2 t3 :
  published_by ids1 t1 t2 → published_by ids2 t2 t3 → published_by (ids1 ++ ids2) t1 t3.
Proof.
  unfold published_by. intros H12. revert t3. induction H12 as [|x y t1 t2 Hxy _ IH]; intros t3 H23; inversion H23; subst.
  - constructor.
  - constructor; [|by apply IH]. destruct Hxy as (E1 & E2 & E3 & Hu1 & Hp1).
    match goal with Hz : _ ∧ _ |- _ => destruct Hz as (F1 & F2 & F3 & Hu2 & Hp2) end.
    split_and!; try congruence; [auto|]. intros Hz. rewrite elem_of_app.
    destruct (Hp2 Hz) as [Hy|Hy]; [destruct (Hp1 Hy); auto|]. right. right. congruence.
Qed.

Lemma mark_published id s :
  published_by [id] (t_outbox s.1) (t_outbox (q_MarkOutboxPublished id s).2.1).
Proof.
  destruct s as [db e]. unfold q_MarkOutboxPublished, sql_update, statement.
  destruct (host_fault _); [apply published_by_refl|]. simpl.
  apply Forall2_fmap_r, Forall2_same_length_lookup_2; [done|]. intros i x y Hx Hy. assert (x = y) as <- by congruence. unfold compose.
  destruct (o_id x =s id) eqn:Hid; [|split_and!; auto]. eqs. simpl. split_and!; try done. intros _. right. rewrite Hid. by left.
Qed.

Lemma increment_attempts id s :
  published_by [] (t_outbox s.1) (t_outbox (q_IncrementOutboxAttempts id s).2.1).
Proof.
  destruct s as [db e]. unfold q_IncrementOutboxAttempts, sql_update, statement.
  destruct (host_fault _); [apply published_by_refl|]. simpl.
  apply Forall2_fmap_r, Forall2_same_length_lookup_2; [done|]. intros i x y Hx Hy. assert (x = y) as <- by congruence. unfold compose.
  destruct (o_id x =s id); split_and!; auto.
Qed.

Lemma dispatch_published evs (st : (DB * Env) * K) :
  published_by (accepted st.2 evs) (t_outbox st.1.1) (t_outbox (foldl dispatchOne st evs).1.1).
Proof.
  revert st. induction evs as [|ev evs IH]; intros [s k]; [apply published_by_refl|]. simpl.
  destruct (Publish ev k) as [[er|] k']; simpl.
  - eapply (published_by_trans [] (accepted k' evs)); [apply (increment_attempts (ob_ID ev) s)|].
    apply (IH ((sqs_IncrementOutboxAttempts (ob_ID ev) s).2, k')).
  - eapply (published_by_trans [ob_ID ev] (accepted k' evs)); [apply (mark_published (ob_ID ev) s)|].
    apply (IH ((sqs_MarkOutboxPublished (ob_ID ev) s).2, k')).
Qed.

(** The dispatcher never loses an event and never marks one published
    that the sink did not accept: after a tick, whatever the sink and the
    driver did, the outbox has the same events in the same order with the
    same keys and payloads, published ones stay published, and one that
    became published was offered to the sink in this tick and accepted. *)
Theorem dispatcherTick_safe (cfg : OutboxConfig) (s : DB * Env) (k : K) :
  let st' := dispatcherTick cfg (s, k) in
  published_by (match (st_PendingOutbox (oc_BatchSize cfg) s).1 with Ok evs => accepted k evs | Err _ => [] end)
    (t_outbox s.1) (t_outbox st'.1.1).
Proof.
  cbv zeta. unfold dispatcherTick. rewrite adapter_rows.
  assert (E : t_outbox (st_PendingOutbox (oc_BatchSize cfg) s).2.1 = t_outbox s.1).
  { destruct s as [db e]. simpl. unfold sqs_PendingOutbox, mbind, M_bind, q_ListPendingOutbox, select_many, statement.
    by destruct (host_fault _). }
  destruct (st_PendingOutbox (oc_BatchSize cfg) s) as [[evs|er] s'] eqn:Hp; simpl in *.
  - rewrite <- E. apply (dispatch_published evs (s', k)).
  - rewrite E. apply published_by_refl.
Qed.

(** ** The outbox drains *)

Definition pending (r : OutboxEventRow) : bool := o_publish_state r =s "PENDING".
Definition pending_count (l : list OutboxEventRow) : nat := length (filter (λ r, pending r) l).

(** The rows with an id of [ids] are no longer pending, and no row became so. *)
Definition drained (ids : list string) (l l' : list OutboxEventRow) : Prop :=
  Forall2 (λ r r', o_id r' = o_id r ∧ (pending r' = true → pending r = true ∧ o_id r ∉ ids)) l l'.

Lemma drained_refl l : drained [] l l.
Proof. apply Forall2_same_length_lookup_2; [done|]. intros i x y Hx Hy. simplify_eq. split; [done|]. split; [done|]. apply not_elem_of_nil. Qed.

Lemma drained_trans ids1 ids2 l1 l2 l3 : drained ids1 l1 l2 → drained ids2 l2 l3 → drained (ids1 ++ ids2) l1 l3.
Proof.
  unfold drained. intros H12. revert l3. induction H12 as [|x y l1 l2 [E1 P1] _ IH]; intros l3 H23; inversion H23; subst.
  - constructor.
  - constructor; [|by apply IH]. match goal with Hz : _ ∧ _ |- _ => destruct Hz as [E2 P2] end.
    split; [congruence|]. intros [Hp Hn]%P2. apply P1 in Hp as [Hp Hn1]. split; [done|].
    rewrite elem_of_app, <- E1. rewrite E1. intros [?|?]; [done|]. by rewrite E1 in Hn.
Qed.

Lemma drained_count ids l l' :
  drained ids l l' →
  (pending_count l' ≤ pending_count l)%nat ∧
  ((∃ r, r ∈ l ∧ pending r = true ∧ o_id r ∈ ids) → (pending_count l' < pending_count l)%nat).
Proof.
  unfold pending_count. induction 1 as [|x y l l' [_ Hp] _ [IHle IHlt]].
  - split; [done|]. intros (r & Hr & _). by apply elem_of_nil in Hr.
  - rewrite !filter_cons. destruct (pending y) eqn:Hy; simpl.
    + destruct (Hp eq_refl) as [Hx Hn]. rewrite Hx. simpl. split; [lia|]. intros (r & Hr & Hpr & Hid).
      apply elem_of_cons in Hr as [->|Hr]; [done|]. assert (length (filter (λ r, pending r) l') < length (filter (λ r, pending r) l))%nat by eauto. lia.
    + destruct (pending x) eqn:Hx; simpl; split; try lia. intros (r & Hr & Hpr & Hid).
      apply elem_of_cons in Hr as [->|Hr]; [congruence|]. eauto.
Qed.

Lemma limit_or_pos n : (0 < limit_or n)%Z.
Proof. unfold limit_or. destruct (Z.leb_spec n 0); lia. Qed.

Lemma limit_some {A} n (l : list A) x : (0 < n)%Z → x ∈ l → ∃ y, y ∈ limit n l ∧ y ∈ l.
Proof.
  intros Hn Hx. destruct l as [|y l]; [by apply elem_of_nil in Hx|]. exists y. split; [|by left].
  unfold limit. destruct (Z.ltb_spec n 0); [lia|]. destruct (Z.to_nat n) eqn:E; [lia|]. by left.
Qed.

Section Drains.
Context (no_faults : ∀ n, host_fault n = false) (accepts : ∀ e k, (Publish e k).1 = None).

Lemma mark_drained id s : drained [id] (t_outbox s.1) (t_outbox (q_MarkOutboxPublished id s).2.1).
Proof.
  destruct s as [db e]. unfold q_MarkOutboxPublished, sql_update, statement. rewrite no_faults. simpl.
  apply Forall2_fmap_r, Forall2_same_length_lookup_2; [done|]. intros i x y Hx Hy. assert (x = y) as <- by congruence.
  unfold compose. destruct (o_id x =s id) eqn:Hid; [by split|]. split; [done|]. intros Hp. split; [done|]. eqs.
  by intros ?%list_elem_of_singleton.
Qed.

Lemma dispatch_drained evs (st : (DB * Env) * K) :
  drained (ob_ID <$> evs) (t_outbox st.1.1) (t_outbox (foldl dispatchOne st evs).1.1).
Proof.
  revert st. induction evs as [|ev evs IH]; intros [s k]; [apply drained_refl|]. simpl.
  pose proof (accepts ev k) as Hacc. destruct (Publish ev k) as [[er|] k']; [done|].
  eapply (drained_trans [ob_ID ev] (ob_ID <$> evs)); [apply (mark_drained (ob_ID ev) s)|].
  apply (IH ((sqs_MarkOutboxPublished (ob_ID ev) s).2, k')).
Qed.

(** A tick publishes at least one event, when one is pending. *)
Lemma dispatcherTick_count (cfg : OutboxConfig) (st : (DB * Env) * K) :
  let n := pending_count (t_outbox st.1.1) in
  let n' := pending_count (t_outbox (dispatcherTick cfg st).1.1) in
  (n' ≤ n ∧ (0 < n → n' < n))%nat.
Proof.
  destruct st as [[db e] k]. cbv zeta. unfold dispatcherTick. rewrite adapter_rows. simpl.
  set (rows := limit (limit_or (oc_BatchSize cfg)) (sql_order_by (by_stamp o_created_at) (filter (λ r, pending r) (t_outbox db)))).
  assert (Hq : sqs_PendingOutbox (oc_BatchSize cfg) (db, e) = (Ok (rowToOutbox <$> rows), (db, tick e))).
  { unfold sqs_PendingOutbox, mbind, M_bind, q_ListPendingOutbox, select_many, statement. by rewrite no_faults. }
  rewrite Hq. pose proof (drained_count _ _ _ (dispatch_drained (rowToOutbox <$> rows) ((db, tick e), k))) as [Hle Hlt].
  simpl in Hle, Hlt. split; [exact Hle|]. intros Hpos. apply Hlt.
  unfold pending_count in Hpos. cbn [fst] in Hpos. destruct (filter (λ r, pending r) (t_outbox db)) as [|r0 l0] eqn:Hfil;
    [simpl in Hpos; lia|].
  destruct (limit_some (limit_or (oc_BatchSize cfg)) (sql_order_by (by_stamp o_created_at) (r0 :: l0)) r0) as (r & Hr & Hin).
  - apply limit_or_pos.
  - rewrite (sql_order_by_perm _ _). by left.
  - rewrite (sql_order_by_perm _ _), <- Hfil in Hin. apply list_elem_of_filter in Hin as [Hp%Is_true_true Hin].
    exists r. split; [done|]. split; [done|]. apply list_elem_of_fmap. exists (rowToOutbox r). split; [done|].
    by apply list_elem_of_fmap_2.
Qed.

(** C26. The outbox drains: when the driver fails no statement and the sink
    accepts every event, repeating the dispatcher tick, as often as events
    are pending or more, leaves no event pending, whatever the batch size is
    set to. *)
Theorem dispatcher_drains (cfg : OutboxConfig) (s : DB * Env) (k : K) (n : nat) :
  (pending_count (t_outbox s.1) ≤ n)%nat →
  Forall (λ r, o_publish_state r ≠ "PENDING") (t_outbox (Nat.iter n (dispatcherTick cfg) (s, k)).1.1).
Proof.
  intros Hn. assert (Hz : pending_count (t_outbox (Nat.iter n (dispatcherTick cfg) (s, k)).1.1) = 0%nat).
  { assert (Hgen : (pending_count (t_outbox (Nat.iter n (dispatcherTick cfg) (s, k)).1.1) ≤ pending_count (t_outbox s.1) - n)%nat); [|lia].
    clear Hn. induction n as [|n IH]; simpl; [lia|].
    pose proof (dispatcherTick_count cfg (Nat.iter n (dispatcherTick cfg) (s, k))) as Hc. cbv zeta in Hc.
    simpl in Hc. lia. }
  unfold pending_count in Hz. apply list.Forall_forall. intros r Hr Hp. apply nil_length_inv in Hz.
  assert (Hin : r ∈ filter (λ r, pending r) (t_outbox (Nat.iter n (dispatcherTick cfg) (s, k)).1.1)).
  { apply list_elem_of_filter. split; [|done]. by apply Is_true_true, bool_decide_eq_true_2. }
  rewrite Hz in Hin. by apply elem_of_nil in Hin.
Qed.
End Drains.
End Sqlite.

(** ** What the matcher reads and writes *)

Section Marks.
Context {H : Host} {D : DecimalOps} {L : DecimalLaws D} {SE : SqlEngine D} {SL : SqlEngineLaws D SE}.

Definition ext_row (t id : string) (r : ExternalRecordRow) : bool := (x_id r =s id) && (x_tenant_id r =s t).
Definition row_mark (r : ExternalRecordRow) : ExternalRecordStatus * string := (x_match_status r, deref (x_matched_journal_id r)).
Definition db_marks (db : DB) : Marks := λ t id, row_mark <$> sel (ext_row t id) (t_external db).

(** The engine adds up any of the entries stored in a table without loss, as
    REAL arithmetic does while the amounts and their sums are, say, whole
    numbers below 2^53. *)
Definition sums_exact (db : DB) : Prop :=
  ∀ p : LedgerEntryRow → bool, let amounts := e_amount <$> filter (λ r, p r) (t_entries db) in
    val (sql_real_sum amounts) = Qcsum text_val amounts.

Lemma sum_journal_rows t j a c dir db :
  sums_exact db →
  val (sql_real_sum (e_amount <$> filter (λ r, e_direction r =s dir) (filter (λ r, (e_tenant_id r =s t) &&
    (e_journal_id r =s j) && (e_account_id r =s a) && (e_currency r =s c)) (t_entries db)))) =
  journal_total (row_entry <$> t_entries db) t j a c dir.
Proof.
  intros Hex. rewrite list_filter_filter.
  rewrite (list_filter_iff _ (λ r : LedgerEntryRow, ((e_tenant_id r =s t) && (e_journal_id r =s j) && (e_account_id r =s a) &&
    (e_currency r =s c)) && (e_direction r =s dir))).
  - rewrite (Hex (λ r, _ && _)), Qcsum_fmap, Qcsum_filter. unfold journal_total. rewrite Qcsum_fmap. apply Qcsum_ext.
    intros r _. reflexivity.
  - intros r. rewrite !andb_True. tauto.
Qed.

(** The sums are exact where the engine's sums of the stored entries are. *)
#[export] Instance SqMatcherLaws : MatcherLaws D SqTx.
Proof.
  refine {| mt_entries x := row_entry <$> t_entries (tx_db x); mt_marks x := db_marks (tx_db x); mt_exact x := sums_exact (tx_db x) |}.
  - intros t src ws we s. simpl. unfold sq_ListExternalRecordsForRecon, q_ListExternalRecordsForRecon. apply wp_bind, wp_select_many.
    intros e. apply wp_ret. split; [done|]. apply list.Forall_forall. intros x (r & -> & Hr)%list_elem_of_fmap.
    rewrite sql_order_by_perm, list_elem_of_filter in Hr. destruct Hr as [Hp Hin]. simpl.
    unfold db_marks. destruct (sel _ _) eqn:Hs; [done|]. apply (sel_none _ _ _ Hs) in Hin.
    apply Is_true_true in Hp. unfold ext_row in Hin. rewrite bool_decide_eq_true_2 in Hin by done. simpl in Hin. by rewrite Hin in Hp.
  - intros t src ws we s. simpl. unfold sq_ListJournalsForRecon, q_ListJournalsForRecon. apply wp_bind, wp_select_many.
    intros e. by apply wp_ret.
  - intros t j a c s Hex. apply wp_select_one. intros r e [= <-]. split; [done|]. split; by apply sum_journal_rows.
  - intros t id st j s. apply wp_insert. intros now e _. split; [done|]. split; [|done]. simpl. unfold db_marks; simpl.
    apply (sel_mark_put (λ t i, ext_row t i) _ row_mark); [done| |].
    + intros x. unfold row_mark; simpl. by rewrite deref_nullString.
    + intros t0 id0 t' id' x Hx Hx'. unfold ext_row in *. eqs. by subst.
Defined.
End Marks.
