(* ===== verification/SqliteDispatch.v ===== *)
(** * The outbox of the SQLite backend

    Its statements add unpublished events or mark one ([OutboxLaws]), so the
    dispatchers of a busy SQLite ledger lose nothing ([Dispatch]). *)

From S2P Require Import Prelude Money Ledger Repo Contract Sql SqliteDb Sqlite Service Dispatch.
From stdpp Require Import base gmap strings list numbers.

Definition out_row (r : OutboxEventRow) : OutRow :=
  mkOutRow (o_id r) (o_idempotency_key r) (o_payload r) (o_publish_state r =s "PUBLISHED").
Definition outbox_rows (db : DB) : list OutRow := out_row <$> t_outbox db.

Section Sqlite.
Context {H : Host} {D : DecimalOps} {SE : SqlEngine D}.

Abbreviation q_more := (more outbox_rows).
Abbreviation tx_more := (more (λ t, outbox_rows (tx_db t))).

Lemma more_statement {A} (f : Z → DB → result error (A * DB)) :
  (∀ now db, match f now db with Ok (_, db') => outbox_more (outbox_rows db) (outbox_rows db') | Err _ => True end) →
  q_more (statement f).
Proof.
  intros Hf [db e]. unfold statement. destruct (host_fault _); [done|]. specialize (Hf (host_dbnow (e_db e)) db).
  by destruct (f _ db) as [[a db']|er].
Qed.
Lemma more_select_one {A} (f : DB → option A) : q_more (select_one f).
Proof. apply more_statement. intros now db. by destruct (f db). Qed.
Lemma more_select_many {A} (f : DB → list A) : q_more (select_many f).
Proof. by apply more_statement. Qed.
Lemma more_insert ok f : (∀ now db, t_outbox (f now db) = t_outbox db) → q_more (sql_insert ok f).
Proof. intros Hf. apply more_statement. intros now db. destruct (ok db); [|done]. unfold outbox_rows. by rewrite Hf. Qed.
Lemma more_update f : (∀ now db, t_outbox (f now db) = t_outbox db) → q_more (sql_update f).
Proof. intros Hf. apply more_statement. intros now db. unfold outbox_rows. by rewrite Hf. Qed.
Lemma more_InsertOutbox id t a ty k pl : q_more (q_InsertOutbox id t a ty k pl).
Proof. apply more_statement. intros now db. destruct (_ && _); [|done]. unfold outbox_rows. simpl. rewrite fmap_app. eexists. split; [done|]. by repeat constructor. Qed.

Lemma more_on_tx {A} (q : M error (DB * Env) A) : q_more q → tx_more (on_tx q).
Proof. intros Hq [t e]. unfold on_tx. destruct (tx_done t); [done|]. specialize (Hq (tx_db t, e)). by destruct (q _) as [r [db e']]. Qed.

#[local] Hint Resolve more_select_one more_select_many more_InsertOutbox : outbox.
#[local] Hint Extern 1 (more _ (sql_insert _ _)) => apply more_insert; intros; by repeat case_match : outbox.
#[local] Hint Extern 1 (more _ (sql_update _)) => by apply more_update : outbox.
#[local] Hint Extern 1 (more _ (statement _)) => apply more_statement; intros; repeat case_match; by simplify_eq : outbox.
#[local] Hint Extern 1 (more _ (parse_balance _)) => unfold parse_balance; more_walk : outbox.

(** ** The statements and the operations *)

#[local] Hint Unfold
  q_InsertAccount q_GetAccount q_ListAccountsByOwner q_GetBalance q_UpsertBalanceZero q_UpdateBalance
  q_InsertFlowRun q_GetFlowByIdempotency q_GetFlowByID q_CompleteFlowRun q_InsertFlowStep q_GetFlowSteps
  q_InsertJournal q_GetJournal q_GetJournalsByFlowRun q_InsertEntry q_ListAccountActivity q_ListPendingOutbox
  q_InsertReservation q_GetReservation q_GetReservationByIdempotency q_UpdateReservationAmounts
  q_ListExpiredReservations q_ListReservations q_InsertSnapshot q_GetLatestSnapshotBefore q_SumEntriesBetween
  q_ListAllBalancesForTenant q_ListTenantsDueForSnapshot q_PruneSnapshotsOlderThan q_UpsertFXRate
  q_GetFXRateAt q_ListFXRates q_InsertExternalRecord q_ListExternalRecordsForRecon q_UpdateExternalRecordMatch
  q_InsertReconBatch q_GetReconBatch q_GetReconBatchByIdempotency q_CompleteReconBatch q_ListJournalsForRecon
  q_SumJournalEntries q_InsertDiscrepancy q_GetDiscrepancy q_ListDiscrepancies q_ResolveDiscrepancyRow : outbox.
#[local] Hint Unfold
  sq_GetFlowByIdempotency sq_GetAccount sq_EnsureBalanceRow sq_LockBalance sq_UpdateBalance sq_InsertAccount
  sq_InsertFlowRun sq_CompleteFlowRun sq_InsertJournal sq_InsertEntry sq_InsertFlowStep sq_InsertOutbox
  sq_GetFlowSteps sq_InsertReservation sq_LockReservation sq_GetReservationByIdempotency
  sq_UpdateReservationAmounts sq_GetReconBatchByIdempotency sq_InsertReconBatch sq_CompleteReconBatch
  sq_ListExternalRecordsForRecon sq_ListJournalsForRecon sq_UpdateExternalRecordMatch sq_SumJournalEntries
  sq_InsertDiscrepancy sq_LockDiscrepancy sq_ResolveDiscrepancyRow sqs_GetAccount sqs_GetBalance sqs_GetFlow
  sqs_ListAccountActivity sqs_PendingOutbox sqs_InsertSnapshot sqs_GetSnapshotBefore sqs_SumEntriesBetween
  sqs_ListTenantBalances sqs_ListTenantsDueForSnapshot sqs_PruneSnapshotsOlderThan sqs_GetReservation
  sqs_ListExpiredReservations sqs_ListReservations sqs_UpsertFXRate sqs_GetFXRateAt sqs_ListFXRates
  sqs_InsertExternalRecord sqs_ListExternalRecordsForRecon sqs_ListJournalsForRecon sqs_GetReconBatch
  sqs_ListDiscrepancies sqs_GetDiscrepancy : outbox.

(** An operation of the store or of a transaction, down to its statements. *)
Ltac op_more := simpl; autounfold with outbox; repeat first [progress more_walk | apply more_on_tx].

#[export] Instance sqlite_tx : OutboxTxLaws (λ t, outbox_rows (tx_db t)).
Proof. split; intros; op_more. Qed.

#[export] Instance sqlite_commit : OutboxCommitLaws outbox_rows (λ t, outbox_rows (tx_db t)).
Proof.
  split; simpl.
  - intros [db e]. unfold sq_BeginFlowTx. by destruct (host_fault _).
  - intros db t e. unfold sq_Commit, sq_finalize. destruct (tx_done t), (host_fault (e_db e)); auto.
  - intros db t e. unfold sq_Rollback, sq_finalize. by destruct (tx_done t), (host_fault (e_db e)).
Qed.

#[export] Instance sqlite_store : OutboxStoreLaws outbox_rows.
Proof.
  split; intros; try solve [op_more]; destruct s as [db e]; simpl;
    unfold sqs_MarkOutboxPublished, sqs_IncrementOutboxAttempts, q_MarkOutboxPublished, q_IncrementOutboxAttempts,
      sql_update, statement; (destruct (host_fault _); [apply published_rows_refl|]); apply published_upd;
    intros r; split_and!; try done; intros Hr; try (right; simpl; intros Hid; eqs; set_solver); by left.
Qed.
End Sqlite.
