(* ===== verification/SqliteLimits.v ===== *)
(** * Where the SQLite schema and clock fall short

    Ids and idempotency keys are looked up per tenant but unique over the
    whole database, and a snapshot separates the entries it holds from the
    later ones by whole milliseconds.  The theorems say what follows for a
    second tenant that uses the same id or key, and for a balance as of an
    instant. *)

From S2P Require Import Prelude Money Ledger Repo Sql SqliteDb Sqlite Service Flow Accounts.
From stdpp Require Import base gmap strings list numbers.

Section Tenants.
Context {H : Host} {D : DecimalOps} {SE : SqlEngine D}.

(** A run that is answered with an Internal error and stores nothing. *)
Definition refused {A} (db : DB) (o : result error A * (DB * Env)) : Prop :=
  o.1 = Err (ErrConnect CodeInternal None) ∧ o.2.1 = db.

(** A run that ends with an error that carries no domain code. *)
Definition breaks {X A} (m : M error X A) (x : X) : Prop := ∃ er, (m x).1 = Err er ∧ as_domain er = None.

Lemma breaks_bind {X A B} (m : M error X A) (f : A → M error X B) x :
  (breaks m x ∨ ∃ a, (m x).1 = Ok a ∧ breaks (f a) (m x).2) → breaks (m ≫= f) x.
Proof.
  unfold breaks, mbind, M_bind. intros [(er & He & Hd)|(a & Ha & Hb)]; destruct (m x) as [[b|er'] x']; simpl in *;
    simplify_eq; eauto.
Qed.

Lemma breaks_insert ok f t e : tx_done t = false → ok (tx_db t) = false → breaks (on_tx (sql_insert ok f)) (t, e).
Proof.
  intros Ht Hok. unfold breaks, on_tx, sql_insert, statement. rewrite Ht, Hok.
  destruct (host_fault _); by eexists.
Qed.

Lemma rollback_keeps t db e : (sq_Rollback ((db, t), e)).2.1.1 = db.
Proof. unfold sq_Rollback, sq_finalize. destruct (tx_done t); [done|]. by destruct (host_fault (e_db e)). Qed.

(** Rolled back, a body that breaks leaves nothing. *)
Lemma refused_tx {A} (body : M error (SqTx * Env) A) db e :
  (∀ e', breaks body (mkSqTx db false, e')) → refused db (rpc (with_tx body) (db, e)).
Proof.
  intros Hb. unfold refused, rpc, with_tx. change (st_BeginFlowTx (db, e)) with (sq_BeginFlowTx (db, e)). unfold sq_BeginFlowTx.
  destruct (host_fault _); [done|]. destruct (Hb (tick e)) as (er & He & Hd).
  destruct (body _) as [[a|er'] [t' e']]; [done|]. simpl in He. injection He as ->.
  pose proof (rollback_keeps t' db e') as Hk. change (tx_Rollback (db, t', e')) with (sq_Rollback (db, t', e')).
  destruct (sq_Rollback _) as [rr [[st' t''] e'']]; simpl in *.
  unfold ToConnectError. by rewrite Hd.
Qed.

Lemma runInTx_refused (body : M error (SqTx * Env) unit) db e :
  (∀ e', breaks body (mkSqTx db false, e')) →
  ∃ er s', runInTx body (db, e) = (Err er, s') ∧ as_domain er = None ∧ s'.1 = db.
Proof.
  intros Hb. unfold runInTx. change (st_BeginFlowTx (db, e)) with (sq_BeginFlowTx (db, e)). unfold sq_BeginFlowTx.
  destruct (host_fault _); [by do 2 eexists|]. destruct (Hb (tick e)) as (er & He & Hd).
  destruct (body _) as [[a|er'] [t' e']]; [done|]. simpl in He. injection He as ->.
  pose proof (rollback_keeps t' db e') as Hk. change (tx_Rollback (db, t', e')) with (sq_Rollback (db, t', e')).
  destruct (sq_Rollback _) as [rr [[st' t''] e'']]; simpl in *.
  by do 2 eexists.
Qed.

(** Account ids do not carry the tenant but are the primary key: once one
    tenant has an account, no other tenant can create the account of an owner
    of the same type, name, account type and currency. *)
Theorem CreateAccount_id_taken (r : CreateAccountRequest) (db : DB) (e : Env) (row : AccountRow) :
  row ∈ t_accounts db →
  a_id row = account_id (ca_OwnerType r) (ca_OwnerId r) (ca_AccountType r) (ca_Currency r) →
  refused db (CreateAccount r (db, e)).
Proof.
  intros Hrow Hid. unfold refused, CreateAccount, rpc, mbind, M_bind, throw_if.
  replace (negb _) with false by (unfold normalBalanceFromProto; by destruct (_ =? _)%Z). simpl.
  destruct (runInTx_refused (sq_InsertAccount (newAccount r (host_now (e_now e)))) db
              (mkEnv (e_ids e) (S (e_now e)) (e_db e))) as (er & s' & -> & Hd & Hs).
  - intros e'. apply breaks_insert; [done|]. simpl. replace (any _ _) with true; [done|].
    symmetry. apply any_true. exists row. split; [done|]. by apply bool_decide_eq_true_2.
  - unfold ToConnectError. by rewrite Hd.
Qed.

(** Idempotency keys are unique over all tenants but looked up in one: a
    flow whose key only another tenant used is refused, whatever its steps
    ask for. *)
Theorem ExecuteFlow_key_taken (r : ExecuteFlowRequest) (db : DB) (e : Env) (row : FlowRunRow) steps :
  row ∈ t_flows db → f_idempotency_key row = ef_IdempotencyKey r →
  (∀ f, f ∈ t_flows db → f_idempotency_key f = ef_IdempotencyKey r → f_tenant_id f ≠ ef_TenantId r) →
  stepsFromProto (ef_Steps r) = Ok steps →
  refused db (ExecuteFlow r (db, e)).
Proof.
  intros Hrow Hkey Hten Hsteps. apply refused_tx. intros e1.
  unfold executeFlowInTx. apply breaks_bind. right. exists steps. unfold lift_result; simpl. rewrite Hsteps. split; [done|].
  apply breaks_bind. unfold breaks at 1, sq_GetFlowByIdempotency, mbind, M_bind, no_rows_none, on_tx, q_GetFlowByIdempotency, select_one, statement.
  simpl. destruct (host_fault _); [left; by eexists|]. right. rewrite any_false_sel.
  2:{ apply any_false. intros f Hf. specialize (Hten f Hf). apply andb_false_iff.
      destruct (f_idempotency_key f =s ef_IdempotencyKey r) eqn:E; eqs; [left|by right].
      by apply bool_decide_eq_false_2, Hten. }
  exists None. split; [done|]. unfold runNewFlow. do 2 (apply breaks_bind; right; eexists; split; [done|]).
  apply breaks_bind. left. apply breaks_insert; [done|]. simpl. apply andb_false_iff. right. apply negb_false_iff, any_true.
  exists row. split; [done|]. by apply bool_decide_eq_true_2.
Qed.
End Tenants.
