(* ===== verification/WalletLaws.v ===== *)
(** * What the wallet promises its callers

    Stated of any client that keeps [ClientOf]: deposits, withdrawals and
    settlements may be retried with their key until they succeed, whatever
    the network loses, and [EnsurePlayerAccounts] leaves both accounts of the
    player in place. *)

From S2P Require Import Prelude Money Ledger Repo Contract Service Flow FlowLaws Books Accounts AccountLaws.
From S2P Require Import Reservations ReservationLaws Exchange ExchangeLaws Recon Worker System Rpc Wallet.
From stdpp Require Import base gmap strings list numbers.
From Stdlib Require Import Qcanon.

(** ** Money movements *)

(** The three calls that post a journal, with what each moves. *)
Inductive MoneyOp := OpDeposit (i : DepositInput) | OpWithdraw (i : WithdrawInput) | OpSettle (i : SettleInput).

Definition op_key (op : MoneyOp) : string :=
  match op with OpDeposit i => di_IdempotencyKey i | OpWithdraw i => wi_IdempotencyKey i | OpSettle i => si_IdempotencyKey i end.
Definition op_currency (op : MoneyOp) : string :=
  match op with OpDeposit i => di_Currency i | OpWithdraw i => wi_Currency i | OpSettle i => si_Currency i end.
Definition op_amount (op : MoneyOp) : string :=
  match op with OpDeposit i => di_Amount i | OpWithdraw i => wi_Amount i | OpSettle i => si_Amount i end.
Definition op_debit (w : Wallet) (op : MoneyOp) : string :=
  match op with
  | OpDeposit i => accountID w (di_PlayerID i) "cash_available" (di_Currency i)
  | OpWithdraw i => wi_WithdrawalAccountID i
  | OpSettle i => accountID w (si_PlayerID i) "cash_available" (si_Currency i)
  end.
Definition op_credit (w : Wallet) (op : MoneyOp) : string :=
  match op with
  | OpDeposit i => di_FundingAccountID i
  | OpWithdraw i => accountID w (wi_PlayerID i) "cash_available" (wi_Currency i)
  | OpSettle i => si_PoolAccountID i
  end.

Definition op_run {X} (c : LedgerService X) (w : Wallet) (op : MoneyOp) : M error X Receipt :=
  match op with OpDeposit i => Deposit c w i | OpWithdraw i => Withdraw c w i | OpSettle i => Settle c w i end.

(** The two entries of a movement. *)
Definition op_entries {D : DecimalOps} {L : DecimalLaws D} (w : Wallet) (j : string) (op : MoneyOp) : list PEntry :=
  [mkPEntry (wl_tenant w) j (op_debit w op) (op_currency op) DirectionDebit (text_val (op_amount op));
   mkPEntry (wl_tenant w) j (op_credit w op) (op_currency op) DirectionCredit (text_val (op_amount op))].

Section Movements.
Context {H : Host} {D : DecimalOps} {L : DecimalLaws D} {S T : Type} {R : RepoTx D T} {RL : RepoTxLaws D T}
  {ST : RepoStore D S T} {SL : RepoStoreLaws D S T} {FL : RepoFrameLaws D S T}.
Context {X : Type} (c : LedgerService X) (served : X → S * Env) {CO : ClientOf c served} (w : Wallet).

Definition view_of (x : X) : LView := svw (served x).1.

(** One request of this shape, on the server. *)
Lemma wp_transfer t key src ev d cr ccy amt (s : S * Env) :
  let r := mkPostJournalRequest t key src "" (Some (mkPbJournal ev
    [mkPbEntry d ccy DIRECTION_DEBIT amt; mkPbEntry cr ccy DIRECTION_CREDIT amt])) in
  let es j := [mkPEntry t j d ccy DirectionDebit (text_val amt); mkPEntry t j cr ccy DirectionCredit (text_val amt)] in
  let v := svw s.1 in
  wp (PostJournal r) (λ res s', ∃ run, pjr_FlowRunId res = run ∧ lv_flow (svw s'.1) t key = Some (run, FlowCompleted) ∧
      ((lv_flow v t key = Some (run, FlowCompleted) ∧ svw s'.1 = v) ∨
       (lv_flow v t key = None ∧ ∃ j, lv_entries (svw s'.1) = lv_entries v ++ es j)))
    (λ e s', s'.1 = s.1) s.
Proof.
  intros r es v. apply wp_bind. eapply wp_mono; [apply wp_ExecuteFlow| |by intros e s' []]. cbv beta.
  intros res s' (steps & Hs & Hout). simpl in Hs, Hout. fold v in Hout. exists (er_FlowRunId res). split; [done|].
  destruct (moveFlow_steps t "POST_JOURNAL" key src "" "post" ev d cr ccy amt steps Hs) as (a & Ha & Hes).
  apply ParseAmount_pos in Ha as [Ha _].
  destruct (lv_flow v t key) as [[id st]|] eqn:Hf.
  - destruct Hout as (-> & -> & -> & _). rewrite Hf. split; [done|]. by left.
  - destruct Hout as (run & l & Hl & -> & -> & _). split; [by apply flow_post_key|]. right. split; [done|].
    rewrite flow_post_entries. simpl.
    destruct (moveFlow_one t "POST_JOURNAL" key src "" "post" ev d cr ccy amt steps Hs) as (st & ->).
    destruct l as [|[st' j] [|]]; try done. injection Hl as ->. exists j. simpl in *.
    rewrite app_nil_r in *. unfold done_entries, step_entries, es in *; simpl in *. rewrite Hes. unfold text_val. by rewrite Ha.
Qed.

(** One attempt through the client: nothing happened, or the movement was
    posted under its key, or it had been. *)
Inductive attempt (op : MoneyOp) (v : LView) : result error Receipt → LView → Prop :=
| AttemptFailed e : attempt op v (Err e) v
| AttemptPosted res run j v' :
    lv_flow v (wl_tenant w) (op_key op) = None →
    lv_flow v' (wl_tenant w) (op_key op) = Some (run, FlowCompleted) →
    lv_entries v' = lv_entries v ++ op_entries w j op →
    (∀ rc, res = Ok rc → rc_FlowRunID rc = run) → attempt op v res v'
| AttemptReplayed res run :
    lv_flow v (wl_tenant w) (op_key op) = Some (run, FlowCompleted) →
    (∀ rc, res = Ok rc → rc_FlowRunID rc = run) → attempt op v res v.

Lemma op_attempt op x : attempt op (view_of x) (op_run c w op x).1 (view_of (op_run c w op x).2).
Proof.
  set (r := mkPostJournalRequest (wl_tenant w) (op_key op)
    (match op with OpDeposit i => di_SourceService i | OpWithdraw i => wi_SourceService i | OpSettle i => si_SourceService i end) ""
    (Some (mkPbJournal (match op with OpDeposit i => di_ExternalRef i | OpWithdraw i => wi_ExternalRef i | OpSettle i => si_ExternalRef i end)
      [mkPbEntry (op_debit w op) (op_currency op) DIRECTION_DEBIT (op_amount op);
       mkPbEntry (op_credit w op) (op_currency op) DIRECTION_CREDIT (op_amount op)]))).
  assert (Hop : op_run c w op = (resp ← c PPostJournal r; mret (mkReceipt (pjr_JournalId resp) (pjr_FlowRunId resp))))
    by (by destruct op).
  rewrite Hop. unfold mbind, M_bind. pose proof (client_call PPostJournal r x) as Hcall.
  pose proof (wp_transfer _ _ _ _ _ _ _ _ (served x) : wp (PostJournal r) _ _ _) as Hpost. unfold wp in Hpost.
  change (Server PPostJournal r (served x)) with (PostJournal r (served x)) in Hcall. unfold view_of.
  destruct (c PPostJournal r x) as [[a|e] x'].
  - rewrite Hcall in Hpost. simpl. destruct Hpost as (run & <- & Hrun & [[Hf ->]|[Hf (j & Hj)]]).
    + apply (AttemptReplayed _ _ _ _ Hf). by intros rc [= <-].
    + apply (AttemptPosted _ _ _ _ _ _ Hf Hrun Hj). by intros rc [= <-].
  - simpl. destruct Hcall as [->| ->]; [by apply AttemptFailed|].
    destruct (PostJournal r (served x)) as [[a|e'] s']; simpl.
    + destruct Hpost as (run & _ & Hrun & [[Hf ->]|[Hf (j & Hj)]]); [by apply AttemptFailed|].
      by apply (AttemptPosted _ _ _ _ _ _ Hf Hrun Hj).
    + rewrite Hpost. apply AttemptFailed.
Qed.

(** Up to [n] attempts until one is answered; before each, others use the
    service.  Returns the receipt and the entries the attempts posted. *)
Fixpoint retry (others : nat → X → X) (n : nat) (op : MoneyOp) (x : X) : (option Receipt * list PEntry) * X :=
  match n with
  | O => ((None, []), x)
  | Datatypes.S n' =>
      let x0 := others n x in
      let '(res, x1) := op_run c w op x0 in
      let new := drop (length (lv_entries (view_of x0))) (lv_entries (view_of x1)) in
      match res with
      | Ok rc => ((Some rc, new), x1)
      | Err _ => let '((o, l), x2) := retry others n' op x1 in ((o, new ++ l), x2)
      end
  end.

(** Others never use the key of the movement. *)
Definition key_free (others : nat → X → X) (key : string) : Prop :=
  ∀ n x, lv_flow (view_of (others n x)) (wl_tenant w) key = lv_flow (view_of x) (wl_tenant w) key.

Lemma retry_replays others n op x run :
  key_free others (op_key op) → lv_flow (view_of x) (wl_tenant w) (op_key op) = Some (run, FlowCompleted) →
  let '((o, l), x') := retry others n op x in
  l = [] ∧ lv_flow (view_of x') (wl_tenant w) (op_key op) = Some (run, FlowCompleted) ∧ ∀ rc, o = Some rc → rc_FlowRunID rc = run.
Proof.
  intros Hfree. revert x. induction n as [|n IH]; intros x Hf; simpl; [done|].
  assert (Hf0 : lv_flow (view_of (others (Datatypes.S n) x)) (wl_tenant w) (op_key op) = Some (run, FlowCompleted)) by (by rewrite Hfree).
  pose proof (op_attempt op (others (Datatypes.S n) x)) as Hat.
  destruct (op_run c w op (others (Datatypes.S n) x)) as [res x1]; simpl in Hat.
  assert (Hx1 : view_of x1 = view_of (others (Datatypes.S n) x) ∧ ∀ rc, res = Ok rc → rc_FlowRunID rc = run)
    by (inversion Hat; subst; [by split|congruence|split; [done|naive_solver]]).
  destruct Hx1 as [E Hrc]. rewrite E, drop_all. rewrite <- E in Hf0. destruct res as [rc|e].
  - split_and!; [done|done|]. intros rc' [= <-]. by apply Hrc.
  - specialize (IH x1 Hf0). by destruct (retry others n op x1) as [[o l] x2].
Qed.

(** C3. Retrying is safe: a deposit, withdrawal or settlement under a key
    that no flow of the tenant used, and that nobody else uses, may be
    retried until it is answered, over any client, whatever calls are lost on
    the way there or back, whatever statements fail and whatever others do in
    between: the attempts together post nothing, and then none was answered,
    or exactly the two entries of the movement, its amount from the credited
    to the debited account; and the receipt names the flow that is recorded
    as completed under the key. *)
Theorem retry_exactly_once (others : nat → X → X) (n : nat) (op : MoneyOp) (x : X) :
  key_free others (op_key op) → lv_flow (view_of x) (wl_tenant w) (op_key op) = None →
  let '((o, l), x') := retry others n op x in
  (l = [] ∧ o = None ∨ ∃ j, l = op_entries w j op) ∧
  ∀ rc, o = Some rc → lv_flow (view_of x') (wl_tenant w) (op_key op) = Some (rc_FlowRunID rc, FlowCompleted).
Proof.
  intros Hfree. revert x. induction n as [|n IH]; intros x Hf; simpl; [by split; [left|]|].
  rewrite <- (Hfree (Datatypes.S n) x) in Hf. set (x0 := others (Datatypes.S n) x) in *.
  pose proof (op_attempt op x0) as Hat. destruct (op_run c w op x0) as [res x1]; simpl in Hat.
  inversion Hat as [e E1 E2|res' run j v' Hn Hrun Hj Hrc E1 E2|res' run Hrun]; [subst res| |congruence].
  - rewrite drop_all. rewrite E2 in Hf. specialize (IH x1 Hf). by destruct (retry others n op x1) as [[o l] x2].
  - rewrite Hj, drop_app_length. destruct res as [rc|e].
    + split; [right; by exists j|]. intros rc' [= <-]. by rewrite (Hrc rc).
    + pose proof (retry_replays others n op x1 run Hfree Hrun) as Hr.
      destruct (retry others n op x1) as [[o l] x2]. destruct Hr as (-> & Hx2 & Ho).
      split; [right; exists j; by rewrite app_nil_r|]. intros rc Hrc'. by rewrite (Ho rc).
Qed.
End Movements.

(** ** The accounts of a player *)

Section Players.
Context {H : Host} {D : DecimalOps} {L : DecimalLaws D} {S T : Type} {R : RepoTx D T} {RL : RepoTxLaws D T}
  {ST : RepoStore D S T} {SL : RepoStoreLaws D S T} {FL : RepoFrameLaws D S T}.
Context {X : Type} (c : LedgerService X) (served : X → S * Env) {CO : ClientOf c served} (w : Wallet).

(** The account [ensureAccount] asks for. *)
Definition player_account (player ty currency : string) : Account :=
  mkAccount (accountID w player ty currency) (wl_tenant w) (wl_ownerType w) player ty currency NormalDebit false AccountActive 0%Z.

Lemma lv_add_acct_view a v : lv_add_acct (acc_view a) v = lv_add_acct a v.
Proof. done. Qed.

Lemma wp_CreateAccount r (s : S * Env) :
  wp (CreateAccount r) (λ _ s', ∃ now, lv_acct (svw s.1) (ca_TenantId r) (acc_ID (newAccount r now)) = None ∧
      svw s'.1 = lv_add_acct (newAccount r now) (svw s.1))
    (λ _ s', s'.1 = s.1) s.
Proof.
  apply wp_rpc. apply wp_bind. apply wp_throw_if; [done|]. intros _.
  apply wp_bind. destruct s as [st e]. unfold wp at 1, Now. apply wp_bind. set (a := newAccount r _).
  eapply wp_mono.
  - apply (wp_runInTx _ (λ v', lv_acct (svw st) (ca_TenantId r) (acc_ID a) = None ∧ v' = lv_add_acct a (svw st))).
    intros t e' Ht Ho. eapply wp_mono; [apply wp_InsertAccount_open| |done]. simpl in *. rewrite Ht. cbv beta.
    intros _ x [[Hn ->] Hx]. done.
  - intros [] s' Q. by exists (host_now (e_now e)).
  - done.
Qed.

(** What ensuring one account does to the ledger. *)
Definition ensured (player currency ty : string) (v v' : LView) : Prop :=
  let a := player_account player ty currency in
  match lv_acct v (wl_tenant w) (acc_ID a) with
  | Some _ => v' = v
  | None => v' = lv_add_acct a v
  end.

Definition never_exists : Prop :=
  ∀ r y e y', c PCreateAccount r y = (Err e, y') → already_exists e = false.

Lemma ensureAccount_ok player ty currency x x' :
  never_exists → ensureAccount c w player ty currency x = (Ok tt, x') →
  ensured player currency ty (svw (served x).1) (svw (served x').1).
Proof.
  intros Hne. unfold ensureAccount. set (r := mkCreateAccountRequest _ _ _ _ _ _ _).
  pose proof (client_call PCreateAccount r x) as Hcall. change (Server PCreateAccount r (served x)) with (CreateAccount r (served x)) in Hcall.
  pose proof (wp_CreateAccount r (served x)) as Hcreate. unfold wp in Hcreate. unfold ensured; simpl.
  destruct (c PCreateAccount r x) as [[p|err] x1] eqn:Hc.
  - intros [= <-]. rewrite Hcall in Hcreate. destruct Hcreate as (now & Hn & Hv). change (lv_acct (svw (served x).1) (wl_tenant w) (accountID w player ty currency) = None) in Hn. by rewrite Hn.
  - rewrite (Hne _ _ _ _ Hc). set (g := mkGetAccountRequest _ _).
    pose proof (client_call PGetAccount g x1) as Hget. change (Server PGetAccount g (served x1)) with (GetAccount (wl_tenant w) (accountID w player ty currency) (served x1)) in Hget.
    destruct (c PGetAccount g x1) as [[p|e2] x2]; [|done]. intros [= <-].
    unfold GetAccount in Hget. apply rpc_ok in Hget. apply bind_ok in Hget as (a & s1 & [Ha E]%st_GetAccount_ok & Hret).
    injection Hret as <- <-. rewrite E.
    destruct Hcall as [Hs|Hs]; rewrite Hs in *; [by rewrite Ha|].
    destruct (CreateAccount r (served x)) as [[p'|e'] s']; simpl in *.
    + destruct Hcreate as (now & Hn & Hv). change (lv_acct (svw (served x).1) (wl_tenant w) (accountID w player ty currency) = None) in Hn. by rewrite Hn.
    + rewrite Hcreate in *. by rewrite Ha.
Qed.

(** What the wallet calls the account of an id of the player. *)
Definition wanted (player currency a : string) : option Account :=
  if a =s accountID w player "cash_available" currency then Some (player_account player "cash_available" currency)
  else if a =s accountID w player "cash_reserved" currency then Some (player_account player "cash_reserved" currency)
  else None.

(** What one call of [ensureAccount] adds. *)
Lemma ensured_acct player currency ty v v' t a :
  ensured player currency ty v v' →
  v' = lv_set_acct (lv_acct v') v ∧
  lv_acct v' t a = match lv_acct v t a with
    | Some x => Some x
    | None => if (t =s wl_tenant w) && (a =s accountID w player ty currency) then Some (player_account player ty currency) else None
    end.
Proof.
  unfold ensured; simpl. destruct (lv_acct v (wl_tenant w) (accountID w player ty currency)) as [y|] eqn:Hy; intros ->.
  - split; [by destruct v|]. destruct (lv_acct v t a) as [x|] eqn:Hx; [done|].
    destruct ((t =s wl_tenant w) && (a =s accountID w player ty currency)) eqn:E; [|done]. eqs. subst. congruence.
  - split; [done|]. simpl. unfold fput.
    destruct ((t =s wl_tenant w) && (a =s accountID w player ty currency)) eqn:E.
    + eqs. subst. by rewrite Hy.
    + by destruct (lv_acct v t a).
Qed.

(** C23. [EnsurePlayerAccounts]: when it succeeds, over a client that never
    answers that an account already exists, both accounts of the player exist
    and it returns their ids: an account that was there is as it was, one
    that was not is new, active, debit-normal and may not be overdrawn; no
    other account and nothing else in the ledger changed, however the calls
    it took to find out failed. *)
Theorem EnsurePlayerAccounts_spec player currency x pa x' :
  never_exists → EnsurePlayerAccounts c w player currency x = (Ok pa, x') →
  let v := svw (served x).1 in let v' := svw (served x').1 in
  pl_Available pa = accountID w player "cash_available" currency ∧
  pl_Reserved pa = accountID w player "cash_reserved" currency ∧
  v' = lv_set_acct (lv_acct v') v ∧
  ∀ t a, lv_acct v' t a = match lv_acct v t a with
    | Some old => Some old
    | None => if t =s wl_tenant w then wanted player currency a else None
    end.
Proof.
  intros Hne Hrun. apply bind_ok in Hrun as ([] & x1 & H1%ensureAccount_ok & Hrun); [|done].
  apply bind_ok in Hrun as ([] & x2 & H2%ensureAccount_ok & Hrun); [|done]. injection Hrun as <- <-. cbv zeta. simpl.
  split_and!; [done|done| |].
  - destruct (ensured_acct _ _ _ _ _ "" "" H1) as [E1 _], (ensured_acct _ _ _ _ _ "" "" H2) as [E2 _].
    rewrite E2 at 1. by rewrite E1.
  - intros t a. destruct (ensured_acct _ _ _ _ _ t a H1) as [_ E1], (ensured_acct _ _ _ _ _ t a H2) as [_ E2].
    rewrite E2, E1. unfold wanted. destruct (lv_acct (svw (served x).1) t a); [done|].
    destruct (t =s wl_tenant w); [|done]. simpl. by destruct (a =s accountID w player "cash_available" currency).
Qed.
End Players.
