(* ===== verification/WalletSqlite.v ===== *)
(** * The wallet on an embedded SQLite ledger

    [GetWallet] reads the balances and the open reservations of a player, each
    at a moment of its own while other requests run, and at most a page of
    each status; an embedded client never answers that an account already
    exists. *)

From S2P Require Import Prelude Money Ledger Repo Contract Sql SqliteDb Sqlite SqliteLaws Service Flow FlowLaws Books.
From S2P Require Import Accounts AccountLaws Reservations Exchange ExchangeLaws Recon Worker System Rpc Wallet WalletLaws.
From stdpp Require Import base gmap strings list numbers.
From Stdlib Require Import Qcanon.

Section Snapshot.
Context {H : Host} {D : DecimalOps} {L : DecimalLaws D} {SE : SqlEngine D} {SL : SqlEngineLaws D SE}.
Context (w : Wallet).

(** The reservations of a player in a status: those whose source account is
    the player's. *)
Definition owned_by (db : DB) (player : string) (r : ReservationRow) : bool :=
  (v_tenant_id r =s wl_tenant w) &&
  any (λ a, (a_id a =s v_source_account_id r) && opt_eq (a_owner_type a) (wl_ownerType w) &&
            opt_eq (a_owner_id a) player) (t_accounts db).
Definition open_rows (db : DB) (player status : string) : list ReservationRow :=
  filter (λ r, owned_by db player r && (v_status r =s status)) (t_reservations db).
Definition in_ccy (currency : string) (r : ReservationRow) : bool := v_currency r =s currency.
(** What the wallet shows of a row. *)
Definition shown (r : ReservationRow) : SDKReservation := resvToSDK (reservationToProto (rowToReservation r)).

(** ** Reads leave the database alone *)

Abbreviation db_kept m := (view_frame (λ (_ : bool) (db : DB), db) m).

Lemma kept_select_one {A} (f : DB → option A) : db_kept (select_one f).
Proof. intros [db e] b. unfold select_one, statement. destruct (host_fault _); [done|]. by destruct (f db). Qed.

Lemma kept_rpc {A} (m : M error (DB * Env) A) : db_kept m → db_kept (rpc m).
Proof. intros Hm s b. specialize (Hm s b). unfold rpc. by destruct (m s) as [[a|e] s']. Qed.

Lemma kept_GetBalance r : gb_AsOf r = None → db_kept (GetBalance r).
Proof.
  intros Hr. unfold GetBalance. rewrite Hr.
  apply kept_rpc, frame_bind; [|intros a; apply frame_bind; [by destruct (negb _)|intros _; apply frame_bind; [|by intros [[d c] ver]]]].
  - apply frame_bind; [apply frame_no_rows_code, kept_select_one|done].
  - apply frame_bind; [apply frame_no_rows_none, kept_select_one|]. intros [row|]; [|done]. unfold parse_balance.
    destruct (NewFromString _); [|done]. by destruct (NewFromString _).
Qed.

(** An embedded client among others: before its call number [n] whatever
    else runs in the process has done [others n]. *)
Definition among (others : nat → DB * Env → DB * Env) : LedgerService ((DB * Env) * nat) := λ p r '(s, n),
  let '(a, s') := Server p r (others n s) in (a, (s', Datatypes.S n)).

Context (others : nat → DB * Env → DB * Env).
Implicit Types (x : (DB * Env) * nat).

(** The moment of the next call, and what a call that only reads leaves. *)
Definition moment x : DB := (others x.2 x.1).1.
Definition read_at x x' : Prop := x'.1.1 = moment x ∧ x'.2 = Datatypes.S x.2.

Lemma among_ok {p r x a x'} :
  among others p r x = (Ok a, x') → Server p r (others x.2 x.1) = (Ok a, x'.1) ∧ x'.2 = Datatypes.S x.2.
Proof.
  destruct x as [s n]. unfold among. simpl. destruct (Server p r (others n s)) as [b s'] eqn:E. by intros [= -> <-].
Qed.

Lemma balance_ok account currency x d x' :
  balance (among others) w account currency x = (Ok d, x') →
  read_at x x' ∧ ∃ a, lv_acct (svw (moment x)) (wl_tenant w) account = Some (acc_view a) ∧
    val d = normalized a (lv_balance (svw (moment x)) (wl_tenant w, account, currency)).
Proof.
  set (r := mkGetBalanceRequest (wl_tenant w) account currency None).
  intros Hrun. apply bind_ok in Hrun as (p & x1 & Hb & Hd). apply (among_ok (p:=PGetBalance)) in Hb as [Hb Hn1]. change (GetBalance r (others x.2 x.1) = (Ok p, x1.1)) in Hb.
  pose proof (kept_GetBalance r eq_refl (others x.2 x.1) true) as Hk. rewrite Hb in Hk.
  destruct (GetBalance_spec r _ _ _ eq_refl Hb) as (_ & a & Ha & _ & _ & Hn & _). simpl in *.
  unfold text_val in Hn. destruct (NewFromString (pb_Normalized p)) as [d'|]; [|done]. injection Hd as <- <-.
  split; [by split|]. by exists a.
Qed.

(** ** The pages of reservations *)

Definition newest_first : ReservationRow → ReservationRow → bool := desc (by_stamp_id v_created_at v_id).
(** The first page of a list, newest first. *)
Definition page (l : list ReservationRow) : list ReservationRow := take 100 (sql_order_by newest_first l).

Lemma fold_open currency rows open :
  foldl (λ open p, if negb (pr_Currency p =s currency) then open else open ++ [resvToSDK p]) open
    (reservationToProto <$> (rowToReservation <$> rows)) =
  open ++ (shown <$> filter (λ r, in_ccy currency r) rows).
Proof.
  revert open. induction rows as [|r rows IH]; intros open; simpl; [by rewrite app_nil_r|]. rewrite IH, filter_cons.
  change (v_currency r =s currency) with (in_ccy currency r).
  destruct (in_ccy currency r); simpl; [|done]. by rewrite <- app_assoc.
Qed.

Lemma openOf_ok player currency open status x out x' :
  status ≠ "" → openOf (among others) w player currency open status x = (Ok out, x') →
  read_at x x' ∧ out = open ++ (shown <$> filter (λ r, in_ccy currency r) (page (open_rows (moment x) player status))).
Proof.
  intros Hst Hrun. apply bind_ok in Hrun as (lr & x1 & Hl & Hret). apply (among_ok (p:=PListReservations)) in Hl as [Hl%rpc_ok Hn]. injection Hret as <- <-.
  apply bind_ok in Hl as (rows & s2 & Hl & Hret). injection Hret as <- Hx1.
  apply bind_ok in Hl as (rs & s3 & Hq & Hret). injection Hret as <- <-.
  unfold read_at, moment. rewrite <- Hx1. destruct (others x.2 x.1) as [db e].
  unfold q_ListReservations, select_many, statement in Hq. destruct (host_fault _); [done|].
  injection Hq as <- <-. split; [by split|]. rewrite fold_open. unfold page, limit. simpl.
  do 3 f_equal. unfold open_rows. do 2 f_equal. apply list_filter_iff. intros r. unfold owned_by, opt_eq.
  by rewrite (eqs_false status "" Hst), orb_false_r.
Qed.

Lemma page_length l : (length (page l) ≤ 100)%nat.
Proof. unfold page. rewrite length_take. lia. Qed.
Lemma page_in l r : r ∈ page l → r ∈ l.
Proof.
  intros (i & Hi & _)%elem_of_take. apply list_elem_of_lookup_2 in Hi.
  by rewrite (sql_order_by_perm newest_first l) in Hi.
Qed.
Lemma page_whole l : (length l ≤ 100)%nat → page l ≡ₚ l.
Proof.
  intros Hl. unfold page. rewrite take_ge; [apply sql_order_by_perm|].
  by rewrite (Permutation_length (sql_order_by_perm newest_first l)).
Qed.

Lemma funded_balance v t a c acct :
  ledger_ok v → lv_acct v t a = Some (acc_view acct) → acc_AllowNegative acct = false → (0 <= normalized acct (lv_balance v (t, a, c)))%Qc.
Proof.
  intros Hok Ha Hneg. unfold lv_balance. destruct (lv_bal v (t, a, c)) as [b|] eqn:Hb.
  - exact (ok_funded _ Hok _ _ _ _ _ Hb Ha Hneg).
  - unfold normalized; simpl. destruct (_ =s _); apply Qcle_refl.
Qed.

(** The balance of an account the wallet shows. *)
Definition shows_balance (v : LView) (account currency : string) (d : dec) : Prop :=
  ∃ a, lv_acct v (wl_tenant w) account = Some (acc_view a) ∧
    val d = normalized a (lv_balance v (wl_tenant w, account, currency)) ∧
    (ledger_ok v → acc_AllowNegative a = false → (0 <= val d)%Qc).

(** C22. [GetWallet] on an embedded ledger, while other requests run between
    its four calls: when it succeeds, each figure is right at the moment it
    was read.  The available amount is the normalized balance of the player's
    account at the moment of the first call, the reserved amount that of the
    second, and where the books are right and the account may not be overdrawn
    they are not negative; every reservation it lists was, at the moment of the
    third or the fourth call, a HELD or a PARTIAL one of the player in the
    currency, shown as it was; and it lists all of those as long as the player
    had at most a page, 100, of each status, in whatever currency.  Its own
    calls change nothing. *)
Theorem GetWallet_spec (player currency : string) x0 snap x4 :
  GetWallet (among others) w player currency x0 = (Ok snap, x4) →
  ∃ x1 x2 x3, read_at x0 x1 ∧ read_at x1 x2 ∧ read_at x2 x3 ∧ read_at x3 x4 ∧
  shows_balance (svw (moment x0)) (accountID w player "cash_available" currency) currency (ws_Available snap) ∧
  shows_balance (svw (moment x1)) (accountID w player "cash_reserved" currency) currency (ws_Reserved snap) ∧
  let held := open_rows (moment x2) player "HELD" in let partial := open_rows (moment x3) player "PARTIAL" in
  (∀ v, v ∈ ws_OpenReservations snap → ∃ r, r ∈ held ++ partial ∧ in_ccy currency r = true ∧ v = shown r) ∧
  ((length held ≤ 100)%nat → (length partial ≤ 100)%nat →
     ws_OpenReservations snap ≡ₚ shown <$> filter (λ r, in_ccy currency r) (held ++ partial)).
Proof.
  intros Hrun.
  apply bind_ok in Hrun as (avail & x1 & [E1 (a & Ha & Hav)]%balance_ok & Hrun).
  apply bind_ok in Hrun as (resv & x2 & [E2 (b & Hb & Hbv)]%balance_ok & Hrun).
  apply bind_ok in Hrun as (rows & x5 & Hrows & Hrun). injection Hrun as <- <-.
  apply bind_ok in Hrows as (held & x3 & [E4 ->]%openOf_ok & Hrows); [|done].
  apply bind_ok in Hrows as (part & x4' & [E5 ->]%openOf_ok & Hrows); [|done]. injection Hrows as <- <-.
  exists x1, x2, x3. unfold shows_balance. simpl. split_and!; try done.
  - exists a. split_and!; [done|done|]. rewrite Hav. intros Hok Hneg. by apply funded_balance.
  - exists b. split_and!; [done|done|]. rewrite Hbv. intros Hok Hneg. by apply funded_balance.
  - intros v [Hx|Hx]%elem_of_app; apply list_elem_of_fmap in Hx as (r & -> & Hr);
      apply list_elem_of_filter in Hr as [Hc Hr%page_in]; exists r;
      (split; [apply elem_of_app; auto|split; [by apply Is_true_true|done]]).
  - intros H1 H2. rewrite <- fmap_app, list.filter_app. by rewrite !page_whole by done.
Qed.
End Snapshot.

(** ** Ensuring accounts *)

Section Exists.
Context {H : Host} {D : DecimalOps} {SE : SqlEngine D}.

(** A computation whose errors carry no domain code. *)
Definition no_code {X A} (m : M error X A) : Prop := ∀ x e x', m x = (Err e, x') → as_domain e = None.

Lemma no_code_insert ok f : no_code (on_tx (sql_insert ok f)).
Proof.
  intros [[db done] e] er x'. unfold on_tx, sql_insert, statement; simpl. destruct done; [by intros [= <- _]|].
  destruct (host_fault _); [by intros [= <- _]|]. destruct (ok db); [done|by intros [= <- _]].
Qed.

Lemma no_code_runInTx (m : M error (SqTx * Env) unit) : 
  no_code m → ∀ s e s', runInTx m (s : DB * Env) = (Err e, s') → as_domain e = None.
Proof.
  intros Hm [db e0] e s'. unfold runInTx. change (st_BeginFlowTx (db, e0)) with (sq_BeginFlowTx (db, e0)). unfold sq_BeginFlowTx.
  destruct (host_fault _); [by intros [= <- _]|]. destruct (m _) as [[a|er] [t' e']] eqn:Hrun.
  - change (tx_Commit (db, t', e')) with (sq_Commit (db, t', e')). unfold sq_Commit, sq_finalize.
    destruct (tx_done t'); [done|]. destruct (host_fault _); [by intros [= <- _]|done].
  - destruct (tx_Rollback _) as [rr [[st' t''] e'']]. intros [= <- _]. by eapply Hm.
Qed.

(** An embedded SQLite client never answers that an account exists. *)
Lemma sqlite_never_exists : never_exists embeddedClient.
Proof.
  intros r [db e0] e s' Hrun. change (CreateAccount r (db, e0) = (Err e, s')) in Hrun. unfold CreateAccount, rpc, throw_if in Hrun.
  destruct (negb _); [by injection Hrun as <- _|]. unfold mbind, M_bind, mret, M_ret, Now in Hrun.
  destruct (runInTx _ _) as [[a|er] s2] eqn:Htx; [done|]. injection Hrun as <- _.
  apply no_code_runInTx in Htx; [|apply no_code_insert]. unfold ToConnectError. by rewrite Htx.
Qed.
End Exists.

