(* ===== verification/Examples.v ===== *)
(** * examples/go: the walkthroughs

    The programs under src/examples/go, over any client.  Each prints lines
    and ends at the first error ([log.Fatalf]); a program is a computation on
    the client and the lines printed so far.  [time.Now] is the argument
    [now], and the time zone is UTC.  The six programs that talk to a server
    have the same helpers, here once with the currency and the source service
    as arguments; lines of the log are dropped. *)

From S2P Require Import Prelude Money Ledger Rfc3339 Repo Contract Service Flow Accounts Reservations Exchange Recon Rpc Wallet Embedded.
From stdpp Require Import base gmap strings list numbers pretty.

Definition serverURL : string := "http://localhost:8080".
Definition tenant : string := "t1".

(** [time.Hour] *)
Definition time_Hour : Z := (3600 * 1000000000)%Z.

Section Programs.
Context {X : Type} (c : LedgerService X).
Abbreviation Prog A := (M error (X * list string) A).

(** A call whose error ends the program. *)
Definition call (p : Procedure) (r : Req p) : Prog (Res p) := λ '(x, out),
  let '(res, x') := c p r x in (res, (x', out)).
(** [fmt.Println], [fmt.Printf] of a whole line *)
Definition Println (line : string) : Prog unit := λ '(x, out), (Ok tt, (x, out ++ [line])).

(** ** Helpers *)

Definition createAccount (ownerType ownerID kind ccy : string) (nb : Z) (allowNeg : bool) : Prog string :=
  r ← call PCreateAccount (mkCreateAccountRequest tenant ownerType ownerID kind ccy nb allowNeg);
  mret (pa_Id r).

Definition entry (acct ccy : string) (dir : Z) (amount : string) : PbEntry := mkPbEntry acct ccy dir amount.

Definition postJournal (key source ref : string) (entries : list PbEntry) : Prog unit :=
  call PPostJournal (mkPostJournalRequest tenant key source "" (Some (mkPbJournal ref entries)));;
  mret tt.

Definition balance (acct ccy : string) : Prog string :=
  r ← call PGetBalance (mkGetBalanceRequest tenant acct ccy None);
  mret (pb_Normalized r).

Definition dump_line (label : string) (r : PbReservation) : string :=
  label +:+ ": status=" +:+ pr_Status r +:+ " outstanding=" +:+ pr_OutstandingAmount r +:+
    " committed=" +:+ pr_CommittedAmount r +:+ " released=" +:+ pr_ReleasedAmount r.
Definition dump (label : string) (r : PbReservation) : Prog unit := Println (dump_line label r).

(** The one-step flows the programs run. *)
Definition oneStep (flowType key source step event : string) (entries : list PbEntry) : ExecuteFlowRequest :=
  mkExecuteFlowRequest tenant flowType key source "" None [mkPbStep step (Some (mkPbJournal event entries))].

(** ** place_order/main.go *)

Definition place_order : Prog unit :=
  src ← createAccount "platform" "0" "source" "USD" NORMAL_BALANCE_CREDIT true;
  avail ← createAccount "user" "1" "cash_available" "USD" NORMAL_BALANCE_DEBIT false;
  resv ← createAccount "user" "1" "cash_reserved" "USD" NORMAL_BALANCE_DEBIT false;
  Println "seeded 1000 USD into cash_available";;
  postJournal "seed-place-order" "example" "seed-place-order"
    [entry avail "USD" DIRECTION_DEBIT "1000"; entry src "USD" DIRECTION_CREDIT "1000"];;
  Println "placing order: reserve 100 USD";;
  call PExecuteFlow (oneStep "PLACE_ORDER" "ord-abc-v1" "example" "reserve" "ord-abc-reserve"
    [entry resv "USD" DIRECTION_DEBIT "100"; entry avail "USD" DIRECTION_CREDIT "100"]);;
  a ← balance avail "USD";
  Println ("cash_available = " +:+ a);;
  r ← balance resv "USD";
  Println ("cash_reserved  = " +:+ r).

(** ** reservations/main.go *)

Definition reservations : Prog unit :=
  src ← createAccount "platform" "0" "source" "USD" NORMAL_BALANCE_CREDIT true;
  avail ← createAccount "user" "1" "cash_available" "USD" NORMAL_BALANCE_DEBIT false;
  resv ← createAccount "user" "1" "cash_reserved" "USD" NORMAL_BALANCE_DEBIT false;
  dest ← createAccount "market" "42" "collateral_pool" "USD" NORMAL_BALANCE_DEBIT false;
  postJournal "seed-res" "example" "seed-res"
    [entry avail "USD" DIRECTION_DEBIT "1000"; entry src "USD" DIRECTION_CREDIT "1000"];;
  r1 ← call PCreateReservation (mkCreateReservationRequest tenant "res-demo-1" "example" "" avail resv "USD" "300" None None);
  let id := pr_Id r1 in
  dump "after create" r1;;
  r2 ← call PCommitReservation (mkCommitReservationRequest tenant "c-100" "" "" id "100" dest);
  dump "after commit 100" r2;;
  r3 ← call PReleaseReservation (mkReleaseReservationRequest tenant "r-50" "" "" id "50");
  dump "after release 50" r3;;
  r4 ← call PCommitReservation (mkCommitReservationRequest tenant "c-150" "" "" id "150" dest);
  dump "after final commit" r4;;
  rr ← call PCreateReservation (mkCreateReservationRequest tenant "res-demo-1" "example" "" "ignored" "ignored" "USD" "999" None None);
  throw_if (negb (pr_Id rr =s id)) (ErrOther "replay id mismatch");;
  Println "idempotent replay returned the same reservation id".

(** ** fx_exchange/main.go *)

Definition printBalance (name acct ccy : string) : Prog unit :=
  b ← balance acct ccy; Println (name +:+ " = " +:+ b).

Definition fx_exchange (now : Time) : Prog unit :=
  src ← createAccount "platform" "0" "source" "USD" NORMAL_BALANCE_CREDIT true;
  userUSD ← createAccount "user" "1" "cash_available" "USD" NORMAL_BALANCE_DEBIT false;
  userEUR ← createAccount "user" "1" "cash_available" "EUR" NORMAL_BALANCE_DEBIT false;
  platUSD ← createAccount "platform" "fx_desk" "cash" "USD" NORMAL_BALANCE_CREDIT true;
  platEUR ← createAccount "platform" "fx_desk" "cash" "EUR" NORMAL_BALANCE_CREDIT true;
  postJournal "fx-seed" "demo" "fx-seed"
    [entry userUSD "USD" DIRECTION_DEBIT "100"; entry src "USD" DIRECTION_CREDIT "100"];;
  Println "funded 100 USD";;
  call PPutFXRate (mkPutFXRateRequest tenant "USD" "EUR" "0.895" "manual" (Some now));;
  Println "recorded USD/EUR rate 0.895";;
  resp ← call PExecuteExchange (mkExecuteExchangeRequest tenant "ex-demo" "demo" "" userUSD platUSD userEUR platEUR
    "100" "89.500" "" "" None);
  Println ("exchange done: flow_run_id=" +:+ exr_FlowRunId resp +:+ " rate=" +:+ exr_RateUsed resp +:+
    " source=" +:+ exr_RateSource resp);;
  printBalance "user USD" userUSD "USD";;
  printBalance "user EUR" userEUR "EUR";;
  printBalance "platform USD" platUSD "USD";;
  printBalance "platform EUR" platEUR "EUR".

(** ** fx_revaluation/main.go *)

Definition fx_revaluation : Prog unit :=
  src ← createAccount "platform" "0" "source" "USD" NORMAL_BALANCE_CREDIT true;
  srcEUR ← createAccount "platform" "0" "source" "EUR" NORMAL_BALANCE_CREDIT true;
  userUSD ← createAccount "user" "1" "cash_available" "USD" NORMAL_BALANCE_DEBIT false;
  userEUR ← createAccount "user" "1" "cash_available" "EUR" NORMAL_BALANCE_DEBIT false;
  platUSD ← createAccount "platform" "fx_desk" "cash" "USD" NORMAL_BALANCE_CREDIT true;
  platEUR ← createAccount "platform" "fx_desk" "cash" "EUR" NORMAL_BALANCE_CREDIT true;
  fxPnlEUR ← createAccount "platform" "fx_desk" "fx_pnl" "EUR" NORMAL_BALANCE_CREDIT true;
  postJournal "rev-seed-usd" "demo" "rev-seed-usd"
    [entry userUSD "USD" DIRECTION_DEBIT "100"; entry src "USD" DIRECTION_CREDIT "100"];;
  postJournal "rev-seed-eur" "demo" "rev-seed-eur"
    [entry platEUR "EUR" DIRECTION_DEBIT "1000"; entry srcEUR "EUR" DIRECTION_CREDIT "1000"];;
  Println "funded 100 USD and 1000 EUR";;
  call PExecuteFlow (oneStep "EXCHANGE_RESIDUAL" "rev-residual" "demo" "exchange" "rev-residual-evt"
    [entry platUSD "USD" DIRECTION_DEBIT "100"; entry userUSD "USD" DIRECTION_CREDIT "100";
     entry userEUR "EUR" DIRECTION_DEBIT "89.50"; entry platEUR "EUR" DIRECTION_CREDIT "89.00";
     entry fxPnlEUR "EUR" DIRECTION_CREDIT "0.50"]);;
  Println "exchange-with-residual posted; 0.50 EUR booked to fx_pnl";;
  call PExecuteFlow (oneStep "FX_REVALUATION" "rev-mtm" "demo" "mtm" "rev-mtm-evt"
    [entry fxPnlEUR "EUR" DIRECTION_DEBIT "12.34"; entry platEUR "EUR" DIRECTION_CREDIT "12.34"]);;
  Println "mark-to-market posted; 12.34 EUR loss recorded against fx_pnl";;
  b ← balance fxPnlEUR "EUR";
  Println ("fx_pnl EUR balance = " +:+ b +:+ " (credit-normal: positive = platform gain)").

(** ** reconciliation/main.go *)

(** One turn of the seeding loop. *)
Definition seedStripe (avail src : string) (_ : unit) (ref : string) : Prog unit :=
  postJournal ("seed-" +:+ ref) "stripe" ref
    [entry avail "USD" DIRECTION_DEBIT "100"; entry src "USD" DIRECTION_CREDIT "100"].

Definition reconciliation (now : Time) : Prog unit :=
  avail ← createAccount "user" "1" "cash_available" "USD" NORMAL_BALANCE_DEBIT false;
  src ← createAccount "platform" "0" "source" "USD" NORMAL_BALANCE_CREDIT true;
  foldM (seedStripe avail src) ["tx_001"; "tx_002"] tt;;
  Println "seeded two journals from source 'stripe'";;
  call PIngestExternalRecords (mkIngestExternalRecordsRequest tenant
    [mkPbExternalRecord "stripe" "tx_001" "100" "USD" (Some now) avail None;
     mkPbExternalRecord "stripe" "tx_002" "100" "USD" (Some now) avail None;
     mkPbExternalRecord "stripe" "tx_999" "42" "USD" (Some now) avail None]);;
  Println "ingested 3 external records";;
  b ← call PRunReconciliation (mkRunReconciliationRequest tenant "demo-batch" "stripe"
    (Some (now - time_Hour)%Z) (Some (now + time_Hour)%Z) "");
  Println ("batch " +:+ prb_Id b +:+ ": matched=" +:+ pretty (prb_MatchedCount b) +:+
    " missing_in_ledger=" +:+ pretty (prb_MissingInLedgerCount b) +:+
    " missing_in_external=" +:+ pretty (prb_MissingInExternalCount b));;
  ds ← call PListDiscrepancies (mkListDiscrepanciesRequest tenant (prb_Id b) "OPEN" 0);
  match ds with
  | [d] =>
      Println ("open discrepancy: id=" +:+ pd_Id d +:+ " type=" +:+ pd_Type d);;
      let adj := mkExecuteFlowRequest tenant "ADJUSTMENT" "" "recon" "" None
        [mkPbStep "adjust" (Some (mkPbJournal "tx_999"
          [entry avail "USD" DIRECTION_DEBIT "42"; entry src "USD" DIRECTION_CREDIT "42"]))] in
      res ← call PResolveDiscrepancy (mkResolveDiscrepancyRequest tenant (pd_Id d) "demo-resolve" "RESOLVED"
        "back-booked from stripe" "" (Some adj));
      Println ("resolved: status=" +:+ pd_Status res +:+ " resolution_journal_id=" +:+ pd_ResolutionJournalId res)
  | _ => throw (ErrOther "want 1 discrepancy")
  end.

(** ** snapshots/main.go *)

(** [asOf] is the clock after the snapshot. *)
Definition snapshots (asOf : Time) : Prog unit :=
  src ← createAccount "platform" "0" "source" "USD" NORMAL_BALANCE_CREDIT true;
  avail ← createAccount "user" "1" "cash_available" "USD" NORMAL_BALANCE_DEBIT false;
  postJournal "snap-1" "example" "snap-1"
    [entry avail "USD" DIRECTION_DEBIT "100"; entry src "USD" DIRECTION_CREDIT "100"];;
  Println "seeded 100 USD";;
  r ← call PTakeBalanceSnapshot (mkTakeBalanceSnapshotRequest tenant avail "USD");
  Println ("took snapshot: " +:+ pretty r +:+ " row(s)");;
  postJournal "snap-2" "example" "snap-2"
    [entry avail "USD" DIRECTION_DEBIT "250"; entry src "USD" DIRECTION_CREDIT "250"];;
  Println "posted another 250 USD";;
  now ← call PGetBalance (mkGetBalanceRequest tenant avail "USD" None);
  Println ("current balance:    " +:+ pb_Normalized now);;
  hist ← call PGetBalance (mkGetBalanceRequest tenant avail "USD" (Some asOf));
  Println ("balance as of " +:+ Format asOf +:+ ": " +:+ pb_Normalized hist).
End Programs.

(** ** sdk_embedded/main.go, sdk_remote/main.go *)

Section Sdk.
Context {D : DecimalOps} {SP : Structpb} {X : Type} (c : LedgerService X).
Abbreviation Prog A := (M error (X * list string) A).

(** A call of the wallet. *)
Definition on_wallet {A} (m : M error X A) : Prog A := λ '(x, out), let '(res, x') := m x in (res, (x', out)).

Definition stripeCash : CreateAccountRequest :=
  mkCreateAccountRequest "tipmarket" "platform" "0" "stripe_cash" "USD" NORMAL_BALANCE_CREDIT false.
Definition collateralPool : CreateAccountRequest :=
  mkCreateAccountRequest "tipmarket" "market" "100" "collateral_pool" "USD" NORMAL_BALANCE_DEBIT false.

(** The program between opening and closing the ledger. *)
Definition wallet_cycle : Prog unit :=
  call c PCreateAccount stripeCash;;
  call c PCreateAccount collateralPool;;
  let w := NewWallet "tipmarket" [] in
  accts ← on_wallet (EnsurePlayerAccounts c w "player-42" "USD");
  Println ("player accounts: {Available:" +:+ pl_Available accts +:+ " Reserved:" +:+ pl_Reserved accts +:+ "}");;
  on_wallet (Deposit c w (mkDepositInput "player-42" "USD" "100" "platform:0:stripe_cash:USD" "stripe_ch_abc" "dep-1" "stripe"));;
  r ← on_wallet (Reserve c w (mkReserveInput "player-42" "USD" "40" time_zero "res-1" "matcher" ∅));
  Println ("reserved: " +:+ sr_ID r +:+ " outstanding=" +:+ sr_OutstandingAmount r);;
  on_wallet (Commit c w (mkCommitInput (sr_ID r) "market:100:collateral_pool:USD" "40" "com-1" "matcher"));;
  snap ← on_wallet (GetWallet c w "player-42" "USD");
  Println ("wallet: available=" +:+ dString (ws_Available snap) +:+ " reserved=" +:+ dString (ws_Reserved snap) +:+
    " open=" +:+ pretty (length (ws_OpenReservations snap))).

(** [dir] is what [os.MkdirTemp] returns; the deferred [Close] runs unless
    the program ends in [log.Fatalf]. *)
Definition sdk_embedded {PF : Platform} (dir : result error string) : M error (Trace * (X * list string)) unit := λ '(tr, s),
  match dir with
  | Err e => (Err e, (tr, s))
  | Ok dir =>
      match NewEmbedded (mkOptions SQLite (dir +:+ "/pam.db") MigrateAuto false 0) tr with
      | (Err e, tr1) => (Err e, (tr1, s))
      | (Ok cl, tr1) =>
          match wallet_cycle s with
          | (Err e, s1) => (Err e, (tr1, s1))
          | (Ok _, s1) => (Ok tt, ((Close (cl, tr1)).2.2, s1))
          end
      end
  end.

(** An account that cannot be created is logged and ignored. *)
Definition tryCreate (_ : unit) (r : CreateAccountRequest) : Prog unit := λ '(x, out),
  (Ok tt, ((c PCreateAccount r x).2, out)).

Definition sdk_remote : Prog unit :=
  foldM tryCreate [stripeCash; collateralPool] tt;;
  let w := NewWallet "tipmarket" [] in
  on_wallet (EnsurePlayerAccounts c w "player-42" "USD");;
  on_wallet (Deposit c w (mkDepositInput "player-42" "USD" "100" "platform:0:stripe_cash:USD" "stripe_ch_remote"
    "dep-remote-1" "stripe"));;
  snap ← on_wallet (GetWallet c w "player-42" "USD");
  Println ("wallet via remote: available=" +:+ dString (ws_Available snap) +:+ " reserved=" +:+ dString (ws_Reserved snap)).
End Sdk.
