(* ===== verification/ExampleLaws.v ===== *)
(** * What the walkthroughs print

    On any backend that keeps the contract, through any client, whatever ids
    and instants the server makes: a walkthrough that is not cut short by an
    error prints the amounts its comments promise.  [run_state] follows the
    accounts of a program with their balances, and the keys of flows and
    reservations it has still to use. *)

From S2P Require Import Prelude Money Ledger Repo Contract Service Flow FlowLaws Books Accounts Reservations ReservationLaws Exchange Recon.
From S2P Require Import Worker System Rpc Wallet AccountLaws WalletLaws Examples.
From stdpp Require Import base gmap strings list numbers pretty.
From Stdlib Require Import Qcanon.

(** ** What a flow request posts *)

Section Posting.
Context {D : DecimalOps} {L : DecimalLaws D}.

(** What an entry of a request adds to the debits and credits of a balance. *)
Definition pb_total (k : key) (e : PbEntry) : Qc * Qc :=
  if bool_decide ((ent_AccountId e, ent_Currency e) = k)
  then (if (ent_Direction e =? DIRECTION_CREDIT)%Z then (0, text_val (ent_Amount e)) else (text_val (ent_Amount e), 0))%Qc
  else (0, 0)%Qc.
Definition pb_totals (k : key) (es : list PbEntry) : Qc * Qc := foldr (λ e acc, add2 (pb_total k e) acc) (0, 0)%Qc es.

Lemma pb_totals_snoc k es e : pb_totals k (es ++ [e]) = add2 (pb_totals k es) (pb_total k e).
Proof.
  unfold pb_totals. induction es as [|x es IH]; simpl.
  - rewrite add2_zero. destruct (pb_total k e). unfold add2; simpl. f_equal; ring.
  - by rewrite IH, add2_assoc.
Qed.

Lemma entryFromProto_total k acc e es : entryFromProto acc e = Ok es → totals k es = add2 (totals k acc) (pb_total k e).
Proof.
  unfold entryFromProto. destruct (ParseAmount (ent_Amount e)) as [a|er] eqn:Ha; [|done]. intros [= <-].
  apply ParseAmount_pos in Ha as [Ha _]. rewrite totals_app. f_equal. unfold pb_total, totals, entry_debit, entry_credit, entry_key; simpl.
  rewrite (text_val_parse _ _ Ha). destruct (bool_decide _); [|f_equal; ring].
  destruct (ent_Direction e =? DIRECTION_CREDIT)%Z; simpl; f_equal; ring.
Qed.

Lemma entriesFromProto_totals k es acc out :
  foldR entryFromProto es acc = Ok out → totals k out = add2 (totals k acc) (pb_totals k es).
Proof.
  revert acc. induction es as [|e es IH]; intros acc; simpl.
  - intros [= <-]. by rewrite add2_zero.
  - destruct (entryFromProto acc e) as [acc'|er] eqn:He; [|done]. intros Ho%IH. rewrite Ho, (entryFromProto_total k _ _ _ He).
    apply add2_assoc.
Qed.

(** The only step of a one-step flow. *)
Lemma oneStep_totals k ft key src step ev es steps :
  stepsFromProto (ef_Steps (oneStep ft key src step ev es)) = Ok steps → totals k (steps ≫= step_entries) = pb_totals k es.
Proof.
  unfold stepsFromProto, oneStep, stepFromProto; simpl.
  destruct (foldR entryFromProto es []) as [out|er] eqn:Ho; [|done]. intros [= <-]. simpl. rewrite app_nil_r.
  unfold step_entries; simpl. rewrite (entriesFromProto_totals k _ _ _ Ho), totals_nil. unfold add2; simpl.
  destruct (pb_totals k es); simpl. f_equal; ring.
Qed.

(** A new flow of one step. *)
Lemma oneStep_outcome ft key src step ev es v res v' :
  flow_outcome (oneStep ft key src step ev es) v res v' → lv_flow v tenant key = None →
  (∀ a c, lv_balance v' (tenant, a, c) = add2 (lv_balance v (tenant, a, c)) (pb_totals (a, c) es)) ∧
  ∀ k, k ≠ key → lv_flow v tenant k = None → lv_flow v' tenant k = None.
Proof.
  intros (steps & Hs & Hout) Hn. simpl in Hout. rewrite Hn in Hout. destruct Hout as (run & l & Hl & -> & _). split.
  - intros a c. rewrite lv_balance_post. f_equal. rewrite posted_done, Hl. by apply (oneStep_totals _ ft key src step ev).
  - intros k Hk Hnone. unfold flow_post; simpl. unfold fput. rewrite eqs_refl, (eqs_false _ _ Hk). simpl. by rewrite Hnone.
Qed.
End Posting.

(** ** Programs *)

Section Programs.
Context {H : Host} {D : DecimalOps} {L : DecimalLaws D} {S T : Type} {R : RepoTx D T} {RL : RepoTxLaws D T}
  {ST : RepoStore D S T} {SL : RepoStoreLaws D S T} {FL : RepoFrameLaws D S T}.
Context {X : Type} (c : LedgerService X) (served : X → S * Env) {CO : ClientOf c served}.
Abbreviation Prog A := (M error (X * list string) A).
Implicit Types (s : X * list string) (v : LView) (keys rkeys : list string).

(** The ledger a program talks to. *)
Definition ledger s : LView := svw (served s.1).1.

(** An account of the program: its id, currency, normal balance and balance. *)
Record Held := mkHeld { hd_id : string; hd_ccy : string; hd_nb : NormalBalance; hd_bal : Qc * Qc }.
Definition holds_at v (h : Held) : Prop :=
  (∃ a, lv_acct v tenant (hd_id h) = Some a ∧ acc_Currency a = hd_ccy h ∧ acc_NormalBalance a = hd_nb h) ∧
  lv_balance v (tenant, hd_id h, hd_ccy h) = hd_bal h.

Record run_state v (hs : list Held) keys rkeys : Prop := {
  rs_ok : ledger_ok v;
  rs_held : Forall (holds_at v) hs;
  rs_keys : NoDup keys ∧ Forall (λ k, lv_flow v tenant k = None) keys;
  rs_rkeys : Forall (λ k, lv_resvk v tenant k = None) rkeys;
}.

(** The balance in the direction of the account. *)
Definition shows (h : Held) : Qc :=
  if hd_nb h =s NormalCredit then ((hd_bal h).2 - (hd_bal h).1)%Qc else ((hd_bal h).1 - (hd_bal h).2)%Qc.
Definition post_to (es : list PbEntry) (h : Held) : Held :=
  mkHeld (hd_id h) (hd_ccy h) (hd_nb h) (add2 (hd_bal h) (pb_totals (hd_id h, hd_ccy h) es)).

(** What an entry adds to the balance so shown. *)
Definition pb_net (nb : NormalBalance) (k : key) (e : PbEntry) : Qc :=
  if bool_decide ((ent_AccountId e, ent_Currency e) = k)
  then (if Bool.eqb (ent_Direction e =? DIRECTION_CREDIT)%Z (nb =s NormalCredit) then text_val (ent_Amount e) else - text_val (ent_Amount e))%Qc
  else 0%Qc.
Lemma shows_post es h : shows (post_to es h) = (shows h + Qcsum (pb_net (hd_nb h) (hd_id h, hd_ccy h)) es)%Qc.
Proof.
  unfold shows, post_to; cbn [hd_nb hd_bal]. set (k := (hd_id h, hd_ccy h)). set (b := hd_bal h).
  assert (Hnet : Qcsum (pb_net (hd_nb h) k) es = if hd_nb h =s NormalCredit then ((pb_totals k es).2 - (pb_totals k es).1)%Qc
    else ((pb_totals k es).1 - (pb_totals k es).2)%Qc).
  { unfold pb_net. destruct (hd_nb h =s NormalCredit); (induction es as [|e es IH]; [rewrite Qcsum_nil; simpl; ring|]);
      rewrite Qcsum_cons, IH; unfold pb_totals, pb_total; simpl;
      destruct (bool_decide _), (ent_Direction e =? DIRECTION_CREDIT)%Z; simpl; ring. }
  rewrite Hnet. destruct (_ =s _); simpl; ring.
Qed.
Lemma shows_new (id ccy : string) nb : shows (mkHeld id ccy nb (0, 0)%Qc) = 0%Qc.
Proof. unfold shows; simpl. destruct (_ =s _); ring. Qed.

Lemma wpo_call p r (Q : Res p → X * list string → Prop) s :
  (∀ a x', Server p r (served s.1) = (Ok a, served x') → Q a (x', s.2)) → wpo (call c p r) Q s.
Proof.
  intros HQ. destruct s as [x out]. unfold wp, call. pose proof (client_call p r x) as Hc.
  destruct (c p r x) as [[a|e] x']; [|done]. by apply HQ.
Qed.
Lemma wpo_Println line (Q : unit → X * list string → Prop) s : Q tt (s.1, s.2 ++ [line]) → wpo (Println line) Q s.
Proof. by destruct s. Qed.

Lemma wpo_createAccount ot oi kind ccy nb neg hs keys rkeys s :
  run_state (ledger s) hs keys rkeys →
  wpo (createAccount c ot oi kind ccy nb neg) (λ id s', id = account_id ot oi kind ccy ∧
    run_state (ledger s') (mkHeld id ccy (normalBalanceFromProto nb) (0, 0)%Qc :: hs) keys rkeys ∧ s'.2 = s.2) s.
Proof.
  intros [Hok Hh Hk Hrk]. apply wp_bind, (wpo_call PCreateAccount). intros p x' Hrun. apply wp_ret.
  change (CreateAccount (mkCreateAccountRequest tenant ot oi kind ccy nb neg) (served s.1) = (Ok p, served x')) in Hrun.
  pose proof (wp_ok _ _ _ _ _ _ (wp_CreateAccount _ _) Hrun) as (now & Hn & Hv). simpl in Hn.
  destruct (CreateAccount_spec _ _ _ _ Hrun) as (_ & Hid & _). simpl in Hid. rewrite Hid. split; [done|]. split; [|done].
  unfold ledger at 1. simpl. rewrite Hv. split; [by apply account_ok| |done|done]. constructor; [split|].
  - eexists. simpl. unfold fput. rewrite !eqs_refl. by split_and!.
  - exact (absent_balance _ _ _ _ Hok Hn).
  - eapply list.Forall_impl; [exact Hh|]. intros h [(a & Ha & Hrest) Hb]. split; [|done]. exists a. split; [|done].
    simpl. unfold fput. destruct (_ && _) eqn:Hm; [|done]. eqs. unfold ledger in Ha. congruence.
Qed.

(** A flow with the next of the keys. *)
Lemma run_state_flow ft key src step ev es hs keys rkeys v res v' :
  run_state v hs (key :: keys) rkeys → flow_outcome (oneStep ft key src step ev es) v res v' →
  run_state v' (post_to es <$> hs) keys rkeys.
Proof.
  intros [Hok Hh [Hnd Hk] Hrk] Hf. apply list.NoDup_cons in Hnd as [Hin Hnd]. apply list.Forall_cons in Hk as [Hkey Hk].
  destruct (oneStep_outcome _ _ _ _ _ _ _ _ _ Hf Hkey) as [Hbal Hkeys]. destruct (flow_outcome_frame _ _ _ _ Hf) as (Hacct & _ & Hresvk & _).
  split; [by eapply flow_outcome_ok| |split; [done|]|by rewrite Hresvk].
  - apply list.Forall_fmap. eapply list.Forall_impl; [exact Hh|]. intros h [Ha Hb]. split; simpl; [by rewrite Hacct|].
    by rewrite Hbal, Hb.
  - rewrite !list.Forall_forall in *. intros k Hki. apply Hkeys; [by intros ->|by apply Hk].
Qed.

Lemma wpo_flow ft key src step ev es hs keys rkeys s :
  run_state (ledger s) hs (key :: keys) rkeys →
  wpo (call c PExecuteFlow (oneStep ft key src step ev es)) (λ _ s', run_state (ledger s') (post_to es <$> hs) keys rkeys ∧ s'.2 = s.2) s.
Proof.
  intros Hr. apply (wpo_call PExecuteFlow). intros a x' Hrun. split; [|done]. eapply run_state_flow; [exact Hr|].
  exact (wp_ok _ _ _ _ _ _ (wp_ExecuteFlow _ _) Hrun).
Qed.

Lemma wpo_postJournal key src ref es hs keys rkeys s :
  run_state (ledger s) hs (key :: keys) rkeys →
  wpo (Examples.postJournal c key src ref es) (λ _ s', run_state (ledger s') (post_to es <$> hs) keys rkeys ∧ s'.2 = s.2) s.
Proof.
  intros Hr. apply wp_bind, (wpo_call PPostJournal). intros a x' Hrun. apply wp_ret. split; [|done].
  apply bind_ok in Hrun as (res & s1 & Hrun & Hret). injection Hret as _ ->. eapply run_state_flow; [exact Hr|].
  exact (wp_ok _ _ _ _ _ _ (wp_ExecuteFlow (oneStep "POST_JOURNAL" key src "post" ref es) _) Hrun).
Qed.

Lemma wpo_balance h hs keys rkeys s :
  run_state (ledger s) hs keys rkeys → h ∈ hs →
  wpo (Examples.balance c (hd_id h) (hd_ccy h)) (λ txt s', text_val txt = shows h ∧ run_state (ledger s') hs keys rkeys ∧ s'.2 = s.2) s.
Proof.
  intros Hr Hin. apply wp_bind, (wpo_call PGetBalance). intros p x' Hrun. apply wp_ret.
  change (GetBalance (mkGetBalanceRequest tenant (hd_id h) (hd_ccy h) None) (served s.1) = (Ok p, served x')) in Hrun.
  destruct (GetBalance_spec (mkGetBalanceRequest tenant (hd_id h) (hd_ccy h) None) _ _ _ eq_refl Hrun) as (Hv & a & Ha & _ & _ & Hn & _). simpl in Ha, Hn.
  pose proof (rs_held _ _ _ _ Hr) as Hh. rewrite list.Forall_forall in Hh. destruct (Hh _ Hin) as [(a' & Ha' & _ & Hnb) Hb].
  unfold ledger in Ha', Hb. rewrite Ha in Ha'. injection Ha' as Ha'. split_and!; [|unfold ledger; simpl; by rewrite Hv|done].
  rewrite Hn, Hb. unfold normalized, shows. rewrite <- Hnb, <- Ha'. done.
Qed.

Lemma wpo_run {A} (m : Prog A) Q s a s' : wpo m Q s → m s = (Ok a, s') → Q a s'.
Proof. intros Hw Hm. exact (wp_ok _ _ _ _ _ _ Hw Hm). Qed.

(** Sequencing, as the programs are written. *)
Lemma wpo_then_create {A} ot oi kind ccy nb neg (f : string → Prog A) Q hs keys rkeys s :
  run_state (ledger s) hs keys rkeys →
  (let id := account_id ot oi kind ccy in
   ∀ s', s'.2 = s.2 → run_state (ledger s') (mkHeld id ccy (normalBalanceFromProto nb) (0, 0)%Qc :: hs) keys rkeys → wpo (f id) Q s') →
  wpo (createAccount c ot oi kind ccy nb neg ≫= f) Q s.
Proof.
  intros Hr Hf. apply wp_bind. eapply wp_mono; [by apply wpo_createAccount| |done]. cbv beta.
  intros id s' (-> & Hr' & Ho). by apply Hf.
Qed.
Lemma wpo_then_post {A} key src ref es (f : unit → Prog A) Q hs keys rkeys s :
  run_state (ledger s) hs (key :: keys) rkeys →
  (∀ s', s'.2 = s.2 → run_state (ledger s') (post_to es <$> hs) keys rkeys → wpo (f tt) Q s') →
  wpo (Examples.postJournal c key src ref es ≫= f) Q s.
Proof.
  intros Hr Hf. apply wp_bind. eapply wp_mono; [by apply wpo_postJournal| |done]. cbv beta. intros [] s' [Hr' Ho]. by apply Hf.
Qed.
Lemma wpo_then_flow {A} ft key src step ev es (f : ExecuteFlowResponse → Prog A) Q hs keys rkeys s :
  run_state (ledger s) hs (key :: keys) rkeys →
  (∀ res s', s'.2 = s.2 → run_state (ledger s') (post_to es <$> hs) keys rkeys → wpo (f res) Q s') →
  wpo (call c PExecuteFlow (oneStep ft key src step ev es) ≫= f) Q s.
Proof.
  intros Hr Hf. apply wp_bind. eapply wp_mono; [by eapply wpo_flow| |done]. cbv beta. intros res s' [Hr' Ho]. by apply Hf.
Qed.
Lemma wpo_then_print {A} line (f : unit → Prog A) Q s :
  (∀ s', s'.2 = s.2 ++ [line] → ledger s' = ledger s → wpo (f tt) Q s') → wpo (Println line ≫= f) Q s.
Proof. intros Hf. apply wp_bind, wpo_Println. by apply Hf. Qed.
Lemma wpo_then_balance {A} i h acct ccy (f : string → Prog A) Q hs keys rkeys s :
  run_state (ledger s) hs keys rkeys → hs !! i = Some h → hd_id h = acct → hd_ccy h = ccy →
  (∀ txt s', s'.2 = s.2 → text_val txt = shows h → run_state (ledger s') hs keys rkeys → wpo (f txt) Q s') →
  wpo (Examples.balance c acct ccy ≫= f) Q s.
Proof.
  intros Hr Hin%list_elem_of_lookup_2 <- <- Hf. apply wp_bind. eapply wp_mono; [by eapply wpo_balance| |done]. cbv beta.
  intros txt s' (Ht & Hr' & Ho). by apply Hf.
Qed.

(** ** A reservation of a program *)

(** The reservation with the key [rkey] is [rv]. *)
Definition tracked (rkey : string) v (rv : RView) : Prop :=
  lv_resv v tenant (rv_id rv) = Some rv ∧ lv_resvk v tenant rkey = Some rv ∧ rv_tenant rv = tenant.

Lemma tracked_effect f ev ek rkey v rv v' o cm rl st :
  let rv' := rv_amounts o cm rl st rv in
  tracked rkey v rv → resv_effect f ev ek v rv rv' v' → tracked rkey v' rv'.
Proof.
  intros rv' (H1 & H2 & H3) (fres & v1 & Hf & _ & ->). destruct (flow_outcome_frame _ _ _ _ Hf) as (_ & Hr & Hrk & _).
  unfold tracked, rv_update. simpl. rewrite Hr, Hrk. subst rv'. simpl. rewrite H1, H2. simpl. unfold rv_update.
  by rewrite !eqs_refl.
Qed.

(** What a message says of a reservation. *)
Definition says (p : PbReservation) (rv : RView) : Prop :=
  pr_Id p = rv_id rv ∧ pr_Status p = rv_status rv ∧ text_val (pr_OutstandingAmount p) = rv_outstanding rv ∧
  text_val (pr_CommittedAmount p) = rv_committed rv ∧ text_val (pr_ReleasedAmount p) = rv_released rv.
Lemma says_proto res : says (reservationToProto res) (rview res).
Proof. unfold says; simpl. by rewrite !text_val_String. Qed.

Lemma wpo_then_reserve {A} rkey src act from to ccy amt ex md (f : PbReservation → Prog A) Q hs keys rkeys s :
  run_state (ledger s) hs keys (rkey :: rkeys) →
  (∀ p rv s', s'.2 = s.2 → says p rv → tracked rkey (ledger s') rv →
     (∃ o, o = text_val amt ∧ rv_outstanding rv = o ∧ rv_committed rv = 0%Qc ∧ rv_released rv = 0%Qc ∧ rv_status rv = ReservationHeld) →
     wpo (f p) Q s') →
  wpo (call c PCreateReservation (mkCreateReservationRequest tenant rkey src act from to ccy amt ex md) ≫= f) Q s.
Proof.
  intros [_ _ _ [Hk _]%list.Forall_cons] Hf. apply wp_bind, (wpo_call PCreateReservation). intros p x' Hrun.
  destruct (CreateReservation_post _ _ _ _ Hrun) as (a & res & Ha & -> & Hp). unfold create_post in Hp; simpl in Hp.
  unfold ledger in Hk. rewrite Hk in Hp. destruct Hp as (fres & v1 & id & _ & _ & Hrv & Hv). apply ParseAmount_pos in Ha as [Ha _].
  apply (Hf _ (rview res)); [done|apply says_proto| |].
  - unfold ledger; simpl. rewrite Hv, Hrv. unfold tracked; simpl. unfold fput. by rewrite !eqs_refl.
  - exists (text_val amt). rewrite Hrv. simpl. by rewrite (text_val_parse _ _ Ha).
Qed.
Lemma wpo_then_commit {A} key src act id amt dst rkey rv (f : PbReservation → Prog A) Q s :
  tracked rkey (ledger s) rv → id = rv_id rv →
  (∀ p s', let o := (rv_outstanding rv - text_val amt)%Qc in
     let rv' := rv_amounts o (rv_committed rv + text_val amt) (rv_released rv) (rv_next o ReservationCommitted) rv in
     s'.2 = s.2 → says p rv' → tracked rkey (ledger s') rv' → wpo (f p) Q s') →
  wpo (call c PCommitReservation (mkCommitReservationRequest tenant key src act id amt dst) ≫= f) Q s.
Proof.
  intros Ht -> Hf. apply wp_bind, (wpo_call PCommitReservation). intros p x' Hrun.
  destruct (CommitReservation_post _ _ _ _ Hrun) as (a & res' & Ha & -> & _ & res & dst' & Hres & _ & _ & _ & _ & _ & _ & Hrv' & Heff).
  simpl in Hres, Ha. pose proof Ht as (H1 & _). unfold ledger in H1. rewrite H1 in Hres. injection Hres as ->.
  apply ParseAmount_pos in Ha as [Ha _]. rewrite <- (text_val_parse _ _ Ha) in Hrv'. rewrite Hrv' in Heff.
  apply Hf; [done|rewrite <- Hrv'; apply says_proto|by eapply tracked_effect].
Qed.
Lemma wpo_then_release {A} key src act id amt rkey rv (f : PbReservation → Prog A) Q s :
  tracked rkey (ledger s) rv → id = rv_id rv →
  (∀ p s', let o := (rv_outstanding rv - text_val amt)%Qc in
     let rv' := rv_amounts o (rv_committed rv) (rv_released rv + text_val amt) (rv_next o ReservationReleased) rv in
     s'.2 = s.2 → says p rv' → tracked rkey (ledger s') rv' → wpo (f p) Q s') →
  wpo (call c PReleaseReservation (mkReleaseReservationRequest tenant key src act id amt) ≫= f) Q s.
Proof.
  intros Ht -> Hf. apply wp_bind, (wpo_call PReleaseReservation). intros p x' Hrun.
  destruct (ReleaseReservation_post _ _ _ _ Hrun) as (a & res' & Ha & -> & _ & res & Hres & _ & _ & _ & Hrv' & Heff).
  simpl in Hres, Ha. pose proof Ht as (H1 & _). unfold ledger in H1. rewrite H1 in Hres. injection Hres as ->.
  apply ParseAmount_pos in Ha as [Ha _]. rewrite <- (text_val_parse _ _ Ha) in Hrv'. rewrite Hrv' in Heff.
  apply Hf; [done|rewrite <- Hrv'; apply says_proto|by eapply tracked_effect].
Qed.
(** A key that is taken answers with its reservation. *)
Lemma wpo_then_replay {A} rkey src act from to ccy amt ex md rv (f : PbReservation → Prog A) Q s :
  tracked rkey (ledger s) rv → (∀ p s', s'.2 = s.2 → says p rv → wpo (f p) Q s') →
  wpo (call c PCreateReservation (mkCreateReservationRequest tenant rkey src act from to ccy amt ex md) ≫= f) Q s.
Proof.
  intros (_ & Hk & _) Hf. apply wp_bind, (wpo_call PCreateReservation). intros p x' Hrun.
  destruct (CreateReservation_post _ _ _ _ Hrun) as (a & res & Ha & -> & Hp). unfold create_post in Hp; simpl in Hp.
  unfold ledger in Hk. rewrite Hk in Hp. destruct Hp as [<- _]. apply Hf; [done|apply says_proto].
Qed.
End Programs.

(** The next statement of a program, in a known [run_state]. *)
Ltac walk :=
  lazymatch goal with
  | Hr : run_state (ledger ?sv ?s) _ _ _ |- wpo (createAccount _ _ _ _ _ _ _ ≫= _) _ ?s =>
      eapply (wpo_then_create _ sv); [exact Hr|cbv zeta; clear Hr; intros ? ? Hr]
  | Hr : run_state (ledger ?sv ?s) _ _ _ |- wpo (Examples.postJournal _ _ _ _ _ ≫= _) _ ?s =>
      eapply (wpo_then_post _ sv); [exact Hr|clear Hr; intros ? ? Hr; cbn [fmap list_fmap] in Hr]
  | Hr : run_state (ledger ?sv ?s) _ _ _ |- wpo (call _ PExecuteFlow _ ≫= _) _ ?s =>
      eapply (wpo_then_flow _ sv); [exact Hr|clear Hr; intros ? ? ? Hr; cbn [fmap list_fmap] in Hr]
  | Hr : run_state (ledger ?sv ?s) _ _ _ |- wpo (Println _ ≫= _) _ ?s =>
      apply (wpo_then_print sv); let E := fresh in intros ? ? E; rewrite <- E in Hr; clear E
  end.

(** Reads the balance of the [i]-th account, the newest first. *)
Ltac read i :=
  lazymatch goal with
  | Hr : run_state (ledger ?sv ?s) _ _ _ |- wpo (Examples.balance _ _ _ ≫= _) _ ?s =>
      eapply (wpo_then_balance _ sv i); [exact Hr|reflexivity|reflexivity|reflexivity|clear Hr; intros ? ? ? ? Hr]
  end.
(** The balance an account shows after the posts of a program. *)
Ltac shown :=
  match goal with Ht : text_val ?t = shows _ |- text_val ?t = _ => rewrite Ht end;
  rewrite !shows_post, shows_new, !Qcsum_cons, !Qcsum_nil; unfold pb_net, entry;
  cbn [post_to hd_id hd_ccy hd_nb ent_AccountId ent_Currency ent_Direction ent_Amount];
  repeat match goal with
  | |- context [bool_decide (?a = ?b)] => let v := eval vm_compute in (bool_decide (a = b)) in change (bool_decide (a = b)) with v
  | |- context [Bool.eqb ?a ?b] => let v := eval vm_compute in (Bool.eqb a b) in change (Bool.eqb a b) with v
  end; cbv iota; repeat match goal with |- context [text_val ?a] => generalize (text_val a); intros ? end; ring.
(** The lines printed. *)
Ltac printed := repeat match goal with E : ?s.2 = _ |- context [?s.2] => rewrite E; clear E end; reflexivity.

Section Walkthroughs.
Context {H : Host} {D : DecimalOps} {L : DecimalLaws D} {S T : Type} {R : RepoTx D T} {RL : RepoTxLaws D T}
  {ST : RepoStore D S T} {SL : RepoStoreLaws D S T} {FL : RepoFrameLaws D S T}.
Context {X : Type} (c : LedgerService X) (served : X → S * Env) {CO : ClientOf c served}.

(** [examples/go/place_order]: started on a ledger with right books where its
    two keys are new, the program, if no error stops it, prints the balances
    its comments promise: 900 available and 100 reserved. *)
Theorem place_order_prints x x' out :
  run_state (ledger served (x, [])) [] ["seed-place-order"; "ord-abc-v1"] [] →
  place_order c (x, []) = (Ok tt, (x', out)) →
  ∃ a r, out = ["seeded 1000 USD into cash_available"; "placing order: reserve 100 USD";
                "cash_available = " +:+ a; "cash_reserved  = " +:+ r] ∧
    text_val a = (text_val "1000" - text_val "100")%Qc ∧ text_val r = text_val "100".
Proof.
  intros Hr Hrun. revert Hrun. apply (wpo_run _ (λ _ s', ∃ a r, s'.2 = _ ∧ text_val a = _ ∧ text_val r = _)).
  unfold place_order. do 7 walk. read 1%nat. walk. read 0%nat. apply wpo_Println.
  do 2 eexists. split; [printed|]. split; shown.
Qed.

(** [examples/go/fx_revaluation]: the profit shown is the residual of the
    exchange less the loss of the revaluation. *)
Theorem fx_revaluation_prints x x' out :
  run_state (ledger served (x, [])) [] ["rev-seed-usd"; "rev-seed-eur"; "rev-residual"; "rev-mtm"] [] →
  fx_revaluation c (x, []) = (Ok tt, (x', out)) →
  ∃ b, out = ["funded 100 USD and 1000 EUR"; "exchange-with-residual posted; 0.50 EUR booked to fx_pnl";
              "mark-to-market posted; 12.34 EUR loss recorded against fx_pnl";
              "fx_pnl EUR balance = " +:+ b +:+ " (credit-normal: positive = platform gain)"] ∧
    text_val b = (text_val "0.50" - text_val "12.34")%Qc.
Proof.
  intros Hr Hrun. revert Hrun. apply (wpo_run _ (λ _ s', ∃ b, s'.2 = _ ∧ text_val b = _)).
  unfold fx_revaluation. do 14 walk. read 0%nat. apply wpo_Println.
  eexists. split; [printed|shown].
Qed.

(** A message with this status and these amounts. *)
Definition resv_shows (p : PbReservation) (st : string) (o cm rl : Z) : Prop :=
  pr_Status p = st ∧ text_val (pr_OutstandingAmount p) = Qc_of_Z o ∧
  text_val (pr_CommittedAmount p) = Qc_of_Z cm ∧ text_val (pr_ReleasedAmount p) = Qc_of_Z rl.

(** C31. [examples/go/reservations]: 300 held, 100 committed, 50 released, the
    remaining 150 committed; and the replay of the creation, with other
    accounts and another amount, answers with the same reservation. *)
Theorem reservations_prints x x' out :
  run_state (ledger served (x, [])) [] ["seed-res"] ["res-demo-1"] →
  text_val "300" = Qc_of_Z 300 → text_val "150" = Qc_of_Z 150 → text_val "100" = Qc_of_Z 100 → text_val "50" = Qc_of_Z 50 →
  reservations c (x, []) = (Ok tt, (x', out)) →
  ∃ p1 p2 p3 p4, out = [dump_line "after create" p1; dump_line "after commit 100" p2; dump_line "after release 50" p3;
      dump_line "after final commit" p4; "idempotent replay returned the same reservation id"] ∧
    resv_shows p1 "HELD" 300 0 0 ∧ resv_shows p2 "PARTIAL" 200 100 0 ∧
    resv_shows p3 "PARTIAL" 150 100 50 ∧ resv_shows p4 "COMMITTED" 0 250 50.
Proof.
  intros Hr H300 H150 H100 H50 Hrun. revert Hrun.
  apply (wpo_run _ (λ _ s', ∃ p1 p2 p3 p4, s'.2 = _ ∧ _)). unfold reservations. do 5 walk.
  eapply (wpo_then_reserve _ served); [exact Hr|]. intros p1 rv s1 O1 P1 T1 (o & -> & Ho & Hc & Hl & Hst). cbv zeta.
  unfold dump. apply (wpo_then_print served). intros s1' O1' E1. rewrite <- E1 in T1.
  eapply (wpo_then_commit _ served); [exact T1|apply P1|]. cbv zeta. intros p2 s2 O2 P2 T2.
  unfold dump. apply (wpo_then_print served). intros s2' O2' E2. rewrite <- E2 in T2.
  eapply (wpo_then_release _ served); [exact T2|apply P1|]. cbv zeta. intros p3 s3 O3 P3 T3.
  unfold dump. apply (wpo_then_print served). intros s3' O3' E3. rewrite <- E3 in T3.
  eapply (wpo_then_commit _ served); [exact T3|apply P1|]. cbv zeta. intros p4 s4 O4 P4 T4.
  unfold dump. apply (wpo_then_print served). intros s4' O4' E4. rewrite <- E4 in T4.
  eapply (wpo_then_replay _ served); [exact T4|]. intros p5 s5 O5 P5.
  apply wp_bind, wp_throw_if; [done|]. intros _. apply wpo_Println. exists p1, p2, p3, p4.
  split; [printed|]. clear - P1 P2 P3 P4 Ho Hc Hl Hst H300 H150 H100 H50.
  destruct P1 as (_ & S1 & A1 & B1 & C1), P2 as (_ & S2 & A2 & B2 & C2), P3 as (_ & S3 & A3 & B3 & C3), P4 as (_ & S4 & A4 & B4 & C4).
  cbn [rv_amounts rv_status rv_outstanding rv_committed rv_released] in *.
  rewrite H300 in Ho. rewrite Ho, ?Hc, ?Hl, ?H150, ?H100, ?H50 in *.
  unfold resv_shows. rewrite S1, S2, S3, S4, A1, A2, A3, A4, B1, B2, B3, B4, C1, C2, C3, C4, ?Hst.
  split_and!; first [by vm_compute | by apply Qc_is_canon; vm_compute].
Qed.
End Walkthroughs.
