(* ===== verification/CrdbDb.v ===== *)
(** * gen/crdb: the CockroachDB tables and their statements

    As in [SqliteDb], one list of rows per table and one definition per sqlc
    query, from its SQL text and the constraints of
    internal/sdk/migrations/crdb.  What differs: amounts are DECIMAL(38, 18)
    columns, timestamps are TIMESTAMPTZ, an entry is keyed by a UUID, foreign
    keys always hold, a negative LIMIT is an error, and [now()] is the time at
    which the transaction began.

    The engine and its driver are the class [CrdbEngine].  The values it
    keeps for a decimal and an instant are the engine's to choose, so that
    nothing but its documentation ([CrdbEngineLaws]) is assumed: a decimal
    that has at most 18 fractional digits is kept exactly, any other is
    rounded, and one out of range is refused; instants keep their order, and
    one that was read back is kept as it is. *)

From S2P Require Import Prelude Money Ledger Repo Contract Sql.
From stdpp Require Import base gmap strings list numbers sorting.
From Stdlib Require Import Qcanon.

(** [pgtype.Timestamptz]: [None] is NULL, [Valid = false]. *)
Abbreviation Timestamptz := (option stamp) (only parsing).
(** [pgtype.UUID]: its sixteen bytes. *)
Abbreviation UUID := (list Z) (only parsing).

Class CrdbEngine (D : DecimalOps) := {
  pg_order_by : ∀ {A}, (A → A → bool) → list A → list A;
  pg_numeric : dec → option dec;     (* a decimal as a DECIMAL(38,18) column keeps it *)
  pg_timestamptz : Time → stamp;     (* an instant as a TIMESTAMPTZ keeps it *)
  pg_time : stamp → Time;            (* and as it is read back *)
  pg_error : nat → error;            (* the error of the n-th statement, when it fails *)
}.

(** A number with at most 18 fractional digits. *)
Definition fits18 (q : Qc) : Prop := ∃ n : Z, (q * Qc_of_Z (10 ^ 18) = Qc_of_Z n)%Qc.

Class CrdbEngineLaws (D : DecimalOps) {L : DecimalLaws D} (E : CrdbEngine D) := {
  pg_order_by_perm : ∀ {A} (le : A → A → bool) l, pg_order_by le l ≡ₚ l;
  pg_order_by_sorted : ∀ {A} (le : A → A → bool) l,
    (∀ x y, le x y ∨ le y x) → (∀ x y z, le x y → le y z → le x z) →
    StronglySorted (λ x y, le x y) (pg_order_by le l);
  pg_numeric_fits : ∀ d r, pg_numeric d = Some r → fits18 (val r);
  pg_numeric_exact : ∀ d r, fits18 (val d) → pg_numeric d = Some r → val r = val d;
  pg_timestamptz_mono : ∀ t u, (t ≤ u)%Z → (pg_timestamptz t ≤ pg_timestamptz u)%Z;
  pg_time_kept : ∀ s, pg_timestamptz (pg_time s) = s;
  pg_error_no_rows : ∀ n, pg_error n ≠ ErrNoRows;
}.

(** ** models.go *)

Section Rows.
Context {D : DecimalOps}.

Record AccountRow := mkAccountRow {
  a_id : string; a_tenant_id : string; a_owner_type : string; a_owner_id : string;
  a_account_type : string; a_currency : string; a_normal_balance : string;
  a_allow_negative : bool; a_status : string; a_created_at : Timestamptz }.
Record AccountBalanceRow := mkAccountBalanceRow {
  b_tenant_id : string; b_account_id : string; b_currency : string;
  b_posted_debits : dec; b_posted_credits : dec; b_version : Z; b_updated_at : Timestamptz }.
Record BalanceSnapshotRow := mkBalanceSnapshotRow {
  sn_id : string; sn_tenant_id : string; sn_account_id : string; sn_currency : string;
  sn_posted_debits : dec; sn_posted_credits : dec; sn_version : Z;
  sn_snapshot_at : Timestamptz; sn_created_at : Timestamptz }.
Record DiscrepancyRow := mkDiscrepancyRow {
  d_id : string; d_tenant_id : string; d_batch_id : string; d_type : string;
  d_external_record_id : option string; d_journal_id : option string; d_status : string;
  d_resolution_journal_id : option string; d_resolution_note : string; d_resolved_by : string;
  d_resolved_at : Timestamptz; d_created_at : Timestamptz }.
Record ExternalRecordRow := mkExternalRecordRow {
  x_id : string; x_tenant_id : string; x_source : string; x_external_ref : string;
  x_amount : dec; x_currency : string; x_occurred_at : Timestamptz; x_account_id : option string;
  x_raw_payload : Meta; x_match_status : string; x_matched_journal_id : option string;
  x_created_at : Timestamptz }.
Record FlowRunRow := mkFlowRunRow {
  f_id : string; f_tenant_id : string; f_flow_type : string; f_idempotency_key : string;
  f_source_service : string; f_actor_id : string; f_status : string; f_metadata : Meta;
  f_created_at : Timestamptz; f_completed_at : Timestamptz; f_failed_at : Timestamptz }.
Record FlowStepRow := mkFlowStepRow {
  s_id : string; s_tenant_id : string; s_flow_run_id : string; s_step_id : string;
  s_status : string; s_journal_id : option string; s_error_code : option string;
  s_created_at : Timestamptz }.
Record FxRateRow := mkFxRateRow {
  r_id : string; r_tenant_id : string; r_base_currency : string; r_quote_currency : string;
  r_rate : dec; r_source : string; r_effective_at : Timestamptz; r_created_at : Timestamptz }.
Record LedgerEntryRow := mkLedgerEntryRow {
  e_id : UUID; e_tenant_id : string; e_journal_id : string; e_account_id : string;
  e_currency : string; e_direction : string; e_amount : dec; e_created_at : Timestamptz }.
Record LedgerJournalRow := mkLedgerJournalRow {
  j_id : string; j_tenant_id : string; j_flow_run_id : option string; j_event_id : string;
  j_source_service : string; j_source_type : string; j_actor_id : string; j_metadata : Meta;
  j_created_at : Timestamptz }.
Record OutboxEventRow := mkOutboxEventRow {
  o_id : string; o_tenant_id : string; o_aggregate_id : string; o_event_type : string;
  o_idempotency_key : string; o_payload : Meta; o_publish_state : string; o_attempts : Z;
  o_created_at : Timestamptz; o_published_at : Timestamptz }.
Record ReconciliationBatchRow := mkReconciliationBatchRow {
  k_id : string; k_tenant_id : string; k_idempotency_key : string; k_source : string;
  k_window_start : Timestamptz; k_window_end : Timestamptz; k_status : string; k_ingested_count : Z;
  k_matched_count : Z; k_mismatched_count : Z; k_missing_in_ledger_count : Z;
  k_missing_in_external_count : Z; k_started_at : Timestamptz; k_completed_at : Timestamptz;
  k_actor_id : string }.
Record ReservationRow := mkReservationRow {
  v_id : string; v_tenant_id : string; v_idempotency_key : string; v_source_account_id : string;
  v_reserved_account_id : string; v_currency : string; v_original_amount : dec;
  v_outstanding_amount : dec; v_committed_amount : dec; v_released_amount : dec;
  v_status : string; v_expires_at : Timestamptz; v_flow_run_id : string; v_metadata : Meta;
  v_created_at : Timestamptz; v_updated_at : Timestamptz }.

Record DB := mkDB {
  t_accounts : list AccountRow;
  t_balances : list AccountBalanceRow;
  t_snapshots : list BalanceSnapshotRow;
  t_discrepancies : list DiscrepancyRow;
  t_external : list ExternalRecordRow;
  t_flows : list FlowRunRow;
  t_steps : list FlowStepRow;
  t_fx : list FxRateRow;
  t_entries : list LedgerEntryRow;
  t_journals : list LedgerJournalRow;
  t_outbox : list OutboxEventRow;
  t_batches : list ReconciliationBatchRow;
  t_reservations : list ReservationRow;
}.
Definition db_empty : DB := mkDB [] [] [] [] [] [] [] [] [] [] [] [] [].
End Rows.

Section Setters.
Context {D : DecimalOps}.
Definition set_accounts x (db : DB) : DB := mkDB x (t_balances db) (t_snapshots db) (t_discrepancies db) (t_external db) (t_flows db) (t_steps db) (t_fx db) (t_entries db) (t_journals db) (t_outbox db) (t_batches db) (t_reservations db).
Definition set_balances x (db : DB) : DB := mkDB (t_accounts db) x (t_snapshots db) (t_discrepancies db) (t_external db) (t_flows db) (t_steps db) (t_fx db) (t_entries db) (t_journals db) (t_outbox db) (t_batches db) (t_reservations db).
Definition set_snapshots x (db : DB) : DB := mkDB (t_accounts db) (t_balances db) x (t_discrepancies db) (t_external db) (t_flows db) (t_steps db) (t_fx db) (t_entries db) (t_journals db) (t_outbox db) (t_batches db) (t_reservations db).
Definition set_discrepancies x (db : DB) : DB := mkDB (t_accounts db) (t_balances db) (t_snapshots db) x (t_external db) (t_flows db) (t_steps db) (t_fx db) (t_entries db) (t_journals db) (t_outbox db) (t_batches db) (t_reservations db).
Definition set_external x (db : DB) : DB := mkDB (t_accounts db) (t_balances db) (t_snapshots db) (t_discrepancies db) x (t_flows db) (t_steps db) (t_fx db) (t_entries db) (t_journals db) (t_outbox db) (t_batches db) (t_reservations db).
Definition set_flows x (db : DB) : DB := mkDB (t_accounts db) (t_balances db) (t_snapshots db) (t_discrepancies db) (t_external db) x (t_steps db) (t_fx db) (t_entries db) (t_journals db) (t_outbox db) (t_batches db) (t_reservations db).
Definition set_steps x (db : DB) : DB := mkDB (t_accounts db) (t_balances db) (t_snapshots db) (t_discrepancies db) (t_external db) (t_flows db) x (t_fx db) (t_entries db) (t_journals db) (t_outbox db) (t_batches db) (t_reservations db).
Definition set_fx x (db : DB) : DB := mkDB (t_accounts db) (t_balances db) (t_snapshots db) (t_discrepancies db) (t_external db) (t_flows db) (t_steps db) x (t_entries db) (t_journals db) (t_outbox db) (t_batches db) (t_reservations db).
Definition set_entries x (db : DB) : DB := mkDB (t_accounts db) (t_balances db) (t_snapshots db) (t_discrepancies db) (t_external db) (t_flows db) (t_steps db) (t_fx db) x (t_journals db) (t_outbox db) (t_batches db) (t_reservations db).
Definition set_journals x (db : DB) : DB := mkDB (t_accounts db) (t_balances db) (t_snapshots db) (t_discrepancies db) (t_external db) (t_flows db) (t_steps db) (t_fx db) (t_entries db) x (t_outbox db) (t_batches db) (t_reservations db).
Definition set_outbox x (db : DB) : DB := mkDB (t_accounts db) (t_balances db) (t_snapshots db) (t_discrepancies db) (t_external db) (t_flows db) (t_steps db) (t_fx db) (t_entries db) (t_journals db) x (t_batches db) (t_reservations db).
Definition set_batches x (db : DB) : DB := mkDB (t_accounts db) (t_balances db) (t_snapshots db) (t_discrepancies db) (t_external db) (t_flows db) (t_steps db) (t_fx db) (t_entries db) (t_journals db) (t_outbox db) x (t_reservations db).
Definition set_reservations x (db : DB) : DB := mkDB (t_accounts db) (t_balances db) (t_snapshots db) (t_discrepancies db) (t_external db) (t_flows db) (t_steps db) (t_fx db) (t_entries db) (t_journals db) (t_outbox db) (t_batches db) x.
End Setters.

(** ** db.go: a statement on a connection *)

(** [DBTX]: the pool, where a statement is its own transaction, or a
    transaction that began at [began]. *)
Inductive DBTX := Pool | InTx (began : stamp).

Section Queries.
Context {H : Host} {D : DecimalOps} {CE : CrdbEngine D} (q : DBTX).

Abbreviation Q A := (M error (DB * Env) A).

(** [now()]: the time at which the statement's transaction began. *)
Definition sql_now (e : Env) : stamp := match q with Pool => host_dbnow (e_db e) | InTx t => t end.

Definition statement {A} (f : stamp → DB → result error (A * DB)) : Q A := λ '(db, e),
  if host_fault (e_db e) then (Err (pg_error (e_db e)), (db, tick e))
  else match f (sql_now e) db with
       | Ok (a, db') => (Ok a, (db', tick e))
       | Err er => (Err er, (db, tick e))
       end.

(** [:one], [:many], [:many] with a LIMIT, and [:exec], which gives the new
    tables unless a constraint or the range of a column is violated. *)
Definition select_one {A} (f : DB → option A) : Q A :=
  statement (λ _ db, match f db with Some r => Ok (r, db) | None => Err ErrNoRows end).
Definition select_many {A} (f : DB → list A) : Q (list A) := statement (λ _ db, Ok (f db, db)).
Definition select_limit {A} (n : Z) (f : DB → list A) : Q (list A) :=
  statement (λ _ db, if (n <? 0)%Z then Err (ErrOther "negative value for LIMIT")
                     else Ok (take (Z.to_nat n) (f db), db)).
Definition sql_exec (f : stamp → DB → option DB) : Q unit :=
  statement (λ now db, match f now db with Some db' => Ok (tt, db') | None => Err (ErrOther "constraint violation") end).

(** Comparisons with NULL are not true. *)
Definition ts_le (x y : Timestamptz) : bool := match x, y with Some a, Some b => (a <=? b)%Z | _, _ => false end.
Definition ts_lt (x y : Timestamptz) : bool := match x, y with Some a, Some b => (a <? b)%Z | _, _ => false end.
Definition ts_eq (x y : Timestamptz) : bool := match x, y with Some a, Some b => (a =? b)%Z | _, _ => false end.
Definition is_null (x : Timestamptz) : bool := match x with None => true | Some _ => false end.
(** The column as an ORDER BY key; the columns ordered by are not NULL. *)
Definition ts_key (x : Timestamptz) : Z := default 0%Z x.

Definition account_exists (id : string) (db : DB) : bool := any (λ r, a_id r =s id) (t_accounts db).
Definition journal_exists (id : string) (db : DB) : bool := any (λ r, j_id r =s id) (t_journals db).
Definition flow_exists (id : string) (db : DB) : bool := any (λ r, f_id r =s id) (t_flows db).
Definition batch_exists (id : string) (db : DB) : bool := any (λ r, k_id r =s id) (t_batches db).
Definition external_exists (id : string) (db : DB) : bool := any (λ r, x_id r =s id) (t_external db).
Definition ref_opt (p : string → DB → bool) (id : option string) (db : DB) : bool :=
  match id with Some i => p i db | None => true end.

(** ** accounts.sql *)

Definition q_InsertAccount (id tenant owner_type owner_id account_type currency normal_balance : string)
    (allow_negative : bool) (status : string) : Q unit :=
  sql_exec (λ now db,
    if negb (any (λ r, a_id r =s id) (t_accounts db)) &&
       negb (any (λ r, (a_tenant_id r =s tenant) && (a_owner_type r =s owner_type) &&
                       (a_owner_id r =s owner_id) && (a_account_type r =s account_type) &&
                       (a_currency r =s currency)) (t_accounts db)) &&
       one_of normal_balance ["DEBIT"; "CREDIT"] && one_of status ["ACTIVE"; "FROZEN"; "CLOSED"]
    then Some (set_accounts (t_accounts db ++
      [mkAccountRow id tenant owner_type owner_id account_type currency normal_balance
         allow_negative status (Some now)]) db)
    else None).

Definition q_GetAccount (tenant id : string) : Q AccountRow :=
  select_one (λ db, sel (λ r, (a_tenant_id r =s tenant) && (a_id r =s id)) (t_accounts db)).

Definition q_ListAccountsByOwner (tenant owner_type owner_id : string) : Q (list AccountRow) :=
  select_many (λ db, pg_order_by (λ _ _, true)
    (filter (λ r, (a_tenant_id r =s tenant) && (a_owner_type r =s owner_type) &&
                  (a_owner_id r =s owner_id)) (t_accounts db))).

(** ** balances.sql *)

Definition bal_row (tenant account currency : string) (r : AccountBalanceRow) : bool :=
  (b_tenant_id r =s tenant) && (b_account_id r =s account) && (b_currency r =s currency).

Definition q_GetBalance (tenant account currency : string) : Q AccountBalanceRow :=
  select_one (λ db, sel (bal_row tenant account currency) (t_balances db)).

(** The same row under a [FOR UPDATE] lock. *)
Definition q_LockBalance (tenant account currency : string) : Q AccountBalanceRow :=
  select_one (λ db, sel (bal_row tenant account currency) (t_balances db)).

Definition q_UpsertBalanceZero (tenant account currency : string) : Q unit :=
  sql_exec (λ now db,
    if any (bal_row tenant account currency) (t_balances db) then Some db
    else if account_exists account db
    then Some (set_balances (t_balances db ++
           [mkAccountBalanceRow tenant account currency decimal_Zero decimal_Zero 0 (Some now)]) db)
    else None).

Definition q_UpdateBalance (tenant account currency : string) (debits credits : dec) : Q unit :=
  sql_exec (λ now db,
    if any (bal_row tenant account currency) (t_balances db) then
      d ← pg_numeric debits; c ← pg_numeric credits;
      Some (set_balances (upd (bal_row tenant account currency)
        (λ r, mkAccountBalanceRow (b_tenant_id r) (b_account_id r) (b_currency r) d c
                (b_version r + 1) (Some now)) (t_balances db)) db)
    else Some db).

(** ** flows.sql *)

Definition q_InsertFlowRun (id tenant flow_type key source actor : string) (meta : Meta) : Q unit :=
  sql_exec (λ now db,
    if negb (any (λ r, f_id r =s id) (t_flows db)) &&
       negb (any (λ r, f_idempotency_key r =s key) (t_flows db))
    then Some (set_flows (t_flows db ++
           [mkFlowRunRow id tenant flow_type key source actor "RUNNING" meta (Some now) None None]) db)
    else None).

Definition q_GetFlowByIdempotency (tenant key : string) : Q FlowRunRow :=
  select_one (λ db, sel (λ r, (f_tenant_id r =s tenant) && (f_idempotency_key r =s key)) (t_flows db)).

Definition q_GetFlowByID (tenant id : string) : Q FlowRunRow :=
  select_one (λ db, sel (λ r, (f_tenant_id r =s tenant) && (f_id r =s id)) (t_flows db)).

Definition q_CompleteFlowRun (id tenant : string) : Q unit :=
  sql_exec (λ now db, Some (set_flows (upd (λ r, (f_id r =s id) && (f_tenant_id r =s tenant))
    (λ r, mkFlowRunRow (f_id r) (f_tenant_id r) (f_flow_type r) (f_idempotency_key r)
            (f_source_service r) (f_actor_id r) "COMPLETED" (f_metadata r) (f_created_at r)
            (Some now) (f_failed_at r)) (t_flows db)) db)).

Definition q_InsertFlowStep (id tenant flow step status : string) (journal err : option string) : Q unit :=
  sql_exec (λ now db,
    if negb (any (λ r, s_id r =s id) (t_steps db)) &&
       negb (any (λ r, (s_tenant_id r =s tenant) && (s_flow_run_id r =s flow) && (s_step_id r =s step))
              (t_steps db)) &&
       one_of status ["COMPLETED"; "FAILED"] && flow_exists flow db && ref_opt journal_exists journal db
    then Some (set_steps (t_steps db ++
           [mkFlowStepRow id tenant flow step status journal err (Some now)]) db)
    else None).

Definition q_GetFlowSteps (tenant flow : string) : Q (list FlowStepRow) :=
  select_many (λ db, pg_order_by (by_stamp (λ r, ts_key (s_created_at r)))
    (filter (λ r, (s_tenant_id r =s tenant) && (s_flow_run_id r =s flow)) (t_steps db))).

(** ** journals.sql, entries.sql *)

Definition q_InsertJournal (id tenant : string) (flow : option string)
    (event source source_type actor : string) (meta : Meta) : Q unit :=
  sql_exec (λ now db,
    if negb (any (λ r, j_id r =s id) (t_journals db)) &&
       negb (any (λ r, j_event_id r =s event) (t_journals db))
    then Some (set_journals (t_journals db ++
           [mkLedgerJournalRow id tenant flow event source source_type actor meta (Some now)]) db)
    else None).

Definition q_GetJournal (tenant id : string) : Q LedgerJournalRow :=
  select_one (λ db, sel (λ r, (j_tenant_id r =s tenant) && (j_id r =s id)) (t_journals db)).

Definition q_GetJournalsByFlowRun (tenant : string) (flow : option string) : Q (list LedgerJournalRow) :=
  select_many (λ db, pg_order_by (λ _ _, true)
    (filter (λ r, (j_tenant_id r =s tenant) &&
                  match j_flow_run_id r, flow with Some a, Some b => a =s b | _, _ => false end)
       (t_journals db))).

(** The CHECK is on the amount the column keeps. *)
Definition q_InsertEntry (id : UUID) (tenant journal account currency direction : string) (amount : dec) : Q unit :=
  sql_exec (λ now db,
    n ← pg_numeric amount;
    if negb (any (λ r, bool_decide (e_id r = id)) (t_entries db)) &&
       one_of direction ["DEBIT"; "CREDIT"] && IsPositive n &&
       journal_exists journal db && account_exists account db
    then Some (set_entries (t_entries db ++
           [mkLedgerEntryRow id tenant journal account currency direction n (Some now)]) db)
    else None).

Fixpoint bytes_leb (x y : list Z) : bool :=
  match x, y with
  | [], _ => true
  | _ :: _, [] => false
  | a :: x', b :: y' => (a <? b)%Z || ((a =? b)%Z && bytes_leb x' y')
  end.
Definition by_created (x y : LedgerEntryRow) : bool :=
  (ts_key (e_created_at x) <? ts_key (e_created_at y))%Z ||
  ((ts_key (e_created_at x) =? ts_key (e_created_at y))%Z && bytes_leb (e_id x) (e_id y)).

Definition q_ListAccountActivity (tenant account currency : string) (since until : Timestamptz) (n : Z)
    : Q (list LedgerEntryRow) :=
  select_limit n (λ db, pg_order_by by_created
    (filter (λ r, (e_tenant_id r =s tenant) && (e_account_id r =s account) && (e_currency r =s currency) &&
       (is_null since || ts_le since (e_created_at r)) && (is_null until || ts_le (e_created_at r) until))
       (t_entries db))).

(** ** outbox.sql *)

Definition q_InsertOutbox (id tenant aggregate event_type key : string) (payload : Meta) : Q unit :=
  sql_exec (λ now db,
    if negb (any (λ r, o_id r =s id) (t_outbox db)) &&
       negb (any (λ r, o_idempotency_key r =s key) (t_outbox db))
    then Some (set_outbox (t_outbox db ++
           [mkOutboxEventRow id tenant aggregate event_type key payload "PENDING" 0 (Some now) None]) db)
    else None).

Definition q_ListPendingOutbox (n : Z) : Q (list OutboxEventRow) :=
  select_limit n (λ db, pg_order_by (by_stamp (λ r, ts_key (o_created_at r)))
    (filter (λ r, o_publish_state r =s "PENDING") (t_outbox db))).

Definition q_MarkOutboxPublished (id : string) : Q unit :=
  sql_exec (λ now db, Some (set_outbox (upd (λ r, o_id r =s id)
    (λ r, mkOutboxEventRow (o_id r) (o_tenant_id r) (o_aggregate_id r) (o_event_type r)
       (o_idempotency_key r) (o_payload r) "PUBLISHED" (o_attempts r) (o_created_at r) (Some now))
    (t_outbox db)) db)).

Definition q_IncrementOutboxAttempts (id : string) : Q unit :=
  sql_exec (λ _ db, Some (set_outbox (upd (λ r, o_id r =s id)
    (λ r, mkOutboxEventRow (o_id r) (o_tenant_id r) (o_aggregate_id r) (o_event_type r)
       (o_idempotency_key r) (o_payload r) (o_publish_state r) (o_attempts r + 1) (o_created_at r)
       (o_published_at r)) (t_outbox db)) db)).

(** ** reservations.sql *)

Definition resv_status : list string := ["HELD"; "PARTIAL"; "COMMITTED"; "RELEASED"; "EXPIRED"].

Definition q_InsertReservation (id tenant key source reserved currency : string) (original outstanding : dec)
    (status : string) (expires : Timestamptz) (flow : string) (meta : Meta) : Q unit :=
  sql_exec (λ now db,
    o ← pg_numeric original; u ← pg_numeric outstanding;
    if negb (any (λ r, v_id r =s id) (t_reservations db)) &&
       negb (any (λ r, v_idempotency_key r =s key) (t_reservations db)) &&
       one_of status resv_status && account_exists source db &&
       account_exists reserved db && flow_exists flow db
    then Some (set_reservations (t_reservations db ++
           [mkReservationRow id tenant key source reserved currency o u decimal_Zero decimal_Zero status
              expires flow meta (Some now) (Some now)]) db)
    else None).

Definition resv_row (tenant id : string) (r : ReservationRow) : bool := (v_tenant_id r =s tenant) && (v_id r =s id).

Definition q_GetReservation (tenant id : string) : Q ReservationRow :=
  select_one (λ db, sel (resv_row tenant id) (t_reservations db)).

(** The same row under a [FOR UPDATE] lock. *)
Definition q_LockReservation (tenant id : string) : Q ReservationRow :=
  select_one (λ db, sel (resv_row tenant id) (t_reservations db)).

Definition q_GetReservationByIdempotency (tenant key : string) : Q ReservationRow :=
  select_one (λ db, sel (λ r, (v_tenant_id r =s tenant) && (v_idempotency_key r =s key)) (t_reservations db)).

Definition q_UpdateReservationAmounts (outstanding committed released : dec) (status tenant id : string) : Q unit :=
  sql_exec (λ now db,
    if any (resv_row tenant id) (t_reservations db) then
      o ← pg_numeric outstanding; c ← pg_numeric committed; l ← pg_numeric released;
      if one_of status resv_status
      then Some (set_reservations (upd (resv_row tenant id)
             (λ r, mkReservationRow (v_id r) (v_tenant_id r) (v_idempotency_key r) (v_source_account_id r)
                (v_reserved_account_id r) (v_currency r) (v_original_amount r) o c l
                status (v_expires_at r) (v_flow_run_id r) (v_metadata r) (v_created_at r) (Some now))
             (t_reservations db)) db)
      else None
    else Some db).

(** FOR UPDATE SKIP LOCKED: other transactions' rows are not seen here. *)
Definition q_ListExpiredReservations (now : Timestamptz) (n : Z) : Q (list (string * string)) :=
  select_limit n (λ db, (λ r, (v_id r, v_tenant_id r)) <$>
    pg_order_by (by_stamp (λ r, ts_key (v_expires_at r)))
    (filter (λ r, one_of (v_status r) ["HELD"; "PARTIAL"] && negb (is_null (v_expires_at r)) &&
                  ts_le (v_expires_at r) now) (t_reservations db))).

Definition by_created_resv (x y : ReservationRow) : bool := by_stamp_id (λ r, ts_key (v_created_at r)) v_id x y.

Definition q_ListReservations (tenant owner_type owner_id status : string) (n : Z) : Q (list ReservationRow) :=
  select_limit n (λ db, pg_order_by (desc by_created_resv)
    (filter (λ r, (v_tenant_id r =s tenant) &&
       any (λ a, (a_id a =s v_source_account_id r) && opt_eq (a_owner_type a) owner_type &&
                 opt_eq (a_owner_id a) owner_id) (t_accounts db) &&
       opt_eq (v_status r) status) (t_reservations db))).

(** ** snapshots.sql *)

Definition q_InsertSnapshot (id tenant account currency : string) (debits credits : dec) (version : Z)
    (at_ : Timestamptz) : Q unit :=
  sql_exec (λ now db,
    d ← pg_numeric debits; c ← pg_numeric credits;
    if negb (any (λ r, sn_id r =s id) (t_snapshots db)) && account_exists account db && negb (is_null at_)
    then Some (set_snapshots (t_snapshots db ++
           [mkBalanceSnapshotRow id tenant account currency d c version at_ (Some now)]) db)
    else None).

Definition snap_row (tenant account currency : string) (r : BalanceSnapshotRow) : bool :=
  (sn_tenant_id r =s tenant) && (sn_account_id r =s account) && (sn_currency r =s currency).

Definition q_GetLatestSnapshotBefore (tenant account currency : string) (at_ : Timestamptz) : Q BalanceSnapshotRow :=
  select_one (λ db, head (pg_order_by (desc (by_stamp_id (λ r, ts_key (sn_snapshot_at r)) sn_id))
    (filter (λ r, snap_row tenant account currency r && ts_le (sn_snapshot_at r) at_) (t_snapshots db)))).

(** [CAST(COALESCE(SUM(amount), 0) AS DECIMAL(38, 18))] over the rows of one
    direction: decimal arithmetic, which is exact. *)
Definition sum_rows (direction : string) (rows : list LedgerEntryRow) : option dec :=
  pg_numeric (foldr (λ r acc, dAdd (e_amount r) acc) decimal_Zero (filter (λ r, e_direction r =s direction) rows)).
Definition select_sums (p : LedgerEntryRow → bool) : Q (dec * dec) :=
  statement (λ _ db,
    let rows := filter (λ r, p r) (t_entries db) in
    match sum_rows "DEBIT" rows, sum_rows "CREDIT" rows with
    | Some d, Some c => Ok ((d, c), db)
    | _, _ => Err (ErrOther "value out of range")
    end).

Definition q_SumEntriesBetween (tenant account currency : string) (after until : Timestamptz) : Q (dec * dec) :=
  select_sums (λ r, (e_tenant_id r =s tenant) && (e_account_id r =s account) &&
                    (e_currency r =s currency) && ts_lt after (e_created_at r) &&
                    ts_le (e_created_at r) until).

Definition by_account (x y : AccountBalanceRow) : bool :=
  String.ltb (b_account_id x) (b_account_id y) ||
  ((b_account_id x =s b_account_id y) && String.leb (b_currency x) (b_currency y)).

Definition q_ListAllBalancesForTenant (tenant : string) : Q (list AccountBalanceRow) :=
  select_many (λ db, pg_order_by by_account (filter (λ r, b_tenant_id r =s tenant) (t_balances db))).

Definition q_ListTenantsDueForSnapshot (cutoff : Timestamptz) (n : Z) : Q (list string) :=
  select_limit n (λ db, pg_order_by (λ _ _, true) (remove_dups (a_tenant_id <$>
    filter (λ a, negb (any (λ bs, (sn_tenant_id bs =s a_tenant_id a) && ts_lt cutoff (sn_snapshot_at bs))
                        (t_snapshots db))) (t_accounts db)))).

Definition prunable (cutoff : Timestamptz) (db : DB) (bs : BalanceSnapshotRow) : bool :=
  ts_lt (sn_snapshot_at bs) cutoff &&
  any (λ bs2, snap_row (sn_tenant_id bs) (sn_account_id bs) (sn_currency bs) bs2 &&
              ts_lt (sn_snapshot_at bs) (sn_snapshot_at bs2)) (t_snapshots db).

Definition prune_ids (cutoff : Timestamptz) (n : Z) (db : DB) : list string :=
  take (Z.to_nat n) (pg_order_by (λ _ _, true) (sn_id <$> filter (prunable cutoff db) (t_snapshots db))).

Definition q_PruneSnapshotsOlderThan (cutoff : Timestamptz) (n : Z) : Q Z :=
  statement (λ _ db,
    if (n <? 0)%Z then Err (ErrOther "negative value for LIMIT") else
    let ids := prune_ids cutoff n db in
    let kept := filter (λ r, negb (one_of (sn_id r) ids)) (t_snapshots db) in
    Ok (Z.of_nat (length (t_snapshots db)) - Z.of_nat (length kept), set_snapshots kept db)%Z).

(** ** fx_rates.sql *)

Definition fx_key (tenant base quote : string) (eff : Timestamptz) (source : string) (r : FxRateRow) : bool :=
  (r_tenant_id r =s tenant) && (r_base_currency r =s base) && (r_quote_currency r =s quote) &&
  ts_eq (r_effective_at r) eff && (r_source r =s source).

Definition q_UpsertFXRate (id tenant base quote : string) (rate : dec) (source : string) (eff : Timestamptz)
    : Q FxRateRow :=
  statement (λ now db,
    match pg_numeric rate with
    | None => Err (ErrOther "value out of range")
    | Some n =>
        match sel (fx_key tenant base quote eff source) (t_fx db) with
        | Some r =>
            let r' := mkFxRateRow (r_id r) (r_tenant_id r) (r_base_currency r) (r_quote_currency r) n
                        (r_source r) (r_effective_at r) (r_created_at r) in
            Ok (r', set_fx (upd (fx_key tenant base quote eff source) (λ _, r') (t_fx db)) db)
        | None =>
            if any (λ r, r_id r =s id) (t_fx db) || is_null eff then Err (ErrOther "constraint violation")
            else let r := mkFxRateRow id tenant base quote n source eff (Some now) in
                 Ok (r, set_fx (t_fx db ++ [r]) db)
        end
    end).

Definition by_effective (x y : FxRateRow) : bool := by_stamp_id (λ r, ts_key (r_effective_at r)) r_id x y.

Definition q_GetFXRateAt (tenant base quote : string) (at_ : Timestamptz) : Q FxRateRow :=
  select_one (λ db, head (pg_order_by (desc by_effective)
    (filter (λ r, (r_tenant_id r =s tenant) && (r_base_currency r =s base) &&
                  (r_quote_currency r =s quote) && ts_le (r_effective_at r) at_) (t_fx db)))).

Definition q_ListFXRates (tenant base quote : string) (since until : Timestamptz) (n : Z) : Q (list FxRateRow) :=
  select_limit n (λ db, pg_order_by (desc by_effective)
    (filter (λ r, (r_tenant_id r =s tenant) && opt_eq (r_base_currency r) base &&
       opt_eq (r_quote_currency r) quote && (is_null since || ts_le since (r_effective_at r)) &&
       (is_null until || ts_le (r_effective_at r) until)) (t_fx db))).

(** ** external_records.sql *)

Definition ext_key (tenant source ref : string) (r : ExternalRecordRow) : bool :=
  (x_tenant_id r =s tenant) && (x_source r =s source) && (x_external_ref r =s ref).

(** The number of affected rows: 0 on a conflict of the UNIQUE key. *)
Definition q_InsertExternalRecord (id tenant source ref : string) (amount : dec) (currency : string)
    (occurred : Timestamptz) (account : option string) (payload : Meta) : Q Z :=
  statement (λ now db,
    match pg_numeric amount with
    | None => Err (ErrOther "value out of range")
    | Some n =>
        if any (ext_key tenant source ref) (t_external db) then Ok (0%Z, db)
        else if any (λ r, x_id r =s id) (t_external db) || is_null occurred then Err (ErrOther "constraint violation")
        else Ok (1%Z, set_external (t_external db ++
               [mkExternalRecordRow id tenant source ref n currency occurred account payload
                  "UNMATCHED" None (Some now)]) db)
    end).

Definition q_ListExternalRecordsForRecon (tenant source : string) (from until : Timestamptz) : Q (list ExternalRecordRow) :=
  select_many (λ db, pg_order_by (by_stamp (λ r, ts_key (x_occurred_at r)))
    (filter (λ r, (x_tenant_id r =s tenant) && (x_source r =s source) && ts_le from (x_occurred_at r) &&
       ts_le (x_occurred_at r) until && (x_match_status r =s "UNMATCHED")) (t_external db))).

Definition ext_row (id tenant : string) (r : ExternalRecordRow) : bool := (x_id r =s id) && (x_tenant_id r =s tenant).

Definition q_UpdateExternalRecordMatch (status : string) (journal : option string) (id tenant : string) : Q unit :=
  sql_exec (λ _ db,
    if negb (any (ext_row id tenant) (t_external db)) ||
       (one_of status ["UNMATCHED"; "MATCHED"; "MISMATCHED"] && ref_opt journal_exists journal db)
    then Some (set_external (upd (ext_row id tenant)
           (λ r, mkExternalRecordRow (x_id r) (x_tenant_id r) (x_source r) (x_external_ref r) (x_amount r)
              (x_currency r) (x_occurred_at r) (x_account_id r) (x_raw_payload r) status journal
              (x_created_at r)) (t_external db)) db)
    else None).

(** ** reconciliation_batches.sql *)

Definition q_InsertReconBatch (id tenant key source : string) (wstart wend : Timestamptz) (actor : string) : Q unit :=
  sql_exec (λ now db,
    if negb (any (λ r, k_id r =s id) (t_batches db)) &&
       negb (any (λ r, k_idempotency_key r =s key) (t_batches db)) &&
       negb (is_null wstart) && negb (is_null wend)
    then Some (set_batches (t_batches db ++
           [mkReconciliationBatchRow id tenant key source wstart wend "RUNNING" 0 0 0 0 0 (Some now) None actor]) db)
    else None).

Definition q_GetReconBatch (tenant id : string) : Q ReconciliationBatchRow :=
  select_one (λ db, sel (λ r, (k_tenant_id r =s tenant) && (k_id r =s id)) (t_batches db)).

Definition q_GetReconBatchByIdempotency (tenant key : string) : Q ReconciliationBatchRow :=
  select_one (λ db, sel (λ r, (k_tenant_id r =s tenant) && (k_idempotency_key r =s key)) (t_batches db)).

Definition q_CompleteReconBatch (ingested matched mismatched missing_l missing_e : Z) (id tenant : string) : Q unit :=
  sql_exec (λ now db, Some (set_batches (upd (λ r, (k_id r =s id) && (k_tenant_id r =s tenant))
    (λ r, mkReconciliationBatchRow (k_id r) (k_tenant_id r) (k_idempotency_key r) (k_source r)
       (k_window_start r) (k_window_end r) "COMPLETED" ingested matched mismatched missing_l missing_e
       (k_started_at r) (Some now) (k_actor_id r)) (t_batches db)) db)).

Definition q_ListJournalsForRecon (tenant source : string) (from until : Timestamptz) : Q (list LedgerJournalRow) :=
  select_many (λ db, pg_order_by (by_stamp (λ r, ts_key (j_created_at r)))
    (filter (λ r, (j_tenant_id r =s tenant) && (j_source_service r =s source) &&
       ts_le from (j_created_at r) && ts_le (j_created_at r) until) (t_journals db))).

(** The CASE of this query adds 0 for a row of the other direction. *)
Definition q_SumJournalEntries (tenant journal account currency : string) : Q (dec * dec) :=
  select_sums (λ r, (e_tenant_id r =s tenant) && (e_journal_id r =s journal) &&
                    (e_account_id r =s account) && (e_currency r =s currency)).

(** ** discrepancies.sql *)

Definition q_InsertDiscrepancy (id tenant batch type : string) (external journal : option string) : Q unit :=
  sql_exec (λ now db,
    if negb (any (λ r, d_id r =s id) (t_discrepancies db)) &&
       one_of type ["MISSING_IN_LEDGER"; "MISSING_IN_EXTERNAL"; "AMOUNT_MISMATCH"] &&
       batch_exists batch db && ref_opt external_exists external db && ref_opt journal_exists journal db
    then Some (set_discrepancies (t_discrepancies db ++
           [mkDiscrepancyRow id tenant batch type external journal "OPEN" None "" "" None (Some now)]) db)
    else None).

Definition disc_row (tenant id : string) (r : DiscrepancyRow) : bool := (d_tenant_id r =s tenant) && (d_id r =s id).

Definition q_GetDiscrepancy (tenant id : string) : Q DiscrepancyRow :=
  select_one (λ db, sel (disc_row tenant id) (t_discrepancies db)).

(** The same row under a [FOR UPDATE] lock. *)
Definition q_LockDiscrepancy (tenant id : string) : Q DiscrepancyRow :=
  select_one (λ db, sel (disc_row tenant id) (t_discrepancies db)).

Definition q_ListDiscrepancies (tenant batch status : string) (n : Z) : Q (list DiscrepancyRow) :=
  select_limit n (λ db, pg_order_by (desc (by_stamp (λ r, ts_key (d_created_at r))))
    (filter (λ r, (d_tenant_id r =s tenant) && opt_eq (d_batch_id r) batch && opt_eq (d_status r) status)
       (t_discrepancies db))).

Definition q_ResolveDiscrepancyRow (status : string) (journal : option string) (note by_ id tenant : string) : Q unit :=
  sql_exec (λ now db,
    if negb (any (disc_row tenant id) (t_discrepancies db)) ||
       (one_of status ["OPEN"; "RESOLVED"; "IGNORED"] && ref_opt journal_exists journal db)
    then Some (set_discrepancies (upd (disc_row tenant id)
           (λ r, mkDiscrepancyRow (d_id r) (d_tenant_id r) (d_batch_id r) (d_type r) (d_external_record_id r)
              (d_journal_id r) status journal note by_ (Some now) (d_created_at r)) (t_discrepancies db)) db)
    else None).

End Queries.
