(* ===== verification/Crdb.v ===== *)
(** * internal/repo/crdb: the CockroachDB backend

    conv.go (rows to domain values), tx.go (the pgx transaction and the UUIDs
    of entries) and store.go (reads and writes outside it), on the statements
    of [CrdbDb].  A transaction works on its own copy of the tables, which
    COMMIT publishes: the transactions are SERIALIZABLE, so those that commit
    act as if they ran one after the other, and one that cannot fails with an
    error of the engine.  A statement that fails aborts its transaction: the
    later ones fail, and its COMMIT rolls back with an error. *)

From S2P Require Import Prelude Money Ledger Repo Contract Sql CrdbDb.
From stdpp Require Import base gmap strings list numbers.
From Stdlib Require Import Ascii.

(** ** tx.go: UUIDs *)

Definition hexVal (c : ascii) : Z :=
  let n := Z.of_N (N_of_ascii c) in
  if (48 <=? n)%Z && (n <=? 57)%Z then (n - 48)%Z
  else if (97 <=? n)%Z && (n <=? 102)%Z then (n - 97 + 10)%Z
  else if (65 <=? n)%Z && (n <=? 70)%Z then (n - 65 + 10)%Z
  else (-1)%Z.

(** The text without its hyphens. *)
Fixpoint no_hyphens (s : string) : string :=
  match s with
  | "" => ""
  | String c s' => if bool_decide (c = "-"%char) then no_hyphens s' else String c (no_hyphens s')
  end.

(** [byte(hi<<4 | lo)] for every two digits. *)
Fixpoint hex_bytes (s : string) : option (list Z) :=
  match s with
  | "" => Some []
  | String h (String l s') =>
      if (hexVal h <? 0)%Z || (hexVal l <? 0)%Z then None
      else bs ← hex_bytes s'; Some (Z.land (Z.lor (Z.shiftl (hexVal h) 4) (hexVal l)) 255 :: bs)
  | String _ "" => None
  end.

(** Go reads the text rune by rune; one that is not UTF-8 holds no 32
    hexadecimal digits either way, and is an error. *)
Definition parseUUID (s : string) : option UUID :=
  let hex := no_hyphens s in
  if (String.length hex =? 32)%nat then hex_bytes hex else None.

(** [fmt.Sprintf("%x", bytes)]. *)
Definition hex_digit (n : Z) : ascii := ascii_of_N (Z.to_N (if (n <? 10)%Z then n + 48 else n + 87)%Z).
Fixpoint sprintf_x (bs : list Z) : string :=
  match bs with
  | [] => ""
  | b :: bs' => String (hex_digit (Z.shiftr b 4)) (String (hex_digit (Z.land b 15)) (sprintf_x bs'))
  end.

(** ** conv.go *)

Section Conv.
Context {D : DecimalOps} {CE : CrdbEngine D}.

Definition timestamptzToTime (ts : Timestamptz) : Time :=
  match ts with None => time_zero | Some t => pg_time t end.
Definition timestamptzToTimePtr (ts : Timestamptz) : option Time := pg_time <$> ts.

Definition rowToSnapshot (r : BalanceSnapshotRow) : BalanceSnapshot :=
  mkBalanceSnapshot (sn_id r) (sn_tenant_id r) (sn_account_id r) (sn_currency r)
    (sn_posted_debits r) (sn_posted_credits r) (sn_version r)
    (timestamptzToTime (sn_snapshot_at r)) (timestamptzToTime (sn_created_at r)).

Definition rowToAccount (r : AccountRow) : Account :=
  mkAccount (a_id r) (a_tenant_id r) (a_owner_type r) (a_owner_id r) (a_account_type r)
    (a_currency r) (a_normal_balance r) (a_allow_negative r) (a_status r)
    (timestamptzToTime (a_created_at r)).

Definition rowToFlowRun (r : FlowRunRow) : FlowRun :=
  mkFlowRun (f_id r) (f_tenant_id r) (f_flow_type r) (f_idempotency_key r) (f_source_service r)
    (f_actor_id r) (f_status r) (f_metadata r) (timestamptzToTime (f_created_at r))
    (timestamptzToTimePtr (f_completed_at r)) (timestamptzToTimePtr (f_failed_at r)) [].

Definition rowToFlowStep (r : FlowStepRow) : FlowStep :=
  mkFlowStep (s_id r) (s_tenant_id r) (s_flow_run_id r) (s_step_id r) (s_status r)
    (deref (s_journal_id r)) (deref (s_error_code r)) (timestamptzToTime (s_created_at r)).

Definition rowToFXRate (r : FxRateRow) : FXRate :=
  mkFXRate (r_id r) (r_tenant_id r) (r_base_currency r) (r_quote_currency r)
    (r_rate r) (r_source r) (timestamptzToTime (r_effective_at r)) (timestamptzToTime (r_created_at r)).

Definition rowToExternalRecord (r : ExternalRecordRow) : ExternalRecord :=
  mkExternalRecord (x_id r) (x_tenant_id r) (x_source r) (x_external_ref r)
    (x_amount r) (x_currency r) (timestamptzToTime (x_occurred_at r))
    (deref (x_account_id r)) (x_raw_payload r) (x_match_status r)
    (deref (x_matched_journal_id r)) (timestamptzToTime (x_created_at r)).

Definition rowToReconBatch (r : ReconciliationBatchRow) : ReconciliationBatch :=
  mkReconciliationBatch (k_id r) (k_tenant_id r) (k_idempotency_key r) (k_source r)
    (timestamptzToTime (k_window_start r)) (timestamptzToTime (k_window_end r)) (k_status r)
    (int32 (k_ingested_count r)) (int32 (k_matched_count r)) (int32 (k_mismatched_count r))
    (int32 (k_missing_in_ledger_count r)) (int32 (k_missing_in_external_count r))
    (timestamptzToTime (k_started_at r)) (timestamptzToTime (k_completed_at r)) (k_actor_id r).

Definition rowToDiscrepancy (r : DiscrepancyRow) : Discrepancy :=
  mkDiscrepancy (d_id r) (d_tenant_id r) (d_batch_id r) (d_type r)
    (deref (d_external_record_id r)) (deref (d_journal_id r)) (d_status r)
    (deref (d_resolution_journal_id r)) (d_resolution_note r) (d_resolved_by r)
    (timestamptzToTime (d_resolved_at r)) (timestamptzToTime (d_created_at r)).

Definition rowToJournal (r : LedgerJournalRow) : Journal :=
  mkJournal (j_id r) (j_tenant_id r) (deref (j_flow_run_id r)) (j_event_id r) (j_source_service r)
    (j_source_type r) (j_actor_id r) (j_metadata r) [] (timestamptzToTime (j_created_at r)).

Definition rowToReservation (r : ReservationRow) : Reservation :=
  mkReservation (v_id r) (v_tenant_id r) (v_idempotency_key r) (v_source_account_id r)
    (v_reserved_account_id r) (v_currency r) (v_original_amount r) (v_outstanding_amount r)
    (v_committed_amount r) (v_released_amount r) (v_status r) (timestamptzToTimePtr (v_expires_at r))
    (v_flow_run_id r) (v_metadata r) (timestamptzToTime (v_created_at r)) (timestamptzToTime (v_updated_at r)).

(** [pgtype.Timestamptz{Time: t.UTC(), Valid: true}], as the column keeps it. *)
Definition valid (t : Time) : Timestamptz := Some (pg_timestamptz t).
Definition nullString (s : string) : option string := if s =s "" then None else Some s.
End Conv.

(** ** tx.go *)

(** A transaction: its copy of the tables, when it began, and whether it can
    go on, was aborted by a failed statement, or is over. *)
Inductive TxState := TxOpen | TxAborted | TxClosed.

Section Tx.
Context {H : Host} {D : DecimalOps} {CE : CrdbEngine D}.

Record CrTx := mkCrTx { tx_db : DB; tx_began : stamp; tx_state : TxState }.

(** A statement on the transaction's connection; finding no row is not a
    failure of the statement. *)
Definition on_tx {A} (stmt : DBTX → M error (DB * Env) A) : M error (CrTx * Env) A := λ '(t, e),
  match tx_state t with
  | TxClosed => (Err (ErrOther "tx is closed"), (t, e))
  | TxAborted => (Err (ErrPg "25P02"), (t, e))
  | TxOpen =>
      match stmt (InTx (tx_began t)) (tx_db t, e) with
      | (Ok a, (db, e')) => (Ok a, (mkCrTx db (tx_began t) TxOpen, e'))
      | (Err ErrNoRows, (db, e')) => (Err ErrNoRows, (mkCrTx db (tx_began t) TxOpen, e'))
      | (Err er, (db, e')) => (Err er, (mkCrTx db (tx_began t) TxAborted, e'))
      end
  end.

Definition cr_GetFlowByIdempotency (tenant key : string) : M error (CrTx * Env) (option FlowRun) :=
  row ← no_rows_none (on_tx (λ q, q_GetFlowByIdempotency q tenant key));
  mret (rowToFlowRun <$> row).

Definition cr_GetAccount (tenant id : string) : M error (CrTx * Env) Account :=
  row ← no_rows_code CodeAccountNotFound (on_tx (λ q, q_GetAccount q tenant id));
  mret (rowToAccount row).

Definition cr_EnsureBalanceRow (tenant account currency : string) : M error (CrTx * Env) unit :=
  on_tx (λ q, q_UpsertBalanceZero q tenant account currency).

Definition cr_LockBalance (tenant account currency : string) : M error (CrTx * Env) (dec * dec * Z) :=
  cr_EnsureBalanceRow tenant account currency;;
  row ← on_tx (λ q, q_LockBalance q tenant account currency);
  mret (b_posted_debits row, b_posted_credits row, b_version row).

Definition cr_UpdateBalance (tenant account currency : string) (d c : dec) : M error (CrTx * Env) unit :=
  on_tx (λ q, q_UpdateBalance q tenant account currency d c).

Definition cr_InsertAccount (a : Account) : M error (CrTx * Env) unit :=
  on_tx (λ q, q_InsertAccount q (acc_ID a) (acc_TenantID a) (acc_OwnerType a) (acc_OwnerID a)
    (acc_AccountType a) (acc_Currency a) (acc_NormalBalance a)
    (acc_AllowNegative a) (acc_Status a)).

Definition cr_InsertFlowRun (f : FlowRun) : M error (CrTx * Env) unit :=
  on_tx (λ q, q_InsertFlowRun q (fr_ID f) (fr_TenantID f) (fr_FlowType f) (fr_IdempotencyKey f)
    (fr_SourceService f) (fr_ActorID f) (fr_Metadata f)).

Definition cr_CompleteFlowRun (tenant id : string) : M error (CrTx * Env) unit :=
  on_tx (λ q, q_CompleteFlowRun q id tenant).

Definition cr_InsertJournal (j : Journal) : M error (CrTx * Env) unit :=
  on_tx (λ q, q_InsertJournal q (jr_ID j) (jr_TenantID j) (nullString (jr_FlowRunID j)) (jr_EventID j)
    (jr_SourceService j) (jr_SourceType j) (jr_ActorID j) (jr_Metadata j)).

Definition cr_InsertEntry (tenant entry journal account currency : string) (dir : Direction)
    (amount : dec) : M error (CrTx * Env) unit :=
  match parseUUID entry with
  | None => throw (ErrOther "insert entry: invalid uuid")
  | Some uid => on_tx (λ q, q_InsertEntry q uid tenant journal account currency dir amount)
  end.

Definition cr_InsertFlowStep (s : FlowStep) : M error (CrTx * Env) unit :=
  on_tx (λ q, q_InsertFlowStep q (fs_ID s) (fs_TenantID s) (fs_FlowRunID s) (fs_StepID s) (fs_Status s)
    (nullString (fs_JournalID s)) (nullString (fs_ErrorCode s))).

Definition cr_InsertOutbox (e : OutboxEvent) : M error (CrTx * Env) unit :=
  on_tx (λ q, q_InsertOutbox q (ob_ID e) (ob_TenantID e) (ob_AggregateID e) (ob_EventType e)
    (ob_IdempotencyKey e) (ob_Payload e)).

Definition cr_GetFlowSteps (tenant flow : string) : M error (CrTx * Env) (list FlowStep) :=
  rows ← on_tx (λ q, q_GetFlowSteps q tenant flow);
  mret (rowToFlowStep <$> rows).

Definition cr_InsertReservation (r : Reservation) : M error (CrTx * Env) unit :=
  on_tx (λ q, q_InsertReservation q (rs_ID r) (rs_TenantID r) (rs_IdempotencyKey r) (rs_SourceAccountID r)
    (rs_ReservedAccountID r) (rs_Currency r) (rs_OriginalAmount r)
    (rs_OutstandingAmount r) (rs_Status r) (pg_timestamptz <$> rs_ExpiresAt r)
    (rs_FlowRunID r) (rs_Metadata r)).

Definition cr_LockReservation (tenant id : string) : M error (CrTx * Env) Reservation :=
  row ← no_rows_code CodeReservationNotFound (on_tx (λ q, q_LockReservation q tenant id));
  mret (rowToReservation row).

Definition cr_GetReservationByIdempotency (tenant key : string) : M error (CrTx * Env) (option Reservation) :=
  row ← no_rows_none (on_tx (λ q, q_GetReservationByIdempotency q tenant key));
  mret (rowToReservation <$> row).

Definition cr_UpdateReservationAmounts (tenant id : string) (o c r : dec) (st : ReservationStatus)
    : M error (CrTx * Env) unit :=
  on_tx (λ q, q_UpdateReservationAmounts q o c r st tenant id).

Definition cr_GetReconBatchByIdempotency (tenant key : string) : M error (CrTx * Env) (option ReconciliationBatch) :=
  row ← no_rows_none (on_tx (λ q, q_GetReconBatchByIdempotency q tenant key));
  mret (rowToReconBatch <$> row).

Definition cr_InsertReconBatch (b : ReconciliationBatch) : M error (CrTx * Env) unit :=
  on_tx (λ q, q_InsertReconBatch q (rb_ID b) (rb_TenantID b) (rb_IdempotencyKey b) (rb_Source b)
    (valid (rb_WindowStart b)) (valid (rb_WindowEnd b)) (rb_ActorID b)).

Definition cr_CompleteReconBatch (b : ReconciliationBatch) : M error (CrTx * Env) unit :=
  on_tx (λ q, q_CompleteReconBatch q (rb_IngestedCount b) (rb_MatchedCount b) (rb_MismatchedCount b)
    (rb_MissingInLedgerCount b) (rb_MissingInExternalCount b) (rb_ID b) (rb_TenantID b)).

Definition cr_ListExternalRecordsForRecon (tenant source : string) (wstart wend : Time)
    : M error (CrTx * Env) (list ExternalRecord) :=
  rows ← on_tx (λ q, q_ListExternalRecordsForRecon q tenant source (valid wstart) (valid wend));
  mret (rowToExternalRecord <$> rows).

Definition cr_ListJournalsForRecon (tenant source : string) (wstart wend : Time)
    : M error (CrTx * Env) (list Journal) :=
  rows ← on_tx (λ q, q_ListJournalsForRecon q tenant source (valid wstart) (valid wend));
  mret (rowToJournal <$> rows).

Definition cr_UpdateExternalRecordMatch (tenant id : string) (st : ExternalRecordStatus) (journal : string)
    : M error (CrTx * Env) unit :=
  on_tx (λ q, q_UpdateExternalRecordMatch q st (nullString journal) id tenant).

Definition cr_SumJournalEntries (tenant journal account currency : string) : M error (CrTx * Env) (dec * dec) :=
  on_tx (λ q, q_SumJournalEntries q tenant journal account currency).

Definition cr_InsertDiscrepancy (d : Discrepancy) : M error (CrTx * Env) unit :=
  on_tx (λ q, q_InsertDiscrepancy q (dc_ID d) (dc_TenantID d) (dc_BatchID d) (dc_Type d)
    (nullString (dc_ExternalRecordID d)) (nullString (dc_JournalID d))).

Definition cr_LockDiscrepancy (tenant id : string) : M error (CrTx * Env) Discrepancy :=
  row ← no_rows_code CodeDiscrepancyNotFound (on_tx (λ q, q_LockDiscrepancy q tenant id));
  mret (rowToDiscrepancy row).

Definition cr_ResolveDiscrepancyRow (d : Discrepancy) : M error (CrTx * Env) unit :=
  on_tx (λ q, q_ResolveDiscrepancyRow q (dc_Status d) (nullString (dc_ResolutionJournalID d))
    (dc_ResolutionNote d) (dc_ResolvedBy d) (dc_ID d) (dc_TenantID d)).

#[export] Instance CrRepoTx : RepoTx D CrTx := {
  tx_GetFlowByIdempotency := cr_GetFlowByIdempotency;
  tx_GetAccount := cr_GetAccount;
  tx_LockBalance := cr_LockBalance;
  tx_EnsureBalanceRow := cr_EnsureBalanceRow;
  tx_UpdateBalance := cr_UpdateBalance;
  tx_InsertAccount := cr_InsertAccount;
  tx_InsertFlowRun := cr_InsertFlowRun;
  tx_CompleteFlowRun := cr_CompleteFlowRun;
  tx_InsertJournal := cr_InsertJournal;
  tx_InsertEntry := cr_InsertEntry;
  tx_InsertFlowStep := cr_InsertFlowStep;
  tx_InsertOutbox := cr_InsertOutbox;
  tx_GetFlowSteps := cr_GetFlowSteps;
  tx_InsertReservation := cr_InsertReservation;
  tx_LockReservation := cr_LockReservation;
  tx_GetReservationByIdempotency := cr_GetReservationByIdempotency;
  tx_UpdateReservationAmounts := cr_UpdateReservationAmounts;
  tx_GetReconBatchByIdempotency := cr_GetReconBatchByIdempotency;
  tx_InsertReconBatch := cr_InsertReconBatch;
  tx_CompleteReconBatch := cr_CompleteReconBatch;
  tx_ListExternalRecordsForRecon := cr_ListExternalRecordsForRecon;
  tx_ListJournalsForRecon := cr_ListJournalsForRecon;
  tx_UpdateExternalRecordMatch := cr_UpdateExternalRecordMatch;
  tx_SumJournalEntries := cr_SumJournalEntries;
  tx_InsertDiscrepancy := cr_InsertDiscrepancy;
  tx_LockDiscrepancy := cr_LockDiscrepancy;
  tx_ResolveDiscrepancyRow := cr_ResolveDiscrepancyRow;
}.

(** ** store.go *)

Definition cr_BeginFlowTx : M error (DB * Env) CrTx := λ '(db, e),
  if host_fault (e_db e) then (Err (pg_error (e_db e)), (db, tick e))
  else (Ok (mkCrTx db (host_dbnow (e_db e)) TxOpen), (db, tick e)).

(** [pgx.Tx.Commit]: COMMIT of an aborted transaction rolls it back. *)
Definition cr_Commit : M error ((DB * CrTx) * Env) unit := λ '((db, t), e),
  let t' := mkCrTx (tx_db t) (tx_began t) TxClosed in
  match tx_state t with
  | TxClosed => (Err (ErrOther "tx is closed"), ((db, t), e))
  | _ =>
      if host_fault (e_db e) then (Err (pg_error (e_db e)), ((db, t'), tick e))
      else match tx_state t with
           | TxOpen => (Ok tt, ((tx_db t, t'), tick e))
           | _ => (Err (ErrOther "commit unexpectedly resulted in rollback"), ((db, t'), tick e))
           end
  end.

(** [pgx.Tx.Rollback]. *)
Definition cr_Rollback : M error ((DB * CrTx) * Env) unit := λ '((db, t), e),
  let t' := mkCrTx (tx_db t) (tx_began t) TxClosed in
  match tx_state t with
  | TxClosed => (Err (ErrOther "tx is closed"), ((db, t), e))
  | _ => if host_fault (e_db e) then (Err (pg_error (e_db e)), ((db, t'), tick e))
         else (Ok tt, ((db, t'), tick e))
  end.

Definition crs_GetAccount (tenant id : string) : M error (DB * Env) Account :=
  row ← no_rows_code CodeAccountNotFound (q_GetAccount Pool tenant id);
  mret (rowToAccount row).

Definition crs_GetBalance (tenant account currency : string) : M error (DB * Env) (dec * dec * Z) :=
  row ← no_rows_none (q_GetBalance Pool tenant account currency);
  match row with
  | None => mret (decimal_Zero, decimal_Zero, 0%Z)
  | Some r => mret (b_posted_debits r, b_posted_credits r, b_version r)
  end.

Definition crs_GetFlow (tenant id : string) : M error (DB * Env) (option FlowRun) :=
  row ← no_rows_none (q_GetFlowByID Pool tenant id);
  match row with
  | None => mret None
  | Some r =>
      steps ← q_GetFlowSteps Pool tenant id;
      let f := rowToFlowRun r in
      mret (Some (mkFlowRun (fr_ID f) (fr_TenantID f) (fr_FlowType f) (fr_IdempotencyKey f)
        (fr_SourceService f) (fr_ActorID f) (fr_Status f) (fr_Metadata f) (fr_CreatedAt f)
        (fr_CompletedAt f) (fr_FailedAt f) (rowToFlowStep <$> steps)))
  end.

(** [if limit <= 0 { limit = 100 }], on an int; then [int32(limit)]. *)
Definition limit_or (n : Z) : Z := int32 (if (n <=? 0)%Z then 100%Z else n).
(** [limit := int32(in.Limit)] with its default and its bound. *)
Definition limit32 (n : Z) : Z := let l := int32 n in if (l <=? 0)%Z then 100%Z else l.
Definition limit_max (n : Z) : Z := let l := int32 n in if (l <=? 0)%Z || (500 <? l)%Z then 100%Z else l.

Definition rowToOutbox (r : OutboxEventRow) : OutboxEvent :=
  mkOutboxEvent (o_id r) (o_tenant_id r) (o_aggregate_id r) (o_event_type r) (o_idempotency_key r)
    (o_payload r) (timestamptzToTime (o_created_at r)).

Definition rowToActivity (r : LedgerEntryRow) : ActivityRow :=
  mkActivityRow (e_journal_id r) (sprintf_x (e_id r)) (e_currency r) (e_direction r)
    (e_amount r) (timestamptzToTime (e_created_at r)) "".

Definition crs_ListAccountActivity (i : ListActivityInput) : M error (DB * Env) (list ActivityRow) :=
  rows ← q_ListAccountActivity Pool (la_TenantID i) (la_AccountID i) (la_Currency i)
           (pg_timestamptz <$> la_Since i) (pg_timestamptz <$> la_Until i) (limit32 (la_Limit i));
  mret (rowToActivity <$> rows).

Definition crs_PendingOutbox (n : Z) : M error (DB * Env) (list OutboxEvent) :=
  rows ← q_ListPendingOutbox Pool (limit_or n);
  mret (rowToOutbox <$> rows).

Definition crs_MarkOutboxPublished (id : string) : M error (DB * Env) unit := q_MarkOutboxPublished Pool id.
Definition crs_IncrementOutboxAttempts (id : string) : M error (DB * Env) unit := q_IncrementOutboxAttempts Pool id.

Definition crs_InsertSnapshot (s : BalanceSnapshot) : M error (DB * Env) unit :=
  q_InsertSnapshot Pool (bs_ID s) (bs_TenantID s) (bs_AccountID s) (bs_Currency s)
    (bs_PostedDebits s) (bs_PostedCredits s) (bs_Version s)
    (valid (bs_SnapshotAt s)).

Definition crs_GetSnapshotBefore (tenant account currency : string) (at_ : Time)
    : M error (DB * Env) (option BalanceSnapshot) :=
  row ← no_rows_none (q_GetLatestSnapshotBefore Pool tenant account currency (valid at_));
  mret (rowToSnapshot <$> row).

Definition crs_SumEntriesBetween (tenant account currency : string) (after until : Time)
    : M error (DB * Env) (dec * dec) :=
  q_SumEntriesBetween Pool tenant account currency (valid after) (valid until).

Definition crs_ListTenantBalances (tenant : string) : M error (DB * Env) (list TenantBalanceRow) :=
  rows ← q_ListAllBalancesForTenant Pool tenant;
  mret ((λ r, mkTenantBalanceRow (b_account_id r) (b_currency r) (b_posted_debits r)
                (b_posted_credits r) (b_version r)) <$> rows).

Definition crs_ListTenantsDueForSnapshot (cutoff : Time) (n : Z) : M error (DB * Env) (list string) :=
  q_ListTenantsDueForSnapshot Pool (valid cutoff) (limit_or n).

Definition crs_PruneSnapshotsOlderThan (cutoff : Time) (n : Z) : M error (DB * Env) Z :=
  q_PruneSnapshotsOlderThan Pool (valid cutoff) (limit_or n).

Definition crs_GetReservation (tenant id : string) : M error (DB * Env) Reservation :=
  row ← no_rows_code CodeReservationNotFound (q_GetReservation Pool tenant id);
  mret (rowToReservation row).

Definition crs_ListExpiredReservations (now : Time) (n : Z) : M error (DB * Env) (list ExpiredReservation) :=
  rows ← q_ListExpiredReservations Pool (valid now) (limit_or n);
  mret ((λ r, mkExpiredReservation r.1 r.2) <$> rows).

Definition crs_ListReservations (i : ListReservationsInput) : M error (DB * Env) (list Reservation) :=
  rows ← q_ListReservations Pool (lr_TenantID i) (lr_OwnerType i) (lr_OwnerID i) (lr_Status i)
           (limit_max (lr_Limit i));
  mret (rowToReservation <$> rows).

Definition crs_UpsertFXRate (r : FXRate) : M error (DB * Env) FXRate :=
  row ← q_UpsertFXRate Pool (fx_ID r) (fx_TenantID r) (fx_BaseCurrency r) (fx_QuoteCurrency r)
          (fx_Rate r) (fx_Source r) (valid (fx_EffectiveAt r));
  mret (rowToFXRate row).

Definition crs_GetFXRateAt (tenant base quote : string) (at_ : Time) : M error (DB * Env) (option FXRate) :=
  row ← no_rows_none (q_GetFXRateAt Pool tenant base quote (valid at_));
  mret (rowToFXRate <$> row).

Definition crs_ListFXRates (i : ListFXRatesInput) : M error (DB * Env) (list FXRate) :=
  rows ← q_ListFXRates Pool (lf_TenantID i) (lf_BaseCurrency i) (lf_QuoteCurrency i)
           (pg_timestamptz <$> lf_Since i) (pg_timestamptz <$> lf_Until i) (limit_max (lf_Limit i));
  mret (rowToFXRate <$> rows).

Definition crs_InsertExternalRecord (r : ExternalRecord) : M error (DB * Env) bool :=
  n ← q_InsertExternalRecord Pool (er_ID r) (er_TenantID r) (er_Source r) (er_ExternalRef r)
        (er_Amount r) (er_Currency r) (valid (er_OccurredAt r))
        (nullString (er_AccountID r)) (er_RawPayload r);
  mret (0 <? n)%Z.

Definition crs_ListExternalRecordsForRecon (tenant source : string) (wstart wend : Time)
    : M error (DB * Env) (list ExternalRecord) :=
  rows ← q_ListExternalRecordsForRecon Pool tenant source (valid wstart) (valid wend);
  mret (rowToExternalRecord <$> rows).

Definition crs_ListJournalsForRecon (tenant source : string) (wstart wend : Time)
    : M error (DB * Env) (list Journal) :=
  rows ← q_ListJournalsForRecon Pool tenant source (valid wstart) (valid wend);
  mret (rowToJournal <$> rows).

Definition crs_GetReconBatch (tenant id : string) : M error (DB * Env) ReconciliationBatch :=
  row ← no_rows_code CodeReconBatchNotFound (q_GetReconBatch Pool tenant id);
  mret (rowToReconBatch row).

Definition crs_ListDiscrepancies (i : ListDiscrepanciesInput) : M error (DB * Env) (list Discrepancy) :=
  rows ← q_ListDiscrepancies Pool (ld_TenantID i) (ld_BatchID i) (ld_Status i) (limit_max (ld_Limit i));
  mret (rowToDiscrepancy <$> rows).

Definition crs_GetDiscrepancy (tenant id : string) : M error (DB * Env) Discrepancy :=
  row ← no_rows_code CodeDiscrepancyNotFound (q_GetDiscrepancy Pool tenant id);
  mret (rowToDiscrepancy row).

#[export] Instance CrRepoStore : RepoStore D DB CrTx := {
  st_BeginFlowTx := cr_BeginFlowTx;
  tx_Commit := cr_Commit;
  tx_Rollback := cr_Rollback;
  st_GetAccount := crs_GetAccount;
  st_GetBalance := crs_GetBalance;
  st_GetFlow := crs_GetFlow;
  st_ListAccountActivity := crs_ListAccountActivity;
  st_PendingOutbox := crs_PendingOutbox;
  st_MarkOutboxPublished := crs_MarkOutboxPublished;
  st_IncrementOutboxAttempts := crs_IncrementOutboxAttempts;
  st_InsertSnapshot := crs_InsertSnapshot;
  st_GetSnapshotBefore := crs_GetSnapshotBefore;
  st_SumEntriesBetween := crs_SumEntriesBetween;
  st_ListTenantBalances := crs_ListTenantBalances;
  st_ListTenantsDueForSnapshot := crs_ListTenantsDueForSnapshot;
  st_PruneSnapshotsOlderThan := crs_PruneSnapshotsOlderThan;
  st_UpsertFXRate := crs_UpsertFXRate;
  st_GetFXRateAt := crs_GetFXRateAt;
  st_ListFXRates := crs_ListFXRates;
  st_GetReservation := crs_GetReservation;
  st_ListExpiredReservations := crs_ListExpiredReservations;
  st_ListReservations := crs_ListReservations;
  st_InsertExternalRecord := crs_InsertExternalRecord;
  st_ListExternalRecordsForRecon := crs_ListExternalRecordsForRecon;
  st_ListJournalsForRecon := crs_ListJournalsForRecon;
  st_GetReconBatch := crs_GetReconBatch;
  st_ListDiscrepancies := crs_ListDiscrepancies;
  st_GetDiscrepancy := crs_GetDiscrepancy;
}.
End Tx.
