(* ===== verification/CrdbDispatch.v ===== *)
(** * The outbox of the CockroachDB backend

    Its statements add unpublished events or mark one, so the dispatchers of
    any number of server processes on one cluster lose nothing
    ([Dispatch]). *)

From S2P Require Import Prelude Money Ledger Repo Contract Sql CrdbDb Crdb Service Dispatch.
From stdpp Require Import base gmap strings list numbers.

Section Crdb.
Context {H : Host} {D : DecimalOps} {CE : CrdbEngine D}.

Definition out_row (r : OutboxEventRow) : OutRow :=
  mkOutRow (o_id r) (o_idempotency_key r) (o_payload r) (o_publish_state r =s "PUBLISHED").
Definition outbox_rows (db : DB) : list OutRow := out_row <$> t_outbox db.

Abbreviation q_more := (more outbox_rows).
Abbreviation tx_more := (more (λ t, outbox_rows (tx_db t))).

Lemma crdb_more_statement {A} q (f : stamp → DB → result error (A * DB)) :
  (∀ now db, match f now db with Ok (_, db') => outbox_more (outbox_rows db) (outbox_rows db') | Err _ => True end) →
  q_more (statement q f).
Proof.
  intros Hf [db e]. unfold statement. destruct (host_fault _); [done|]. specialize (Hf (sql_now q e) db).
  by destruct (f _ db) as [[a db']|er].
Qed.
Lemma crdb_more_select_one {A} q (f : DB → option A) : q_more (select_one q f).
Proof. apply crdb_more_statement. intros now db. by destruct (f db). Qed.
Lemma crdb_more_select_many {A} q (f : DB → list A) : q_more (select_many q f).
Proof. by apply crdb_more_statement. Qed.
Lemma more_select_limit {A} q n (f : DB → list A) : q_more (select_limit q n f).
Proof. apply crdb_more_statement. intros now db. by destruct (n <? 0)%Z. Qed.
Lemma more_exec q f :
  (∀ now db, match f now db with Some db' => t_outbox db' = t_outbox db | None => True end) → q_more (sql_exec q f).
Proof.
  intros Hf. apply crdb_more_statement. intros now db. specialize (Hf now db). destruct (f now db); [|done].
  unfold outbox_rows. by rewrite Hf.
Qed.
Lemma crdb_more_InsertOutbox q id t a ty k pl : q_more (q_InsertOutbox q id t a ty k pl).
Proof.
  apply crdb_more_statement. intros now db. destruct (_ && _); [|done]. unfold outbox_rows. simpl. rewrite fmap_app.
  eexists. split; [done|]. by repeat constructor.
Qed.

Lemma crdb_more_on_tx {A} (stmt : DBTX → M error (DB * Env) A) : (∀ q, q_more (stmt q)) → tx_more (on_tx stmt).
Proof.
  intros Hq [t e]. unfold on_tx. destruct (tx_state t); [|done..]. specialize (Hq (InTx (tx_began t)) (tx_db t, e)).
  by destruct (stmt _ _) as [[a|[]] [db e']].
Qed.

#[local] Hint Resolve crdb_more_select_one crdb_more_select_many more_select_limit crdb_more_InsertOutbox : outbox.
#[local] Hint Extern 1 (more _ (sql_exec _ _)) => apply more_exec; intros; unfold mbind, option_bind; repeat case_match; by simplify_eq : outbox.
#[local] Hint Extern 1 (more _ (statement _ _)) => apply crdb_more_statement; intros; unfold mbind, option_bind; repeat case_match; by simplify_eq : outbox.

(** ** The statements and the operations *)

#[local] Hint Unfold select_sums : outbox.
#[local] Hint Unfold
  q_InsertAccount q_GetAccount q_ListAccountsByOwner q_GetBalance q_LockBalance q_UpsertBalanceZero
  q_UpdateBalance q_InsertFlowRun q_GetFlowByIdempotency q_GetFlowByID q_CompleteFlowRun q_InsertFlowStep
  q_GetFlowSteps q_InsertJournal q_GetJournal q_GetJournalsByFlowRun q_InsertEntry q_ListAccountActivity
  q_ListPendingOutbox q_InsertReservation q_GetReservation q_LockReservation q_GetReservationByIdempotency
  q_UpdateReservationAmounts q_ListExpiredReservations q_ListReservations q_InsertSnapshot
  q_GetLatestSnapshotBefore q_SumEntriesBetween q_ListAllBalancesForTenant q_ListTenantsDueForSnapshot
  q_PruneSnapshotsOlderThan q_UpsertFXRate q_GetFXRateAt q_ListFXRates q_InsertExternalRecord
  q_ListExternalRecordsForRecon q_UpdateExternalRecordMatch q_InsertReconBatch q_GetReconBatch
  q_GetReconBatchByIdempotency q_CompleteReconBatch q_ListJournalsForRecon q_SumJournalEntries
  q_InsertDiscrepancy q_GetDiscrepancy q_LockDiscrepancy q_ListDiscrepancies q_ResolveDiscrepancyRow : outbox.
#[local] Hint Unfold
  cr_GetFlowByIdempotency cr_GetAccount cr_EnsureBalanceRow cr_LockBalance cr_UpdateBalance cr_InsertAccount
  cr_InsertFlowRun cr_CompleteFlowRun cr_InsertJournal cr_InsertEntry cr_InsertFlowStep cr_InsertOutbox
  cr_GetFlowSteps cr_InsertReservation cr_LockReservation cr_GetReservationByIdempotency
  cr_UpdateReservationAmounts cr_GetReconBatchByIdempotency cr_InsertReconBatch cr_CompleteReconBatch
  cr_ListExternalRecordsForRecon cr_ListJournalsForRecon cr_UpdateExternalRecordMatch cr_SumJournalEntries
  cr_InsertDiscrepancy cr_LockDiscrepancy cr_ResolveDiscrepancyRow crs_GetAccount crs_GetBalance crs_GetFlow
  crs_ListAccountActivity crs_PendingOutbox crs_InsertSnapshot crs_GetSnapshotBefore crs_SumEntriesBetween
  crs_ListTenantBalances crs_ListTenantsDueForSnapshot crs_PruneSnapshotsOlderThan crs_GetReservation
  crs_ListExpiredReservations crs_ListReservations crs_UpsertFXRate crs_GetFXRateAt crs_ListFXRates
  crs_InsertExternalRecord crs_ListExternalRecordsForRecon crs_ListJournalsForRecon crs_GetReconBatch
  crs_ListDiscrepancies crs_GetDiscrepancy : outbox.

(** An operation of the store or of a transaction, down to its statements. *)
Ltac op_more := simpl; autounfold with outbox; repeat first [progress more_walk | apply crdb_more_on_tx].

#[export] Instance crdb_tx : OutboxTxLaws (λ t, outbox_rows (tx_db t)).
Proof. split; intros; op_more. Qed.

#[export] Instance crdb_commit : OutboxCommitLaws outbox_rows (λ t, outbox_rows (tx_db t)).
Proof.
  split; simpl.
  - intros [db e]. unfold cr_BeginFlowTx. by destruct (host_fault _).
  - intros db t e. unfold cr_Commit. destruct (tx_state t), (host_fault (e_db e)); auto.
  - intros db t e. unfold cr_Rollback. by destruct (tx_state t), (host_fault (e_db e)).
Qed.

#[export] Instance crdb_store : OutboxStoreLaws outbox_rows.
Proof.
  split; intros; try solve [op_more]; destruct s as [db e]; simpl;
    unfold crs_MarkOutboxPublished, crs_IncrementOutboxAttempts, q_MarkOutboxPublished, q_IncrementOutboxAttempts,
      sql_exec, statement; (destruct (host_fault _); [apply published_rows_refl|]); apply published_upd;
    intros r; split_and!; try done; intros Hr; try (right; simpl; intros Hid; eqs; set_solver); by left.
Qed.
End Crdb.
