(* ===== verification/CrdbLaws.v ===== *)
(** * The CockroachDB backend implements the storage contract

    As in [SqliteLaws], [db_view] reads the abstract ledger off the tables
    and the instances discharge the contract for the backend.  The contract
    speaks of exact amounts and the columns hold 18 fractional digits, so
    the instances are those of an engine that never rounds
    ([NumericExact]).  [CrdbExact] reduces to it the runs of any engine
    whose requests have amounts of at most 18 fractional digits; what happens
    otherwise is in [CrdbRun]. *)

From S2P Require Import Prelude Money Ledger Repo Contract Sql CrdbDb Crdb.
From stdpp Require Import base gmap strings list numbers.
From Stdlib Require Import Qcanon FunctionalExtensionality.

(** The engine keeps every decimal it does not refuse as it is. *)
Class NumericExact (D : DecimalOps) {L : DecimalLaws D} (E : CrdbEngine D) : Prop :=
  numeric_exact d r : pg_numeric d = Some r → val r = val d.

Section View.
Context {D : DecimalOps} {L : DecimalLaws D} {CE : CrdbEngine D}.

Definition row_bal (r : AccountBalanceRow) : Qc * Qc :=
  (val (b_posted_debits r), val (b_posted_credits r)).
Definition row_step (r : FlowStepRow) : SView :=
  mkSView (s_step_id r) (s_status r) (deref (s_journal_id r)) (deref (s_error_code r)).
Definition row_journal (r : LedgerJournalRow) : JView :=
  mkJView (j_tenant_id r) (j_id r) (j_event_id r) (deref (j_flow_run_id r)).
Definition row_entry (r : LedgerEntryRow) : PEntry :=
  mkPEntry (e_tenant_id r) (e_journal_id r) (e_account_id r) (e_currency r) (e_direction r)
    (val (e_amount r)).
Definition row_outbox (r : OutboxEventRow) : OView :=
  mkOView (o_tenant_id r) (o_aggregate_id r) (o_event_type r) (o_idempotency_key r).
Definition row_resv (r : ReservationRow) : RView :=
  mkRView (v_id r) (v_tenant_id r) (v_idempotency_key r) (v_source_account_id r)
    (v_reserved_account_id r) (v_currency r) (val (v_original_amount r))
    (val (v_outstanding_amount r)) (val (v_committed_amount r))
    (val (v_released_amount r)) (v_status r) (v_flow_run_id r).

Definition db_view (open : bool) (db : DB) : LView := {|
  lv_acct t id := (λ r, acc_view (rowToAccount r)) <$>
     sel (λ r, (a_tenant_id r =s t) && (a_id r =s id)) (t_accounts db);
  lv_bal k := row_bal <$> sel (bal_row k.1.1 k.1.2 k.2) (t_balances db);
  lv_flow t k := (λ r, (f_id r, f_status r)) <$>
     sel (λ r, (f_tenant_id r =s t) && (f_idempotency_key r =s k)) (t_flows db);
  lv_steps t f := row_step <$> filter (λ r, (s_tenant_id r =s t) && (s_flow_run_id r =s f)) (t_steps db);
  lv_journals := row_journal <$> t_journals db;
  lv_entries := row_entry <$> t_entries db;
  lv_outbox := row_outbox <$> t_outbox db;
  lv_resv t id := row_resv <$> sel (resv_row t id) (t_reservations db);
  lv_resvk t k := row_resv <$>
     sel (λ r, (v_tenant_id r =s t) && (v_idempotency_key r =s k)) (t_reservations db);
  lv_open := open;
|}.

Lemma cr_rview_row r : rview (rowToReservation r) = row_resv r.
Proof. done. Qed.

Lemma cr_deref_nullString s : deref (nullString s) = s.
Proof. unfold nullString. destruct (bool_decide_reflect (s = "")); by subst. Qed.
End View.

(** ** Rules for the statements *)

Definition is_open {D : DecimalOps} (t : CrTx) : bool := match tx_state t with TxOpen => true | _ => false end.

Section Rules.
Context {H : Host} {D : DecimalOps} {CE : CrdbEngine D}.

Lemma cr_wp_on_tx {A} (f : stamp → DB → result error (A * DB)) Q (s : CrTx * Env) :
  (∀ now a db e, f now (tx_db s.1) = Ok (a, db) → Q a (mkCrTx db (tx_began s.1) (tx_state s.1), e)) →
  wpo (on_tx (λ q, statement q f)) Q s.
Proof.
  destruct s as [[db began []] e]; intros HQ; unfold wp, on_tx, statement; simpl; [|done|done].
  destruct (host_fault (e_db e)); [by destruct (pg_error _)|].
  destruct (f _ db) as [[a db']|er] eqn:Hf; [|by destruct er]. eapply HQ, Hf.
Qed.

Lemma cr_wp_exec f Q (s : CrTx * Env) :
  (∀ now db e, f now (tx_db s.1) = Some db → Q tt (mkCrTx db (tx_began s.1) (tx_state s.1), e)) →
  wpo (on_tx (λ q, sql_exec q f)) Q s.
Proof.
  intros HQ. apply cr_wp_on_tx. intros now a db e.
  destruct (f now (tx_db s.1)) eqn:Hf; [|done]. intros [= <- <-]. by eapply HQ.
Qed.

Lemma cr_wp_insert (ok : DB → bool) f Q (s : CrTx * Env) :
  (∀ now e, ok (tx_db s.1) = true → Q tt (mkCrTx (f now (tx_db s.1)) (tx_began s.1) (tx_state s.1), e)) →
  wpo (on_tx (λ q, sql_exec q (λ now db, if ok db then Some (f now db) else None))) Q s.
Proof.
  intros HQ. apply cr_wp_exec. intros now db e.
  destruct (ok (tx_db s.1)) eqn:Hok; [|done]. intros [= <-]. by apply HQ.
Qed.

Lemma cr_wp_update f Q (s : CrTx * Env) :
  (∀ now e, Q tt (mkCrTx (f now (tx_db s.1)) (tx_began s.1) (tx_state s.1), e)) →
  wpo (on_tx (λ q, sql_exec q (λ now db, Some (f now db)))) Q s.
Proof. intros HQ. apply cr_wp_exec. intros now db e [= <-]. apply HQ. Qed.

Lemma cr_wp_select_one {A} (f : DB → option A) Q (s : CrTx * Env) :
  (∀ r e, f (tx_db s.1) = Some r → Q r (mkCrTx (tx_db s.1) (tx_began s.1) (tx_state s.1), e)) →
  wpo (on_tx (λ q, select_one q f)) Q s.
Proof.
  intros HQ. apply cr_wp_on_tx. intros now a db e.
  destruct (f (tx_db s.1)) eqn:Hf; [|done]. intros [= <- <-]. by apply HQ.
Qed.

Lemma cr_wp_select_many {A} (f : DB → list A) Q (s : CrTx * Env) :
  (∀ e, Q (f (tx_db s.1)) (mkCrTx (tx_db s.1) (tx_began s.1) (tx_state s.1), e)) →
  wpo (on_tx (λ q, select_many q f)) Q s.
Proof. intros HQ. apply cr_wp_on_tx. intros now a db e [= <- <-]. apply HQ. Qed.

Lemma cr_wp_select_none {L : DecimalLaws D} {CL : CrdbEngineLaws D CE} {A} (f : DB → option A) Q (s : CrTx * Env) :
  (∀ e, Q (f (tx_db s.1)) (mkCrTx (tx_db s.1) (tx_began s.1) (tx_state s.1), e)) →
  wpo (no_rows_none (on_tx (λ q, select_one q f))) Q s.
Proof.
  destruct s as [[db began []] e]; intros HQ; unfold wp, no_rows_none, on_tx, select_one, statement; simpl in *; [|done|done].
  destruct (host_fault (e_db e)).
  - pose proof (pg_error_no_rows (e_db e)). by destruct (pg_error (e_db e)).
  - specialize (HQ (tick e)). by destruct (f db).
Qed.
End Rules.

(** Opens the amounts a statement stored: they are kept exactly. *)
Ltac kept Hdb :=
  repeat match type of Hdb with context [pg_numeric ?d] =>
    let Hn := fresh "Hkept" in destruct (pg_numeric d) eqn:Hn; simpl in Hdb; [apply numeric_exact in Hn|done] end.

(** Two abstract ledgers are equal field by field. *)
Ltac view_eq :=
  repeat autounfold with sql; unfold db_view; simpl;
  f_equal; rewrite ?fmap_app; try done.

Section Laws.
Context {H : Host} {D : DecimalOps} {L : DecimalLaws D} {CE : CrdbEngine D} {CL : CrdbEngineLaws D CE} {NE : NumericExact D CE}.
Implicit Types s : CrTx * Env.

Definition tx_view (t : CrTx) : LView := db_view (is_open t) (tx_db t).

Lemma cr_law_GetFlowByIdempotency t k s :
  wpo (cr_GetFlowByIdempotency t k) (λ r s',
    tx_view s'.1 = tx_view s.1 ∧ fview <$> r = lv_flow (tx_view s.1) t k) s.
Proof.
  apply wp_bind, cr_wp_select_none. intros e. apply wp_ret. split; [done|].
  simpl. by destruct (sel _ _).
Qed.

Lemma cr_law_GetAccount t id s :
  wpo (cr_GetAccount t id) (λ a s', tx_view s'.1 = tx_view s.1 ∧
    lv_acct (tx_view s.1) t id = Some (acc_view a) ∧ acc_ID a = id ∧ acc_TenantID a = t) s.
Proof.
  apply wp_bind, wp_no_rows_code, cr_wp_select_one. intros r e Hr. apply wp_ret. simpl.
  rewrite Hr. apply sel_some in Hr as [_ Hr]. by eqs.
Qed.

Lemma cr_bal_row_self t a c r : bal_row t a c r = true → (b_tenant_id r, b_account_id r, b_currency r) = (t, a, c).
Proof. unfold bal_row. intros Hr. eqs. congruence. Qed.

Lemma cr_sel_bal_app (k : BKey) l now :
  sel (bal_row k.1.1 k.1.2 k.2) l = None → ∀ k' : BKey,
  row_bal <$> sel (bal_row k'.1.1 k'.1.2 k'.2) (l ++ [mkAccountBalanceRow k.1.1 k.1.2 k.2 decimal_Zero decimal_Zero 0 now]) =
  if bool_decide (k' = k) then Some (0%Qc, 0%Qc) else row_bal <$> sel (bal_row k'.1.1 k'.1.2 k'.2) l.
Proof.
  intros Hn k'. rewrite sel_app. destruct k as [[t a] c], k' as [[t' a'] c']; simpl in *.
  case_bool_decide as Hk.
  - simplify_eq. rewrite Hn. unfold bal_row; simpl. rewrite !eqs_refl. simpl.
    unfold row_bal; simpl. by rewrite val_zero.
  - destruct (sel (bal_row t' a' c') l); [done|].
    destruct (bal_row t' a' c' _) eqn:E; [|done].
    apply cr_bal_row_self in E. simpl in E. congruence.
Qed.

Lemma cr_law_EnsureBalanceRow t a c s :
  wpo (cr_EnsureBalanceRow t a c) (λ _ s', tx_view s'.1 = lv_ensure (t, a, c) (tx_view s.1)) s.
Proof.
  apply cr_wp_exec. intros now db e Hdb. unfold tx_view, lv_ensure; simpl.
  destruct (any (bal_row t a c) _) eqn:Hany.
  - injection Hdb as <-. apply any_true in Hany as (r & Hr & Hb).
    destruct (sel (bal_row t a c) _) eqn:Hs; [done|]. simpl.
    by rewrite (sel_none _ _ _ Hs Hr) in Hb.
  - destruct (account_exists a (tx_db s.1)); [|done]. injection Hdb as <-.
    apply any_false_sel in Hany. rewrite Hany; simpl. view_eq.
    apply functional_extensionality. intros k'.
    exact (cr_sel_bal_app (t, a, c) (t_balances (tx_db s.1)) (Some now) Hany k').
Qed.

Lemma cr_law_LockBalance t a c s :
  wpo (cr_LockBalance t a c) (λ r s', tx_view s'.1 = lv_ensure (t, a, c) (tx_view s.1) ∧
    lv_balance (tx_view s.1) (t, a, c) = (val r.1.1, val r.1.2)) s.
Proof.
  apply wp_bind. eapply wp_mono; [apply cr_law_EnsureBalanceRow| |done].
  intros [] s' Hs'. apply wp_bind, cr_wp_select_one. intros r e Hr. apply wp_ret. split; [done|]. simpl.
  rewrite <- lv_balance_ensure, <- Hs'. unfold lv_balance, tx_view; simpl. by rewrite Hr.
Qed.

Lemma cr_law_UpdateBalance t a c d cr s :
  lv_bal (tx_view s.1) (t, a, c) ≠ None →
  wpo (cr_UpdateBalance t a c d cr) (λ _ s',
    tx_view s'.1 = lv_put_bal (t, a, c) (val d, val cr) (tx_view s.1)) s.
Proof.
  intros Hb. apply cr_wp_exec. intros now db e Hdb.
  destruct (any (bal_row t a c) _) eqn:Hany; [|by simpl in Hb; rewrite (any_false_sel _ _ Hany) in Hb].
  kept Hdb. injection Hdb as <-. unfold tx_view; simpl. view_eq.
  apply functional_extensionality. intros [[t' a'] c']; simpl.
  rewrite sel_upd by done. case_bool_decide as Hk.
  - simplify_eq. simpl in Hb. destruct (sel _ _) as [r|] eqn:Hr; [|done]; simpl.
    apply sel_some in Hr as [_ ->]. unfold row_bal; simpl. congruence.
  - destruct (sel (bal_row t' a' c') _) as [r|] eqn:Hr; [|done]; simpl.
    destruct (bal_row t a c r) eqn:Hr2; [|done]. apply sel_some in Hr as [_ Hr].
    apply cr_bal_row_self in Hr, Hr2. congruence.
Qed.

Lemma cr_law_InsertAccount a s :
  wpo (cr_InsertAccount a) (λ _ s', tx_view s'.1 = lv_add_acct a (tx_view s.1) ∧
    lv_acct (tx_view s.1) (acc_TenantID a) (acc_ID a) = None) s.
Proof.
  apply cr_wp_insert. intros now e Hok. eqs.
  assert (Hn : sel (λ r, (a_tenant_id r =s acc_TenantID a) && (a_id r =s acc_ID a)) (t_accounts (tx_db s.1)) = None)
    by fresh_key.
  split; [|by unfold tx_view; simpl; rewrite Hn].
  unfold tx_view. view_eq.
  match goal with |- context [_ ++ [?row]] =>
    rewrite (sel_app_fput a_tenant_id a_id (λ r, acc_view (rowToAccount r)) _ row) by done end.
  done.
Qed.

Lemma cr_law_InsertFlowRun f s :
  wpo (cr_InsertFlowRun f) (λ _ s',
    tx_view s'.1 = lv_add_flow (fr_TenantID f) (fr_IdempotencyKey f) (fr_ID f) (tx_view s.1) ∧
    lv_flow (tx_view s.1) (fr_TenantID f) (fr_IdempotencyKey f) = None) s.
Proof.
  apply cr_wp_insert. intros now e Hok. eqs.
  assert (Hn : sel (λ r, (f_tenant_id r =s fr_TenantID f) && (f_idempotency_key r =s fr_IdempotencyKey f))
                 (t_flows (tx_db s.1)) = None)
    by fresh_key.
  split; [|by unfold tx_view; simpl; rewrite Hn].
  unfold tx_view. view_eq.
  match goal with |- context [_ ++ [?row]] =>
    by rewrite (sel_app_fput f_tenant_id f_idempotency_key (λ r, (f_id r, f_status r)) _ row) end.
Qed.

Lemma cr_law_CompleteFlowRun t id s :
  wpo (cr_CompleteFlowRun t id) (λ _ s', tx_view s'.1 = lv_complete t id (tx_view s.1)) s.
Proof.
  apply cr_wp_update. intros now e. unfold tx_view. view_eq.
  extensionality t'. extensionality k'. rewrite sel_upd by done.
  destruct (sel _ _) as [r|] eqn:Hr; [|done]; simpl.
  apply sel_some in Hr as [_ Hr]. eqs. subst.
  rewrite (andb_comm (f_id r =s id)). by destruct (_ && _).
Qed.

Lemma cr_law_InsertJournal j s :
  wpo (cr_InsertJournal j) (λ _ s', tx_view s'.1 = lv_add_journal (jview j) (tx_view s.1)) s.
Proof.
  apply cr_wp_insert. intros now e _. unfold tx_view. view_eq.
  unfold row_journal, jview; simpl. by rewrite cr_deref_nullString.
Qed.

Lemma cr_law_InsertEntry t eid jid a c dir amt s :
  wpo (cr_InsertEntry t eid jid a c dir amt) (λ _ s',
    tx_view s'.1 = lv_add_entry (mkPEntry t jid a c dir (val amt)) (tx_view s.1)) s.
Proof.
  unfold cr_InsertEntry. destruct (parseUUID eid) as [uid|]; [|by apply wp_throw].
  apply cr_wp_exec. intros now db e Hdb. kept Hdb. case_match; [|done]. injection Hdb as <-.
  unfold tx_view. view_eq. unfold row_entry; simpl. congruence.
Qed.

Lemma cr_law_InsertFlowStep st s :
  wpo (cr_InsertFlowStep st) (λ _ s',
    tx_view s'.1 = lv_add_step (fs_TenantID st) (fs_FlowRunID st) (sview st) (tx_view s.1)) s.
Proof.
  apply cr_wp_insert. intros now e _. unfold tx_view. view_eq.
  extensionality t. extensionality f. rewrite (list.filter_app _ (t_steps (tx_db s.1))), fmap_app.
  destruct ((t =s fs_TenantID st) && (f =s fs_FlowRunID st)) eqn:E.
  - eqs. subst. f_equal. rewrite filter_cons_True by (simpl; by rewrite !eqs_refl). simpl.
    unfold row_step, sview; simpl. by rewrite !cr_deref_nullString.
  - rewrite (filter_cons_False _ (mkFlowStepRow _ _ _ _ _ _ _ _)); simpl; [by rewrite app_nil_r|].
    intros Hx. apply Is_true_true in Hx. eqs. subst. by rewrite !eqs_refl in E.
Qed.

Lemma cr_law_InsertOutbox o s :
  wpo (cr_InsertOutbox o) (λ _ s', tx_view s'.1 = lv_add_outbox (oview o) (tx_view s.1)) s.
Proof. apply cr_wp_insert. intros now e _. unfold tx_view. view_eq. Qed.

Lemma cr_law_GetFlowSteps t f s :
  wpo (cr_GetFlowSteps t f) (λ l s',
    tx_view s'.1 = tx_view s.1 ∧ sview <$> l ≡ₚ lv_steps (tx_view s.1) t f) s.
Proof.
  apply wp_bind, cr_wp_select_many. intros e. apply wp_ret. split; [done|].
  rewrite <- list_fmap_compose. simpl. apply fmap_Permutation, pg_order_by_perm.
Qed.

Lemma cr_law_InsertReservation r s :
  val (rs_CommittedAmount r) = 0%Qc → val (rs_ReleasedAmount r) = 0%Qc →
  wpo (cr_InsertReservation r) (λ _ s',
    tx_view s'.1 = lv_add_resv (rview r) (tx_view s.1) ∧
    lv_resv (tx_view s.1) (rs_TenantID r) (rs_ID r) = None ∧
    lv_resvk (tx_view s.1) (rs_TenantID r) (rs_IdempotencyKey r) = None) s.
Proof.
  intros Hc Hr. apply cr_wp_exec. intros now db e Hdb. kept Hdb. case_match eqn:Hok; [|done]. injection Hdb as <-. eqs.
  assert (Hn : sel (resv_row (rs_TenantID r) (rs_ID r)) (t_reservations (tx_db s.1)) = None) by (unfold resv_row; fresh_key).
  assert (Hk : sel (λ x, (v_tenant_id x =s rs_TenantID r) && (v_idempotency_key x =s rs_IdempotencyKey r))
                 (t_reservations (tx_db s.1)) = None)
    by fresh_key.
  split; [|by unfold tx_view; simpl; rewrite Hn, Hk].
  match goal with |- context [_ ++ [?row]] => assert (Hrow : rview r = row_resv row) end.
  { unfold row_resv, rview; simpl. rewrite val_zero, Hc, Hr. congruence. }
  unfold tx_view. view_eq; rewrite Hrow;
    match goal with |- context [_ ++ [?row]] =>
      first [exact (sel_app_fput v_tenant_id v_id row_resv _ row Hn)
            |exact (sel_app_fput v_tenant_id v_idempotency_key row_resv _ row Hk)] end.
Qed.

Lemma cr_law_LockReservation t id s :
  wpo (cr_LockReservation t id) (λ r s', tx_view s'.1 = tx_view s.1 ∧
    lv_resv (tx_view s.1) t id = Some (rview r) ∧ rs_ID r = id ∧ rs_TenantID r = t) s.
Proof.
  apply wp_bind, wp_no_rows_code, cr_wp_select_one. intros r e Hr. apply wp_ret.
  rewrite cr_rview_row. simpl. rewrite Hr. apply sel_some in Hr as [_ Hr]. unfold resv_row in Hr. by eqs.
Qed.

Lemma cr_law_GetReservationByIdempotency t k s :
  wpo (cr_GetReservationByIdempotency t k) (λ r s',
    tx_view s'.1 = tx_view s.1 ∧ rview <$> r = lv_resvk (tx_view s.1) t k) s.
Proof.
  apply wp_bind, cr_wp_select_none. intros e. apply wp_ret. split; [done|].
  simpl. destruct (sel _ _) as [r|]; [|done]. simpl. by rewrite cr_rview_row.
Qed.

Lemma cr_law_UpdateReservationAmounts t id o c r st s :
  lv_resv (tx_view s.1) t id ≠ None →
  wpo (cr_UpdateReservationAmounts t id o c r st) (λ _ s',
    tx_view s'.1 = lv_upd_resv t id (val o) (val c) (val r) st (tx_view s.1)) s.
Proof.
  intros Hv. apply cr_wp_exec. intros now db e Hdb.
  destruct (any (resv_row t id) _) eqn:Hany; [|by simpl in Hv; rewrite (any_false_sel _ _ Hany) in Hv].
  kept Hdb. case_match; [|done]. injection Hdb as <-. unfold tx_view. view_eq;
    extensionality t'; extensionality k'; rewrite sel_upd by done;
    destruct (sel _ _) as [x|]; [|done| |done]; simpl; f_equal;
    unfold rv_update, row_resv, resv_row; simpl;
    destruct ((v_tenant_id x =s t) && (v_id x =s id)); [|done| |done];
    unfold rv_amounts; simpl; congruence.
Qed.

#[export] Instance CrRepoTxLaws : RepoTxLaws D CrTx := {
  vw := tx_view;
  law_GetFlowByIdempotency := cr_law_GetFlowByIdempotency;
  law_GetAccount := cr_law_GetAccount;
  law_EnsureBalanceRow := cr_law_EnsureBalanceRow;
  law_LockBalance := cr_law_LockBalance;
  law_UpdateBalance := cr_law_UpdateBalance;
  law_InsertAccount := cr_law_InsertAccount;
  law_InsertFlowRun := cr_law_InsertFlowRun;
  law_CompleteFlowRun := cr_law_CompleteFlowRun;
  law_InsertJournal := cr_law_InsertJournal;
  law_InsertEntry := cr_law_InsertEntry;
  law_InsertFlowStep := cr_law_InsertFlowStep;
  law_InsertOutbox := cr_law_InsertOutbox;
  law_GetFlowSteps := cr_law_GetFlowSteps;
  law_InsertReservation := cr_law_InsertReservation;
  law_LockReservation := cr_law_LockReservation;
  law_GetReservationByIdempotency := cr_law_GetReservationByIdempotency;
  law_UpdateReservationAmounts := cr_law_UpdateReservationAmounts;
}.

End Laws.

Section StoreLaws.
Context {H : Host} {D : DecimalOps} {L : DecimalLaws D} {CE : CrdbEngine D} {CL : CrdbEngineLaws D CE} {NE : NumericExact D CE}.

Lemma cr_law_Begin (s : DB * Env) :
  wp cr_BeginFlowTx (λ t s', s'.1 = s.1 ∧ tx_view t = db_view true s.1 ∧ lv_open (db_view true s.1) = true) (λ _ s', s'.1 = s.1) s.
Proof. destruct s as [db e]. unfold wp, cr_BeginFlowTx. by destruct (host_fault _). Qed.

Lemma cr_law_Commit (s : (DB * CrTx) * Env) :
  lv_open (tx_view s.1.2) = true →
  wp cr_Commit (λ _ s', db_view true s'.1.1 = tx_view s.1.2) (λ _ s', s'.1.1 = s.1.1) s.
Proof.
  destruct s as [[db [tdb began []]] e]; [intros _|done|done].
  unfold wp, cr_Commit; simpl. by destruct (host_fault _).
Qed.

Lemma cr_law_Rollback (s : (DB * CrTx) * Env) :
  wp cr_Rollback (λ _ s', s'.1.1 = s.1.1) (λ _ s', s'.1.1 = s.1.1) s.
Proof.
  destruct s as [[db [tdb began []]] e]; unfold wp, cr_Rollback; simpl; [| |done]; by destruct (host_fault _).
Qed.

#[export] Instance CrRepoStoreLaws : RepoStoreLaws D DB CrTx := {
  svw := db_view true;
  law_Begin := cr_law_Begin;
  law_Commit := cr_law_Commit;
  law_Rollback := cr_law_Rollback;
}.
End StoreLaws.

(** ** The statements outside the abstract ledger *)

Section Frames.
Context {H : Host} {D : DecimalOps} {L : DecimalLaws D} {CE : CrdbEngine D} {CL : CrdbEngineLaws D CE} {NE : NumericExact D CE}.


(** A statement is a frame when what it gives has the view it was given. *)
Lemma cr_frame_statement {A} q (f : stamp → DB → result error (A * DB)) :
  (∀ now db a db' b, f now db = Ok (a, db') → db_view b db' = db_view b db) → view_frame db_view (statement q f).
Proof.
  intros Hf [db e] b. unfold statement. destruct (host_fault _); [done|].
  destruct (f _ db) as [[a db']|er] eqn:Hr; [by eapply Hf|done].
Qed.
Lemma cr_frame_exec q (f : stamp → DB → option DB) :
  (∀ now db db' b, f now db = Some db' → db_view b db' = db_view b db) → view_frame db_view (sql_exec q f).
Proof.
  intros Hf. apply cr_frame_statement. intros now db a db' b. destruct (f now db) eqn:E; [|done].
  intros [= <- <-]. by eapply Hf.
Qed.

(** A transaction statement that only touches framed tables. *)
Lemma cr_frame_on_tx {A} (m : DBTX → M error (DB * Env) A) : (∀ q, view_frame db_view (m q)) → tx_frame (on_tx m).
Proof.
  intros Hm [[db began []] e]; unfold wp, on_tx, vw, CrRepoTxLaws, tx_view; simpl; [|done|done].
  specialize (Hm (InTx began) (db, e) true). by destruct (m _ _) as [[a|[]] [db' e']].
Qed.
Lemma cr_frame_on_tx_none {A} (m : DBTX → M error (DB * Env) A) : (∀ q, view_frame db_view (m q)) → tx_frame (no_rows_none (on_tx m)).
Proof.
  intros Hm [[db began []] e]; unfold wp, no_rows_none, on_tx, vw, CrRepoTxLaws, tx_view; simpl; [|done|done].
  specialize (Hm (InTx began) (db, e) true). by destruct (m _ _) as [[a|[]] [db' e']].
Qed.

Lemma cr_st_frame_db {A} (m : M error (DB * Env) A) : view_frame db_view m → st_frame m.
Proof. intros Hm s. apply (Hm s true). Qed.
End Frames.

(** A statement that changes no table of the abstract ledger, or nothing of
    the outbox that the abstract ledger sees. *)
Ltac same_view Hf :=
  cbv zeta in Hf; repeat match type of Hf with context [pg_numeric ?d] => destruct (pg_numeric d); simpl in Hf end;
  repeat case_match; try done; first [injection Hf as <- <- | injection Hf as <-]; try done;
  unfold db_view; simpl; f_equal; unfold upd; rewrite <- list_fmap_compose;
  apply list_fmap_ext; intros ? ? _; unfold compose; by case_match.

(** Frames by the shape of the operation. *)
Ltac cr_frame :=
  repeat first
  [ apply cr_st_frame_db | apply tx_frame_bind; [|intros ?] | apply tx_frame_ret | apply cr_frame_on_tx_none; intros ?
  | apply tx_frame_code | apply cr_frame_on_tx; intros ? | apply frame_bind; [|intros ?] | apply frame_ret
  | apply frame_no_rows_none | apply frame_no_rows_code
  | let Hf := fresh in apply cr_frame_exec; intros ? ? ? ? Hf; same_view Hf
  | let Hf := fresh in apply cr_frame_statement; intros ? ? ? ? ? Hf; same_view Hf
  | match goal with |- view_frame db_view (match ?x with _ => _ end) => destruct x end ].

Section FrameLaws.
Context {H : Host} {D : DecimalOps} {L : DecimalLaws D} {CE : CrdbEngine D} {CL : CrdbEngineLaws D CE} {NE : NumericExact D CE}.

Lemma cr_st_GetAccount t id (s : DB * Env) :
  wpo (crs_GetAccount t id) (λ a _, lv_acct (db_view true s.1) t id = Some (acc_view a)) s.
Proof.
  destruct s as [db e]. unfold wp, crs_GetAccount, mbind, M_bind, no_rows_code, q_GetAccount, select_one, statement; simpl.
  destruct (host_fault _); [by destruct (pg_error _)|]. by destruct (sel _ _).
Qed.

Lemma cr_st_GetBalance t a c (s : DB * Env) :
  wpo (crs_GetBalance t a c) (λ r _, lv_balance (db_view true s.1) (t, a, c) = (val r.1.1, val r.1.2)) s.
Proof.
  destruct s as [db e].
  unfold wp, crs_GetBalance, mbind, M_bind, no_rows_none, q_GetBalance, select_one, statement, lv_balance; simpl.
  destruct (host_fault _).
  - pose proof (pg_error_no_rows (e_db e)). by destruct (pg_error _).
  - destruct (sel _ _) as [r|]; simpl; [done|by rewrite val_zero].
Qed.

#[export] Instance CrRepoFrameLaws : RepoFrameLaws D DB CrTx.
Proof.
  split; intros.
  all: try apply cr_st_GetAccount; try apply cr_st_GetBalance.
  all: cr_frame.
Qed.
End FrameLaws.

Section Unique.
Context {H : Host} {D : DecimalOps} {L : DecimalLaws D} {CE : CrdbEngine D} {CL : CrdbEngineLaws D CE} {NE : NumericExact D CE}.

#[export] Instance CrOutboxUnique : OutboxUnique D CrTx.
Proof.
  intros o s. apply cr_wp_insert. intros now e Hok. simpl.
  rewrite <- list_fmap_compose, list_elem_of_fmap. intros (r & Hr & Hin).
  repeat (apply andb_true_iff in Hok as [Hok ?]).
  repeat match goal with Hk : negb (any _ _) = true |- _ => apply negb_true_iff in Hk; rewrite any_false in Hk end.
  match goal with Hk : ∀ x, x ∈ _ → (o_idempotency_key x =s _) = false |- _ => specialize (Hk r Hin); eqs end.
  by destruct r.
Qed.
End Unique.
