(* ===== verification/CrdbExact.v ===== *)
(** * The CockroachDB backend: amounts with at most 18 fractional digits

    The contract of [CrdbLaws] holds of an engine that never rounds.  The real
    one rounds decimals of more than 18 fractional digits and keeps the
    others.  Here the service runs side by side on an engine and on the
    [strict_engine] engine that refuses what the first one would round: where the
    amounts of the requests have at most 18 fractional digits ([request_fits])
    the two runs are the same ([handle_agrees]), so that what holds of the
    strict engine holds of the real one. *)

From S2P Require Import Prelude Money Ledger Repo Contract Sql CrdbDb Crdb CrdbLaws Service Flow FlowLaws.
From S2P Require Import Books Accounts Reservations ReservationLaws Exchange Recon Worker System.
From stdpp Require Import base gmap strings list numbers.
From Stdlib Require Import Qcanon.

(** ** Numbers that fit *)

Lemma fits18_zero : fits18 0%Qc.
Proof. exists 0%Z. rewrite Z2Qc_inj_0. ring. Qed.
Lemma fits18_add x y : fits18 x → fits18 y → fits18 (x + y)%Qc.
Proof. intros [n Hn] [m Hm]. exists (n + m)%Z. rewrite Z2Qc_inj_add, <- Hn, <- Hm. ring. Qed.
Lemma fits18_sub x y : fits18 x → fits18 y → fits18 (x - y)%Qc.
Proof. intros [n Hn] [m Hm]. exists (n - m)%Z. rewrite Z2Qc_inj_sub, <- Hn, <- Hm. ring. Qed.

(** ** The strict engine *)

Section Strict.
Context {D : DecimalOps} {L : DecimalLaws D}.

(** Refuses a decimal the engine would not keep as it is. *)
Definition strict_engine (CE : CrdbEngine D) : CrdbEngine D := {|
  pg_order_by := @pg_order_by D CE;
  pg_numeric d := r ← pg_numeric d; if decide (val r = val d) then Some r else None;
  pg_timestamptz := @pg_timestamptz D CE;
  pg_time := @pg_time D CE;
  pg_error := @pg_error D CE;
|}.

Lemma strict_some (CE : CrdbEngine D) d r : pg_numeric (CrdbEngine:=strict_engine CE) d = Some r → pg_numeric d = Some r ∧ val r = val d.
Proof. simpl. destruct (pg_numeric d) as [x|]; simpl; [|done]. case_decide; [|done]. by intros [= <-]. Qed.

Lemma strict_exact (CE : CrdbEngine D) : NumericExact D (strict_engine CE).
Proof. by intros d r [_ Hr]%strict_some. Qed.

Lemma strict_laws (CE : CrdbEngine D) : CrdbEngineLaws D CE → CrdbEngineLaws D (strict_engine CE).
Proof.
  intros [Hperm Hsort Hfits Hexact Hmono Hkept Herr]. split; [exact Hperm|exact Hsort| | |exact Hmono|exact Hkept|exact Herr].
  - intros d r [Hr _]%strict_some. by eapply Hfits.
  - intros d r _ [_ Hr]%strict_some. done.
Qed.

Lemma strict_fits (CE : CrdbEngine D) `{!CrdbEngineLaws D CE} d : fits18 (val d) → pg_numeric (CrdbEngine:=strict_engine CE) d = pg_numeric d.
Proof.
  intros Hd. simpl. destruct (pg_numeric d) as [r|] eqn:Hr; simpl; [|done]. rewrite decide_True; [done|]. by apply pg_numeric_exact.
Qed.

(** ** Tables whose amounts fit *)

Record db_fits (db : DB) : Prop := {
  df_balances : Forall (λ r, fits18 (val (b_posted_debits r)) ∧ fits18 (val (b_posted_credits r))) (t_balances db);
  df_entries : Forall (λ r, fits18 (val (e_amount r))) (t_entries db);
  df_reservations : Forall (λ r, fits18 (val (v_outstanding_amount r)) ∧ fits18 (val (v_committed_amount r)) ∧
    fits18 (val (v_released_amount r))) (t_reservations db);
}.
Lemma db_empty_fits : db_fits db_empty.
Proof. by split. Qed.

Lemma sel_Forall {A} (P : A → Prop) (p : A → bool) l x : Forall P l → sel p l = Some x → P x.
Proof. intros Hl [Hx _]%sel_some. rewrite list.Forall_forall in Hl. by apply Hl. Qed.
End Strict.

(** ** Two runs side by side *)

Section Agree.
Context {H : Host} {X : Type} (fits : X → Prop).
Abbreviation MX A := (M error (X * Env) A).

(** From a state that fits both runs do the same, and leave a state that
    fits and a value of [P]. *)
Definition agree {A} (P : A → Prop) (m m' : MX A) : Prop :=
  ∀ s, fits s.1 → m' s = m s ∧ wp m (λ a s', fits s'.1 ∧ P a) (λ _ s', fits s'.1) s.

Lemma agree_mono {A} (P Q : A → Prop) (m m' : MX A) : agree P m m' → (∀ a, P a → Q a) → agree Q m m'.
Proof. intros Hm HPQ s Hs. destruct (Hm s Hs) as [E Hw]. split; [done|]. eapply wp_mono; [exact Hw| |done]. naive_solver. Qed.
Lemma agree_ret {A} (P : A → Prop) (a : A) : P a → agree P (mret a) (mret a).
Proof. by intros Ha s Hs. Qed.
Lemma agree_throw {A} (P : A → Prop) e : agree P (throw e) (throw e).
Proof. by intros s Hs. Qed.
Lemma agree_throw_if c e : agree (λ _, True) (throw_if c e) (throw_if c e).
Proof. destruct c; [apply agree_throw|by apply agree_ret]. Qed.
Lemma agree_lift {A} (P : A → Prop) (r : result error A) : (∀ a, r = Ok a → P a) → agree P (lift_result r) (lift_result r).
Proof. intros Hr s Hs. split; [done|]. destruct r; [by split; [|apply Hr]|done]. Qed.
Lemma agree_bind {A B} (P : A → Prop) (Q : B → Prop) (m m' : MX A) (f f' : A → MX B) :
  agree P m m' → (∀ a, P a → agree Q (f a) (f' a)) → agree Q (m ≫= f) (m' ≫= f').
Proof.
  intros Hm Hf s Hs. destruct (Hm s Hs) as [E Hw]. unfold mbind, M_bind, wp in *. rewrite E.
  destruct (m s) as [[a|e] s1]; [|done]. destruct Hw as [Hs1 Ha]. by apply Hf.
Qed.
Lemma agree_foldM {A B} (I : B → Prop) (P : A → Prop) (f f' : B → A → MX B) l b :
  (∀ b x, I b → P x → agree I (f b x) (f' b x)) → Forall P l → I b → agree I (foldM f l b) (foldM f' l b).
Proof.
  intros Hf Hl. revert b. induction Hl as [|x l Hx _ IH]; intros b Hb; simpl; [by apply agree_ret|].
  eapply agree_bind; [by apply Hf|]. intros b' Hb'. by apply IH.
Qed.
Lemma agree_NewID : agree (λ _, True) NewID NewID.
Proof. by intros [x e] Hs. Qed.
Lemma agree_Now : agree (λ _, True) Now Now.
Proof. by intros [x e] Hs. Qed.
End Agree.

(** ** Statements *)

Section Statements.
Context {H : Host} {D : DecimalOps} {L : DecimalLaws D} {CE : CrdbEngine D} {CL : CrdbEngineLaws D CE}.
Abbreviation agrees := (agree db_fits).
Definition tx_fits (t : CrTx) : Prop := db_fits (tx_db t).
Abbreviation agrees_tx := (agree tx_fits).

Lemma agree_statement {A} (P : A → Prop) q (f f' : stamp → DB → result error (A * DB)) :
  (∀ now db, db_fits db → f' now db = f now db) →
  (∀ now db a db', db_fits db → f now db = Ok (a, db') → db_fits db' ∧ P a) →
  agrees P (statement (CE:=CE) q f) (statement (CE:=strict_engine CE) q f').
Proof.
  intros Hf HP [db e] Hs. unfold statement, wp. cbn [fst] in Hs. destruct (host_fault _); [done|].
  rewrite Hf by done.
  destruct (f _ db) as [[a db']|er] eqn:E; [|done]. split; [done|]. by eapply HP.
Qed.
Lemma agree_exec q (f f' : stamp → DB → option DB) :
  (∀ now db, db_fits db → f' now db = f now db) → (∀ now db db', db_fits db → f now db = Some db' → db_fits db') →
  agrees (λ _, True) (sql_exec (CE:=CE) q f) (sql_exec (CE:=strict_engine CE) q f').
Proof.
  intros Hf HP. apply agree_statement; [intros now db Hs; by rewrite Hf|]. intros now db a db' Hs.
  destruct (f now db) eqn:E; [|done]. intros [= <- <-]. split; [by eapply HP|done].
Qed.
Lemma agree_select_one {A} (P : A → Prop) q (f : DB → option A) :
  (∀ db a, db_fits db → f db = Some a → P a) → agrees P (select_one (CE:=CE) q f) (select_one (CE:=strict_engine CE) q f).
Proof.
  intros HP. apply agree_statement; [done|]. intros now db a db' Hs. destruct (f db) eqn:E; [|done].
  intros [= <- <-]. split; [done|by eapply HP].
Qed.
Lemma agree_select_many {A} (P : list A → Prop) q (f : DB → list A) :
  (∀ db, db_fits db → P (f db)) → agrees P (select_many (CE:=CE) q f) (select_many (CE:=strict_engine CE) q f).
Proof. intros HP. apply agree_statement; [done|]. intros now db a db' Hs [= <- <-]. split; [done|by apply HP]. Qed.
Lemma agree_select_limit {A} q n (f : DB → list A) :
  agrees (λ _, True) (select_limit (CE:=CE) q n f) (select_limit (CE:=strict_engine CE) q n f).
Proof. apply agree_statement; [done|]. intros now db a db' Hs. case_match; [done|]. by intros [= <- <-]. Qed.

Lemma agree_no_rows_none {X A} (fits : X → Prop) (P : A → Prop) (m m' : M error (X * Env) A) :
  agree fits P m m' → agree fits (λ o, ∀ a, o = Some a → P a) (no_rows_none m) (no_rows_none m').
Proof.
  intros Hm s Hs. destruct (Hm s Hs) as [E Hw]. unfold no_rows_none, wp in *. rewrite E.
  destruct (m s) as [[a|er] s']; [|by destruct er]. destruct Hw. split; [done|]. split; [done|]. by intros ? [= <-].
Qed.
Lemma agree_no_rows_code {X A} (fits : X → Prop) (P : A → Prop) c (m m' : M error (X * Env) A) :
  agree fits P m m' → agree fits P (no_rows_code c m) (no_rows_code c m').
Proof.
  intros Hm s Hs. destruct (Hm s Hs) as [E Hw]. unfold no_rows_code, wp in *. rewrite E. by destruct (m s) as [[a|[]] s'].
Qed.
Lemma agree_on_tx {A} (P : A → Prop) (m m' : DBTX → M error (DB * Env) A) :
  (∀ q, agrees P (m q) (m' q)) → agrees_tx P (on_tx m) (on_tx m').
Proof.
  intros Hm [[db began st] e] Hs. unfold on_tx, wp, tx_fits in *. cbn [fst tx_db tx_state tx_began] in *.
  destruct st; [|done|done]. destruct (Hm (InTx began) (db, e) Hs) as [E Hw]. rewrite E. split; [done|]. unfold wp in Hw.
  by destruct (m _ _) as [[a|[]] [db' e']].
Qed.
End Statements.

(** ** The statements that store amounts *)

(** What a statement that changes no amount leaves. *)
Ltac still_fits :=
  let Hs := fresh "Hs" in let Hf := fresh "Hf" in
  intros ? ? ? Hs Hf; repeat case_match; simplify_eq; destruct Hs as [? ? ?]; split; simpl; try done;
  try (apply Forall_upd; [done|by intros ?]);
  try (apply list.Forall_app; split; [done|apply Forall_singleton]; simpl; rewrite ?val_zero; auto using fits18_zero).

Section Amounts.
Context {H : Host} {D : DecimalOps} {L : DecimalLaws D} {CE : CrdbEngine D} {CL : CrdbEngineLaws D CE}.
Abbreviation agrees := (agree db_fits).
Abbreviation fit d := (fits18 (val d)).

Lemma strict_bind {B} (f f' : dec → option B) d :
  fit d → (∀ r, f' r = f r) → (pg_numeric (CrdbEngine:=strict_engine CE) d ≫= f') = (pg_numeric (CrdbEngine:=CE) d ≫= f).
Proof. intros Hd Hf. rewrite strict_fits by done. by destruct (pg_numeric d); simpl. Qed.

Ltac kept_fit := match goal with Hn : pg_numeric ?d = Some ?r |- fits18 (val ?r) => by apply (pg_numeric_fits d r) end.

Lemma agree_UpdateBalance q (t a c : string) (d k : dec) :
  fit d → fit k → agrees (λ _, True) (q_UpdateBalance (CE:=CE) q t a c d k) (q_UpdateBalance (CE:=strict_engine CE) q t a c d k).
Proof.
  intros Hd Hk. apply agree_exec.
  - intros now db Hs. case_match; [|done]. apply strict_bind; [done|]. intros r. by apply strict_bind.
  - intros now db db' Hs. case_match; [|by intros [= <-]].
    destruct (pg_numeric d) as [d'|] eqn:Ed; [|done]. destruct (pg_numeric k) as [k'|] eqn:Ek; [|done]. simpl. intros [= <-].
    destruct Hs as [Hb He Hr]. split; simpl; [|done..]. apply Forall_upd; [done|]. simpl. intros _ _. split; kept_fit.
Qed.

Lemma agree_InsertEntry q (id : UUID) (t j a c dir : string) (n : dec) :
  fit n → agrees (λ _, True) (q_InsertEntry (CE:=CE) q id t j a c dir n) (q_InsertEntry (CE:=strict_engine CE) q id t j a c dir n).
Proof.
  intros Hn. apply agree_exec; [intros now db Hs; by apply strict_bind|].
  intros now db db' Hs. destruct (pg_numeric n) as [n'|] eqn:En; [|done]. simpl. case_match; [|done]. intros [= <-].
  destruct Hs as [Hb He Hr]. split; simpl; [done| |done]. apply list.Forall_app. split; [done|]. apply Forall_singleton. simpl. kept_fit.
Qed.

Lemma agree_InsertReservation q (id t key src dst c : string) (o u : dec) (st : string) ex (f : string) (meta : Meta) :
  fit o → fit u → agrees (λ _, True) (q_InsertReservation (CE:=CE) q id t key src dst c o u st ex f meta)
    (q_InsertReservation (CE:=strict_engine CE) q id t key src dst c o u st ex f meta).
Proof.
  intros Ho Hu. apply agree_exec; [intros now db Hs; apply strict_bind; [done|]; intros r; by apply strict_bind|].
  intros now db db' Hs. destruct (pg_numeric o) as [o'|] eqn:Eo; [|done]. destruct (pg_numeric u) as [u'|] eqn:Eu; [|done].
  simpl. case_match; [|done]. intros [= <-]. destruct Hs as [Hb He Hr]. split; simpl; [done..|].
  apply list.Forall_app. split; [done|]. apply Forall_singleton. simpl. rewrite val_zero. split; [kept_fit|]. auto using fits18_zero.
Qed.

Lemma agree_UpdateReservationAmounts q (o c l : dec) (st t id : string) :
  fit o → fit c → fit l → agrees (λ _, True) (q_UpdateReservationAmounts (CE:=CE) q o c l st t id)
    (q_UpdateReservationAmounts (CE:=strict_engine CE) q o c l st t id).
Proof.
  intros Ho Hc Hl. apply agree_exec.
  - intros now db Hs. case_match; [|done]. apply strict_bind; [done|]. intros o'. apply strict_bind; [done|]. intros c'. by apply strict_bind.
  - intros now db db' Hs. case_match; [|by intros [= <-]]. destruct (pg_numeric o) as [o'|] eqn:Eo; [|done].
    destruct (pg_numeric c) as [c'|] eqn:Ec; [|done]. destruct (pg_numeric l) as [l'|] eqn:El; [|done]. simpl.
    case_match; [|done]. intros [= <-]. destruct Hs as [Hb He Hr]. split; simpl; [done..|].
    apply Forall_upd; [done|]. simpl. intros _ _. split_and!; kept_fit.
Qed.

Lemma agree_InsertSnapshot q (id t a c : string) (d k : dec) (v : Z) (at_ : Timestamptz) :
  fit d → fit k → agrees (λ _, True) (q_InsertSnapshot (CE:=CE) q id t a c d k v at_) (q_InsertSnapshot (CE:=strict_engine CE) q id t a c d k v at_).
Proof.
  intros Hd Hk. apply agree_exec; [intros now db Hs; apply strict_bind; [done|]; intros r; by apply strict_bind|].
  intros now db db' Hs. destruct (pg_numeric d) as [d'|]; [|done]. destruct (pg_numeric k) as [k'|]; [|done]. simpl.
  case_match; [|done]. intros [= <-]. by destruct Hs.
Qed.

Lemma agree_UpsertFXRate q (id t b qt : string) (rate : dec) (src : string) (eff : Timestamptz) :
  fit rate → agrees (λ _, True) (q_UpsertFXRate (CE:=CE) q id t b qt rate src eff) (q_UpsertFXRate (CE:=strict_engine CE) q id t b qt rate src eff).
Proof.
  intros Hr. apply agree_statement; [intros now db Hs; by rewrite strict_fits|].
  intros now db a db' Hs. repeat case_match; try done; intros [= <- <-]; by destruct Hs.
Qed.

Lemma agree_InsertExternalRecord q (id t src ref : string) (n : dec) (c : string) (occ : Timestamptz) (acc : option string) (pl : Meta) :
  fit n → agrees (λ _, True) (q_InsertExternalRecord (CE:=CE) q id t src ref n c occ acc pl)
    (q_InsertExternalRecord (CE:=strict_engine CE) q id t src ref n c occ acc pl).
Proof.
  intros Hn. apply agree_statement; [intros now db Hs; by rewrite strict_fits|].
  intros now db a db' Hs. repeat case_match; try done; intros [= <- <-]; by destruct Hs.
Qed.

Lemma Forall_filter_keep {A} (P : A → Prop) (p : A → bool) l : Forall P l → Forall P (filter (λ r, p r) l).
Proof. intros Hl. apply list.Forall_forall. intros x [_ Hx]%list_elem_of_filter. rewrite list.Forall_forall in Hl. by apply Hl. Qed.

(** A sum of entries fits. *)
Lemma sum_entries_fits (p : LedgerEntryRow → bool) l :
  Forall (λ r, fit (e_amount r)) l → fit (foldr (λ r acc, dAdd (e_amount r) acc) decimal_Zero (filter p l)).
Proof.
  induction 1 as [|r l Hr _ IH]; simpl; [rewrite val_zero; apply fits18_zero|]. rewrite filter_cons.
  case_decide; simpl; [|done]. rewrite val_add. by apply fits18_add.
Qed.
Lemma agree_select_sums q (p : LedgerEntryRow → bool) :
  agrees (λ _, True) (select_sums (CE:=CE) q p) (select_sums (CE:=strict_engine CE) q p).
Proof.
  apply agree_statement.
  - intros now db [_ He _].
    assert (Hsum : ∀ dir, sum_rows (CE:=strict_engine CE) dir (filter (λ r, p r) (t_entries db)) =
      sum_rows (CE:=CE) dir (filter (λ r, p r) (t_entries db))).
    { intros dir. apply (strict_fits CE). apply sum_entries_fits. by apply Forall_filter_keep. }
    cbv zeta. by rewrite !Hsum.
  - intros now db a db' Hs. cbv zeta. destruct (sum_rows "DEBIT" _); [|done]. destruct (sum_rows "CREDIT" _); [|done].
    by intros [= _ <-].
Qed.
End Amounts.

(** ** The operations of a transaction *)

Ltac row_step :=
  first
  [ apply agree_on_tx; intros ?
  | apply (agree_no_rows_none _ (λ _, True)) | apply (agree_no_rows_code _ (λ _, True))
  | apply (agree_select_one (λ _, True)); done | apply (agree_select_many (λ _, True)); done
  | apply agree_select_limit | apply agree_select_sums | apply agree_exec; [done|still_fits]
  | by apply agree_ret | apply agree_throw | eapply agree_bind; [|intros ? ?]
  | match goal with |- agree _ _ (match ?x with _ => _ end) _ => destruct x end ].

Section TxOps.
Context {H : Host} {D : DecimalOps} {L : DecimalLaws D} {CE : CrdbEngine D} {CL : CrdbEngineLaws D CE}.
Abbreviation RT := (CrRepoTx (CE:=CE)).
Abbreviation RT' := (CrRepoTx (CE:=strict_engine CE)).
Abbreviation fit d := (fits18 (val d)).
Abbreviation sames m m' := (agree tx_fits (λ _, True) m m').

Definition resv_fits (r : Reservation) : Prop :=
  fit (rs_OutstandingAmount r) ∧ fit (rs_CommittedAmount r) ∧ fit (rs_ReleasedAmount r).

Lemma agree_GetFlowByIdempotency t k : sames (tx_GetFlowByIdempotency (RepoTx:=RT) t k) (tx_GetFlowByIdempotency (RepoTx:=RT') t k).
Proof. simpl. unfold cr_GetFlowByIdempotency, q_GetFlowByIdempotency. repeat row_step. Qed.
Lemma agree_GetAccount t i : sames (tx_GetAccount (RepoTx:=RT) t i) (tx_GetAccount (RepoTx:=RT') t i).
Proof. simpl. unfold cr_GetAccount, q_GetAccount. repeat row_step. Qed.
Lemma agree_EnsureBalanceRow t a c : sames (tx_EnsureBalanceRow (RepoTx:=RT) t a c) (tx_EnsureBalanceRow (RepoTx:=RT') t a c).
Proof. simpl. unfold cr_EnsureBalanceRow, q_UpsertBalanceZero. repeat row_step. Qed.
Lemma agree_LockBalance t a c :
  agree tx_fits (λ x, fit x.1.1 ∧ fit x.1.2) (tx_LockBalance (RepoTx:=RT) t a c) (tx_LockBalance (RepoTx:=RT') t a c).
Proof.
  simpl. unfold cr_LockBalance. eapply agree_bind; [apply agree_EnsureBalanceRow|intros _ _].
  eapply (agree_bind _ (λ r, fit (b_posted_debits r) ∧ fit (b_posted_credits r))); [|intros r Hr; by apply agree_ret].
  apply agree_on_tx. intros q. apply agree_select_one. intros db r Hs.
  apply (sel_Forall (λ r, fit (b_posted_debits r) ∧ fit (b_posted_credits r))). apply Hs.
Qed.
Lemma agree_tx_UpdateBalance t a c d k :
  fit d → fit k → sames (tx_UpdateBalance (RepoTx:=RT) t a c d k) (tx_UpdateBalance (RepoTx:=RT') t a c d k).
Proof. intros. apply agree_on_tx. intros q. by apply agree_UpdateBalance. Qed.
Lemma agree_InsertAccount a : sames (tx_InsertAccount (RepoTx:=RT) a) (tx_InsertAccount (RepoTx:=RT') a).
Proof. simpl. unfold cr_InsertAccount, q_InsertAccount. repeat row_step. Qed.
Lemma agree_InsertFlowRun f : sames (tx_InsertFlowRun (RepoTx:=RT) f) (tx_InsertFlowRun (RepoTx:=RT') f).
Proof. simpl. unfold cr_InsertFlowRun, q_InsertFlowRun. repeat row_step. Qed.
Lemma agree_CompleteFlowRun t i : sames (tx_CompleteFlowRun (RepoTx:=RT) t i) (tx_CompleteFlowRun (RepoTx:=RT') t i).
Proof. simpl. unfold cr_CompleteFlowRun, q_CompleteFlowRun. repeat row_step. Qed.
Lemma agree_InsertJournal j : sames (tx_InsertJournal (RepoTx:=RT) j) (tx_InsertJournal (RepoTx:=RT') j).
Proof. simpl. unfold cr_InsertJournal, q_InsertJournal. repeat row_step. Qed.
Lemma agree_tx_InsertEntry t i j a c dir n :
  fit n → sames (tx_InsertEntry (RepoTx:=RT) t i j a c dir n) (tx_InsertEntry (RepoTx:=RT') t i j a c dir n).
Proof.
  intros Hn. simpl. unfold cr_InsertEntry. destruct (parseUUID i); [|apply agree_throw].
  apply agree_on_tx. intros q. by apply agree_InsertEntry.
Qed.
Lemma agree_InsertFlowStep f : sames (tx_InsertFlowStep (RepoTx:=RT) f) (tx_InsertFlowStep (RepoTx:=RT') f).
Proof. simpl. unfold cr_InsertFlowStep, q_InsertFlowStep. repeat row_step. Qed.
Lemma agree_InsertOutbox o : sames (tx_InsertOutbox (RepoTx:=RT) o) (tx_InsertOutbox (RepoTx:=RT') o).
Proof. simpl. unfold cr_InsertOutbox, q_InsertOutbox. repeat row_step. Qed.
Lemma agree_GetFlowSteps t i : sames (tx_GetFlowSteps (RepoTx:=RT) t i) (tx_GetFlowSteps (RepoTx:=RT') t i).
Proof. simpl. unfold cr_GetFlowSteps, q_GetFlowSteps. repeat row_step. Qed.
Lemma agree_tx_InsertReservation r :
  fit (rs_OriginalAmount r) → fit (rs_OutstandingAmount r) →
  sames (tx_InsertReservation (RepoTx:=RT) r) (tx_InsertReservation (RepoTx:=RT') r).
Proof. intros. apply agree_on_tx. intros q. by apply agree_InsertReservation. Qed.
Lemma agree_LockReservation t i :
  agree tx_fits resv_fits (tx_LockReservation (RepoTx:=RT) t i) (tx_LockReservation (RepoTx:=RT') t i).
Proof.
  simpl. unfold cr_LockReservation.
  eapply (agree_bind _ (λ r, resv_fits (rowToReservation (CE:=CE) r))); [|intros r Hr; by apply agree_ret].
  apply agree_no_rows_code, agree_on_tx. intros q. apply agree_select_one. intros db r Hs.
  apply (sel_Forall (λ r, resv_fits (rowToReservation (CE:=CE) r))). apply Hs.
Qed.
Lemma agree_GetReservationByIdempotency t k :
  sames (tx_GetReservationByIdempotency (RepoTx:=RT) t k) (tx_GetReservationByIdempotency (RepoTx:=RT') t k).
Proof. simpl. unfold cr_GetReservationByIdempotency, q_GetReservationByIdempotency. repeat row_step. Qed.
Lemma agree_tx_UpdateReservationAmounts t i o c l st :
  fit o → fit c → fit l →
  sames (tx_UpdateReservationAmounts (RepoTx:=RT) t i o c l st) (tx_UpdateReservationAmounts (RepoTx:=RT') t i o c l st).
Proof. intros. apply agree_on_tx. intros q. by apply agree_UpdateReservationAmounts. Qed.
Lemma agree_GetReconBatchByIdempotency t k :
  sames (tx_GetReconBatchByIdempotency (RepoTx:=RT) t k) (tx_GetReconBatchByIdempotency (RepoTx:=RT') t k).
Proof. simpl. unfold cr_GetReconBatchByIdempotency, q_GetReconBatchByIdempotency. repeat row_step. Qed.
Lemma agree_InsertReconBatch b : sames (tx_InsertReconBatch (RepoTx:=RT) b) (tx_InsertReconBatch (RepoTx:=RT') b).
Proof. simpl. unfold cr_InsertReconBatch, q_InsertReconBatch. repeat row_step. Qed.
Lemma agree_CompleteReconBatch b : sames (tx_CompleteReconBatch (RepoTx:=RT) b) (tx_CompleteReconBatch (RepoTx:=RT') b).
Proof. simpl. unfold cr_CompleteReconBatch, q_CompleteReconBatch. repeat row_step. Qed.
Lemma agree_ListExternalRecordsForRecon t src ws we :
  sames (tx_ListExternalRecordsForRecon (RepoTx:=RT) t src ws we) (tx_ListExternalRecordsForRecon (RepoTx:=RT') t src ws we).
Proof. simpl. unfold cr_ListExternalRecordsForRecon, q_ListExternalRecordsForRecon. repeat row_step. Qed.
Lemma agree_ListJournalsForRecon t src ws we :
  sames (tx_ListJournalsForRecon (RepoTx:=RT) t src ws we) (tx_ListJournalsForRecon (RepoTx:=RT') t src ws we).
Proof. simpl. unfold cr_ListJournalsForRecon, q_ListJournalsForRecon. repeat row_step. Qed.
Lemma agree_UpdateExternalRecordMatch t i st j :
  sames (tx_UpdateExternalRecordMatch (RepoTx:=RT) t i st j) (tx_UpdateExternalRecordMatch (RepoTx:=RT') t i st j).
Proof. simpl. unfold cr_UpdateExternalRecordMatch, q_UpdateExternalRecordMatch. repeat row_step. Qed.
Lemma agree_SumJournalEntries t j a c :
  sames (tx_SumJournalEntries (RepoTx:=RT) t j a c) (tx_SumJournalEntries (RepoTx:=RT') t j a c).
Proof. simpl. unfold cr_SumJournalEntries, q_SumJournalEntries. repeat row_step. Qed.
Lemma agree_InsertDiscrepancy d : sames (tx_InsertDiscrepancy (RepoTx:=RT) d) (tx_InsertDiscrepancy (RepoTx:=RT') d).
Proof. simpl. unfold cr_InsertDiscrepancy, q_InsertDiscrepancy. repeat row_step. Qed.
Lemma agree_LockDiscrepancy t i : sames (tx_LockDiscrepancy (RepoTx:=RT) t i) (tx_LockDiscrepancy (RepoTx:=RT') t i).
Proof. simpl. unfold cr_LockDiscrepancy, q_LockDiscrepancy. repeat row_step. Qed.
Lemma agree_ResolveDiscrepancyRow d : sames (tx_ResolveDiscrepancyRow (RepoTx:=RT) d) (tx_ResolveDiscrepancyRow (RepoTx:=RT') d).
Proof. simpl. unfold cr_ResolveDiscrepancyRow, q_ResolveDiscrepancyRow. repeat row_step. Qed.
End TxOps.

Create HintDb agree.
#[export] Hint Resolve agree_throw agree_throw_if agree_NewID agree_Now agree_GetFlowByIdempotency agree_GetAccount
  agree_EnsureBalanceRow agree_tx_UpdateBalance agree_InsertAccount agree_InsertFlowRun agree_CompleteFlowRun
  agree_InsertJournal agree_tx_InsertEntry agree_InsertFlowStep agree_InsertOutbox agree_GetFlowSteps
  agree_tx_InsertReservation agree_LockReservation agree_GetReservationByIdempotency agree_tx_UpdateReservationAmounts
  agree_GetReconBatchByIdempotency agree_InsertReconBatch agree_CompleteReconBatch agree_ListExternalRecordsForRecon
  agree_ListJournalsForRecon agree_UpdateExternalRecordMatch agree_SumJournalEntries agree_InsertDiscrepancy
  agree_LockDiscrepancy agree_ResolveDiscrepancyRow fits18_add fits18_sub fits18_zero : agree.

(** Walks two bodies side by side. *)
Ltac agree_step :=
  first
  [ solve [eauto 3 with agree nocore] | by apply agree_ret
  | apply (agree_bind _ (λ _, True)); [|intros ? _]
  | match goal with |- agree _ _ (let '(_, _) := ?x in _) _ => destruct x end
  | match goal with |- agree _ _ (match ?x with _ => _ end) _ => destruct x eqn:? end ].

(** ** Flows *)

Section Flows.
Context {H : Host} {D : DecimalOps} {L : DecimalLaws D} {CE : CrdbEngine D} {CL : CrdbEngineLaws D CE}.
Abbreviation RT := (CrRepoTx (CE:=CE)).
Abbreviation RT' := (CrRepoTx (CE:=strict_engine CE)).
Abbreviation fit d := (fits18 (val d)).

(** An amount in a request, where it is one. *)
Definition text_fits (s : string) : Prop := ∀ d, NewFromString s = Some d → fit d.
Definition pbstep_fits (s : PbStep) : Prop := Forall (λ e, text_fits (ent_Amount e)) (GetEntries (st_Journal s)).
Definition flow_fits (r : ExecuteFlowRequest) : Prop := Forall pbstep_fits (ef_Steps r).
Definition entry_fits (e : Entry) : Prop := fit (en_Amount e).
Definition step_fits (st : StepInput) : Prop := Forall entry_fits (step_entries st).
Definition bal_fits (m : gmap key balState) : Prop := map_Forall (λ _ b, fit (bal_debits b) ∧ fit (bal_credits b)) m.

Lemma text_fits_String d : fit d → text_fits (dString d).
Proof. intros Hd b Hb. destruct (String_roundtrip d) as (b' & Hb' & Hv). rewrite Hb' in Hb. injection Hb as <-. by rewrite Hv. Qed.
Lemma ParseAmount_fits s a : text_fits s → ParseAmount s = Ok a → fit a.
Proof. intros Hs [Ha _]%ParseAmount_pos. by apply Hs. Qed.

Lemma foldR_Forall {A B} (P : A → Prop) (I : B → Prop) (f : B → A → result error B) l b r :
  (∀ b x b', I b → P x → f b x = Ok b' → I b') → Forall P l → I b → foldR f l b = Ok r → I r.
Proof.
  intros Hf Hl. revert b. induction Hl as [|x l Hx _ IH]; intros b Hb; simpl; [by intros [= <-]|].
  destruct (f b x) as [b'|] eqn:E; simpl; [|done]. apply IH. by eapply Hf.
Qed.

Lemma stepsFromProto_fits l steps : Forall pbstep_fits l → stepsFromProto l = Ok steps → Forall step_fits steps.
Proof.
  intros Hl. apply (foldR_Forall pbstep_fits); [|done|by constructor]. intros acc s acc' Hacc Hs. unfold stepFromProto.
  destruct (foldR _ _ _) as [es|] eqn:E; [|done]. intros [= <-]. apply list.Forall_app. split; [done|]. apply Forall_singleton.
  unfold step_fits, step_entries. simpl. revert E.
  apply (foldR_Forall (λ e, text_fits (ent_Amount e))); [|done|by constructor]. clear. intros es e es' Hes He. unfold entryFromProto.
  destruct (ParseAmount _) as [a|] eqn:Ea; [|done]. intros [= <-]. apply list.Forall_app. split; [done|]. apply Forall_singleton.
  by eapply ParseAmount_fits.
Qed.

Lemma bal_fits_bump m k dir n b : bal_fits m → m !! k = Some b → fit n → bal_fits (<[k := bumpBalance dir n b]> m).
Proof.
  intros Hm Hb Hn. destruct (Hm k b Hb) as [Hd Hc]. apply map_Forall_insert_2; [|done].
  unfold bumpBalance. destruct (dir =s DirectionDebit); simpl; rewrite val_add; auto using fits18_add.
Qed.

Lemma agree_lockKey t m k : bal_fits m → agree tx_fits bal_fits (lockKey (R:=RT) t m k) (lockKey (R:=RT') t m k).
Proof.
  intros Hm. unfold lockKey. do 3 (eapply agree_bind; [auto with agree|intros ? _]).
  eapply agree_bind; [apply agree_LockBalance|]. intros [[d c] v] Hdc. apply agree_ret. by apply map_Forall_insert_2.
Qed.
Lemma agree_postEntry t j m e :
  bal_fits m → entry_fits e → agree tx_fits bal_fits (postEntry (R:=RT) t j m e) (postEntry (R:=RT') t j m e).
Proof.
  intros Hm He. unfold postEntry. eapply agree_bind; [apply agree_NewID|intros i _].
  eapply agree_bind; [by apply agree_tx_InsertEntry|intros _ _]. destruct (m !! _) eqn:E; [|apply agree_throw].
  apply agree_ret. by apply bal_fits_bump.
Qed.
Lemma agree_settleKey t m k : bal_fits m → agree tx_fits (λ _, True) (settleKey (R:=RT) t m tt k) (settleKey (R:=RT') t m tt k).
Proof.
  intros Hm. unfold settleKey. destruct (m !! k) as [b|] eqn:E; [|apply agree_throw]. destruct (Hm k b E) as [Hd Hc].
  eapply agree_bind; [auto with agree|intros _ _]. by apply agree_tx_UpdateBalance.
Qed.
Lemma agree_applyStep r f meta acc st :
  bal_fits acc.1 → step_fits st →
  agree tx_fits (λ acc, bal_fits acc.1) (applyStep (R:=RT) r f meta acc st) (applyStep (R:=RT') r f meta acc st).
Proof.
  intros Hm Hst. destruct acc as [m res]. unfold applyStep. destruct (Journal_Validate _); [|apply agree_throw].
  do 3 (eapply agree_bind; [auto with agree|intros ? _]).
  eapply agree_bind; [apply (agree_foldM _ bal_fits entry_fits); [|done|done]; intros; by apply agree_postEntry|].
  intros m' Hm'. do 6 (eapply agree_bind; [auto with agree|intros ? _]). by apply agree_ret.
Qed.
Lemma agree_runNewFlow r steps :
  Forall step_fits steps → agree tx_fits (λ _, True) (runNewFlow (R:=RT) r steps) (runNewFlow (R:=RT') r steps).
Proof.
  intros Hst. unfold runNewFlow. do 3 (eapply agree_bind; [auto with agree|intros ? _]).
  eapply agree_bind.
  { apply (agree_foldM _ bal_fits (λ _, True)); [|by apply list.Forall_forall|apply map_Forall_empty]. intros. by apply agree_lockKey. }
  intros m Hm. eapply agree_bind.
  { apply (agree_foldM _ (λ acc : gmap key balState * list FlowStep, bal_fits acc.1) step_fits); [|done|done].
    intros. by apply agree_applyStep. }
  intros [m' res] Hm'. eapply agree_bind.
  { apply (agree_foldM _ (λ _, True) (λ _, True)); [|by apply list.Forall_forall|done]. intros [] k _ _. by apply agree_settleKey. }
  intros _ _. eapply agree_bind; [auto with agree|intros _ _]. by apply agree_ret.
Qed.
Lemma agree_executeFlowInTx r :
  flow_fits r → agree tx_fits (λ _, True) (executeFlowInTx (R:=RT) r) (executeFlowInTx (R:=RT') r).
Proof.
  intros Hr. unfold executeFlowInTx. eapply agree_bind; [apply (agree_lift _ (Forall step_fits))|].
  { intros steps. by apply stepsFromProto_fits. }
  intros steps Hsteps. eapply agree_bind; [auto with agree|intros [f|] _]; [|by apply agree_runNewFlow].
  repeat agree_step.
Qed.

Lemma moveFlow_fits t ft k src act sid ev d c ccy n : text_fits n → flow_fits (moveFlow t ft k src act sid ev d c ccy n).
Proof. intros Hn. apply Forall_singleton. by repeat constructor. Qed.
End Flows.

#[export] Hint Resolve agree_executeFlowInTx moveFlow_fits text_fits_String : agree.

(** ** Transaction bodies *)

Section Bodies.
Context {H : Host} {D : DecimalOps} {L : DecimalLaws D} {CE : CrdbEngine D} {CL : CrdbEngineLaws D CE}.
Abbreviation RT := (CrRepoTx (CE:=CE)).
Abbreviation RT' := (CrRepoTx (CE:=strict_engine CE)).
Abbreviation fit d := (fits18 (val d)).
Abbreviation sames m m' := (agree tx_fits (λ _, True) m m').

Lemma agree_createReservationInTx r amount :
  text_fits (cr_Amount r) → fit amount →
  sames (createReservationInTx (R:=RT) r amount) (createReservationInTx (R:=RT') r amount).
Proof.
  intros Ht Ha. unfold createReservationInTx, createFlow. eapply agree_bind; [auto with agree|intros [x|] _]; [by apply agree_ret|].
  do 4 (eapply agree_bind; [auto with agree|intros ? _]).
  eapply agree_bind; [by apply agree_tx_InsertReservation|intros _ _]. repeat agree_step.
Qed.

Lemma agree_saveReservation t ev k pl res :
  resv_fits res → sames (saveReservation (R:=RT) t ev k pl res) (saveReservation (R:=RT') t ev k pl res).
Proof.
  intros (Ho & Hc & Hl). unfold saveReservation. eapply agree_bind; [by apply agree_tx_UpdateReservationAmounts|intros _ _].
  repeat agree_step.
Qed.

Lemma agree_commitReservationInTx r amount :
  fit amount → sames (commitReservationInTx (R:=RT) r amount) (commitReservationInTx (R:=RT') r amount).
Proof.
  intros Ha. unfold commitReservationInTx, commitFlow. eapply agree_bind; [apply agree_LockReservation|intros res (Ho & Hc & Hl)].
  do 6 (eapply agree_bind; [auto with agree|intros ? _]). apply agree_saveReservation.
  unfold resv_fits; simpl. rewrite val_sub, val_add. auto with agree.
Qed.

Lemma agree_releaseReservationInTx r amount :
  fit amount → sames (releaseReservationInTx (R:=RT) r amount) (releaseReservationInTx (R:=RT') r amount).
Proof.
  intros Ha. unfold releaseReservationInTx, releaseFlow. eapply agree_bind; [apply agree_LockReservation|intros res (Ho & Hc & Hl)].
  do 4 (eapply agree_bind; [auto with agree|intros ? _]). apply agree_saveReservation.
  unfold resv_fits; simpl. rewrite val_sub, val_add. auto with agree.
Qed.

Lemma agree_expireReservationInTx t i : sames (expireReservationInTx (R:=RT) t i) (expireReservationInTx (R:=RT') t i).
Proof.
  unfold expireReservationInTx, expireFlow. eapply agree_bind; [apply agree_LockReservation|intros res (Ho & Hc & Hl)].
  do 2 (case_match; [by apply agree_ret|]). do 2 (eapply agree_bind; [auto with agree|intros ? _]).
  eapply agree_bind; [|intros _ _; by apply agree_ret]. apply agree_saveReservation.
  unfold resv_fits; simpl. rewrite val_sub, val_add. auto with agree.
Qed.

Lemma agree_exchangeInTx r fa ta fc tc rate src :
  text_fits (ex_FromAmount r) → text_fits (ex_ToAmount r) →
  sames (exchangeInTx (R:=RT) r fa ta fc tc rate src) (exchangeInTx (R:=RT') r fa ta fc tc rate src).
Proof.
  intros Hf Ht. unfold exchangeInTx. eapply agree_bind; [auto with agree|intros ? _]. apply agree_executeFlowInTx.
  apply Forall_singleton. by repeat constructor.
Qed.

Lemma agree_matchRecord t acc e : sames (matchRecord (R:=RT) t acc e) (matchRecord (R:=RT') t acc e).
Proof. unfold matchRecord, amountDiffers. repeat agree_step. Qed.

Lemma agree_matcherRun t src ws we : sames (matcherRun (R:=RT) t src ws we) (matcherRun (R:=RT') t src ws we).
Proof.
  unfold matcherRun. do 2 (eapply agree_bind; [auto with agree|intros ? _]).
  eapply agree_bind; [apply (agree_foldM _ (λ _, True) (λ _, True)); [|by apply list.Forall_forall|done]|].
  - intros. by apply agree_matchRecord.
  - intros [rest res] _. by apply agree_ret.
Qed.

Lemma agree_openDiscrepancy b x d : sames (openDiscrepancy (R:=RT) b x d) (openDiscrepancy (R:=RT') b x d).
Proof. unfold openDiscrepancy. repeat agree_step. Qed.

Lemma agree_runReconciliationInTx r ws we : sames (runReconciliationInTx (R:=RT) r ws we) (runReconciliationInTx (R:=RT') r ws we).
Proof.
  unfold runReconciliationInTx. eapply agree_bind; [auto with agree|intros [b|] _]; [repeat agree_step|].
  do 3 (eapply agree_bind; [auto with agree|intros ? _]). eapply agree_bind; [apply agree_matcherRun|intros res _].
  eapply agree_bind; [apply (agree_foldM _ (λ _, True) (λ _, True)); [|by apply list.Forall_forall|done]|].
  - intros. by apply agree_openDiscrepancy.
  - intros _ _. repeat agree_step.
Qed.

Lemma agree_resolveDiscrepancyInTx r :
  (∀ adj, rd_Adjustment r = Some adj → flow_fits adj) →
  sames (resolveDiscrepancyInTx (R:=RT) r) (resolveDiscrepancyInTx (R:=RT') r).
Proof.
  intros Hadj. unfold resolveDiscrepancyInTx, runAdjustment. do 2 (eapply agree_bind; [auto with agree|intros ? _]).
  eapply (agree_bind _ (λ _, True)); [|intros j _; repeat agree_step].
  destruct (rd_Adjustment r) as [adj|]; [|by apply agree_ret]. case_match; [|by apply agree_ret].
  eapply agree_bind; [|intros ? _; by apply agree_ret]. apply agree_executeFlowInTx. by apply (Hadj adj).
Qed.
End Bodies.

(** ** The store *)

Section Store.
Context {H : Host} {D : DecimalOps} {L : DecimalLaws D} {CE : CrdbEngine D} {CL : CrdbEngineLaws D CE}.
Abbreviation ST := (CrRepoStore (CE:=CE)).
Abbreviation ST' := (CrRepoStore (CE:=strict_engine CE)).
Abbreviation fit d := (fits18 (val d)).
Abbreviation sames m m' := (agree db_fits (λ _, True) m m').

(** A transaction publishes tables that fit. *)
Lemma agree_with_tx {A} (P : A → Prop) (body body' : M error (CrTx * Env) A) :
  agree tx_fits P body body' → agree db_fits P (with_tx (ST:=ST) body) (with_tx (ST:=ST') body').
Proof.
  intros Hb [db e] Hs. unfold with_tx, wp. simpl. unfold cr_BeginFlowTx. simpl. destruct (host_fault _); [done|].
  destruct (Hb (mkCrTx db (host_dbnow (e_db e)) TxOpen, tick e) Hs) as [E Hw]. rewrite E. unfold wp in Hw.
  destruct (body _) as [[a|er] [[db' began st] e']]; unfold cr_Commit, cr_Rollback; simpl in *.
  - destruct Hw. destruct st; simpl; [|destruct (host_fault _); simpl..|]; try done; by destruct (host_fault _).
  - destruct st; simpl; try done; by destruct (host_fault _).
Qed.
Lemma agree_runInTx (body body' : M error (CrTx * Env) unit) :
  agree tx_fits (λ _, True) body body' → sames (runInTx (ST:=ST) body) (runInTx (ST:=ST') body').
Proof.
  intros Hb [db e] Hs. unfold runInTx, wp. simpl. unfold cr_BeginFlowTx. simpl. destruct (host_fault _); [done|].
  destruct (Hb (mkCrTx db (host_dbnow (e_db e)) TxOpen, tick e) Hs) as [E Hw]. rewrite E. unfold wp in Hw.
  destruct (body _) as [[a|er] [[db' began st] e']]; unfold cr_Commit, cr_Rollback; simpl in *.
  - destruct Hw. destruct st; simpl; try done; by destruct (host_fault _).
  - destruct st; simpl; try done; by destruct (host_fault _).
Qed.

Lemma agree_st_GetAccount t i : sames (st_GetAccount (RepoStore:=ST) t i) (st_GetAccount (RepoStore:=ST') t i).
Proof. simpl. unfold crs_GetAccount, q_GetAccount. repeat row_step. Qed.
Lemma agree_st_GetFlow t i : sames (st_GetFlow (RepoStore:=ST) t i) (st_GetFlow (RepoStore:=ST') t i).
Proof. simpl. unfold crs_GetFlow, q_GetFlowByID, q_GetFlowSteps. repeat row_step. Qed.
Lemma agree_st_ListAccountActivity i : sames (st_ListAccountActivity (RepoStore:=ST) i) (st_ListAccountActivity (RepoStore:=ST') i).
Proof. simpl. unfold crs_ListAccountActivity, q_ListAccountActivity. repeat row_step. Qed.
Lemma agree_st_SumEntriesBetween t a c x y : sames (st_SumEntriesBetween (RepoStore:=ST) t a c x y) (st_SumEntriesBetween (RepoStore:=ST') t a c x y).
Proof. simpl. unfold crs_SumEntriesBetween, q_SumEntriesBetween. repeat row_step. Qed.
Lemma agree_st_GetSnapshotBefore t a c x : sames (st_GetSnapshotBefore (RepoStore:=ST) t a c x) (st_GetSnapshotBefore (RepoStore:=ST') t a c x).
Proof. simpl. unfold crs_GetSnapshotBefore, q_GetLatestSnapshotBefore. repeat row_step. Qed.
Lemma agree_st_ListTenantsDueForSnapshot x n : sames (st_ListTenantsDueForSnapshot (RepoStore:=ST) x n) (st_ListTenantsDueForSnapshot (RepoStore:=ST') x n).
Proof. simpl. unfold crs_ListTenantsDueForSnapshot, q_ListTenantsDueForSnapshot. repeat row_step. Qed.
Lemma agree_st_GetFXRateAt t b q x : sames (st_GetFXRateAt (RepoStore:=ST) t b q x) (st_GetFXRateAt (RepoStore:=ST') t b q x).
Proof. simpl. unfold crs_GetFXRateAt, q_GetFXRateAt. repeat row_step. Qed.
Lemma agree_st_ListFXRates i : sames (st_ListFXRates (RepoStore:=ST) i) (st_ListFXRates (RepoStore:=ST') i).
Proof. simpl. unfold crs_ListFXRates, q_ListFXRates. repeat row_step. Qed.
Lemma agree_st_GetReservation t i : sames (st_GetReservation (RepoStore:=ST) t i) (st_GetReservation (RepoStore:=ST') t i).
Proof. simpl. unfold crs_GetReservation, q_GetReservation. repeat row_step. Qed.
Lemma agree_st_ListExpiredReservations x n : sames (st_ListExpiredReservations (RepoStore:=ST) x n) (st_ListExpiredReservations (RepoStore:=ST') x n).
Proof. simpl. unfold crs_ListExpiredReservations, q_ListExpiredReservations. repeat row_step. Qed.
Lemma agree_st_ListReservations i : sames (st_ListReservations (RepoStore:=ST) i) (st_ListReservations (RepoStore:=ST') i).
Proof. simpl. unfold crs_ListReservations, q_ListReservations. repeat row_step. Qed.
Lemma agree_st_GetReconBatch t i : sames (st_GetReconBatch (RepoStore:=ST) t i) (st_GetReconBatch (RepoStore:=ST') t i).
Proof. simpl. unfold crs_GetReconBatch, q_GetReconBatch. repeat row_step. Qed.
Lemma agree_st_ListDiscrepancies i : sames (st_ListDiscrepancies (RepoStore:=ST) i) (st_ListDiscrepancies (RepoStore:=ST') i).
Proof. simpl. unfold crs_ListDiscrepancies, q_ListDiscrepancies. repeat row_step. Qed.
Lemma agree_st_MarkOutboxPublished i : sames (st_MarkOutboxPublished (RepoStore:=ST) i) (st_MarkOutboxPublished (RepoStore:=ST') i).
Proof. simpl. unfold crs_MarkOutboxPublished, q_MarkOutboxPublished. repeat row_step. Qed.
Lemma agree_st_IncrementOutboxAttempts i : sames (st_IncrementOutboxAttempts (RepoStore:=ST) i) (st_IncrementOutboxAttempts (RepoStore:=ST') i).
Proof. simpl. unfold crs_IncrementOutboxAttempts, q_IncrementOutboxAttempts. repeat row_step. Qed.

Lemma agree_st_PruneSnapshotsOlderThan x n :
  sames (st_PruneSnapshotsOlderThan (RepoStore:=ST) x n) (st_PruneSnapshotsOlderThan (RepoStore:=ST') x n).
Proof.
  apply agree_statement; [done|]. intros now db a db' Hs. case_match; [done|]. intros [= _ <-]. by destruct Hs.
Qed.

Lemma agree_st_GetBalance t a c :
  agree db_fits (λ x, fit x.1.1 ∧ fit x.1.2) (st_GetBalance (RepoStore:=ST) t a c) (st_GetBalance (RepoStore:=ST') t a c).
Proof.
  simpl. unfold crs_GetBalance. eapply agree_bind.
  - apply (agree_no_rows_none _ (λ r, fit (b_posted_debits r) ∧ fit (b_posted_credits r))). apply agree_select_one.
    intros db r Hs. apply (sel_Forall (λ r, fit (b_posted_debits r) ∧ fit (b_posted_credits r))). apply Hs.
  - intros [r|] Hr; apply agree_ret; simpl; [by apply Hr|]. rewrite val_zero. auto with agree.
Qed.

Definition row_fits (b : TenantBalanceRow) : Prop := fit (tb_PostedDebits b) ∧ fit (tb_PostedCredits b).
Lemma agree_st_ListTenantBalances t :
  agree db_fits (Forall row_fits) (st_ListTenantBalances (RepoStore:=ST) t) (st_ListTenantBalances (RepoStore:=ST') t).
Proof.
  simpl. unfold crs_ListTenantBalances.
  eapply (agree_bind _ (Forall (λ r, fit (b_posted_debits r) ∧ fit (b_posted_credits r)))).
  - apply agree_select_many. intros db Hs. change (@pg_order_by D (strict_engine CE)) with (@pg_order_by D CE). rewrite pg_order_by_perm.
    apply list.Forall_forall. intros r [_ Hr]%list_elem_of_filter. destruct Hs as [Hb _ _]. rewrite list.Forall_forall in Hb. by apply Hb.
  - intros rows Hrows. apply agree_ret. by apply Forall_fmap.
Qed.

Lemma agree_st_InsertSnapshot b :
  fit (bs_PostedDebits b) → fit (bs_PostedCredits b) →
  sames (st_InsertSnapshot (RepoStore:=ST) b) (st_InsertSnapshot (RepoStore:=ST') b).
Proof. intros. by apply agree_InsertSnapshot. Qed.
Lemma agree_st_UpsertFXRate r : fit (fx_Rate r) → sames (st_UpsertFXRate (RepoStore:=ST) r) (st_UpsertFXRate (RepoStore:=ST') r).
Proof. intros. simpl. unfold crs_UpsertFXRate. eapply agree_bind; [by apply agree_UpsertFXRate|intros ? _]. by apply agree_ret. Qed.
Lemma agree_st_InsertExternalRecord r :
  fit (er_Amount r) → sames (st_InsertExternalRecord (RepoStore:=ST) r) (st_InsertExternalRecord (RepoStore:=ST') r).
Proof. intros. simpl. unfold crs_InsertExternalRecord. eapply agree_bind; [by apply agree_InsertExternalRecord|intros ? _]. by apply agree_ret. Qed.
End Store.

#[export] Hint Resolve agree_st_GetAccount agree_st_GetFlow agree_st_ListAccountActivity agree_st_SumEntriesBetween
  agree_st_GetSnapshotBefore agree_st_ListTenantsDueForSnapshot agree_st_GetFXRateAt agree_st_ListFXRates agree_st_GetReservation
  agree_st_ListExpiredReservations agree_st_ListReservations agree_st_GetReconBatch agree_st_ListDiscrepancies
  agree_st_MarkOutboxPublished agree_st_IncrementOutboxAttempts agree_st_PruneSnapshotsOlderThan agree_st_UpsertFXRate
  agree_st_InsertExternalRecord agree_with_tx agree_runInTx agree_createReservationInTx agree_commitReservationInTx
  agree_releaseReservationInTx agree_expireReservationInTx agree_exchangeInTx agree_runReconciliationInTx
  agree_resolveDiscrepancyInTx : agree.

(** ** Requests *)

Section Requests.
Context {H : Host} {D : DecimalOps} {L : DecimalLaws D} {CE : CrdbEngine D} {CL : CrdbEngineLaws D CE}.
Abbreviation RT := (CrRepoTx (CE:=CE)).
Abbreviation RT' := (CrRepoTx (CE:=strict_engine CE)).
Abbreviation ST := (CrRepoStore (CE:=CE)).
Abbreviation ST' := (CrRepoStore (CE:=strict_engine CE)).
Abbreviation fit d := (fits18 (val d)).
Abbreviation sames m m' := (agree db_fits (λ _, True) m m').

Lemma agree_rpc {A} (P : A → Prop) (m m' : M error (DB * Env) A) : agree db_fits P m m' → agree db_fits P (rpc m) (rpc m').
Proof. intros Hm s Hs. destruct (Hm s Hs) as [E Hw]. unfold rpc, wp in *. rewrite E. by destruct (m s) as [[a|er] s']. Qed.
Lemma agree_ignore {A} (m m' : M error (DB * Env) A) : sames m m' → sames (ignore m) (ignore m').
Proof. intros Hm s Hs. destruct (Hm s Hs) as [E Hw]. unfold ignore, wp in *. rewrite E. by destruct (m s) as [[a|er] s']; simpl; [destruct Hw|]. Qed.
Lemma agree_ParseAmount {A} e txt (f f' : dec → M error (DB * Env) A) (parse : string → M error (DB * Env) dec) :
  (∀ s, parse txt s = (match ParseAmount txt with Ok a => Ok a | Err _ => Err e end, s)) → text_fits txt →
  (∀ a, fit a → sames (f a) (f' a)) → sames (parse txt ≫= f) (parse txt ≫= f').
Proof.
  intros Hp Ht Hf. eapply agree_bind; [|exact Hf]. intros s Hs. split; [done|]. unfold wp. rewrite Hp.
  destruct (ParseAmount txt) eqn:E; [|done]. split; [done|]. by eapply ParseAmount_fits.
Qed.
Lemma agree_parse {A} txt (f f' : dec → M error (DB * Env) A) :
  text_fits txt → (∀ a, fit a → sames (f a) (f' a)) → sames (parseReservationAmount txt ≫= f) (parseReservationAmount txt ≫= f').
Proof. apply (agree_ParseAmount (ErrDomain CodeReservationAmountExceeds)). intros s. unfold parseReservationAmount. by destruct (ParseAmount txt). Qed.
Lemma agree_parseFX {A} txt (f f' : dec → M error (DB * Env) A) :
  text_fits txt → (∀ a, fit a → sames (f a) (f' a)) → sames (parseFX txt ≫= f) (parseFX txt ≫= f').
Proof. apply (agree_ParseAmount (ErrDomain CodeFXAmountMismatch)). intros s. unfold parseFX. by destruct (ParseAmount txt). Qed.

(** The amounts a request gives have at most 18 fractional digits. *)
Definition request_fits (q : request) : Prop :=
  match q with
  | RqExecuteFlow r => flow_fits r
  | RqPostJournal r => Forall (λ e, text_fits (ent_Amount e)) (GetEntries (pj_Journal r))
  | RqCreateReservation r => text_fits (cr_Amount r)
  | RqCommitReservation r => text_fits (cm_Amount r)
  | RqReleaseReservation r => text_fits (rl_Amount r)
  | RqPutFXRate r => text_fits (pfr_Rate r)
  | RqExecuteExchange r => text_fits (ex_FromAmount r) ∧ text_fits (ex_ToAmount r)
  | RqIngestExternalRecords _ l => Forall (λ r, text_fits (pe_Amount r)) l
  | RqResolveDiscrepancy r => ∀ adj, rd_Adjustment r = Some adj → flow_fits adj
  | _ => True
  end.

Ltac handler_step :=
  first
  [ apply agree_rpc | apply agree_ignore
  | apply agree_parse; [assumption|intros ? ?] | apply agree_parseFX; [assumption|intros ? ?]
  | agree_step | apply agree_with_tx; solve [eauto 3 with agree nocore] ].

Lemma agree_CreateAccount r : sames (CreateAccount (ST:=ST) (R:=RT) r) (CreateAccount (ST:=ST') (R:=RT') r).
Proof. unfold CreateAccount. repeat handler_step. Qed.
Lemma agree_hGetBalance r : sames (GetBalance (ST:=ST) r) (GetBalance (ST:=ST') r).
Proof.
  unfold GetBalance, balanceAsOf. apply agree_rpc. do 2 (eapply agree_bind; [auto with agree|intros ? _]).
  eapply (agree_bind _ (λ _, True)); [|intros [[d c] v] _; by apply agree_ret].
  destruct (gb_AsOf r); [repeat handler_step|]. eapply agree_mono; [apply agree_st_GetBalance|done].
Qed.
Lemma agree_snapshotRow t now n b : row_fits b → sames (snapshotRow (ST:=ST) t now n b) (snapshotRow (ST:=ST') t now n b).
Proof.
  intros [Hd Hc]. unfold snapshotRow. eapply agree_bind; [auto with agree|intros i _].
  eapply agree_bind; [by apply agree_st_InsertSnapshot|intros _ _]. by apply agree_ret.
Qed.
Lemma agree_TakeBalanceSnapshot r : sames (TakeBalanceSnapshot (ST:=ST) r) (TakeBalanceSnapshot (ST:=ST') r).
Proof.
  unfold TakeBalanceSnapshot. apply agree_rpc. do 2 (eapply agree_bind; [auto with agree|intros ? _]). case_match.
  - eapply agree_bind; [apply agree_st_GetBalance|intros [[d c] v] [Hd Hc]]. eapply agree_bind; [auto with agree|intros i _].
    eapply agree_bind; [by apply agree_st_InsertSnapshot|intros _ _]. by apply agree_ret.
  - eapply agree_bind; [apply agree_st_ListTenantBalances|intros rows Hrows].
    apply (agree_foldM _ (λ _, True) row_fits); [|done|done]. intros. by apply agree_snapshotRow.
Qed.
Lemma agree_ExecuteFlow r : flow_fits r → sames (ExecuteFlow (ST:=ST) (R:=RT) r) (ExecuteFlow (ST:=ST') (R:=RT') r).
Proof. intros Hr. apply agree_rpc, agree_with_tx. by apply agree_executeFlowInTx. Qed.
Lemma agree_PostJournal r :
  Forall (λ e, text_fits (ent_Amount e)) (GetEntries (pj_Journal r)) →
  sames (PostJournal (ST:=ST) (R:=RT) r) (PostJournal (ST:=ST') (R:=RT') r).
Proof.
  intros Hr. unfold PostJournal. eapply agree_bind; [|intros ? _; by apply agree_ret]. apply agree_ExecuteFlow.
  by apply Forall_singleton.
Qed.
Lemma agree_ResolveRate r fa ta : sames (resolveRate (ST:=ST) r fa ta) (resolveRate (ST:=ST') r fa ta).
Proof. unfold resolveRate. repeat handler_step. Qed.
Lemma agree_ExecuteExchange r :
  text_fits (ex_FromAmount r) → text_fits (ex_ToAmount r) →
  sames (ExecuteExchange (ST:=ST) (R:=RT) r) (ExecuteExchange (ST:=ST') (R:=RT') r).
Proof.
  intros Hf Ht. unfold ExecuteExchange. apply agree_rpc. apply agree_parseFX; [done|intros fa _]. apply agree_parseFX; [done|intros ta _].
  do 3 (eapply agree_bind; [auto with agree|intros ? _]). eapply agree_bind; [apply agree_ResolveRate|intros [rate src] _].
  eapply agree_bind; [by apply agree_with_tx, agree_exchangeInTx|intros ? _]. by apply agree_ret.
Qed.
Lemma agree_IngestExternalRecords t l :
  Forall (λ r, text_fits (pe_Amount r)) l → sames (IngestExternalRecords (ST:=ST) t l) (IngestExternalRecords (ST:=ST') t l).
Proof.
  intros Hl. apply agree_rpc. apply (agree_foldM _ (λ _, True) (λ r, text_fits (pe_Amount r))); [|done|done].
  intros acc r _ Hr. unfold ingestOne. destruct (ParseAmount _) as [a|] eqn:Ha; [|apply agree_throw].
  do 2 (eapply agree_bind; [auto with agree|intros ? _]).
  eapply agree_bind; [|intros ? _; by apply agree_ret]. apply agree_st_InsertExternalRecord. by eapply ParseAmount_fits.
Qed.
Lemma agree_RunReconciliation r : sames (RunReconciliation (ST:=ST) (R:=RT) r) (RunReconciliation (ST:=ST') (R:=RT') r).
Proof.
  unfold RunReconciliation. apply agree_rpc. do 2 (eapply agree_bind; [apply agree_Now|intros ? _]).
  eapply agree_bind; [apply agree_with_tx, agree_runReconciliationInTx|intros ? _]. by apply agree_ret.
Qed.
Lemma agree_ResolveDiscrepancy r :
  (∀ adj, rd_Adjustment r = Some adj → flow_fits adj) →
  sames (ResolveDiscrepancy (ST:=ST) (R:=RT) r) (ResolveDiscrepancy (ST:=ST') (R:=RT') r).
Proof.
  intros Hadj. unfold ResolveDiscrepancy. apply agree_rpc. eapply agree_bind; [apply agree_throw_if|intros ? _].
  eapply agree_bind; [by apply agree_with_tx, agree_resolveDiscrepancyInTx|intros ? _]. by apply agree_ret.
Qed.
Lemma agree_snapshotTick cfg : sames (snapshotTick (ST:=ST) cfg) (snapshotTick (ST:=ST') cfg).
Proof.
  unfold snapshotTick. apply agree_ignore. do 2 (eapply agree_bind; [auto with agree|intros ? _]).
  apply (agree_foldM _ (λ _, True) (λ _, True)); [|by apply list.Forall_forall|done]. intros. apply agree_ignore, agree_TakeBalanceSnapshot.
Qed.
Lemma agree_expiryTick cfg : sames (expiryTick (ST:=ST) (R:=RT) cfg) (expiryTick (ST:=ST') (R:=RT') cfg).
Proof.
  unfold expiryTick. apply agree_ignore. do 2 (eapply agree_bind; [auto with agree|intros ? _]).
  apply (agree_foldM _ (λ _, True) (λ _, True)); [|by apply list.Forall_forall|done]. intros. unfold expireOne, ExpireReservation.
  apply agree_ignore, agree_with_tx, agree_expireReservationInTx.
Qed.

(** Requests whose amounts fit run the same on the strict engine. *)
Lemma agree_state {A} (m m' : M error (DB * Env) A) s : db_fits s.1 → sames m m' → (m' s).2 = (m s).2 ∧ db_fits (m s).2.1.
Proof. intros Hs Hm. destruct (Hm s Hs) as [-> Hw]. split; [done|]. unfold wp in Hw. destruct (m s) as [[a|er] s']; simpl; [apply Hw|done]. Qed.

Lemma handle_agrees s q :
  request_fits q → db_fits s.1 →
  handle (ST:=ST') (R:=RT') s q = handle (ST:=ST) (R:=RT) s q ∧ db_fits (handle (ST:=ST) (R:=RT) s q).1.
Proof.
  intros Hq Hs. destruct q; cbn [handle request_fits] in *; apply agree_state; try exact Hs;
    auto using agree_CreateAccount, agree_hGetBalance, agree_TakeBalanceSnapshot, agree_ExecuteFlow, agree_PostJournal,
      agree_IngestExternalRecords, agree_RunReconciliation, agree_ResolveDiscrepancy, agree_snapshotTick,
      agree_expiryTick, agree_st_MarkOutboxPublished, agree_st_IncrementOutboxAttempts.
  all: try (destruct Hq; by apply agree_ExecuteExchange).
  all: unfold GetAccount, ListAccountActivity, GetFlow, CreateReservation, CommitReservation, ReleaseReservation,
    GetReservation, ListReservations, PutFXRate, GetFXRate, ListFXRates, GetReconciliationBatch, ListDiscrepancies, retentionTick.
  all: repeat handler_step.
Qed.

(** From empty tables the strict engine does what the engine does. *)
Theorem requests_agree (qs : list request) (e : Env) :
  Forall request_fits qs →
  foldl (handle (ST:=ST') (R:=RT')) (db_empty, e) qs = foldl (handle (ST:=ST) (R:=RT)) (db_empty, e) qs.
Proof.
  intros Hqs. assert (Hs : db_fits (db_empty, e).1) by apply db_empty_fits. revert Hs. generalize (db_empty, e).
  induction Hqs as [|q qs Hq _ IH]; intros s Hs; cbn [foldl]; [reflexivity|].
  destruct (handle_agrees s q Hq Hs) as [E Hs'].
  etransitivity; [exact (f_equal (λ x, foldl (handle (ST:=ST') (R:=RT')) x qs) E)|by apply IH].
Qed.
End Requests.
