(* ===== verification/CrdbSystem.v ===== *)
(** * The service on CockroachDB

    What the system theorems say of the CockroachDB tables, and what this
    backend adds: sums of entries are exact, a failed statement dooms its
    transaction, and an entry is found under its UUID. *)

From S2P Require Import Prelude Money Ledger Repo Contract Sql CrdbDb Crdb CrdbLaws Service Flow FlowLaws.
From S2P Require Import Books Accounts Reservations ReservationLaws Exchange Recon ReconLaws Worker System CrdbExact.
From stdpp Require Import base gmap strings list numbers.
From Stdlib Require Import Qcanon Ascii.

(** ** The books on rows *)

Section Tables.
Context {H : Host} {D : DecimalOps} {L : DecimalLaws D} {CE : CrdbEngine D} {CL : CrdbEngineLaws D CE}.

(** The amounts of the entries a test selects, added up. *)
Definition entry_total (p : LedgerEntryRow → bool) (l : list LedgerEntryRow) : Qc :=
  Qcsum (λ r, if p r then val (e_amount r) else 0%Qc) l.
Definition entry_at (t a c : string) (r : LedgerEntryRow) : bool :=
  (e_tenant_id r =s t) && (e_account_id r =s a) && (e_currency r =s c).
Definition is_debit (r : LedgerEntryRow) : bool := e_direction r =s DirectionDebit.

Lemma cr_posted_rows t a c l :
  posted (t, a, c) (row_entry <$> l) =
  (entry_total (λ r, entry_at t a c r && is_debit r) l, entry_total (λ r, entry_at t a c r && negb (is_debit r)) l).
Proof.
  unfold posted, entry_total. rewrite !Qcsum_fmap.
  f_equal; apply Qcsum_ext; intros r _; unfold pe_debit, pe_credit, pe_at, entry_at, is_debit, row_entry; simpl;
    destruct (bool_decide_reflect (e_tenant_id r = t)), (bool_decide_reflect (e_account_id r = a)),
      (bool_decide_reflect (e_currency r = c)); simpl;
    first [by rewrite bool_decide_eq_true_2 by congruence | by rewrite bool_decide_eq_false_2 by congruence].
Qed.

(** On an engine that never rounds, whatever the requests. *)
Lemma tables_right_exact {NE : NumericExact D CE} (qs : list request) (e : Env) (t a c : string) (row : AccountBalanceRow) :
  let db := (foldl handle (db_empty, e) qs).1 in
  sel (bal_row t a c) (t_balances db) = Some row →
  val (b_posted_debits row) = entry_total (λ r, entry_at t a c r && is_debit r) (t_entries db) ∧
  val (b_posted_credits row) = entry_total (λ r, entry_at t a c r && negb (is_debit r)) (t_entries db) ∧
  entry_total (λ r, (e_tenant_id r =s t) && (e_currency r =s c) && is_debit r) (t_entries db) =
  entry_total (λ r, (e_tenant_id r =s t) && (e_currency r =s c) && negb (is_debit r)) (t_entries db).
Proof.
  intros db Hrow.
  assert (Hempty : sys_ok (svw db_empty) (svw db_empty)) by (apply sys_ok_start; [by split|by intros ?? rv]).
  pose proof (handle_all_ok _ qs (db_empty, e) Hempty) as [[H1 _ H3 _ _] _ _ _].
  fold db in H1, H3. specialize (H1 (t, a, c)). specialize (H3 t c). unfold lv_balance in H1. simpl in H1, H3.
  rewrite Hrow in H1. simpl in H1. rewrite cr_posted_rows in H1. injection H1 as Hd Hc.
  split; [done|]. split; [done|]. apply Qcsub_0. rewrite <- H3. unfold entry_total.
  rewrite <- Qcsum_sub, Qcsum_fmap. apply Qcsum_ext. intros r _. unfold pe_signed, in_currency, row_entry, is_debit; simpl.
  destruct ((e_tenant_id r =s t) && (e_currency r =s c)), (e_direction r =s DirectionDebit); simpl; ring.
Qed.
End Tables.

Section Exact.
Context {H : Host} {D : DecimalOps} {L : DecimalLaws D} {CE : CrdbEngine D} {CL : CrdbEngineLaws D CE}.

(** C38. The CockroachDB tables are right although DECIMAL(38, 18) rounds: after
    any sequence of requests and ticks on an empty database whose amounts and
    rates have at most 18 fractional digits ([request_fits]), whatever statements failed
    and with whatever error, every row of account_balances stores exactly the
    totals of the ledger_entries rows of its account and currency, and over
    all the entries of a tenant and currency the debits equal the credits. *)
Theorem crdb_tables_right (qs : list request) (e : Env) (t a c : string) (row : AccountBalanceRow) :
  Forall request_fits qs →
  let db := (foldl handle (db_empty, e) qs).1 in
  sel (bal_row t a c) (t_balances db) = Some row →
  val (b_posted_debits row) = entry_total (λ r, entry_at t a c r && is_debit r) (t_entries db) ∧
  val (b_posted_credits row) = entry_total (λ r, entry_at t a c r && negb (is_debit r)) (t_entries db) ∧
  entry_total (λ r, (e_tenant_id r =s t) && (e_currency r =s c) && is_debit r) (t_entries db) =
  entry_total (λ r, (e_tenant_id r =s t) && (e_currency r =s c) && negb (is_debit r)) (t_entries db).
Proof.
  intros Hqs. cbv zeta. rewrite <- (requests_agree (CE:=CE) qs e Hqs).
  exact (tables_right_exact (CE:=strict_engine CE) (CL:=strict_laws CE CL) (NE:=strict_exact CE) qs e t a c row).
Qed.
End Exact.

(** ** Sums of entries *)

Section Sums.
Context {H : Host} {D : DecimalOps} {L : DecimalLaws D} {CE : CrdbEngine D} {CL : CrdbEngineLaws D CE}.

(** What the columns hold. *)
Definition amounts_fit (db : DB) : Prop := ∀ r, r ∈ t_entries db → fits18 (val (e_amount r)).

Lemma sum_rows_exact dir (l : list LedgerEntryRow) d :
  (∀ r, r ∈ l → fits18 (val (e_amount r))) → sum_rows dir l = Some d →
  val d = entry_total (λ r, e_direction r =s dir) l.
Proof.
  intros Hl Hd. unfold sum_rows in Hd.
  assert (Hsum : ∀ l', (∀ r, r ∈ l' → fits18 (val (e_amount r))) →
    let v := val (foldr (λ r acc, dAdd (e_amount r) acc) decimal_Zero (filter (λ r, e_direction r =s dir) l')) in
    fits18 v ∧ v = entry_total (λ r, e_direction r =s dir) l').
  { clear l d Hl Hd. induction l' as [|r l' IH]; intros Hl; cbv zeta.
    - simpl. rewrite val_zero. split; [apply fits18_zero|done].
    - destruct IH as [Hfit Heq]; [intros r' Hr'; apply Hl; by right|].
      unfold entry_total in *. rewrite filter_cons, (Qcsum_cons _ r l'), <- Heq.
      destruct (e_direction r =s dir); simpl; rewrite ?val_add.
      + split; [|done]. apply fits18_add; [apply Hl; by left|done].
      + split; [done|ring]. }
  destruct (Hsum l Hl) as [Hfit <-]. by apply pg_numeric_exact.
Qed.

Lemma select_sums_ok q p s d k s' :
  amounts_fit s.1 → select_sums q p s = (Ok (d, k), s') →
  val d = entry_total (λ r, p r && (e_direction r =s "DEBIT")) (t_entries s.1) ∧
  val k = entry_total (λ r, p r && (e_direction r =s "CREDIT")) (t_entries s.1).
Proof.
  destruct s as [db e]. unfold select_sums, statement. intros Hfit. destruct (host_fault _); [done|]. simpl in *.
  destruct (sum_rows "DEBIT" _) as [d'|] eqn:Hd; [|done]. destruct (sum_rows "CREDIT" _) as [k'|] eqn:Hk; [|done].
  intros [= <- <- _].
  assert (Hsel : ∀ r, r ∈ filter (λ r, p r) (t_entries db) → fits18 (val (e_amount r)))
    by (intros r [_ Hr]%list_elem_of_filter; by apply Hfit).
  apply (sum_rows_exact _ _ _ Hsel) in Hd, Hk. rewrite Hd, Hk. unfold entry_total.
  rewrite !Qcsum_filter. split; apply Qcsum_ext; intros r _; by destruct (p r).
Qed.

(** ** Balances as of an instant *)

Definition debit_row (r : LedgerEntryRow) : bool := e_direction r =s "DEBIT".
Definition credit_row (r : LedgerEntryRow) : bool := e_direction r =s "CREDIT".

(** The entries of a key up to an instant, in one direction. *)
Definition total_until (t a c : string) (dir : LedgerEntryRow → bool) (u : Timestamptz) (l : list LedgerEntryRow) : Qc :=
  entry_total (λ r, entry_at t a c r && ts_le (e_created_at r) u && dir r) l.

(** A snapshot row that holds the balance of its instant. *)
Definition snapshot_exact (db : DB) (sn : BalanceSnapshotRow) : Prop :=
  let total dir := total_until (sn_tenant_id sn) (sn_account_id sn) (sn_currency sn) dir (sn_snapshot_at sn) (t_entries db) in
  val (sn_posted_debits sn) = total debit_row ∧ val (sn_posted_credits sn) = total credit_row.

Lemma cr_total_split t a c dir x u l :
  (x ≤ u)%Z →
  (total_until t a c dir (Some x) l +
   entry_total (λ r, (entry_at t a c r && ts_lt (Some x) (e_created_at r) && ts_le (e_created_at r) (Some u)) && dir r) l =
   total_until t a c dir (Some u) l)%Qc.
Proof.
  intros Hxu. unfold total_until, entry_total. rewrite <- Qcsum_add. apply Qcsum_ext. intros r _.
  destruct (entry_at t a c r), (dir r), (e_created_at r) as [z|]; simpl; try ring;
    destruct (Z.leb_spec z x), (Z.leb_spec z u), (Z.ltb_spec x z); simpl; try ring; lia.
Qed.

Lemma cr_total_before t a c dir x l :
  (∀ r, r ∈ l → ts_lt (Some x) (e_created_at r) = true) → total_until t a c dir (Some x) l = 0%Qc.
Proof.
  intros Hx. apply Qcsum_zero. intros r Hr. specialize (Hx r Hr). unfold ts_lt, ts_le in *.
  destruct (e_created_at r) as [z|]; [|done].
  destruct (Z.leb_spec z x); [apply Z.ltb_lt in Hx; lia|]. by rewrite andb_false_r.
Qed.

Lemma cr_select_one_ok q {A} (f : DB → option A) s r s' :
  no_rows_none (select_one q f) s = (Ok r, s') → f s.1 = r ∧ s'.1 = s.1.
Proof.
  destruct s as [db e]. unfold no_rows_none, select_one, statement. destruct (host_fault _).
  - pose proof (pg_error_no_rows (e_db e)). by destruct (pg_error (e_db e)).
  - simpl. destruct (f db) eqn:Hf; by intros [= <- <-].
Qed.

(** C39. Balances as of an instant on CockroachDB need no assumption on the
    engine's sums: when every snapshot of the account holds the balance of its
    own instant and no entry is older than year 1, [GetBalance] as of an
    instant answers with the totals of exactly the entries created up to
    that instant, as the column keeps it, however many snapshots there are. *)
Theorem crdb_balanceAsOf_exact (t a c : string) (at_ : Time) (db : DB) (e : Env) d k ver s' :
  amounts_fit db →
  (∀ sn, sn ∈ t_snapshots db → snap_row t a c sn = true → snapshot_exact db sn) →
  (∀ r, r ∈ t_entries db → ts_lt (Some (pg_timestamptz time_zero)) (e_created_at r) = true) →
  (time_zero ≤ at_)%Z →
  balanceAsOf t a c at_ (db, e) = (Ok (d, k, ver), s') →
  val d = total_until t a c debit_row (valid at_) (t_entries db) ∧
  val k = total_until t a c credit_row (valid at_) (t_entries db).
Proof.
  intros Hfit Hsn Hold Hat Hrun. apply bind_ok in Hrun as (snap & s1 & Hsnap & Hrun).
  apply bind_ok in Hsnap as (row & s2 & Hrow & Hret). injection Hret as <- <-.
  apply cr_select_one_ok in Hrow as [Hrow E1]. simpl in Hrow, E1. unfold valid.
  destruct row as [sn|]; simpl in Hrun;
    apply bind_ok in Hrun as ([d0 k0] & s3 & Hsum & Hrun); injection Hrun as <- <- <- <-;
    (apply select_sums_ok in Hsum as [Ed Ek]; [|by rewrite E1]); rewrite E1 in Ed, Ek; rewrite !val_add, Ed, Ek.
  - apply head_Some_elem_of in Hrow. rewrite (pg_order_by_perm _ _), list_elem_of_filter in Hrow.
    destruct Hrow as [[Hkey Hle]%Is_true_true%andb_true_iff Hin].
    destruct (Hsn sn Hin Hkey) as [Hd Hk]. unfold snap_row in Hkey. eqs. subst t a c. rewrite Hd, Hk.
    unfold ts_le in Hle. destruct (sn_snapshot_at sn) as [x|] eqn:Hx; [|done]. apply Z.leb_le in Hle. simpl.
    rewrite pg_time_kept. split; by apply cr_total_split.
  - assert (Hz : (pg_timestamptz time_zero ≤ pg_timestamptz at_)%Z) by by apply pg_timestamptz_mono.
    rewrite !val_zero. split.
    + rewrite <- (cr_total_split t a c debit_row _ _ _ Hz). by rewrite (cr_total_before t a c debit_row).
    + rewrite <- (cr_total_split t a c credit_row _ _ _ Hz). by rewrite (cr_total_before t a c credit_row).
Qed.
End Sums.

(** ** UUIDs of entries *)

Definition to_lower (c : ascii) : ascii :=
  let n := N_of_ascii c in if (65 <=? n)%N && (n <=? 90)%N then ascii_of_N (n + 32) else c.
Fixpoint lower (s : string) : string := match s with "" => "" | String c s' => String (to_lower c) (lower s') end.

(** The facts about one digit are checked on all characters and values. *)
Lemma hexVal_digit c : (0 ≤ hexVal c)%Z → (hexVal c < 16)%Z ∧ hex_digit (hexVal c) = to_lower c ∧ c ≠ "-"%char ∧ to_lower c ≠ "-"%char ∧ hexVal (to_lower c) = hexVal c.
Proof. by destruct c as [[] [] [] [] [] [] [] []]; vm_compute; intros Hc; try (by exfalso; apply Hc). Qed.

Definition nibbles : list Z := Z.of_nat <$> seq 0 16.
Lemma nibble n : (0 ≤ n < 16)%Z → n ∈ nibbles.
Proof. intros Hn. apply list_elem_of_fmap. exists (Z.to_nat n). split; [lia|]. apply elem_of_seq. lia. Qed.

Lemma byte_nibbles h l : (0 ≤ h < 16)%Z → (0 ≤ l < 16)%Z →
  let b := Z.land (Z.lor (Z.shiftl h 4) l) 255 in (0 ≤ b < 256)%Z ∧ Z.shiftr b 4 = h ∧ Z.land b 15 = l.
Proof.
  intros Hh%nibble Hl%nibble.
  assert (Hall : forallb (λ h, forallb (λ l, let b := Z.land (Z.lor (Z.shiftl h 4) l) 255 in
    (0 <=? b)%Z && (b <? 256)%Z && (Z.shiftr b 4 =? h)%Z && (Z.land b 15 =? l)%Z) nibbles) nibbles = true) by by vm_compute.
  rewrite forallb_forall in Hall. specialize (Hall h (proj1 (list_elem_of_In _ _) Hh)). rewrite forallb_forall in Hall.
  specialize (Hall l (proj1 (list_elem_of_In _ _) Hl)). cbv zeta in *.
  repeat (apply andb_true_iff in Hall as [Hall ?]). lia.
Qed.

Lemma no_hyphens_id s : no_hyphens (no_hyphens s) = no_hyphens s.
Proof. induction s as [|c s IH]; simpl; [done|]. case_bool_decide as Hc; simpl; [done|]. rewrite bool_decide_eq_false_2 by done. by rewrite IH. Qed.

Lemma hex_bytes_ok n : ∀ s b, (String.length s < n)%nat → hex_bytes s = Some b →
  (String.length s = 2 * length b)%nat ∧ Forall (λ x, 0 ≤ x < 256)%Z b ∧
  sprintf_x b = lower s ∧ hex_bytes (lower s) = Some b ∧ no_hyphens (lower s) = lower s.
Proof.
  induction n as [|n IH]; intros s b Hn Hs; [lia|].
  destruct s as [|h [|l s]]; simpl in Hs; simplify_eq/=; [done|].
  destruct (Z.ltb_spec (hexVal h) 0) as [|Hh], (Z.ltb_spec (hexVal l) 0) as [|Hl]; try done; simpl in Hs.
  destruct (hex_bytes s) as [bs|] eqn:Hbs; simplify_eq/=.
  destruct (IH s bs) as (E1 & E2 & E3 & E4 & E5); [lia|done|].
  destruct (hexVal_digit h Hh) as (H1 & H2 & _ & H3 & H4), (hexVal_digit l Hl) as (L1 & L2 & _ & L3 & L4).
  destruct (byte_nibbles (hexVal h) (hexVal l)) as (B1 & B2 & B3); [lia..|].
  rewrite B2, B3, H2, L2, E3, H4, L4, E4. rewrite !(bool_decide_eq_false_2) by done. rewrite E5.
  rewrite (proj2 (Z.ltb_ge _ _) Hh), (proj2 (Z.ltb_ge _ _) Hl). simpl. split_and!; try done; [lia|by constructor].
Qed.

Lemma lower_length s : String.length (lower s) = String.length s.
Proof. induction s as [|c s IH]; simpl; [done|]. by rewrite IH. Qed.

(** The id of an entry: [InsertEntry] keeps the sixteen bytes its UUID text
    denotes, whatever the case of its digits and wherever its hyphens are,
    and the id [ListAccountActivity] answers with is that text in lower case
    without the hyphens, which is not the id the entry was given but parses
    to the same entry. *)
Theorem parseUUID_sprintf_x (s : string) (b : UUID) :
  parseUUID s = Some b →
  length b = 16%nat ∧ Forall (λ x, 0 ≤ x < 256)%Z b ∧
  sprintf_x b = lower (no_hyphens s) ∧ parseUUID (sprintf_x b) = Some b.
Proof.
  unfold parseUUID at 1. destruct (Nat.eqb_spec (String.length (no_hyphens s)) 32) as [Hlen|]; [|done]. intros Hs.
  destruct (hex_bytes_ok _ _ _ (Nat.lt_succ_diag_r _) Hs) as (E1 & E2 & E3 & E4 & E5).
  split_and!; [lia|done|done|]. unfold parseUUID. by rewrite E3, E5, lower_length, Hlen.
Qed.

(** ** A failed statement dooms its transaction *)

Section Doomed.
Context {H : Host} {D : DecimalOps} {CE : CrdbEngine D}.

Definition run_statements (later : list (DBTX → M error (DB * Env) unit)) (s : CrTx * Env) : CrTx * Env :=
  foldl (λ s m, (on_tx m s).2) s later.

Lemma doomed_stays later s :
  tx_state s.1 ≠ TxOpen → tx_state (run_statements later s).1 ≠ TxOpen ∧ tx_db (run_statements later s).1 = tx_db s.1.
Proof.
  revert s. induction later as [|m later IH]; intros s Hs; [done|]. simpl.
  assert (E : (on_tx m s).2 = s) by (destruct s as [[db b []] e]; done). rewrite E. by apply IH.
Qed.

(** A failed statement dooms its transaction: once a statement fails (and
    not only finds no row), the later statements do nothing, whatever they
    are, and the commit fails and leaves the store as it was, so nothing of
    the transaction is ever published. *)
Theorem failed_statement_dooms {A} (stmt : DBTX → M error (DB * Env) A) (later : list (DBTX → M error (DB * Env) unit))
    (s s1 : CrTx * Env) (er : error) (db : DB) :
  on_tx stmt s = (Err er, s1) → er ≠ ErrNoRows →
  let s2 := run_statements later s1 in
  tx_db s2.1 = tx_db s1.1 ∧ ∃ er' s3, cr_Commit ((db, s2.1), s2.2) = (Err er', s3) ∧ s3.1.1 = db.
Proof.
  intros Hrun Her s2.
  assert (Hs1 : tx_state s1.1 ≠ TxOpen).
  { destruct s as [[tdb b []] e]; simpl in Hrun; try by injection Hrun as _ <-.
    destruct (stmt (InTx b) (tdb, e)) as [[a|er'] [db' e']]; [done|]. destruct er'; by injection Hrun as <- <-. }
  destruct (doomed_stays later s1 Hs1) as [Hs2 Hdb]. split; [done|]. unfold cr_Commit. fold s2 in Hs2.
  destruct (tx_state s2.1); [done|destruct (host_fault _); by do 2 eexists|by do 2 eexists].
Qed.
End Doomed.

(** ** What the matcher reads and writes *)

Section Marks.
Context {H : Host} {D : DecimalOps} {L : DecimalLaws D} {CE : CrdbEngine D} {CL : CrdbEngineLaws D CE}.

Definition row_mark (r : ExternalRecordRow) : ExternalRecordStatus * string := (x_match_status r, deref (x_matched_journal_id r)).
Definition db_marks (db : DB) : Marks := λ t id, row_mark <$> sel (ext_row id t) (t_external db).

Lemma cr_sum_journal_rows t j a c dir l d :
  (∀ r, r ∈ l → fits18 (val (e_amount r))) →
  sum_rows dir (filter (λ r, (e_tenant_id r =s t) && (e_journal_id r =s j) && (e_account_id r =s a) && (e_currency r =s c)) l) = Some d →
  val d = journal_total (row_entry <$> l) t j a c dir.
Proof.
  intros Hl Hd. apply sum_rows_exact in Hd; [|intros r [_ Hr]%list_elem_of_filter; by apply Hl]. rewrite Hd.
  unfold entry_total, journal_total. rewrite Qcsum_filter, Qcsum_fmap. apply Qcsum_ext. intros r _.
  unfold row_entry; simpl. by destruct ((_ =s _) && _ && _ && _), (_ =s _).
Qed.

(** The sums are exact where the stored amounts fit the columns, which they
    always do. *)
#[export] Instance CrMatcherLaws : MatcherLaws D CrTx.
Proof.
  refine {| mt_entries x := row_entry <$> t_entries (tx_db x); mt_marks x := db_marks (tx_db x); mt_exact x := amounts_fit (tx_db x) |}.
  - intros t src ws we s. simpl. unfold cr_ListExternalRecordsForRecon, q_ListExternalRecordsForRecon. apply wp_bind, cr_wp_select_many.
    intros e. apply wp_ret. split; [done|]. apply list.Forall_forall. intros x (r & -> & Hr)%list_elem_of_fmap.
    rewrite pg_order_by_perm, list_elem_of_filter in Hr. destruct Hr as [Hp Hin]. simpl.
    unfold db_marks. destruct (sel _ _) eqn:Hs; [done|]. apply (sel_none _ _ _ Hs) in Hin.
    apply Is_true_true in Hp. unfold ext_row in Hin. rewrite bool_decide_eq_true_2 in Hin by done. simpl in Hin. by rewrite Hin in Hp.
  - intros t src ws we s. simpl. unfold cr_ListJournalsForRecon, q_ListJournalsForRecon. apply wp_bind, cr_wp_select_many.
    intros e. by apply wp_ret.
  - intros t j a c s Hex. simpl. unfold cr_SumJournalEntries, q_SumJournalEntries, select_sums. apply cr_wp_on_tx.
    intros now [d k] db e Hsum. cbv zeta in Hsum. destruct (sum_rows "DEBIT" _) as [d'|] eqn:Hd; [|done].
    destruct (sum_rows "CREDIT" _) as [k'|] eqn:Hk; [|done]. injection Hsum as <- <- <-. split; [done|].
    split; by eapply cr_sum_journal_rows.
  - intros t id st j s. apply (cr_wp_insert (λ db, _)). intros now e _. split; [done|]. split; [|done]. simpl. unfold db_marks; simpl.
    apply (sel_mark_put (λ t i, ext_row i t) _ row_mark); [done| |].
    + intros x. unfold row_mark; simpl. by rewrite cr_deref_nullString.
    + intros t0 id0 t' id' x Hx Hx'. unfold ext_row in *. eqs. by subst.
Defined.
End Marks.
