(* ===== verification/Progress.v ===== *)
(** * A flow whose guards hold is posted

    [FlowLaws] says what a flow that succeeds has done.  Here the converse, on
    the SQLite backend: when the driver fails no statement and nothing stored
    clashes with the request, a flow that meets the guards succeeds, so that
    the guards decide the outcome. *)

From S2P Require Import Prelude Money Ledger Repo Contract Sql SqliteDb Sqlite SqliteLaws Service Flow FlowLaws.
From stdpp Require Import base gmap strings list numbers.
From Stdlib Require Import Qcanon.

(** The total version: the computation ends without an error. *)
Abbreviation wpt m Q s := (wp m Q (λ _ _, False) s).

Lemma any_snoc {A} (p : A → bool) l x : any p (l ++ [x]) = any p l || p x.
Proof. unfold any. rewrite existsb_app. simpl. by rewrite orb_false_r. Qed.

Section Progress.
Context {H : Host} {D : DecimalOps} {L : DecimalLaws D} {SE : SqlEngine D} {SL : SqlEngineLaws D SE}.
Context (no_faults : ∀ n, host_fault n = false) (ids_distinct : ∀ m n, host_newid m = host_newid n → m = n).

(** ** Statements that succeed *)

Lemma wpt_statement {A} (f : Z → DB → result error (A * DB)) t e (Q : A → SqTx * Env → Prop) :
  tx_done t = false →
  (∀ now, match f now (tx_db t) with Ok (a, db') => Q a (mkSqTx db' false, tick e) | Err _ => False end) →
  wpt (on_tx (statement f)) Q (t, e).
Proof.
  intros Ht Hf. unfold wp, on_tx, statement. rewrite Ht, no_faults.
  specialize (Hf (host_dbnow (e_db e))). destruct (f _ _) as [[a db']|er]; [exact Hf|done].
Qed.

Lemma wpt_insert ok f t e (Q : unit → SqTx * Env → Prop) :
  tx_done t = false → ok (tx_db t) = true → (∀ now, Q tt (mkSqTx (f now (tx_db t)) false, tick e)) →
  wpt (on_tx (sql_insert ok f)) Q (t, e).
Proof. intros Ht Hok HQ. apply wpt_statement; [done|]. intros now. by rewrite Hok. Qed.

Lemma wpt_update f t e (Q : unit → SqTx * Env → Prop) :
  tx_done t = false → (∀ now, Q tt (mkSqTx (f now (tx_db t)) false, tick e)) →
  wpt (on_tx (sql_update f)) Q (t, e).
Proof. intros Ht HQ. by apply wpt_statement. Qed.

Lemma wpt_select_one {A} (f : DB → option A) a t e (Q : A → SqTx * Env → Prop) :
  tx_done t = false → f (tx_db t) = Some a → Q a (mkSqTx (tx_db t) false, tick e) →
  wpt (on_tx (select_one f)) Q (t, e).
Proof. intros Ht Hf HQ. apply wpt_statement; [done|]. intros now. by rewrite Hf. Qed.

Lemma wpt_code {A} c (m : M error (SqTx * Env) A) Q s : wpt m Q s → wpt (no_rows_code c m) Q s.
Proof. unfold wp, no_rows_code. by destruct (m s) as [[a|e] s']. Qed.

(** ** Ids nobody uses yet *)

Record unused (id : string) (db : DB) : Prop := {
  un_flow : any (λ r, f_id r =s id) (t_flows db) = false;
  un_step : any (λ r, s_id r =s id) (t_steps db) = false;
  un_journal : any (λ r, j_id r =s id) (t_journals db) = false;
  un_entry : any (λ r, e_id r =s id) (t_entries db) = false;
  un_outbox : any (λ r, o_id r =s id) (t_outbox db) = false }.

(** The ids the host gives from the [n]-th on. *)
Definition fresh_from (n : nat) (db : DB) : Prop := ∀ m, (n ≤ m)%nat → unused (host_newid m) db.

Lemma newid_other m n : (m < n)%nat → (host_newid m =s host_newid n) = false.
Proof. intros Hlt. apply bool_decide_eq_false_2. intros Heq. apply ids_distinct in Heq. lia. Qed.

Lemma fresh_weaken m n db : (m ≤ n)%nat → fresh_from m db → fresh_from n db.
Proof. intros Hle Hf k Hk. apply Hf. lia. Qed.

Lemma wpt_NewID (Q : string → SqTx * Env → Prop) t e :
  Q (host_newid (e_ids e)) (t, mkEnv (S (e_ids e)) (e_now e) (e_db e)) → wpt NewID Q (t, e).
Proof. done. Qed.

Lemma wpt_Now (Q : Time → SqTx * Env → Prop) t e :
  Q (host_now (e_now e)) (t, mkEnv (e_ids e) (S (e_now e)) (e_db e)) → wpt Now Q (t, e).
Proof. done. Qed.

(** A row with an id given before keeps the later ones unused. *)
Ltac fresh_row := intros Hf Hlt n' Hn'; destruct (Hf n' Hn'); split; simpl; try done;
  rewrite any_snoc; apply orb_false_iff; split; [done|simpl; apply newid_other; lia].

Lemma fresh_flow n m db t ft k so ac me now :
  fresh_from n db → (m < n)%nat →
  fresh_from n (set_flows (t_flows db ++ [mkFlowRunRow (host_newid m) t ft k so ac "RUNNING" me now None None]) db).
Proof. fresh_row. Qed.
Lemma fresh_journal n m db t f ev so ty ac me now :
  fresh_from n db → (m < n)%nat →
  fresh_from n (set_journals (t_journals db ++ [mkLedgerJournalRow (host_newid m) t f ev so ty ac me now]) db).
Proof. fresh_row. Qed.
Lemma fresh_entry n m db t j a c di am now :
  fresh_from n db → (m < n)%nat →
  fresh_from n (set_entries (t_entries db ++ [mkLedgerEntryRow (host_newid m) t j a c di am now]) db).
Proof. fresh_row. Qed.
Lemma fresh_step n m db t f st sta j er now :
  fresh_from n db → (m < n)%nat →
  fresh_from n (set_steps (t_steps db ++ [mkFlowStepRow (host_newid m) t f st sta j er now]) db).
Proof. fresh_row. Qed.
Lemma fresh_event n m db t ag ty k pa sta at_ now pu :
  fresh_from n db → (m < n)%nat →
  fresh_from n (set_outbox (t_outbox db ++ [mkOutboxEventRow (host_newid m) t ag ty k pa sta at_ now pu]) db).
Proof. fresh_row. Qed.

Lemma fresh_balances n l db : fresh_from n db → fresh_from n (set_balances l db).
Proof. intros Hf m Hm. by destruct (Hf m Hm). Qed.

(** ** One step *)

Section Steps.
Context (r : ExecuteFlowRequest) (run : string).

Definition step_row (s : StepInput) (x : FlowStepRow) : bool :=
  (s_tenant_id x =s ef_TenantId r) && (s_flow_run_id x =s run) && (s_step_id x =s si_StepID s).
Definition step_key (s : StepInput) : string := run +:+ ":" +:+ si_StepID s.
Definition step_event (s : StepInput) : string := jr_EventID (si_Journal s).

(** What the transaction holds while the steps [todo] remain. *)
Record going (todo : list StepInput) (t : SqTx) (e : Env) : Prop := {
  go_open : tx_done t = false;
  go_fresh : fresh_from (e_ids e) (tx_db t);
  go_run : flow_exists run (tx_db t) = true;
  go_accounts : ∀ s en, s ∈ todo → en ∈ step_entries s → account_exists (en_AccountID en) (tx_db t) = true;
  go_events : ∀ s, s ∈ todo → any (λ j, j_event_id j =s step_event s) (t_journals (tx_db t)) = false;
  go_steps : ∀ s, s ∈ todo → any (step_row s) (t_steps (tx_db t)) = false;
  go_outbox : ∀ s, s ∈ todo → any (λ o, o_idempotency_key o =s step_key s) (t_outbox (tx_db t)) = false }.

(** Every key of the flow is in the balance map. *)
Definition covers (ks : list key) (st : gmap key balState) : Prop := ∀ k, k ∈ ks → is_Some (st !! k).

Lemma covers_insert ks st k b : covers ks st → covers ks (<[k := b]> st).
Proof.
  intros Hc k' Hk'. destruct (decide (k = k')) as [->|Hne].
  - rewrite lookup_insert, decide_True by done. by eexists.
  - rewrite lookup_insert_ne by done. by apply Hc.
Qed.

(** The entry loop inside the journal [j]. *)
Lemma wpt_postEntries (j : string) ks es st t e :
  tx_done t = false → fresh_from (e_ids e) (tx_db t) → any (λ x, j_id x =s j) (t_journals (tx_db t)) = true →
  covers ks st →
  (∀ en, en ∈ es → entry_key en ∈ ks ∧ Direction_Valid (en_Direction en) = true ∧
     account_exists (en_AccountID en) (tx_db t) = true) →
  wpt (foldM (postEntry (ef_TenantId r) j) es st)
    (λ st' s', ∃ l, tx_db s'.1 = set_entries l (tx_db t) ∧ tx_done s'.1 = false ∧
       (e_ids e ≤ e_ids s'.2)%nat ∧ fresh_from (e_ids s'.2) (tx_db s'.1) ∧ covers ks st') (t, e).
Proof.
  intros Ht Hf Hj Hc Hes.
  apply (wp_foldM _ _ _ (λ _ st' s', ∃ l, tx_db s'.1 = set_entries l (tx_db t) ∧ tx_done s'.1 = false ∧
       (e_ids e ≤ e_ids s'.2)%nat ∧ fresh_from (e_ids s'.2) (tx_db s'.1) ∧ covers ks st')).
  - exists (t_entries (tx_db t)). simpl. split_and!; try done. by destruct (tx_db t).
  - intros pre en post st' [t' e'] Hl (l & E & Ht' & Hle & Hf' & Hc'). simpl in *.
    destruct (Hes en) as (Hk & Hd & Ha); [rewrite Hl; set_solver|].
    unfold postEntry. apply wp_bind, wpt_NewID, wp_bind. apply wpt_insert; [done| |].
    + rewrite E. simpl. pose proof (Hf' _ (Nat.le_refl _)) as [_ _ _ Hun _]. rewrite E in Hun. simpl in Hun.
      rewrite Hun. simpl. unfold fk. rewrite E in *. simpl. unfold journal_exists, account_exists in *. simpl.
      rewrite Hj, Ha, !orb_true_r, !andb_true_r. unfold Direction_Valid in Hd. unfold one_of. simpl. by rewrite orb_false_r.
    + intros now. destruct (Hc' _ Hk) as [b Hb]. rewrite Hb. apply wp_ret. simpl.
      exists (l ++ [mkLedgerEntryRow (host_newid (e_ids e')) (ef_TenantId r) j (en_AccountID en) (en_Currency en)
                   (en_Direction en) (dString (en_Amount en)) now]).
      split; [by rewrite E|]. split; [done|]. split; [lia|]. split; [|by apply covers_insert].
      apply fresh_entry; [|lia]. eapply fresh_weaken; [|done]. lia.
Qed.

Lemma entries_valid (j : Journal) en :
  Journal_Validate j = Ok tt → en ∈ jr_Entries j → Direction_Valid (en_Direction en) = true.
Proof. intros [HF _]%Journal_Validate_sound Hen. apply (proj1 (list.Forall_forall _ _) HF) in Hen as (_ & _ & Hd & _). exact Hd. Qed.

Lemma NoDup_other {A} (f : A → string) x todo s : NoDup (f <$> x :: todo) → s ∈ todo → (f x =s f s) = false.
Proof.
  intros [Hx _]%list.NoDup_cons Hs. apply bool_decide_eq_false_2. intros Heq. apply Hx. rewrite Heq. by apply list_elem_of_fmap_2.
Qed.

(** The step loop: one turn succeeds and leaves the remaining steps ready. *)
Lemma wpt_applyStep meta ks x todo acc t e :
  going (x :: todo) t e → covers ks acc.1 →
  NoDup (step_event <$> x :: todo) → NoDup (si_StepID <$> x :: todo) →
  Journal_Validate (si_Journal x) = Ok tt → (∀ en, en ∈ step_entries x → entry_key en ∈ ks) →
  wpt (applyStep r run meta acc x) (λ acc' s', going todo s'.1 s'.2 ∧ covers ks acc'.1) (t, e).
Proof.
  intros [Ho Hf Hrun Hacc Hev Hst Hob] Hc Hnev Hnst Hval Hks. destruct acc as [st res]. simpl in Hc.
  unfold applyStep. rewrite Hval. apply wp_bind, wpt_NewID, wp_bind, wpt_Now, wp_bind.
  apply wpt_insert; [done| |].
  { pose proof (Hf _ (Nat.le_refl _)) as [_ _ Hun _ _]. simpl. rewrite Hun. simpl. apply negb_true_iff, (Hev x). by left. }
  intros nj. apply wp_bind. eapply wp_mono; [apply (wpt_postEntries _ ks)|cbv beta|done]; simpl.
  - done.
  - apply fresh_journal; [|lia]. eapply fresh_weaken; [|done]. lia.
  - rewrite any_snoc. simpl. by rewrite eqs_refl, orb_true_r.
  - done.
  - intros en Hen. split; [by apply Hks|]. split; [by apply (entries_valid (si_Journal x))|].
    apply (Hacc x); [by left|done].
  - intros st' [t' e'] (l & E & Ho' & Hle & Hf' & Hc'). simpl in *.
    apply wp_bind, wpt_NewID, wp_bind, wpt_Now, wp_bind. apply wpt_insert; [done| |].
    { pose proof (Hf' _ (Nat.le_refl _)) as [_ Hun _ _ _]. simpl. rewrite Hun, E. simpl.
      pose proof (Hst x ltac:(by left)) as Hsx. unfold step_row in Hsx. rewrite Hsx. simpl. apply andb_true_iff. split.
      - unfold fk, flow_exists in *; simpl. by rewrite Hrun, orb_true_r.
      - unfold fk, ref_opt, nullString, journal_exists; simpl. destruct (_ =s _); [by rewrite orb_true_r|].
        rewrite any_snoc; simpl. by rewrite eqs_refl, !orb_true_r. }
    intros ns. apply wp_bind, wpt_NewID, wp_bind, wpt_Now, wp_bind. simpl. apply wpt_insert; [done| |].
    { pose proof (Hf' (S (e_ids e')) (Nat.le_succ_diag_r _)) as [_ _ _ _ Hun]. simpl. rewrite Hun. simpl. rewrite E. simpl.
      apply negb_true_iff, (Hob x). by left. }
    intros no. apply wp_ret. split; [|done]. simpl. split; simpl.
    + done.
    + eapply (fresh_event _ (S (e_ids e')) (set_steps _ (tx_db t'))); [|lia].
      eapply (fresh_step _ (e_ids e')); [|lia]. eapply fresh_weaken; [|done]. lia.
    + by rewrite E.
    + intros s en Hs. rewrite E. by apply Hacc; right.
    + intros s Hs. rewrite E; simpl. rewrite any_snoc, Hev by (by right). simpl. by apply (NoDup_other step_event x todo).
    + intros s Hs. rewrite E; simpl. rewrite any_snoc, Hst by (by right). simpl. unfold step_row; simpl.
      rewrite (NoDup_other si_StepID x todo s) by done. apply andb_false_r.
    + intros s Hs. rewrite E; simpl. rewrite any_snoc, Hob by (by right). simpl. unfold step_key. apply bool_decide_eq_false_2.
      intros Heq%(inj (String.append run))%(inj (String.append ":")). apply (NoDup_other si_StepID x todo s) in Hnst; [|done].
      by apply bool_decide_eq_false_1 in Hnst.
Qed.

(** The whole step loop. *)
Lemma wpt_applySteps meta ks steps st t e :
  going steps t e → covers ks st → NoDup (step_event <$> steps) → NoDup (si_StepID <$> steps) →
  (∀ x, x ∈ steps → Journal_Validate (si_Journal x) = Ok tt ∧ ∀ en, en ∈ step_entries x → entry_key en ∈ ks) →
  wpt (foldM (applyStep r run meta) steps (st, [])) (λ _ s', tx_done s'.1 = false) (t, e).
Proof.
  intros Hg Hc Hnev Hnst Hok. eapply wp_mono.
  - apply (wp_foldM _ _ _ (λ pre acc s', ∃ todo, steps = pre ++ todo ∧ going todo s'.1 s'.2 ∧ covers ks acc.1)).
    + by exists steps.
    + intros pre x post acc [t' e'] Hl (todo & Htodo & Hg' & Hc'). rewrite Hl in Htodo. apply app_inv_head in Htodo as <-.
      simpl in *. rewrite Hl, fmap_app, list.NoDup_app in Hnev, Hnst.
      destruct (Hok x) as [Hval Hks]; [rewrite Hl; set_solver|].
      eapply wp_mono; [apply (wpt_applyStep meta ks x post); try done; [apply Hnev|apply Hnst]|cbv beta|done].
      intros acc' s' [Hg2 Hc2]. exists post. by rewrite <- app_assoc.
  - cbv beta. intros acc s' (todo & _ & [Ho _ _ _ _ _ _] & _). done.
  - done.
Qed.
End Steps.
(** ** Locking and settling the balances *)

Definition parses (row : AccountBalanceRow) : Prop :=
  is_Some (NewFromString (b_posted_debits row)) ∧ is_Some (NewFromString (b_posted_credits row)).

Lemma acct_row t db (k : key) a b :
  acct_ok t (db_view b db) k a →
  ∃ row, sel (λ x, (a_tenant_id x =s t) && (a_id x =s k.1)) (t_accounts db) = Some row ∧
    a_status row = AccountActive ∧ a_currency row = k.2 ∧ account_exists k.1 db = true.
Proof.
  intros (Ha & Hs & Hc). simpl in Ha. destruct (sel _ _) as [row|] eqn:Hrow; [|done]. simpl in Ha.
  injection Ha as _ _ _ _ _ Hcc _ _ Hss. exists row. split; [done|]. split; [congruence|]. split; [congruence|].
  apply sel_some in Hrow as [Hin Hm]. apply any_true. exists row. split; [done|]. by apply andb_true_iff in Hm as [_ ?].
Qed.

(** Loading one key leaves every table but the balances. *)
Lemma wpt_lockKey tn st k t e db0 l :
  tx_done t = false → tx_db t = set_balances l db0 → Forall parses l →
  (∃ row, sel (λ x, (a_tenant_id x =s tn) && (a_id x =s k.1)) (t_accounts db0) = Some row ∧
    a_status row = AccountActive ∧ a_currency row = k.2 ∧ account_exists k.1 db0 = true) →
  wpt (lockKey tn st k) (λ _ s', ∃ l', tx_done s'.1 = false ∧ tx_db s'.1 = set_balances l' db0 ∧
    Forall parses l' ∧ e_ids s'.2 = e_ids e) (t, e).
Proof.
  intros Ht E Hl (row & Hrow & Hact & Hccy & Hex). unfold lockKey. apply wp_bind, wp_bind, wpt_code.
  apply (wpt_select_one _ row); [done|by rewrite E|]. apply wp_ret. simpl. rewrite Hact, Hccy, !eqs_refl. simpl.
  apply wp_bind, wp_ret, wp_bind, wp_ret, wp_bind, wp_bind. apply wpt_insert; [done| |].
  { simpl. rewrite E. unfold fk, account_exists in *. simpl. by rewrite Hex, !orb_true_r. }
  intros now. simpl. set (db' := if any _ _ then _ else _).
  assert (Hdb' : ∃ l', db' = set_balances l' db0 ∧ Forall parses l' ∧ any (bal_row tn k.1 k.2) l' = true).
  { unfold db'. rewrite E. simpl. destruct (any _ l) eqn:Hany.
    - by exists l.
    - eexists. split; [done|]. split.
      + apply Forall_snoc; [done|]. destruct parse_zero as (z & Hz & _). by split; exists z.
      + rewrite any_snoc. unfold bal_row; simpl. by rewrite !eqs_refl, orb_true_r. }
  destruct Hdb' as (l' & -> & Hl' & Hany). apply any_true in Hany as (b0 & Hb0 & Hm0).
  destruct (sel (bal_row tn k.1 k.2) l') as [b|] eqn:Hb.
  2:{ by rewrite (sel_none _ _ _ Hb Hb0) in Hm0. }
  apply wp_bind. apply (wpt_select_one _ b); [done|done|].
  apply sel_some in Hb as [Hbin _]. destruct (proj1 (list.Forall_forall _ _) Hl' b Hbin) as [[d Hd] [c Hc]].
  unfold parse_balance. rewrite Hd, Hc. apply wp_ret, wp_ret. by exists l'.
Qed.

Lemma funded_same t v k a a' b : acct_ok t v k a → acct_ok t v k a' → funded a b → funded a' b.
Proof.
  intros (Ha & _) (Ha' & _) Hf. rewrite Ha in Ha'. injection Ha' as _ _ _ _ _ _ Hn Hneg _.
  unfold funded, normalized in *. by rewrite <- Hneg, <- Hn.
Qed.

Lemma no_overdraft (b : balState) :
  funded (bal_acct b) (bal_val b) →
  negb (acc_AllowNegative (bal_acct b)) &&
  IsNegative (NormalizedBalance (acc_NormalBalance (bal_acct b)) (bal_debits b) (bal_credits b)) = false.
Proof.
  intros Hf. destruct (acc_AllowNegative (bal_acct b)) eqn:Hneg; [done|]. simpl. specialize (Hf Hneg).
  rewrite IsNegative_spec, val_NormalizedBalance. apply bool_decide_eq_false_2, Qcle_not_lt. exact Hf.
Qed.

Lemma wpt_settleKeys tn ks v es st t e :
  tx_done t = false → tracks tn ks v es st →
  (∀ k, k ∈ ks → ∃ a, acct_ok tn v k a ∧ funded a (add2 (lv_balance v (tn, k.1, k.2)) (totals k es))) →
  wpt (foldM (settleKey tn st) ks tt) (λ _ s', tx_done s'.1 = false) (t, e).
Proof.
  intros Ht Htr Hg. apply (wp_foldM _ _ _ (λ _ _ s', tx_done s'.1 = false)); [done|].
  intros pre k post [] [t' e'] Hl Ht'. assert (Hk : k ∈ ks) by (rewrite Hl; set_solver).
  destruct (Htr k Hk) as (b & Hb & Hacc & Hval). destruct (Hg k Hk) as (a & Ha & Hf). unfold settleKey. rewrite Hb, no_overdraft.
  - apply wp_bind, wp_ret. by apply wpt_update.
  - rewrite Hval. by apply (funded_same tn v k a).
Qed.

(** ** The flow *)

(** Nothing stored clashes with the request, and no id was given twice. *)
Record no_clash (r : ExecuteFlowRequest) (steps : list StepInput) (db : DB) (e : Env) : Prop := {
  nc_fresh : fresh_from (e_ids e) db;
  nc_key : any (λ f, f_idempotency_key f =s ef_IdempotencyKey r) (t_flows db) = false;
  nc_events : NoDup (step_event <$> steps) ∧
    ∀ s, s ∈ steps → any (λ j, j_event_id j =s step_event s) (t_journals db) = false;
  nc_steps : NoDup (si_StepID <$> steps) ∧
    ∀ s, s ∈ steps → any (step_row r (host_newid (e_ids e)) s) (t_steps db) = false;
  nc_outbox : ∀ s, s ∈ steps →
    any (λ o, o_idempotency_key o =s step_key (host_newid (e_ids e)) s) (t_outbox db) = false;
  nc_balances : Forall parses (t_balances db) }.

Lemma wpt_runNewFlow r steps t e :
  tx_done t = false → no_clash r steps (tx_db t) e → flow_guards r steps (tx_view t) →
  wpt (runNewFlow r steps) (λ _ s', tx_done s'.1 = false) (t, e).
Proof.
  intros Ht [Hf Hkey [Hnev Hev] [Hnst Hst] Hob Hbal] [Hval Hg]. unfold runNewFlow.
  apply wp_bind, wpt_NewID, wp_bind, wpt_Now, wp_bind. simpl. apply wpt_insert; [done| |].
  { simpl. destruct (Hf _ (Nat.le_refl _)) as [Hun _ _ _ _]. by rewrite Hun, Hkey. }
  intros nf. set (db1 := set_flows _ _). set (e1 := tick _). simpl. set (run := host_newid (e_ids e)) in *.
  set (t1 := mkSqTx db1 false). set (tn := ef_TenantId r) in *. set (ks := orderedKeys steps) in *.
  assert (Hg1 : ∀ k, k ∈ ks → ∃ a, acct_ok tn (tx_view t1) k a ∧
    funded a (add2 (lv_balance (tx_view t1) (tn, k.1, k.2)) (totals k (steps ≫= step_entries)))) by exact Hg.
  assert (Hrow : ∀ k, k ∈ ks → ∃ row, sel (λ x, (a_tenant_id x =s tn) && (a_id x =s k.1)) (t_accounts db1) = Some row ∧
    a_status row = AccountActive ∧ a_currency row = k.2 ∧ account_exists k.1 db1 = true).
  { intros k Hk. destruct (Hg1 k Hk) as (a & Ha & _). by apply (acct_row _ _ _ _ _ Ha). }
  apply wp_bind. eapply wp_mono; [apply wp_conj; [apply (wp_lockKeys tn ks (tx_view t1)); reflexivity|]|cbv beta|].
  { apply (wp_foldM _ _ _ (λ _ _ s', ∃ l', tx_done s'.1 = false ∧ tx_db s'.1 = set_balances l' db1 ∧
      Forall parses l' ∧ e_ids s'.2 = S (e_ids e))).
    - exists (t_balances db1). split_and!; try done; by destruct db1.
    - intros pre k post st [t' e'] Hl (l' & Ht' & E' & Hl' & He'). simpl in *. rewrite <- He'.
      apply (wpt_lockKey _ _ _ _ _ db1 l'); try done. apply Hrow. rewrite Hl. set_solver. }
  2:{ by intros ? ? [_ ?]. }
  intros st [t2 e2] [[E2 Htr] (l2 & Ht2 & Edb2 & _ & He2)]. simpl in E2, Ht2, Edb2, He2.
  apply wp_bind. eapply wp_mono; [apply wp_conj; [apply (wp_applySteps r run _ steps (tx_view t1)); [exact E2|exact Htr]|]|cbv beta|].
  { apply (wpt_applySteps r run _ ks); try done.
    - split; rewrite ?Edb2, ?He2; simpl; try done.
      + apply fresh_balances, fresh_flow; [|lia]. eapply fresh_weaken; [|done]. lia.
      + unfold flow_exists; simpl. rewrite any_snoc; simpl. by rewrite eqs_refl, orb_true_r.
      + intros s en Hs Hen. destruct (Hrow (entry_key en)) as (row & _ & _ & _ & Hex); [by eapply elem_of_step_entries|done].
    - intros k Hk. destruct (Htr k Hk) as (b & Hb & _). by exists b.
    - intros x Hx. rewrite list.Forall_forall in Hval. destruct (Hval x Hx) as [[] Hv]. split; [done|].
      intros en. by apply elem_of_step_entries. }
  2:{ by intros ? ? [_ ?]. }
  intros [st' res] [t3 e3] [(l & _ & _ & Htr' & _) Ht3]. simpl in Htr', Ht3.
  apply wp_bind. eapply wp_mono; [by eapply wpt_settleKeys|cbv beta|done].
  intros [] [t4 e4] Ht4. simpl in Ht4. apply wp_bind. by apply wpt_update.
Qed.

Lemma begin_commit {A} (body : M error (SqTx * Env) A) db e :
  wpt body (λ _ s', tx_done s'.1 = false) (mkSqTx db false, tick e) →
  ∃ a s', rpc (with_tx body) (db, e) = (Ok a, s').
Proof.
  intros Hb. unfold rpc, with_tx. change (st_BeginFlowTx (db, e)) with (sq_BeginFlowTx (db, e)).
  unfold sq_BeginFlowTx. rewrite no_faults. unfold wp in Hb. destruct (body _) as [[a|er] [t' e']]; [|done].
  simpl in Hb. change (tx_Commit (db, t', e')) with (sq_Commit (db, t', e')).
  unfold sq_Commit, sq_finalize. rewrite Hb, no_faults. by do 2 eexists.
Qed.

Lemma new_key r steps db e : no_clash r steps db e → lv_flow (db_view true db) (ef_TenantId r) (ef_IdempotencyKey r) = None.
Proof.
  intros [_ Hkey _ _ _ _]. simpl. rewrite any_false_sel; [done|]. apply any_false. intros f Hf.
  rewrite (proj1 (any_false _ _) Hkey f Hf). apply andb_false_r.
Qed.

Lemma ExecuteFlow_succeeds r steps db e :
  stepsFromProto (ef_Steps r) = Ok steps → no_clash r steps db e → flow_guards r steps (db_view true db) →
  ∃ res s', ExecuteFlow r (db, e) = (Ok res, s').
Proof.
  intros Hsteps Hnc Hg. apply begin_commit. unfold executeFlowInTx. apply wp_bind.
  unfold lift_result. rewrite Hsteps. apply wp_bind. unfold wp at 1. simpl.
  unfold sq_GetFlowByIdempotency, mbind, M_bind, no_rows_none, on_tx, q_GetFlowByIdempotency, select_one, statement.
  simpl. rewrite no_faults. pose proof (new_key _ _ _ _ Hnc) as Hnone. simpl in Hnone.
  destruct (sel _ (t_flows db)); [done|]. apply wpt_runNewFlow; [done| |exact Hg]. by destruct Hnc.
Qed.

(** C5. The guards decide: on the SQLite backend, when the driver fails no
    statement and ids, keys, events and step names do not clash with what is
    stored, a flow request succeeds exactly when every journal is valid and
    every touched account exists, is active, holds the entry's currency and
    stays covered; then the ledger makes exactly the abstract transition,
    otherwise nothing changes. *)
Theorem ExecuteFlow_decides r steps db e :
  stepsFromProto (ef_Steps r) = Ok steps → no_clash r steps db e →
  match ExecuteFlow r (db, e) with
  | (Ok res, s') => flow_guards r steps (svw db) ∧ ∃ (run : string) (l : list (StepInput * string)),
      l.*1 = steps ∧ svw s'.1 = flow_post r run l (svw db) ∧ res = flow_response run l
  | (Err _, s') => ¬ flow_guards r steps (svw db) ∧ s'.1 = db
  end.
Proof.
  intros Hsteps Hnc. pose proof (wp_ExecuteFlow r (db, e)) as Hwp. unfold wp in Hwp.
  destruct (ExecuteFlow r (db, e)) as [[res|er] s'] eqn:Hrun.
  - destruct Hwp as (steps' & Hs' & Hout). simpl in Hout. rewrite Hsteps in Hs'. injection Hs' as <-.
    pose proof (new_key _ _ _ _ Hnc) as Hnone. simpl in Hnone. rewrite Hnone in Hout.
    destruct Hout as (run & l & Hl & Hv & Hr & Hg). split; [exact Hg|]. by exists run, l.
  - destruct Hwp as [Hs' _]. split; [|exact Hs']. intros Hg.
    destruct (ExecuteFlow_succeeds r steps db e Hsteps Hnc Hg) as (res & s2 & E). congruence.
Qed.
End Progress.
