(* ===== verification/DynamoItems.v ===== *)
(** * internal/repo/dynamo: keys and items

    keys.go and items.go.  The table of the DynamoDB backend holds items of
    several kinds under one string key [pk].  An item is a value of [Item],
    with one constructor per Go struct that the backend marshals: encoding a
    struct to attributes and back is taken to lose nothing.  A metadata map
    stands for its JSON text.  Amounts and instants are stored as text. *)

From S2P Require Import Prelude Money Ledger Repo Rfc3339.
From stdpp Require Import base gmap strings list numbers.

(** ** keys.go *)

Definition gsiOutboxPending : string := "OBX#PENDING".
Definition gsiReservationExpiry : string := "RESEXP".

Definition accountPK (tenantID accountID : string) : string := "ACC#" +:+ tenantID +:+ "#" +:+ accountID.
Definition accountUniqPK (tenantID ownerType ownerID accountType currency : string) : string :=
  "ACCU#" +:+ tenantID +:+ "#" +:+ ownerType +:+ "#" +:+ ownerID +:+ "#" +:+ accountType +:+ "#" +:+ currency.
Definition balancePK (tenantID accountID currency : string) : string :=
  "BAL#" +:+ tenantID +:+ "#" +:+ accountID +:+ "#" +:+ currency.
Definition journalPK (tenantID journalID : string) : string := "JRN#" +:+ tenantID +:+ "#" +:+ journalID.
Definition eventUniqPK (eventID : string) : string := "EVT#" +:+ eventID.
Definition flowPK (tenantID flowRunID : string) : string := "FLOW#" +:+ tenantID +:+ "#" +:+ flowRunID.
Definition flowIdempPK (tenantID key : string) : string := "FIDEMP#" +:+ tenantID +:+ "#" +:+ key.
Definition outboxPK (id : string) : string := "OBX#" +:+ id.
Definition reservationPK (tenantID id : string) : string := "RES#" +:+ tenantID +:+ "#" +:+ id.
Definition resIdempPK (tenantID key : string) : string := "RIDEMP#" +:+ tenantID +:+ "#" +:+ key.
Definition gsiResOwnerPK (tenantID ownerType ownerID : string) : string :=
  "RESOWN#" +:+ tenantID +:+ "#" +:+ ownerType +:+ "#" +:+ ownerID.

(** ** items.go: the stored structs *)

Record accountItem := mkAccountItem {
  ai_PK : string; ai_TenantID : string; ai_AccountID : string; ai_OwnerType : string;
  ai_OwnerID : string; ai_AccountType : string; ai_Currency : string; ai_NormalBalance : string;
  ai_AllowNegative : bool; ai_Status : string; ai_CreatedAt : string }.

Record balanceItem := mkBalanceItem {
  bi_PK : string; bi_TenantID : string; bi_AccountID : string; bi_Currency : string;
  bi_PostedDebits : string; bi_PostedCredits : string; bi_Version : Z; bi_UpdatedAt : string }.

Record entryItem := mkEntryItem {
  ei_AccountID : string; ei_Currency : string; ei_Direction : string; ei_Amount : string }.

Record journalItem := mkJournalItem {
  ji_PK : string; ji_TenantID : string; ji_JournalID : string; ji_FlowRunID : string;
  ji_EventID : string; ji_SourceService : string; ji_SourceType : string; ji_ActorID : string;
  ji_Metadata : Meta; ji_Entries : list entryItem; ji_CreatedAt : string }.

Record flowStepItem := mkFlowStepItem {
  si_ID : string; si_TenantID : string; si_FlowRunID : string; si_StepID : string;
  si_Status : string; si_JournalID : string; si_ErrorCode : string; si_CreatedAt : string }.

Record flowItem := mkFlowItem {
  fi_PK : string; fi_TenantID : string; fi_FlowRunID : string; fi_FlowType : string;
  fi_IdempotencyKey : string; fi_SourceService : string; fi_ActorID : string; fi_Status : string;
  fi_Metadata : Meta; fi_CreatedAt : string; fi_CompletedAt : string; fi_FailedAt : string;
  fi_Steps : list flowStepItem }.

(** [oi_PublishedAt] is the attribute that publication adds; the Go struct
    does not read it.  An empty [GSI1PK] is an absent attribute. *)
Record outboxItem := mkOutboxItem {
  oi_PK : string; oi_TenantID : string; oi_AggregateID : string; oi_EventType : string;
  oi_IdempotencyKey : string; oi_Payload : Meta; oi_Attempts : Z; oi_CreatedAt : string;
  oi_GSI1PK : string; oi_GSI1SK : string; oi_PublishedAt : string }.

Record reservationItem := mkReservationItem {
  ri_PK : string; ri_TenantID : string; ri_ReservationID : string; ri_IdempotencyKey : string;
  ri_SourceAccountID : string; ri_OwnerType : string; ri_OwnerID : string;
  ri_ReservedAccountID : string; ri_Currency : string; ri_OriginalAmount : string;
  ri_OutstandingAmount : string; ri_CommittedAmount : string; ri_ReleasedAmount : string;
  ri_Status : string; ri_ExpiresAt : string; ri_FlowRunID : string; ri_Metadata : Meta;
  ri_CreatedAt : string; ri_UpdatedAt : string; ri_Version : Z;
  ri_GSI1PK : string; ri_GSI1SK : string; ri_GSI2PK : string; ri_GSI2SK : string }.

(** A row of the table; a marker holds one attribute besides its key. *)
Inductive Item :=
| ItAccount (it : accountItem)
| ItBalance (it : balanceItem)
| ItJournal (it : journalItem)
| ItFlow (it : flowItem)
| ItOutbox (it : outboxItem)
| ItReservation (it : reservationItem)
| ItMarker (pk attr value : string).

Definition item_pk (i : Item) : string :=
  match i with
  | ItAccount it => ai_PK it
  | ItBalance it => bi_PK it
  | ItJournal it => ji_PK it
  | ItFlow it => fi_PK it
  | ItOutbox it => oi_PK it
  | ItReservation it => ri_PK it
  | ItMarker pk _ _ => pk
  end.

(** The attribute [version], which two kinds of items have. *)
Definition item_version (i : Item) : option Z :=
  match i with
  | ItBalance it => Some (bi_Version it)
  | ItReservation it => Some (ri_Version it)
  | _ => None
  end.

(** [attributevalue.UnmarshalMap] into each struct. *)
Definition asAccount (i : Item) : option accountItem := match i with ItAccount it => Some it | _ => None end.
Definition asBalance (i : Item) : option balanceItem := match i with ItBalance it => Some it | _ => None end.
Definition asFlow (i : Item) : option flowItem := match i with ItFlow it => Some it | _ => None end.
Definition asOutbox (i : Item) : option outboxItem := match i with ItOutbox it => Some it | _ => None end.
Definition asReservation (i : Item) : option reservationItem := match i with ItReservation it => Some it | _ => None end.
Definition asMarker (attr : string) (i : Item) : option string :=
  match i with ItMarker _ a v => Some (if a =s attr then v else "") | _ => None end.

(** ** items.go: conversions *)

Section Items.
Context {D : DecimalOps}.
Abbreviation res A := (result error A).

#[local] Instance result_bind : MBind (result error) := λ A B f r,
  match r with Ok a => f a | Err e => Err e end.

Definition parseDec (s : string) : res dec :=
  if s =s "" then Ok decimal_Zero
  else match NewFromString s with Some d => Ok d | None => Err (ErrOther "parseDec") end.

Definition accountToItem (a : Account) : accountItem :=
  mkAccountItem (accountPK (acc_TenantID a) (acc_ID a)) (acc_TenantID a) (acc_ID a) (acc_OwnerType a)
    (acc_OwnerID a) (acc_AccountType a) (acc_Currency a) (acc_NormalBalance a) (acc_AllowNegative a)
    (acc_Status a) (fmtTime (acc_CreatedAt a)).

Definition accountFromItem (it : accountItem) : res Account :=
  createdAt ← parseTime (ai_CreatedAt it);
  Ok (mkAccount (ai_AccountID it) (ai_TenantID it) (ai_OwnerType it) (ai_OwnerID it) (ai_AccountType it)
    (ai_Currency it) (ai_NormalBalance it) (ai_AllowNegative it) (ai_Status it) createdAt).

Definition entryToItem (e : Entry) : entryItem :=
  mkEntryItem (en_AccountID e) (en_Currency e) (en_Direction e) (dString (en_Amount e)).

Definition journalToItem (j : Journal) : journalItem :=
  mkJournalItem (journalPK (jr_TenantID j) (jr_ID j)) (jr_TenantID j) (jr_ID j) (jr_FlowRunID j)
    (jr_EventID j) (jr_SourceService j) (jr_SourceType j) (jr_ActorID j) (jr_Metadata j)
    (entryToItem <$> jr_Entries j) (fmtTime (jr_CreatedAt j)).

Definition entryFromItem (acc : list Entry) (e : entryItem) : res (list Entry) :=
  amt ← parseDec (ei_Amount e);
  Ok (acc ++ [mkEntry (ei_AccountID e) (ei_Currency e) (ei_Direction e) amt]).

Definition journalFromItem (it : journalItem) : res Journal :=
  createdAt ← parseTime (ji_CreatedAt it);
  entries ← foldR entryFromItem (ji_Entries it) [];
  Ok (mkJournal (ji_JournalID it) (ji_TenantID it) (ji_FlowRunID it) (ji_EventID it)
    (ji_SourceService it) (ji_SourceType it) (ji_ActorID it) (ji_Metadata it) entries createdAt).

Definition stepToItem (s : FlowStep) : flowStepItem :=
  mkFlowStepItem (fs_ID s) (fs_TenantID s) (fs_FlowRunID s) (fs_StepID s) (fs_Status s)
    (fs_JournalID s) (fs_ErrorCode s) (fmtTime (fs_CreatedAt s)).

Definition flowToItem (f : FlowRun) (steps : list FlowStep) : flowItem :=
  mkFlowItem (flowPK (fr_TenantID f) (fr_ID f)) (fr_TenantID f) (fr_ID f) (fr_FlowType f)
    (fr_IdempotencyKey f) (fr_SourceService f) (fr_ActorID f) (fr_Status f) (fr_Metadata f)
    (fmtTime (fr_CreatedAt f)) (fmtTimePtr (fr_CompletedAt f)) (fmtTimePtr (fr_FailedAt f))
    (stepToItem <$> steps).

Definition stepFromItem (acc : list FlowStep) (s : flowStepItem) : res (list FlowStep) :=
  createdAt ← parseTime (si_CreatedAt s);
  Ok (acc ++ [mkFlowStep (si_ID s) (si_TenantID s) (si_FlowRunID s) (si_StepID s) (si_Status s)
    (si_JournalID s) (si_ErrorCode s) createdAt]).

Definition flowFromItem (it : flowItem) : res (FlowRun * list FlowStep) :=
  createdAt ← parseTime (fi_CreatedAt it);
  completedAt ← parseTimePtr (fi_CompletedAt it);
  failedAt ← parseTimePtr (fi_FailedAt it);
  steps ← foldR stepFromItem (fi_Steps it) [];
  Ok (mkFlowRun (fi_FlowRunID it) (fi_TenantID it) (fi_FlowType it) (fi_IdempotencyKey it)
    (fi_SourceService it) (fi_ActorID it) (fi_Status it) (fi_Metadata it) createdAt completedAt
    failedAt [], steps).

Definition outboxToItem (e : OutboxEvent) : outboxItem :=
  let createdAt := fmtTime (ob_CreatedAt e) in
  mkOutboxItem (outboxPK (ob_ID e)) (ob_TenantID e) (ob_AggregateID e) (ob_EventType e)
    (ob_IdempotencyKey e) (ob_Payload e) 0 createdAt gsiOutboxPending (createdAt +:+ "#" +:+ ob_ID e) "".

Definition reservationActive (st : ReservationStatus) : bool :=
  (st =s ReservationHeld) || (st =s ReservationPartial).

(** The text before the first colon and after it, where there is one. *)
Fixpoint cut_colon (s : string) : string * option string :=
  match s with
  | EmptyString => ("", None)
  | String c s' =>
      if Ascii.eqb c (Ascii.ascii_of_nat 58) then ("", Some s')
      else let '(a, b) := cut_colon s' in (String c a, b)
  end.

(** [strings.SplitN(accountID, ":", 4)], its first two parts. *)
Definition parseAccountOwner (accountID : string) : string * string :=
  match cut_colon accountID with
  | (ownerType, Some rest) => (ownerType, (cut_colon rest).1)
  | (_, None) => ("", "")
  end.

Definition reservationToItem (r : Reservation) (version : Z) : reservationItem :=
  let expiresAt := fmtTimePtr (rs_ExpiresAt r) in
  let '(ownerType, ownerID) := parseAccountOwner (rs_SourceAccountID r) in
  let expiring := reservationActive (rs_Status r) && negb (expiresAt =s "") in
  let owned := reservationActive (rs_Status r) && negb (ownerType =s "") && negb (ownerID =s "") in
  mkReservationItem (reservationPK (rs_TenantID r) (rs_ID r)) (rs_TenantID r) (rs_ID r)
    (rs_IdempotencyKey r) (rs_SourceAccountID r) ownerType ownerID (rs_ReservedAccountID r)
    (rs_Currency r) (dString (rs_OriginalAmount r)) (dString (rs_OutstandingAmount r))
    (dString (rs_CommittedAmount r)) (dString (rs_ReleasedAmount r)) (rs_Status r) expiresAt
    (rs_FlowRunID r) (rs_Metadata r) (fmtTime (rs_CreatedAt r)) (fmtTime (rs_UpdatedAt r)) version
    (if expiring then gsiReservationExpiry else "")
    (if expiring then expiresAt +:+ "#" +:+ rs_TenantID r +:+ "#" +:+ rs_ID r else "")
    (if owned then gsiResOwnerPK (rs_TenantID r) ownerType ownerID else "")
    (if owned then fmtTime (rs_CreatedAt r) +:+ "#" +:+ rs_ID r else "").

Definition reservationFromItem (it : reservationItem) : res (Reservation * Z) :=
  originalAmt ← parseDec (ri_OriginalAmount it);
  outstandingAmt ← parseDec (ri_OutstandingAmount it);
  committedAmt ← parseDec (ri_CommittedAmount it);
  releasedAmt ← parseDec (ri_ReleasedAmount it);
  expiresAt ← parseTimePtr (ri_ExpiresAt it);
  createdAt ← parseTime (ri_CreatedAt it);
  updatedAt ← parseTime (ri_UpdatedAt it);
  Ok (mkReservation (ri_ReservationID it) (ri_TenantID it) (ri_IdempotencyKey it)
    (ri_SourceAccountID it) (ri_ReservedAccountID it) (ri_Currency it) originalAmt outstandingAmt
    committedAmt releasedAmt (ri_Status it) expiresAt (ri_FlowRunID it) (ri_Metadata it) createdAt
    updatedAt, ri_Version it).
End Items.

(** [strings.HasPrefix(s, p)] *)
Definition starts (p s : string) : bool := String.prefix p s.
