(* ===== verification/Dynamo.v ===== *)
(** * internal/repo/dynamo: the DynamoDB backend

    tx.go (the buffered write transaction), reads.go, reads_outbox.go,
    reads_reservations.go, unsupported.go and the clock of store.go.

    The service DynamoDB is the class [DynamoDB]: strongly consistent
    [GetItem], all-or-nothing [TransactWriteItems] with a condition per put,
    [Query] on an index and the two forms of [UpdateItem] the code sends.
    [DynamoLaws] is what its documentation promises of them.

    A transaction reads the live table while other clients commit.  [TxIn]
    is a transaction with the table as each of its reads finds it: read
    number [n] sees [ti_world n].  [ti_reads] lists the keys read so far. *)

From S2P Require Import Prelude Money Ledger Repo Rfc3339 DynamoItems.
From stdpp Require Import base gmap strings list numbers.

(** ** The service *)

(** [ConditionExpression] of a put. *)
Inductive WriteCond := AttrNotExists | VersionIs (v : Z) | NoCond.
(** The two [UpdateExpression]s, each with [attribute_exists(pk)]. *)
Inductive UpdateExpr := RemoveGsi1SetPublished (t : string) | AddAttempts (n : Z).
Inductive Index := gsi1 | gsi2.

(** A write is accepted, or cancelled with a reason code per put, or fails in
    another way (a timeout, a throttled or lost request). *)
Inductive TwResult := TwOk | TwCanceled (reasons : list (option string)) | TwFailed.

Definition ConditionalCheckFailed : string := "ConditionalCheckFailed".

Class DynamoDB (S : Type) := {
  db_GetItem : string → M error (S * Env) (option Item);
  db_TransactWriteItems : list (Item * WriteCond) → S * Env → TwResult * (S * Env);
  (* index, hash key, upper bound of the sort key, limit *)
  db_Query : Index → string → option string → Z → M error (S * Env) (list Item);
  db_UpdateItem : string → UpdateExpr → M error (S * Env) unit;
}.

(** ** tx.go: the write buffer *)

Inductive condKind := condNone | condNotExists | condVersionEquals.

Record pendingPut := mkPendingPut { pp_item : Item; pp_cond : condKind; pp_version : Z }.

Section TxTypes.
Context {D : DecimalOps}.

Record txBalance := mkTxBalance {
  tbl_debits : dec; tbl_credits : dec; tbl_readVersion : Z; tbl_existed : bool }.
Record flowState := mkFlowState { fst_run : FlowRun; fst_steps : list FlowStep }.
Record resState := mkResState { rst_res : Reservation; rst_readVersion : Z; rst_existed : bool }.

(** [tx_nil]: [Rollback] has set every map to nil. *)
Record Tx := mkTx {
  tx_puts : gmap string pendingPut;
  tx_order : list string;
  tx_balances : gmap string txBalance;
  tx_flows : gmap string flowState;
  tx_journals : gmap string Journal;
  tx_flowIdemp : gmap string string;
  tx_reservations : gmap string resState;
  tx_done : bool;
  tx_nil : bool;
}.

Definition newTx : Tx := mkTx ∅ [] ∅ ∅ ∅ ∅ ∅ false false.

Definition set_puts p o (t : Tx) := mkTx p o (tx_balances t) (tx_flows t) (tx_journals t) (tx_flowIdemp t)
  (tx_reservations t) (tx_done t) (tx_nil t).
Definition set_balance k b (t : Tx) := mkTx (tx_puts t) (tx_order t) (<[k := b]> (tx_balances t)) (tx_flows t)
  (tx_journals t) (tx_flowIdemp t) (tx_reservations t) (tx_done t) (tx_nil t).
Definition set_flow k f (t : Tx) := mkTx (tx_puts t) (tx_order t) (tx_balances t) (<[k := f]> (tx_flows t))
  (tx_journals t) (tx_flowIdemp t) (tx_reservations t) (tx_done t) (tx_nil t).
Definition set_journal k j (t : Tx) := mkTx (tx_puts t) (tx_order t) (tx_balances t) (tx_flows t)
  (<[k := j]> (tx_journals t)) (tx_flowIdemp t) (tx_reservations t) (tx_done t) (tx_nil t).
Definition set_flowIdemp k v (t : Tx) := mkTx (tx_puts t) (tx_order t) (tx_balances t) (tx_flows t)
  (tx_journals t) (<[k := v]> (tx_flowIdemp t)) (tx_reservations t) (tx_done t) (tx_nil t).
Definition set_reservation k r (t : Tx) := mkTx (tx_puts t) (tx_order t) (tx_balances t) (tx_flows t)
  (tx_journals t) (tx_flowIdemp t) (<[k := r]> (tx_reservations t)) (tx_done t) (tx_nil t).
Definition set_done (t : Tx) := mkTx (tx_puts t) (tx_order t) (tx_balances t) (tx_flows t)
  (tx_journals t) (tx_flowIdemp t) (tx_reservations t) true (tx_nil t).
Definition dropped : Tx := mkTx ∅ [] ∅ ∅ ∅ ∅ ∅ true true.
End TxTypes.

Section Dynamo.
Context {H : Host} {D : DecimalOps} {S : Type} {DB : DynamoDB S}.

Record TxIn := mkTxIn { ti_world : nat → S; ti_reads : list string; ti_tx : Tx }.

Abbreviation StoreM A := (M error (S * Env) A).
Abbreviation TxM A := (M error (TxIn * Env) A).

(** [return nil, err] of a conversion; [None] is an item of another kind. *)
Definition unmarshal {X A} (o : option A) : M error X A :=
  match o with Some a => mret a | None => throw (ErrOther "unmarshal") end.

(** ** reads.go *)

Section Reads.
Context {X : Type} (getItem : string → M error (X * Env) (option Item)).

Definition readAccount (tenantID accountID : string) : M error (X * Env) Account :=
  found ← getItem (accountPK tenantID accountID);
  match found with
  | None => throw (ErrDomain CodeAccountNotFound)
  | Some i => it ← unmarshal (asAccount i); lift_result (accountFromItem it)
  end.

Definition readBalance (tenantID accountID currency : string) : M error (X * Env) (dec * dec * Z) :=
  found ← getItem (balancePK tenantID accountID currency);
  match found with
  | None => mret (decimal_Zero, decimal_Zero, 0%Z)
  | Some i =>
      it ← unmarshal (asBalance i);
      d ← lift_result (parseDec (bi_PostedDebits it));
      c ← lift_result (parseDec (bi_PostedCredits it));
      mret (d, c, bi_Version it)
  end.

Definition with_steps (f : FlowRun) (steps : list FlowStep) : FlowRun :=
  mkFlowRun (fr_ID f) (fr_TenantID f) (fr_FlowType f) (fr_IdempotencyKey f) (fr_SourceService f)
    (fr_ActorID f) (fr_Status f) (fr_Metadata f) (fr_CreatedAt f) (fr_CompletedAt f) (fr_FailedAt f) steps.

Definition readFlow (tenantID flowRunID : string) : M error (X * Env) (option FlowRun) :=
  found ← getItem (flowPK tenantID flowRunID);
  match found with
  | None => mret None
  | Some i =>
      it ← unmarshal (asFlow i);
      '(f, steps) ← lift_result (flowFromItem it);
      mret (Some (with_steps f steps))
  end.
End Reads.

(** ** tx.go: reads of the table and writes to the buffer *)

(** [t.store.getItem] *)
Definition tx_getItem (pk : string) : TxM (option Item) := λ '(t, e),
  let '(r, (_, e')) := db_GetItem pk (ti_world t (length (ti_reads t)), e) in
  (r, (mkTxIn (ti_world t) (ti_reads t ++ [pk]) (ti_tx t), e')).

Definition getTx : TxM Tx := λ s, (Ok (ti_tx s.1), s).
(** A write to the maps; a write to a nil map is a panic. *)
Definition modTx (f : Tx → Tx) : TxM unit := λ '(t, e),
  if tx_nil (ti_tx t) then (Err ErrPanic, (t, e))
  else (Ok tt, (mkTxIn (ti_world t) (ti_reads t) (f (ti_tx t)), e)).

(** The item is replaced; the first condition and version stay. *)
Definition put_buffer (pk : string) (item : Item) (cond : condKind) (version : Z) (t : Tx) : Tx :=
  match tx_puts t !! pk with
  | Some existing => set_puts (<[pk := mkPendingPut item (pp_cond existing) (pp_version existing)]> (tx_puts t)) (tx_order t) t
  | None => set_puts (<[pk := mkPendingPut item cond version]> (tx_puts t)) (tx_order t ++ [pk]) t
  end.
Definition put (pk : string) (item : Item) (cond : condKind) (version : Z) : TxM unit :=
  modTx (put_buffer pk item cond version).

Definition loadBalance (tenantID accountID currency : string) : TxM txBalance :=
  let key := balancePK tenantID accountID currency in
  t ← getTx;
  match tx_balances t !! key with
  | Some b => mret b
  | None =>
      '(d, c, ver) ← readBalance tx_getItem tenantID accountID currency;
      let existed := negb (ver =? 0)%Z || negb (IsZero d) || negb (IsZero c) in
      existed' ← (if existed then mret true
        else (probe ← tx_getItem key;
              match probe with None => mret false | Some i => unmarshal (asBalance i);; mret true end));
      let b := mkTxBalance d c ver existed' in
      modTx (set_balance key b);;
      mret b
  end.

Definition dy_EnsureBalanceRow (tenantID accountID currency : string) : TxM unit :=
  loadBalance tenantID accountID currency;; mret tt.

Definition dy_LockBalance (tenantID accountID currency : string) : TxM (dec * dec * Z) :=
  b ← loadBalance tenantID accountID currency;
  mret (tbl_debits b, tbl_credits b, tbl_readVersion b).

Definition dy_UpdateBalance (tenantID accountID currency : string) (postedDebits postedCredits : dec) : TxM unit :=
  b ← loadBalance tenantID accountID currency;
  let key := balancePK tenantID accountID currency in
  modTx (set_balance key (mkTxBalance postedDebits postedCredits (tbl_readVersion b) (tbl_existed b)));;
  now ← Now;
  let it := mkBalanceItem key tenantID accountID currency (dString postedDebits) (dString postedCredits)
    (tbl_readVersion b + 1) (fmtTime now) in
  put key (ItBalance it) (if tbl_existed b then condVersionEquals else condNotExists) (tbl_readVersion b).

Definition dy_GetAccount (tenantID accountID : string) : TxM Account :=
  t ← getTx;
  match tx_puts t !! accountPK tenantID accountID with
  | Some pp => it ← unmarshal (asAccount (pp_item pp)); lift_result (accountFromItem it)
  | None => readAccount tx_getItem tenantID accountID
  end.

Definition dy_InsertAccount (a : Account) : TxM unit :=
  let it := accountToItem a in
  put (ai_PK it) (ItAccount it) condNotExists 0;;
  let uniqPK := accountUniqPK (acc_TenantID a) (acc_OwnerType a) (acc_OwnerID a) (acc_AccountType a) (acc_Currency a) in
  put uniqPK (ItMarker uniqPK "account_id" (acc_ID a)) condNotExists 0.

Definition putFlow (pk : string) (fs : flowState) : TxM unit :=
  put pk (ItFlow (flowToItem (fst_run fs) (fst_steps fs))) condNotExists 0.

Definition dy_InsertFlowRun (f : FlowRun) : TxM unit :=
  let pk := flowPK (fr_TenantID f) (fr_ID f) in
  let fs := mkFlowState f [] in
  modTx (set_flow pk fs);;
  putFlow pk fs;;
  let idempPK := flowIdempPK (fr_TenantID f) (fr_IdempotencyKey f) in
  put idempPK (ItMarker idempPK "flow_run_id" (fr_ID f)) condNotExists 0;;
  modTx (set_flowIdemp idempPK pk).

Definition dy_InsertFlowStep (s : FlowStep) : TxM unit :=
  let pk := flowPK (fs_TenantID s) (fs_FlowRunID s) in
  t ← getTx;
  match tx_flows t !! pk with
  | None => throw (ErrOther "InsertFlowStep before InsertFlowRun")
  | Some fs =>
      let fs' := mkFlowState (fst_run fs) (fst_steps fs ++ [s]) in
      modTx (set_flow pk fs');;
      putFlow pk fs'
  end.

Definition completedRun (f : FlowRun) (now : Time) : FlowRun :=
  mkFlowRun (fr_ID f) (fr_TenantID f) (fr_FlowType f) (fr_IdempotencyKey f) (fr_SourceService f)
    (fr_ActorID f) FlowCompleted (fr_Metadata f) (fr_CreatedAt f) (Some now) (fr_FailedAt f) (fr_Steps f).

Definition dy_CompleteFlowRun (tenantID flowRunID : string) : TxM unit :=
  let pk := flowPK tenantID flowRunID in
  t ← getTx;
  match tx_flows t !! pk with
  | None => throw (ErrOther "CompleteFlowRun before InsertFlowRun")
  | Some fs =>
      now ← Now;
      let fs' := mkFlowState (completedRun (fst_run fs) now) (fst_steps fs) in
      modTx (set_flow pk fs');;
      putFlow pk fs'
  end.

Definition dy_GetFlowByIdempotency (tenantID key : string) : TxM (option FlowRun) :=
  let idempPK := flowIdempPK tenantID key in
  t ← getTx;
  match fpk ← tx_flowIdemp t !! idempPK; tx_flows t !! fpk with
  | Some fs => mret (Some (with_steps (fst_run fs) (fst_steps fs)))
  | None =>
      found ← tx_getItem idempPK;
      match found with
      | None => mret None
      | Some i => flowRunID ← unmarshal (asMarker "flow_run_id" i); readFlow tx_getItem tenantID flowRunID
      end
  end.

Definition dy_GetFlowSteps (tenantID flowRunID : string) : TxM (list FlowStep) :=
  t ← getTx;
  match tx_flows t !! flowPK tenantID flowRunID with
  | Some fs => mret (fst_steps fs)
  | None =>
      f ← readFlow tx_getItem tenantID flowRunID;
      match f with None => mret [] | Some f => mret (fr_Steps f) end
  end.

Definition with_entries (j : Journal) (es : list Entry) : Journal :=
  mkJournal (jr_ID j) (jr_TenantID j) (jr_FlowRunID j) (jr_EventID j) (jr_SourceService j)
    (jr_SourceType j) (jr_ActorID j) (jr_Metadata j) es (jr_CreatedAt j).

Definition dy_InsertJournal (j : Journal) : TxM unit :=
  let jCopy := with_entries j [] in
  let jPK := journalPK (jr_TenantID j) (jr_ID j) in
  modTx (set_journal jPK jCopy);;
  put jPK (ItJournal (journalToItem jCopy)) condNotExists 0;;
  let evtPK := eventUniqPK (jr_EventID j) in
  put evtPK (ItMarker evtPK "journal_id" (jr_ID j)) condNotExists 0.

Definition dy_InsertEntry (tenantID entryID journalID accountID currency : string) (direction : Direction)
    (amount : dec) : TxM unit :=
  let jPK := journalPK tenantID journalID in
  t ← getTx;
  match tx_journals t !! jPK with
  | None => throw (ErrOther "InsertEntry before InsertJournal")
  | Some j =>
      let j' := with_entries j (jr_Entries j ++ [mkEntry accountID currency direction amount]) in
      modTx (set_journal jPK j');;
      put jPK (ItJournal (journalToItem j')) condNotExists 0
  end.

Definition dy_InsertOutbox (e : OutboxEvent) : TxM unit :=
  let item := outboxToItem e in put (oi_PK item) (ItOutbox item) condNotExists 0.

Definition dy_InsertReservation (r : Reservation) : TxM unit :=
  let pk := reservationPK (rs_TenantID r) (rs_ID r) in
  modTx (set_reservation pk (mkResState r 0 false));;
  put pk (ItReservation (reservationToItem r 1)) condNotExists 0;;
  let idempPK := resIdempPK (rs_TenantID r) (rs_IdempotencyKey r) in
  put idempPK (ItMarker idempPK "reservation_id" (rs_ID r)) condNotExists 0.

Definition dy_LockReservation (tenantID reservationID : string) : TxM Reservation :=
  let pk := reservationPK tenantID reservationID in
  t ← getTx;
  match tx_reservations t !! pk with
  | Some rs => mret (rst_res rs)
  | None =>
      found ← tx_getItem pk;
      match found with
      | None => throw (ErrDomain CodeReservationNotFound)
      | Some i =>
          it ← unmarshal (asReservation i);
          '(r, ver) ← lift_result (reservationFromItem it);
          modTx (set_reservation pk (mkResState r ver true));;
          mret r
      end
  end.

Definition dy_GetReservationByIdempotency (tenantID key : string) : TxM (option Reservation) :=
  t ← getTx;
  match sel (λ r, (rs_TenantID r =s tenantID) && (rs_IdempotencyKey r =s key))
          (rst_res ∘ snd <$> map_to_list (tx_reservations t)) with
  | Some r => mret (Some r)
  | None =>
      found ← tx_getItem (resIdempPK tenantID key);
      match found with
      | None => mret None
      | Some i =>
          reservationID ← unmarshal (asMarker "reservation_id" i);
          r ← dy_LockReservation tenantID reservationID;
          mret (Some r)
      end
  end.

(** The reservation row with new amounts, as the overlay is mutated. *)
Definition resWith (r : Reservation) (o c l : dec) (st : ReservationStatus) (now : Time) : Reservation :=
  mkReservation (rs_ID r) (rs_TenantID r) (rs_IdempotencyKey r) (rs_SourceAccountID r)
    (rs_ReservedAccountID r) (rs_Currency r) (rs_OriginalAmount r) o c l st (rs_ExpiresAt r)
    (rs_FlowRunID r) (rs_Metadata r) (rs_CreatedAt r) now.

Definition dy_UpdateReservationAmounts (tenantID reservationID : string) (outstanding committed released : dec)
    (status : ReservationStatus) : TxM unit :=
  let pk := reservationPK tenantID reservationID in
  t ← getTx;
  match tx_reservations t !! pk with
  | None => throw (ErrOther "UpdateReservationAmounts before LockReservation")
  | Some rs =>
      now ← Now;
      let res := resWith (rst_res rs) outstanding committed released status now in
      modTx (set_reservation pk (mkResState res (rst_readVersion rs) (rst_existed rs)));;
      if rst_existed rs
      then put pk (ItReservation (reservationToItem res (rst_readVersion rs + 1))) condVersionEquals (rst_readVersion rs)
      else put pk (ItReservation (reservationToItem res 1)) condNotExists 0
  end.

(** ** Begin, Commit, Rollback *)

Definition maxTxItems : nat := 100.

(** Every read of a transaction that runs alone sees the same table. *)
Definition dy_BeginFlowTx : StoreM TxIn := λ '(s, e), (Ok (mkTxIn (λ _, s) [] newTx), (s, e)).

Definition write_cond (pp : pendingPut) : WriteCond :=
  match pp_cond pp with
  | condNone => NoCond
  | condNotExists => AttrNotExists
  | condVersionEquals => VersionIs (pp_version pp)
  end.
Definition to_write (pp : pendingPut) : Item * WriteCond := (pp_item pp, write_cond pp).

(** The put that failed its condition. *)
Definition classifyPut (puts : gmap string pendingPut) (pk : string) : DomainCode :=
  match pp_cond <$> puts !! pk with
  | Some condVersionEquals => CodeSerializationRetryExhausted
  | Some condNotExists => if starts "BAL#" pk then CodeSerializationRetryExhausted else CodeFlowConflict
  | _ => CodeFlowConflict
  end.

(** The first reason that is a failed condition. *)
Fixpoint classify (puts : gmap string pendingPut) (order : list string) (reasons : list (option string)) : option DomainCode :=
  match reasons with
  | [] => None
  | reason :: reasons' =>
      if bool_decide (reason = Some ConditionalCheckFailed) then
        Some (match order with pk :: _ => classifyPut puts pk | [] => classifyPut puts "" end)
      else classify puts (tail order) reasons'
  end.

Definition dy_Commit : M error ((S * TxIn) * Env) unit := λ '((s, t), e),
  let tx := ti_tx t in
  if tx_done tx then (Err (ErrOther "dynamo: tx already finished"), ((s, t), e))
  else
    let t' := mkTxIn (ti_world t) (ti_reads t) (set_done tx) in
    let n := size (tx_puts tx) in
    if (n =? 0)%nat then (Ok tt, ((s, t'), e))
    else if (maxTxItems <? n)%nat then (Err (ErrDomain CodeFlowTooLarge), ((s, t'), e))
    else match mapM (λ pk, tx_puts tx !! pk) (tx_order tx) with
         | None => (Err ErrPanic, ((s, t'), e))
         | Some pps =>
             match db_TransactWriteItems (to_write <$> pps) (s, e) with
             | (TwOk, (s', e')) => (Ok tt, ((s', t'), e'))
             | (TwCanceled reasons, (s', e')) =>
                 (Err (match classify (tx_puts tx) (tx_order tx) reasons with
                       | Some c => ErrDomain c
                       | None => ErrOther "transact write"
                       end), ((s', t'), e'))
             | (TwFailed, (s', e')) => (Err (ErrOther "transact write"), ((s', t'), e'))
             end
         end.

Definition dy_Rollback : M error ((S * TxIn) * Env) unit := λ '((s, t), e),
  (Ok tt, ((s, mkTxIn (ti_world t) (ti_reads t) dropped), e)).

(** ** reads_outbox.go *)

(** [it.PK[len("OBX#"):]] *)
Definition outboxID (pk : string) : M error (S * Env) string :=
  if (String.length pk <? 4)%nat then throw ErrPanic
  else mret (String.substring 4 (String.length pk - 4) pk).

Definition outboxFromItem (acc : list OutboxEvent) (i : Item) : StoreM (list OutboxEvent) :=
  it ← unmarshal (asOutbox i);
  createdAt ← lift_result (parseTime (oi_CreatedAt it));
  id ← outboxID (oi_PK it);
  mret (acc ++ [mkOutboxEvent id (oi_TenantID it) (oi_AggregateID it) (oi_EventType it)
    (oi_IdempotencyKey it) (oi_Payload it) createdAt]).

Definition dy_PendingOutbox (limit : Z) : StoreM (list OutboxEvent) :=
  let limit := if (limit <=? 0)%Z then 100%Z else limit in
  items ← db_Query gsi1 gsiOutboxPending None (int32 limit);
  foldM outboxFromItem items [].

Definition dy_MarkOutboxPublished (id : string) : StoreM unit :=
  now ← Now;
  db_UpdateItem (outboxPK id) (RemoveGsi1SetPublished (fmtTime now)).

Definition dy_IncrementOutboxAttempts (id : string) : StoreM unit :=
  db_UpdateItem (outboxPK id) (AddAttempts 1).

(** ** reads_reservations.go *)

Definition dy_GetReservation (tenantID reservationID : string) : StoreM Reservation :=
  found ← db_GetItem (reservationPK tenantID reservationID);
  match found with
  | None => throw (ErrDomain CodeReservationNotFound)
  | Some i =>
      it ← unmarshal (asReservation i);
      '(r, _) ← lift_result (reservationFromItem it);
      mret r
  end.

Definition expiredFromItem (acc : list ExpiredReservation) (i : Item) : StoreM (list ExpiredReservation) :=
  it ← unmarshal (asReservation i);
  mret (acc ++ [mkExpiredReservation (ri_ReservationID it) (ri_TenantID it)]).

Definition dy_ListExpiredReservations (now : Time) (limit : Z) : StoreM (list ExpiredReservation) :=
  let limit := if (limit <=? 0)%Z then 100%Z else limit in
  items ← db_Query gsi1 gsiReservationExpiry (Some (fmtTime now)) (int32 limit);
  foldM expiredFromItem items [].

(** One turn of the loop; at [limit] results the loop breaks. *)
Definition listedReservation (status : string) (limit : Z) (acc : list Reservation) (i : Item) : StoreM (list Reservation) :=
  if (limit <=? Z.of_nat (length acc))%Z then mret acc
  else
    it ← unmarshal (asReservation i);
    if negb (status =s "") && negb (ri_Status it =s status) then mret acc
    else '(r, _) ← lift_result (reservationFromItem it); mret (acc ++ [r]).

Definition dy_ListReservations (i : ListReservationsInput) : StoreM (list Reservation) :=
  let limit := if (lr_Limit i <=? 0)%Z || (500 <? lr_Limit i)%Z then 100%Z else lr_Limit i in
  if (lr_OwnerType i =s "") || (lr_OwnerID i =s "") then mret []
  else
    items ← db_Query gsi2 (gsiResOwnerPK (lr_TenantID i) (lr_OwnerType i) (lr_OwnerID i)) None (int32 (limit * 3));
    foldM (listedReservation (lr_Status i) limit) items [].

(** ** unsupported.go *)

Definition errUnsupported {X A} : M error X A := throw (ErrDomain CodeUnsupportedOperation).

(** ** The interfaces *)

#[export] Instance DynamoTx : RepoTx D TxIn := {|
  tx_GetFlowByIdempotency := dy_GetFlowByIdempotency;
  tx_GetAccount := dy_GetAccount;
  tx_LockBalance := dy_LockBalance;
  tx_EnsureBalanceRow := dy_EnsureBalanceRow;
  tx_UpdateBalance := dy_UpdateBalance;
  tx_InsertAccount := dy_InsertAccount;
  tx_InsertFlowRun := dy_InsertFlowRun;
  tx_CompleteFlowRun := dy_CompleteFlowRun;
  tx_InsertJournal := dy_InsertJournal;
  tx_InsertEntry := dy_InsertEntry;
  tx_InsertFlowStep := dy_InsertFlowStep;
  tx_InsertOutbox := dy_InsertOutbox;
  tx_GetFlowSteps := dy_GetFlowSteps;
  tx_InsertReservation := dy_InsertReservation;
  tx_LockReservation := dy_LockReservation;
  tx_GetReservationByIdempotency := dy_GetReservationByIdempotency;
  tx_UpdateReservationAmounts := dy_UpdateReservationAmounts;
  tx_GetReconBatchByIdempotency _ _ := errUnsupported;
  tx_InsertReconBatch _ := errUnsupported;
  tx_CompleteReconBatch _ := errUnsupported;
  tx_ListExternalRecordsForRecon _ _ _ _ := errUnsupported;
  tx_ListJournalsForRecon _ _ _ _ := errUnsupported;
  tx_UpdateExternalRecordMatch _ _ _ _ := errUnsupported;
  tx_SumJournalEntries _ _ _ _ := errUnsupported;
  tx_InsertDiscrepancy _ := errUnsupported;
  tx_LockDiscrepancy _ _ := errUnsupported;
  tx_ResolveDiscrepancyRow _ := errUnsupported;
|}.

#[export] Instance DynamoStore : RepoStore D S TxIn := {|
  st_BeginFlowTx := dy_BeginFlowTx;
  tx_Commit := dy_Commit;
  tx_Rollback := dy_Rollback;
  st_GetAccount := readAccount db_GetItem;
  st_GetBalance := readBalance db_GetItem;
  st_GetFlow := readFlow db_GetItem;
  st_ListAccountActivity _ := errUnsupported;
  st_PendingOutbox := dy_PendingOutbox;
  st_MarkOutboxPublished := dy_MarkOutboxPublished;
  st_IncrementOutboxAttempts := dy_IncrementOutboxAttempts;
  st_InsertSnapshot _ := errUnsupported;
  st_GetSnapshotBefore _ _ _ _ := errUnsupported;
  st_SumEntriesBetween _ _ _ _ _ := errUnsupported;
  st_ListTenantBalances _ := errUnsupported;
  st_ListTenantsDueForSnapshot _ _ := mret [];
  st_PruneSnapshotsOlderThan _ _ := mret 0%Z;
  st_UpsertFXRate _ := errUnsupported;
  st_GetFXRateAt _ _ _ _ := errUnsupported;
  st_ListFXRates _ := errUnsupported;
  st_GetReservation := dy_GetReservation;
  st_ListExpiredReservations := dy_ListExpiredReservations;
  st_ListReservations := dy_ListReservations;
  st_InsertExternalRecord _ := errUnsupported;
  st_ListExternalRecordsForRecon _ _ _ _ := errUnsupported;
  st_ListJournalsForRecon _ _ _ _ := errUnsupported;
  st_GetReconBatch _ _ := errUnsupported;
  st_ListDiscrepancies _ := errUnsupported;
  st_GetDiscrepancy _ _ := errUnsupported;
|}.
End Dynamo.

(** ** What the service promises *)

Definition cond_holds (items : gmap string Item) (w : Item * WriteCond) : Prop :=
  match w.2 with
  | AttrNotExists => items !! item_pk w.1 = None
  | VersionIs v => (items !! item_pk w.1) ≫= item_version = Some v
  | NoCond => True
  end.
#[export] Instance cond_holds_dec items w : Decision (cond_holds items w).
Proof. destruct w as [i []]; unfold cond_holds; simpl; apply _. Defined.

(** The items of a write replace what is under their keys. *)
Definition apply_writes (ws : list (Item * WriteCond)) (items : gmap string Item) : gmap string Item :=
  foldl (λ m w, <[item_pk w.1 := w.1]> m) items ws.

Definition update_item (x : UpdateExpr) (i : Item) : Item :=
  match i with
  | ItOutbox it =>
      match x with
      | RemoveGsi1SetPublished t => ItOutbox (mkOutboxItem (oi_PK it) (oi_TenantID it) (oi_AggregateID it)
          (oi_EventType it) (oi_IdempotencyKey it) (oi_Payload it) (oi_Attempts it) (oi_CreatedAt it) "" "" t)
      | AddAttempts n => ItOutbox (mkOutboxItem (oi_PK it) (oi_TenantID it) (oi_AggregateID it)
          (oi_EventType it) (oi_IdempotencyKey it) (oi_Payload it) (oi_Attempts it + n) (oi_CreatedAt it)
          (oi_GSI1PK it) (oi_GSI1SK it) (oi_PublishedAt it))
      end
  | i => i
  end.

(** The index entry of an item, where it has one. *)
Definition index_key (ix : Index) (i : Item) : option (string * string) :=
  let entry pk sk := if (pk =s "") || (sk =s "") then None else Some (pk, sk) in
  match ix, i with
  | gsi1, ItOutbox it => entry (oi_GSI1PK it) (oi_GSI1SK it)
  | gsi1, ItReservation it => entry (ri_GSI1PK it) (ri_GSI1SK it)
  | gsi2, ItReservation it => entry (ri_GSI2PK it) (ri_GSI2SK it)
  | _, _ => None
  end.

(** A read is strongly consistent and changes nothing; a transaction of puts
    on distinct keys is applied whole where every condition holds, and is
    not applied at all when it is cancelled; a cancelled transaction names a
    failed condition only where one failed; after another failure it may
    have been applied or not.  An index may lag behind the table: a query
    only promises that what it returns was indexed under the hash key. *)
Class DynamoLaws {H : Host} (S : Type) (DB : DynamoDB S) := {
  db_items : S → gmap string Item;
  db_spent : Env → Env;
  law_spent e : e_ids (db_spent e) = e_ids e;   (* a read makes no uuid *)
  law_GetItem k s e :
    db_GetItem k (s, e) =
      ((if host_fault (e_db e) then Err (ErrOther "get") else Ok (db_items s !! k)), (s, db_spent e));
  law_TransactWrite ws s e :
    NoDup (item_pk ∘ fst <$> ws) →
    match db_TransactWriteItems ws (s, e) with
    | (TwOk, (s', _)) => Forall (cond_holds (db_items s)) ws ∧ db_items s' = apply_writes ws (db_items s)
    | (TwCanceled reasons, (s', _)) =>
        db_items s' = db_items s ∧ length reasons = length ws ∧
        ∀ n w, ws !! n = Some w → reasons !! n = Some (Some ConditionalCheckFailed) → ¬ cond_holds (db_items s) w
    | (TwFailed, (s', _)) =>
        db_items s' = db_items s ∨
        (Forall (cond_holds (db_items s)) ws ∧ db_items s' = apply_writes ws (db_items s))
    end;
  law_UpdateItem pk x s e :
    match db_UpdateItem pk x (s, e) with
    | (Ok _, (s', _)) => ∃ i, db_items s !! pk = Some i ∧ db_items s' = <[pk := update_item x i]> (db_items s)
    | (Err _, (s', _)) =>
        db_items s' = db_items s ∨
        ∃ i, db_items s !! pk = Some i ∧ db_items s' = <[pk := update_item x i]> (db_items s)
    end;
  law_Query ix hash below limit s e :
    match db_Query ix hash below limit (s, e) with
    | (Ok items, (s', _)) =>
        s' = s ∧ Forall (λ i, ∃ sk, index_key ix i = Some (hash, sk) ∧
          match below with Some b => String.ltb sk b = true | None => True end) items
    | (Err _, (s', _)) => s' = s
    end;
}.
