(* ===== verification/DynamoTable.v ===== *)
(** * internal/repo/dynamo/store.go: opening a store and creating its table

    [Open], [EnsureTable] and [DeleteTable].  The table operations of the
    AWS client are the class [TableService]; [TableServiceLaws] says what its
    documentation says of them: a table is created only if there is none of
    that name, and an operation touches no other table. *)

From S2P Require Import Prelude Money Ledger Repo Dynamo.
From stdpp Require Import base gmap strings list numbers.

(** ** The description of a table *)

Inductive KeyType := HASH | RANGE.
Inductive ScalarType := TypeS.
Record IndexSpec := mkIndexSpec { ix_Name : string; ix_KeySchema : list (string * KeyType) }.
Record TableSpec := mkTableSpec {
  tb_AttributeDefinitions : list (string * ScalarType);
  tb_KeySchema : list (string * KeyType);
  tb_GlobalSecondaryIndexes : list IndexSpec }.

Definition index_name (i : Index) : string := match i with gsi1 => "gsi1" | gsi2 => "gsi2" end.

(** The input of [CreateTable]: pay per request, every index with all
    attributes. *)
Definition ledgerTable : TableSpec :=
  mkTableSpec
    [("pk", TypeS); ("gsi1pk", TypeS); ("gsi1sk", TypeS); ("gsi2pk", TypeS); ("gsi2sk", TypeS)]
    [("pk", HASH)]
    [mkIndexSpec (index_name gsi1) [("gsi1pk", HASH); ("gsi1sk", RANGE)];
     mkIndexSpec (index_name gsi2) [("gsi2pk", HASH); ("gsi2sk", RANGE)]].

(** What the service requires of a description: a hash key, and exactly the
    attributes the keys use. *)
Definition key_attributes (t : TableSpec) : list string :=
  (tb_KeySchema t ++ concat (ix_KeySchema <$> tb_GlobalSecondaryIndexes t)).*1.
Definition hash_first (l : list (string * KeyType)) : bool :=
  match l with [(_, HASH)] | [(_, HASH); (_, RANGE)] => true | _ => false end.
Definition well_formed (t : TableSpec) : bool :=
  hash_first (tb_KeySchema t) && forallb (λ i, hash_first (ix_KeySchema i)) (tb_GlobalSecondaryIndexes t) &&
  bool_decide ((tb_AttributeDefinitions t).*1 ≡ₚ key_attributes t).

(** ** The service *)

Inductive TableError := ResourceInUse | OtherError (e : error).

Class TableService (S : Type) := {
  db_LoadDefaultConfig : M error S unit;
  db_CreateTable : string → TableSpec → M TableError S unit;
  db_WaitTableExists : string → M error S unit;
  db_DeleteTable : string → M error S unit }.

Section Store.
Context {S : Type} {TS : TableService S}.

(** [Store]: its table; the client and the clock are the service. *)
Record Store := mkStore { st_table : string }.

Definition Open (table : string) : M error S Store :=
  throw_if (table =s "") (ErrOther "dynamo: table name (DSN) required");;
  db_LoadDefaultConfig;;
  mret (mkStore table).

Definition EnsureTable (s : Store) : M error S unit := λ x,
  match db_CreateTable (st_table s) ledgerTable x with
  | (Err (OtherError e), x') => (Err e, x')
  | (_, x') => db_WaitTableExists (st_table s) x'
  end.

Definition DeleteTable (s : Store) : M error S unit := db_DeleteTable (st_table s).

(** ** Its documented behaviour *)

Class TableServiceLaws := {
  tables : S → gmap string TableSpec;
  config_tables x : tables (db_LoadDefaultConfig x).2 = tables x;
  create_tables n t x :
    match tables x !! n with
    | Some _ => tables (db_CreateTable n t x).2 = tables x ∧ ∃ e, (db_CreateTable n t x).1 = Err e
    | None => (db_CreateTable n t x).1 ≠ Err ResourceInUse ∧
        tables (db_CreateTable n t x).2 = match (db_CreateTable n t x).1 with Ok _ => <[n := t]> (tables x) | Err _ => tables x end
    end;
  wait_tables n x : tables (db_WaitTableExists n x).2 = tables x;
  wait_exists n x : (db_WaitTableExists n x).1 = Ok tt → is_Some (tables x !! n);
  delete_tables n x : (db_DeleteTable n x).1 = Ok tt → tables (db_DeleteTable n x).2 = delete n (tables x) }.

Context {L : TableServiceLaws}.

(** The tables after [EnsureTable] has worked. *)
Definition ensured (n : string) (m : gmap string TableSpec) : gmap string TableSpec :=
  match m !! n with Some _ => m | None => <[n := ledgerTable]> m end.

Lemma ensured_ensured n m : ensured n (ensured n m) = ensured n m.
Proof. unfold ensured. destruct (m !! n) eqn:E; [by rewrite E|by rewrite lookup_insert_eq]. Qed.

(** [EnsureTable] is safe to call repeatedly, by any number of processes:
    whatever fails, it never changes or removes a table that exists, whatever
    its description, and it creates at most the ledger's table under the
    store's name; when it succeeds that table exists. *)
Theorem EnsureTable_spec (s : Store) (x : S) :
  let '(res, x') := EnsureTable s x in
  (tables x' = tables x ∨ tables x' = ensured (st_table s) (tables x)) ∧
  (res = Ok tt → tables x' = ensured (st_table s) (tables x)).
Proof.
  unfold EnsureTable, ensured. pose proof (create_tables (st_table s) ledgerTable x) as Hc.
  destruct (db_CreateTable _ _ x) as [[[]|[|e]] x1]; simpl in Hc.
  all: pose proof (wait_tables (st_table s) x1); pose proof (wait_exists (st_table s) x1) as Hw;
    destruct (db_WaitTableExists _ x1) as [[[]|e'] x2]; simpl in *.
  all: destruct (tables x !! st_table s) eqn:Ht; destruct Hc as [H1 H2]; try (destruct H2; done); split; intros; try congruence; auto.
  all: try (left; congruence); try (right; congruence).
Qed.

Lemma EnsureTable_again s x x1 : EnsureTable s x = (Ok tt, x1) → tables (EnsureTable s x1).2 = tables x1.
Proof.
  intros E. pose proof (EnsureTable_spec s x) as H1. rewrite E in H1. destruct H1 as [_ H1]. specialize (H1 eq_refl).
  pose proof (EnsureTable_spec s x1) as H2. destruct (EnsureTable s x1) as [r x2]. simpl in *. destruct H2 as [[?|H2] _]; [done|].
  by rewrite H1, ensured_ensured, <-H1 in H2.
Qed.
End Store.

Lemma ledgerTable_well_formed : well_formed ledgerTable = true.
Proof. by vm_compute. Qed.

(** ** A service with no faults *)

#[local] Instance MapTables : TableService (gmap string TableSpec) := {|
  db_LoadDefaultConfig := mret tt;
  db_CreateTable n t := λ m, match m !! n with Some _ => (Err ResourceInUse, m) | None => (Ok tt, <[n := t]> m) end;
  db_WaitTableExists n := λ m, (match m !! n with Some _ => Ok tt | None => Err (ErrOther "timeout") end, m);
  db_DeleteTable n := λ m, (Ok tt, delete n m) |}.

#[local] Instance MapTables_laws : TableServiceLaws.
Proof.
  refine {| tables := λ m, m |}; simpl; intros; try done.
  - destruct (x !! n) eqn:E; rewrite ?E; eauto.
  - by destruct (x !! n).
Defined.

Lemma ensure_runs : EnsureTable (mkStore "ledger") (∅ : gmap string TableSpec) = (Ok tt, {["ledger" := ledgerTable]}).
Proof. by vm_compute. Qed.
