(* ===== verification/DynamoLaws.v ===== *)
(** * The DynamoDB backend: the table and the write buffer

    The table keeps typed items with versions that only grow ([table_ok],
    [store_step]); a transaction's buffer is well formed ([buffer_ok]), so
    that a commit is a [store_step].  [Commit] on every branch. *)

From S2P Require Import Prelude Money Ledger Repo Rfc3339 DynamoItems Dynamo.
From stdpp Require Import base gmap strings list numbers.

(** ** Keys and kinds *)

(** An item sits under the key that its own attributes give. *)
Definition item_key_ok (i : Item) : Prop :=
  match i with
  | ItAccount it => ai_PK it = accountPK (ai_TenantID it) (ai_AccountID it)
  | ItBalance it => bi_PK it = balancePK (bi_TenantID it) (bi_AccountID it) (bi_Currency it)
  | ItJournal it => ji_PK it = journalPK (ji_TenantID it) (ji_JournalID it)
  | ItFlow it => fi_PK it = flowPK (fi_TenantID it) (fi_FlowRunID it)
  | ItOutbox it => ∃ id, oi_PK it = outboxPK id
  | ItReservation it => ri_PK it = reservationPK (ri_TenantID it) (ri_ReservationID it)
  | ItMarker pk _ _ => Exists (λ p, starts p pk = true) ["ACCU#"; "EVT#"; "FIDEMP#"; "RIDEMP#"]
  end.
Definition item_typed (k : string) (i : Item) : Prop := item_pk i = k ∧ item_key_ok i.

Lemma starts_app p s : starts p (p +:+ s) = true.
Proof. unfold starts. induction p as [|c p IH]; [by destruct s|]. simpl. by destruct (Ascii.ascii_dec c c). Qed.
Lemma starts_inv p s : starts p s = true → ∃ r, s = p +:+ r.
Proof.
  unfold starts. revert s. induction p as [|c p IH]; intros s Hs; [by exists s|].
  destruct s as [|c' s]; [done|]. simpl in Hs. destruct (Ascii.ascii_dec c c') as [->|]; [|done].
  apply IH in Hs as [r ->]. by exists r.
Qed.

(** Two kinds of keys carry versions; outbox rows are updated in place. *)
Definition versioned_key (k : string) : bool := starts "BAL#" k || starts "RES#" k.
Definition outbox_key (k : string) : bool := starts "OBX#" k.

Lemma item_typed_versioned k i :
  item_typed k i → bool_decide (is_Some (item_version i)) = versioned_key k.
Proof.
  intros [<- Hk]. destruct i as [it|it|it|it|it|it|pk a v]; simpl in *; try by rewrite Hk.
  - rewrite Hk. unfold versioned_key, balancePK. by rewrite (starts_app "BAL#").
  - by destruct Hk as [id ->].
  - rewrite Hk. unfold versioned_key, reservationPK. by rewrite (starts_app "RES#").
  - repeat apply Exists_cons in Hk as [Hk|Hk]; [..|by apply Exists_nil in Hk]; by apply starts_inv in Hk as [r ->].
Qed.

Lemma item_typed_outbox k i : item_typed k i → outbox_key k = match i with ItOutbox _ => true | _ => false end.
Proof.
  intros [<- Hk]. destruct i as [it|it|it|it|it|it|pk a v]; simpl in *; try by rewrite Hk.
  - destruct Hk as [id ->]. apply (starts_app "OBX#").
  - repeat apply Exists_cons in Hk as [Hk|Hk]; [..|by apply Exists_nil in Hk]; by apply starts_inv in Hk as [r ->].
Qed.

(** ** The table and its history *)

(** What a put may write under its condition: a versioned row starts at
    version 1 and then takes the next version. *)
Definition write_fits (i : Item) (c : WriteCond) : Prop :=
  match c with
  | AttrNotExists => item_version i = None ∨ item_version i = Some 1%Z
  | VersionIs v => item_version i = Some (v + 1)%Z
  | NoCond => False
  end.

Definition item_ok (k : string) (i : Item) : Prop :=
  item_typed k i ∧ ∀ v, item_version i = Some v → (1 ≤ v)%Z.
Definition table_ok (m : gmap string Item) : Prop := map_Forall item_ok m.

Definition writes_ok (ws : list (Item * WriteCond)) : Prop :=
  NoDup (item_pk ∘ fst <$> ws) ∧ Forall (λ w, item_typed (item_pk w.1) w.1 ∧ write_fits w.1 w.2) ws.

(** One write of any client of the backend. *)
Inductive store_step (m : gmap string Item) : gmap string Item → Prop :=
| step_commit ws : writes_ok ws → Forall (cond_holds m) ws → store_step m (apply_writes ws m)
| step_update id x i : m !! outboxPK id = Some i → store_step m (<[outboxPK id := update_item x i]> m).

(** What becomes of a row: it is never removed, and is replaced only by a
    later version or, in the outbox, updated in place. *)
Definition row_grows (k : string) (o o' : option Item) : Prop :=
  match o with
  | None => True
  | Some i => ∃ i', o' = Some i' ∧
      (i' = i ∨ outbox_key k = true ∨ ∃ v v', item_version i = Some v ∧ item_version i' = Some v' ∧ (v < v')%Z)
  end.

Lemma row_grows_refl k o : row_grows k o o.
Proof. destruct o; simpl; eauto. Qed.
Lemma row_grows_trans k o1 o2 o3 : row_grows k o1 o2 → row_grows k o2 o3 → row_grows k o1 o3.
Proof.
  destruct o1 as [i1|]; [|done]. intros (i2 & -> & H12) (i3 & -> & H23). exists i3. split; [done|].
  destruct H12 as [->|[?|(v & v' & Hv & Hv' & Hlt)]]; [done|by auto|].
  destruct H23 as [->|[?|(w & w' & Hw & Hw' & Hlt')]]; [by eauto 10|by auto|].
  right; right. exists v, w'. split_and!; [done..|]. rewrite Hw in Hv'. injection Hv' as ->. lia.
Qed.

(** ** Writes and the table *)

Lemma apply_writes_other ws m k : k ∉ (item_pk ∘ fst <$> ws) → apply_writes ws m !! k = m !! k.
Proof.
  unfold apply_writes. revert m. induction ws as [|w ws IH]; intros m Hk; [done|]. cbn in *.
  apply not_elem_of_cons in Hk as [Hne Hk]. by rewrite IH, lookup_insert_ne.
Qed.

Lemma apply_writes_at ws m w : NoDup (item_pk ∘ fst <$> ws) → w ∈ ws → apply_writes ws m !! item_pk w.1 = Some w.1.
Proof.
  revert m. induction ws as [|w' ws IH]; intros m Hnd Hw; [by apply elem_of_nil in Hw|].
  cbn in Hnd. apply list.NoDup_cons in Hnd as [Hni Hnd]. apply elem_of_cons in Hw as [->|Hw]; cbn; [|by apply IH].
  change (apply_writes ws (<[item_pk w'.1:=w'.1]> m) !! item_pk w'.1 = Some w'.1).
  by rewrite apply_writes_other, lookup_insert_eq.
Qed.

Lemma apply_writes_inv ws m k i : apply_writes ws m !! k = Some i → (∃ w, w ∈ ws ∧ item_pk w.1 = k ∧ w.1 = i) ∨ m !! k = Some i.
Proof.
  revert m. induction ws as [|w ws IH]; intros m Hk; [by right|]. cbn in Hk.
  destruct (IH _ Hk) as [(w' & Hw & Hpk & Hi)|Hm]; [left; exists w'; split_and!; try done; by right|].
  apply lookup_insert_Some in Hm as [[Hpk Hi]|[_ Hm]]; [|by right]. left. exists w. split_and!; try done. by left.
Qed.

Lemma update_item_ok k x i : item_ok k i → item_ok k (update_item x i).
Proof.
  intros [[Hpk Hk] Hv]. destruct i as [it|it|it|it|it|it|pk a v]; simpl; try by split.
  destruct x; by split.
Qed.

Lemma store_step_ok m m' : table_ok m → store_step m m' → table_ok m'.
Proof.
  intros Hm [ws [Hnd Hws] Hc|id x i Hi].
  - intros k i Hk. apply apply_writes_inv in Hk as [(w & Hw & <- & <-)|Hk]; [|by apply Hm].
    rewrite list.Forall_forall in Hws, Hc. destruct (Hws _ Hw) as [Ht Hf]. split; [done|]. intros v Hv.
    specialize (Hc _ Hw). unfold cond_holds in Hc. destruct w as [j c]; simpl in *.
    destruct c as [|v0|]; simpl in Hf, Hc; [destruct Hf; simplify_eq; lia| |done].
    rewrite Hv in Hf. injection Hf as ->. apply bind_Some in Hc as (j' & Hj & Hv').
    pose proof (proj2 (Hm _ _ Hj) _ Hv'). lia.
  - apply map_Forall_insert_2; [|done]. by apply update_item_ok, Hm.
Qed.

Lemma store_step_grows m m' k : store_step m m' → row_grows k (m !! k) (m' !! k).
Proof.
  intros [ws [Hnd Hws] Hc|id x i Hi].
  - destruct (decide (k ∈ (item_pk ∘ fst <$> ws))) as [Hk|Hk]; [|rewrite apply_writes_other by done; apply row_grows_refl].
    apply list_elem_of_fmap in Hk as (w & -> & Hw). unfold compose. rewrite apply_writes_at by done.
    rewrite list.Forall_forall in Hws, Hc. destruct (Hws _ Hw) as [_ Hf]. specialize (Hc _ Hw).
    unfold cond_holds in Hc. destruct w as [j c]; simpl in *. destruct c as [|v0|]; simpl in Hf, Hc; [by rewrite Hc| |done].
    apply bind_Some in Hc as (j' & -> & Hv'). simpl. exists j. split; [done|]. right; right. eexists _, _. split_and!; [done..|lia].
  - destruct (decide (k = outboxPK id)) as [->|Hk]; [|rewrite lookup_insert_ne by done; apply row_grows_refl].
    rewrite Hi, lookup_insert_eq. simpl. eexists. split; [done|]. right; left. apply (starts_app "OBX#").
Qed.

Lemma store_steps_ok m m' : rtc store_step m m' → table_ok m → table_ok m'.
Proof. induction 1 as [|m1 m2 m3 Hs _ IH]; [done|]. intros Hm. by eapply IH, store_step_ok. Qed.
Lemma store_steps_grow m m' k : rtc store_step m m' → row_grows k (m !! k) (m' !! k).
Proof.
  induction 1 as [|m1 m2 m3 Hs _ IH]; [apply row_grows_refl|].
  eapply row_grows_trans; [by apply store_step_grows|done].
Qed.

(** A row without a version does not change. *)
Lemma row_fixed m m' k i :
  rtc store_step m m' → m !! k = Some i → item_version i = None → outbox_key k = false → m' !! k = Some i.
Proof.
  intros Hs Hi Hv Hk. pose proof (store_steps_grow _ _ k Hs) as Hg. rewrite Hi in Hg.
  destruct Hg as (i' & Hi' & [->|[?|(v & v' & ? & _)]]); congruence.
Qed.

(** A versioned row found again at the version it was read at is the row that
    was read; a row found absent was absent. *)
Lemma row_same m m' k v :
  rtc store_step m m' → outbox_key k = false → (m !! k) ≫= item_version = Some v → (m' !! k) ≫= item_version = Some v →
  m' !! k = m !! k.
Proof.
  intros Hs Hk Hv Hv'. pose proof (store_steps_grow _ _ k Hs) as Hg.
  destruct (m !! k) as [i|] eqn:Hi; [|done]. destruct Hg as (i' & Hi' & Hc). rewrite Hi' in *. simpl in *.
  destruct Hc as [->|[?|(w & w' & Hw & Hw' & Hlt)]]; [done|congruence|].
  rewrite Hv in Hw. rewrite Hv' in Hw'. simplify_eq. lia.
Qed.
Lemma row_absent m m' k : rtc store_step m m' → m' !! k = None → m !! k = None.
Proof.
  intros Hs Hn. pose proof (store_steps_grow _ _ k Hs) as Hg. destruct (m !! k) as [i|]; [|done].
  destruct Hg as (i' & Hi' & _). congruence.
Qed.

(** ** The write buffer *)

Section Buffer.
Context {D : DecimalOps}.

(** The condition of a row first seen in this state. *)
Definition row_cond (existed : bool) (readVersion : Z) : WriteCond :=
  if existed then VersionIs readVersion else AttrNotExists.

Record buffer_ok (t : Tx) : Prop := {
  bo_dup : NoDup (tx_order t);
  bo_dom : ∀ k, k ∈ tx_order t ↔ is_Some (tx_puts t !! k);
  bo_put : ∀ k pp, tx_puts t !! k = Some pp → item_typed k (pp_item pp) ∧ write_fits (pp_item pp) (write_cond pp);
  bo_bal : ∀ k b, tx_balances t !! k = Some b → starts "BAL#" k = true ∧ (tbl_existed b = false → tbl_readVersion b = 0%Z) ∧
    ∀ pp, tx_puts t !! k = Some pp → write_cond pp = row_cond (tbl_existed b) (tbl_readVersion b);
  bo_balput : ∀ k, is_Some (tx_puts t !! k) → starts "BAL#" k = true → is_Some (tx_balances t !! k);
  bo_flow : ∀ k f, tx_flows t !! k = Some f → k = flowPK (fr_TenantID (fst_run f)) (fr_ID (fst_run f));
  bo_jrn : ∀ k j, tx_journals t !! k = Some j → k = journalPK (jr_TenantID j) (jr_ID j);
  bo_res : ∀ k r, tx_reservations t !! k = Some r → k = reservationPK (rs_TenantID (rst_res r)) (rs_ID (rst_res r)) ∧
    ∀ pp, tx_puts t !! k = Some pp → write_cond pp = row_cond (rst_existed r) (rst_readVersion r);
  bo_resput : ∀ k, is_Some (tx_puts t !! k) → starts "RES#" k = true → is_Some (tx_reservations t !! k);
  bo_open : tx_done t = false;
}.

Lemma newTx_ok : buffer_ok newTx.
Proof.
  split; simpl; try (intros *; rewrite ?lookup_empty; naive_solver).
  - constructor.
  - intros k. rewrite lookup_empty. split; [by intros ?%elem_of_nil|by intros []].
Qed.

Lemma write_fits_unversioned i c : item_version i = None → write_fits i c ↔ c = AttrNotExists.
Proof. intros Hv. destruct c; simpl; rewrite ?Hv; naive_solver. Qed.

(** Where the put of [pk] goes, and that every other put stays. *)
Lemma put_buffer_at pk i c v t :
  tx_puts (put_buffer pk i c v t) =
  <[pk := match tx_puts t !! pk with
          | Some pp => mkPendingPut i (pp_cond pp) (pp_version pp)
          | None => mkPendingPut i c v end]> (tx_puts t).
Proof. unfold put_buffer. by destruct (tx_puts t !! pk). Qed.

(** A put keeps the buffer well formed when the item fits the condition that
    will guard it, and the overlay of its row asks for that condition. *)
Lemma put_buffer_ok pk i c v t :
  buffer_ok t → item_typed pk i →
  (tx_puts t !! pk = None → write_fits i (write_cond (mkPendingPut i c v))) →
  (∀ pp, tx_puts t !! pk = Some pp → write_fits i (write_cond pp)) →
  (starts "BAL#" pk = true → ∃ b, tx_balances t !! pk = Some b ∧
     (tx_puts t !! pk = None → write_cond (mkPendingPut i c v) = row_cond (tbl_existed b) (tbl_readVersion b))) →
  (starts "RES#" pk = true → ∃ r, tx_reservations t !! pk = Some r ∧
     (tx_puts t !! pk = None → write_cond (mkPendingPut i c v) = row_cond (rst_existed r) (rst_readVersion r))) →
  buffer_ok (put_buffer pk i c v t).
Proof.
  intros [Hdup Hdom Hput Hbal Hbp Hflow Hjrn Hres Hrp Hopen] Ht Hnew Hold HB HR.
  assert (Hlink : ∀ pp k ex rv, tx_puts (put_buffer pk i c v t) !! k = Some pp →
            (∀ pp, tx_puts t !! k = Some pp → write_cond pp = row_cond ex rv) →
            (k = pk → tx_puts t !! pk = None → write_cond (mkPendingPut i c v) = row_cond ex rv) →
            write_cond pp = row_cond ex rv).
  { intros pp k ex rv Hpp Hk Hfresh. rewrite put_buffer_at in Hpp.
    apply lookup_insert_Some in Hpp as [[<- <-]|[_ Hpp]]; [|by apply Hk].
    destruct (tx_puts t !! pk) as [p0|] eqn:Hp; [|by apply Hfresh]. by rewrite <- (Hk _ eq_refl). }
  assert (Hsome : ∀ k, is_Some (tx_puts (put_buffer pk i c v t) !! k) → k = pk ∨ is_Some (tx_puts t !! k)).
  { intros k Hk. rewrite put_buffer_at in Hk. destruct (decide (k = pk)); [by left|]. rewrite lookup_insert_ne in Hk by done. by right. }
  split.
  - unfold put_buffer. destruct (tx_puts t !! pk) eqn:Hp; simpl; [done|]. apply list.NoDup_app. split_and!; [done| |apply list.NoDup_singleton].
    intros k Hk ->%list_elem_of_singleton. apply Hdom in Hk. rewrite Hp in Hk. by destruct Hk.
  - intros k. rewrite put_buffer_at. unfold put_buffer.
    destruct (decide (k = pk)) as [->|Hne]; [rewrite lookup_insert_eq|rewrite lookup_insert_ne by done].
    + destruct (tx_puts t !! pk) eqn:Hp; simpl.
      * split; [by eauto|]. intros _. apply Hdom. by rewrite Hp.
      * split; [by eauto|]. intros _. apply elem_of_app. right. by left.
    + rewrite <- Hdom. destruct (tx_puts t !! pk); simpl; [done|]. rewrite elem_of_app, list_elem_of_singleton. naive_solver.
  - intros k pp Hpp. rewrite put_buffer_at in Hpp. apply lookup_insert_Some in Hpp as [[<- <-]|[_ Hpp]]; [|by apply Hput].
    destruct (tx_puts t !! pk) as [p0|] eqn:Hp; simpl; split; try done; [by apply (Hold _ eq_refl)|by apply Hnew].
  - intros k b Hb. assert (Hb0 : tx_balances t !! k = Some b) by (unfold put_buffer in Hb; by destruct (tx_puts t !! pk)).
    destruct (Hbal _ _ Hb0) as (Hk & H0 & Hc). split_and!; [done..|]. intros pp Hpp.
    apply (Hlink pp k); [done|done|]. intros -> Hn. destruct (HB Hk) as (b' & Hb' & Hw). rewrite Hb0 in Hb'. simplify_eq. auto.
  - intros k Hk Hpre. assert (Hs : is_Some (tx_balances t !! k)).
    { destruct (Hsome _ Hk) as [->|Hk0]; [|by apply Hbp]. destruct (HB Hpre) as (b & -> & _). eauto. }
    unfold put_buffer. by destruct (tx_puts t !! pk).
  - unfold put_buffer. by destruct (tx_puts t !! pk).
  - unfold put_buffer. by destruct (tx_puts t !! pk).
  - intros k r Hr. assert (Hr0 : tx_reservations t !! k = Some r) by (unfold put_buffer in Hr; by destruct (tx_puts t !! pk)).
    destruct (Hres _ _ Hr0) as (Hk & Hc). split; [done|]. intros pp Hpp.
    apply (Hlink pp k); [done|done|]. intros -> Hn. destruct HR as (r' & Hr' & Hw); [|rewrite Hr0 in Hr'; simplify_eq; auto].
    rewrite Hk. apply (starts_app "RES#").
  - intros k Hk Hpre. assert (Hs : is_Some (tx_reservations t !! k)).
    { destruct (Hsome _ Hk) as [->|Hk0]; [|by apply Hrp]. destruct (HR Hpre) as (b & -> & _). eauto. }
    unfold put_buffer. by destruct (tx_puts t !! pk).
  - unfold put_buffer. by destruct (tx_puts t !! pk).
Qed.

Lemma not_versioned pk : versioned_key pk = false → starts "BAL#" pk = false ∧ starts "RES#" pk = false.
Proof. unfold versioned_key. by intros ?%orb_false_iff. Qed.

(** The kinds without a version. *)
Lemma put_plain_ok pk i t :
  buffer_ok t → item_typed pk i → versioned_key pk = false → buffer_ok (put_buffer pk i condNotExists 0 t).
Proof.
  intros Hok Ht Hv. destruct (not_versioned _ Hv) as [HB HR].
  assert (Hi : item_version i = None).
  { pose proof (item_typed_versioned _ _ Ht) as Hi. rewrite Hv in Hi. apply bool_decide_eq_false in Hi. by apply eq_None_not_Some. }
  apply put_buffer_ok; try done; try congruence.
  - intros _. by apply write_fits_unversioned.
  - intros pp Hpp. destruct (bo_put _ Hok _ _ Hpp) as [Ht' Hf']. apply write_fits_unversioned; [done|].
    apply write_fits_unversioned in Hf'; [done|].
    pose proof (item_typed_versioned _ _ Ht') as Hi'. rewrite Hv in Hi'. apply bool_decide_eq_false in Hi'. by apply eq_None_not_Some.
Qed.
End Buffer.
