(* ===== verification/DynamoOps.v ===== *)
(** * The DynamoDB backend: what every operation of a transaction keeps

    [keeps md m]: run in a well-formed transaction ([good]), [m] leaves a
    well-formed transaction that has only grown ([tx_goes]).  The mode asks
    for more: with [md_reads] every row it read is one that the commit will
    find unchanged ([read_ok]): a row that never changes, a balance whose
    version is recorded, or a key that the commit requires to be absent; with
    [md_plain] it writes no reservation; it loads only the balances
    [md_bal]. *)

From S2P Require Import Prelude Money Ledger Repo Rfc3339 DynamoItems Dynamo DynamoLaws.
From stdpp Require Import base gmap strings list numbers.

Section Ops.
Context {H : Host} {D : DecimalOps} {S : Type} {DB : DynamoDB S} {DL : DynamoLaws S DB}.
Abbreviation TxM A := (M error (TxIn (S:=S) * Env) A).
Implicit Types (x : TxIn (S:=S)) (t : Tx) (w : nat → S).

(** The table as each read finds it: other clients only take steps. *)
Definition world_ok w : Prop :=
  table_ok (db_items (w 0%nat)) ∧ ∀ n, rtc store_step (db_items (w n)) (db_items (w (n + 1)%nat)).

Lemma world_steps w n m : world_ok w → n ≤ m → rtc store_step (db_items (w n)) (db_items (w m)).
Proof.
  intros [_ Hw] Hle. induction Hle as [|m Hle IH]; [done|]. etransitivity; [done|].
  replace (Datatypes.S m) with (m + 1) by lia. apply Hw.
Qed.
Lemma world_table w n : world_ok w → table_ok (db_items (w n)).
Proof. intros Hw. eapply store_steps_ok; [by apply (world_steps w 0 n); [|lia]|apply Hw]. Qed.

Definition good x : Prop := world_ok (ti_world x) ∧ buffer_ok (ti_tx x).

(** The row a read found, and why the commit will find the same. *)
Definition row x (n : nat) (k : string) : option Item := db_items (ti_world x n) !! k.
Definition read_ok t (k : string) (o : option Item) : Prop :=
  (∃ i, o = Some i ∧ item_version i = None ∧ outbox_key k = false) ∨
  (∃ b, tx_balances t !! k = Some b ∧
     (tbl_existed b = true → tbl_readVersion b = 0%Z ∨ (o ≫= item_version) = Some (tbl_readVersion b))) ∨
  (∃ pp, tx_puts t !! k = Some pp ∧ write_cond pp = AttrNotExists).

Record mode := mkMode { md_reads : bool; md_plain : bool; md_bal : string → Prop }.

(** Conditions and read versions are never changed. *)
Record tx_mono (md : mode) t t' : Prop := {
  tm_puts : ∀ k pp, tx_puts t !! k = Some pp → ∃ pp', tx_puts t' !! k = Some pp' ∧ write_cond pp' = write_cond pp;
  tm_bal : ∀ k b, tx_balances t !! k = Some b → ∃ b', tx_balances t' !! k = Some b' ∧
    tbl_existed b' = tbl_existed b ∧ tbl_readVersion b' = tbl_readVersion b;
  tm_dom : ∀ k, is_Some (tx_balances t' !! k) → is_Some (tx_balances t !! k) ∨ md_bal md k;
  tm_res : md_plain md = true → ∀ k, starts "RES#" k = true → tx_puts t' !! k = tx_puts t !! k;
}.

Lemma tx_mono_refl md t : tx_mono md t t.
Proof. split; eauto. Qed.
Lemma tx_mono_trans md t1 t2 t3 : tx_mono md t1 t2 → tx_mono md t2 t3 → tx_mono md t1 t3.
Proof.
  intros [P1 B1 D1 R1] [P2 B2 D2 R2]. split.
  - intros k pp Hk. destruct (P1 _ _ Hk) as (p2 & H2 & E2). destruct (P2 _ _ H2) as (p3 & H3 & E3). exists p3. split; congruence.
  - intros k b Hk. destruct (B1 _ _ Hk) as (b2 & H2 & E2 & F2). destruct (B2 _ _ H2) as (b3 & H3 & E3 & F3). exists b3. split_and!; congruence.
  - intros k Hk. destruct (D2 _ Hk) as [Hk2|?]; [by apply D1|by right].
  - intros Hr k Hk. by rewrite R2, R1.
Qed.
Lemma tx_mono_same md t t' : tx_puts t' = tx_puts t → tx_balances t' = tx_balances t → tx_mono md t t'.
Proof. intros E1 E2. split; rewrite ?E1, ?E2; eauto. Qed.

Lemma read_ok_mono md t t' k o : tx_mono md t t' → read_ok t k o → read_ok t' k o.
Proof.
  intros [Hp Hb _ _] [Hi|[(b & Hk & Hv)|(pp & Hk & Hc)]]; [by left| |].
  - right; left. destruct (Hb _ _ Hk) as (b' & Hk' & He & Hr). exists b'. split; [done|]. by rewrite He, Hr.
  - right; right. destruct (Hp _ _ Hk) as (pp' & Hk' & Hc'). exists pp'. split; [done|congruence].
Qed.

Record tx_goes (md : mode) x x' : Prop := {
  tg_world : ti_world x' = ti_world x;
  tg_reads : ∃ new, ti_reads x' = ti_reads x ++ new;
  tg_mono : tx_mono md (ti_tx x) (ti_tx x');
  tg_new : md_reads md = true → ∀ n k, length (ti_reads x) ≤ n → ti_reads x' !! n = Some k → read_ok (ti_tx x') k (row x' n k);
}.

Lemma tx_goes_step md x t' :
  tx_mono md (ti_tx x) t' → tx_goes md x (mkTxIn (ti_world x) (ti_reads x) t').
Proof.
  intros Hm. split; simpl; [done|exists []; by rewrite app_nil_r|done|].
  intros _ n k Hn Hk. apply lookup_lt_Some in Hk. lia.
Qed.
Lemma tx_goes_refl md x : tx_goes md x x.
Proof. destruct x as [w r t]. apply tx_goes_step, tx_mono_refl. Qed.
Lemma tx_goes_trans md x1 x2 x3 : tx_goes md x1 x2 → tx_goes md x2 x3 → tx_goes md x1 x3.
Proof.
  intros [W1 [n1 R1] M1 N1] [W2 [n2 R2] M2 N2]. split.
  - congruence.
  - exists (n1 ++ n2). by rewrite R2, R1, app_assoc.
  - by eapply tx_mono_trans.
  - intros Hr n k Hn Hk. destruct (decide (length (ti_reads x2) ≤ n)) as [Hge|Hlt]; [by apply N2|].
    assert (Hk2 : ti_reads x2 !! n = Some k) by (rewrite R2, lookup_app_l in Hk by lia; done).
    pose proof (N1 Hr n k Hn Hk2) as Hok. unfold row in *. rewrite W2. by eapply read_ok_mono.
Qed.

(** ** Computations that keep the transaction well formed *)

Definition keeps (md : mode) {A} (m : TxM A) : Prop :=
  ∀ s, good s.1 → wpo m (λ _ s', good s'.1 ∧ tx_goes md s.1 s'.1) s.

Section Keeps.
Context (md : mode).

(** The rule of sequences, for any state [s0] the transaction came from. *)
Lemma wpo_keeps {A B} (m : TxM A) (f : A → TxM B) s0 s Q :
  keeps md m → good s.1 → tx_goes md s0 s.1 →
  (∀ a s', good s'.1 → tx_goes md s0 s'.1 → wpo (f a) Q s') → wpo (m ≫= f) Q s.
Proof.
  intros Hm Hg H0 Hf. apply wp_bind. eapply wp_mono; [by apply Hm| |done]. cbv beta. intros a s' [Hg' Ht].
  apply Hf; [done|]. by eapply tx_goes_trans.
Qed.

Lemma keeps_ret {A} (a : A) : keeps md (mret a).
Proof. intros s Hg. apply wp_ret. split; [done|apply tx_goes_refl]. Qed.
Lemma keeps_throw {A} e : keeps md (A:=A) (throw e).
Proof. by intros s Hg. Qed.
Lemma keeps_throw_if c e : keeps md (throw_if c e).
Proof. destruct c; [apply keeps_throw|apply keeps_ret]. Qed.
Lemma keeps_lift {A} (r : result error A) : keeps md (lift_result r).
Proof. destruct r; [apply keeps_ret|apply keeps_throw]. Qed.
Lemma keeps_unmarshal {A} (o : option A) : keeps md (unmarshal o).
Proof. destruct o; [apply keeps_ret|apply keeps_throw]. Qed.
Lemma keeps_NewID : keeps md NewID.
Proof. intros [x e] Hg. split; [done|apply tx_goes_refl]. Qed.
Lemma keeps_Now : keeps md Now.
Proof. intros [x e] Hg. split; [done|apply tx_goes_refl]. Qed.
Lemma keeps_bind {A B} (m : TxM A) (f : A → TxM B) : keeps md m → (∀ a, keeps md (f a)) → keeps md (m ≫= f).
Proof.
  intros Hm Hf s Hg. apply (wpo_keeps m f s.1); [done..|apply tx_goes_refl|]. intros a s' Hg' Ht.
  eapply wp_mono; [by apply Hf| |done]. cbv beta. intros b s2 [Hg2 Ht2]. split; [done|by eapply tx_goes_trans].
Qed.
Lemma keeps_foldM {A B} (f : B → A → TxM B) l b : (∀ b a, keeps md (f b a)) → keeps md (foldM f l b).
Proof. intros Hf. revert b. induction l as [|a l IH]; intros b; simpl; [apply keeps_ret|]. by apply keeps_bind. Qed.

(** A read of the current buffer, with what is known of it. *)
Lemma keeps_getTx {A} (f : Tx → TxM A) :
  (∀ t x e, good x → ti_tx x = t → wpo (f t) (λ _ s', good s'.1 ∧ tx_goes md x s'.1) (x, e)) →
  keeps md (getTx ≫= f).
Proof. intros Hf [x e] Hg. apply wp_bind. by apply Hf. Qed.

Lemma wpo_modTx (f : Tx → Tx) x e :
  good x → buffer_ok (f (ti_tx x)) → tx_mono md (ti_tx x) (f (ti_tx x)) →
  wpo (modTx f) (λ _ s', good s'.1 ∧ tx_goes md x s'.1 ∧ ti_tx s'.1 = f (ti_tx x)) (x, e).
Proof.
  intros [Hw Hb] Hf Hm. unfold wp, modTx. destruct (tx_nil (ti_tx x)); [done|].
  split_and!; [by split|by apply tx_goes_step|done].
Qed.
Lemma keeps_modTx (f : Tx → Tx) :
  (∀ t, buffer_ok t → buffer_ok (f t) ∧ tx_mono md t (f t)) → keeps md (modTx f).
Proof.
  intros Hf [x e] Hg. destruct (Hf _ (proj2 Hg)) as [Hok Hm].
  eapply wp_mono; [by apply wpo_modTx| |done]. cbv beta. by intros _ s' (? & ? & _).
Qed.

Lemma put_mono pk i c v t : (md_plain md = true → starts "RES#" pk = false) → tx_mono md t (put_buffer pk i c v t).
Proof.
  intros Hr. split.
  - intros k pp Hk. rewrite put_buffer_at. destruct (decide (k = pk)) as [->|Hne].
    + rewrite lookup_insert_eq, Hk. eexists. split; [done|]. done.
    + rewrite lookup_insert_ne by done. eauto.
  - intros k b Hk. exists b. unfold put_buffer. by destruct (tx_puts t !! pk).
  - intros k Hk. left. revert Hk. unfold put_buffer. by destruct (tx_puts t !! pk).
  - intros Hrs k Hk. rewrite put_buffer_at, lookup_insert_ne; [done|]. intros ->. rewrite Hr in Hk; done.
Qed.

Lemma keeps_put_plain pk i :
  item_typed pk i → versioned_key pk = false → keeps md (put pk i condNotExists 0).
Proof.
  intros Ht Hv. apply keeps_modTx. intros t Hok. split; [by apply put_plain_ok|].
  apply put_mono. intros _. by apply not_versioned in Hv as [_ ?].
Qed.

Lemma keeps_set_flow k f : k = flowPK (fr_TenantID (fst_run f)) (fr_ID (fst_run f)) → keeps md (modTx (set_flow k f)).
Proof.
  intros Hk. apply keeps_modTx. intros t Hok. split; [|by apply tx_mono_same].
  destruct Hok. split; try done. simpl. intros k' f' [[<- <-]|[_ Hf]]%lookup_insert_Some; auto.
Qed.
Lemma keeps_set_journal k j : k = journalPK (jr_TenantID j) (jr_ID j) → keeps md (modTx (set_journal k j)).
Proof.
  intros Hk. apply keeps_modTx. intros t Hok. split; [|by apply tx_mono_same].
  destruct Hok. split; try done. simpl. intros k' f' [[<- <-]|[_ Hf]]%lookup_insert_Some; auto.
Qed.
Lemma keeps_set_flowIdemp k v : keeps md (modTx (set_flowIdemp k v)).
Proof. apply keeps_modTx. intros t Hok. split; [|by apply tx_mono_same]. by destruct Hok. Qed.
End Keeps.

(** ** The operations *)

(** A read that succeeds finds the row of the table at that moment. *)
Lemma wpo_getItem pk x e (Q : option Item → TxIn * Env → Prop) :
  (∀ e', Q (row x (length (ti_reads x)) pk) (mkTxIn (ti_world x) (ti_reads x ++ [pk]) (ti_tx x), e')) →
  wpo (tx_getItem pk) Q (x, e).
Proof. intros HQ. unfold wp, tx_getItem. rewrite law_GetItem. destruct (host_fault _); [done|]. apply HQ. Qed.

Lemma tx_goes_reads md x ks t' :
  tx_mono md (ti_tx x) t' →
  (md_reads md = true → ∀ n k, ks !! n = Some k → read_ok t' k (row x (length (ti_reads x) + n) k)) →
  tx_goes md x (mkTxIn (ti_world x) (ti_reads x ++ ks) t').
Proof.
  intros Hm Hks. split; simpl; [done|by eexists|done|]. intros Hr n k Hn Hk.
  rewrite lookup_app_r in Hk by done. apply (Hks Hr) in Hk. unfold row in *. simpl in *.
  by replace (length (ti_reads x) + (n - length (ti_reads x))) with n in Hk by lia.
Qed.

Lemma row_typed x n k i : good x → row x n k = Some i → item_ok k i.
Proof. intros [Hw _] Hi. by apply (world_table _ n Hw). Qed.

Lemma read_plain md x pk i :
  good x → row x (length (ti_reads x)) pk = Some i → item_version i = None → outbox_key pk = false →
  tx_goes md x (mkTxIn (ti_world x) (ti_reads x ++ [pk]) (ti_tx x)).
Proof.
  intros Hg Hi Hv Hk. apply tx_goes_reads; [apply tx_mono_refl|]. intros _ n k Hn.
  apply list_lookup_singleton_Some in Hn as [-> <-]. rewrite Nat.add_0_r, Hi. left. eauto.
Qed.

Lemma read_any md x pk : md_reads md = false → tx_goes md x (mkTxIn (ti_world x) (ti_reads x ++ [pk]) (ti_tx x)).
Proof. intros Hm. apply tx_goes_reads; [apply tx_mono_refl|congruence]. Qed.

Lemma keeps_getItem md pk : md_reads md = false → keeps md (tx_getItem pk).
Proof. intros Hm [x e] [Hw Hb]. apply wpo_getItem. intros e'. split; [done|by apply read_any]. Qed.

Lemma keeps_GetAccount md (tn a : string) : keeps md (dy_GetAccount tn a).
Proof.
  apply keeps_getTx. intros tx x e Hg <-. destruct (tx_puts _ !! _) as [pp|] eqn:Hp.
  - apply keeps_bind; [apply keeps_unmarshal|intros; apply keeps_lift|done].
  - unfold readAccount. apply wp_bind, wpo_getItem. intros e'. destruct (row _ _ _) as [i|] eqn:Hi; [|done].
    apply wp_bind. destruct i; try done. simpl. apply wp_ret, wp_lift; [|done]. intros acc _.
    destruct (row_typed _ _ _ _ Hg Hi) as [Ht _]. split; [destruct Hg; by split|].
    eapply read_plain; [done..|by rewrite (item_typed_outbox _ _ Ht)].
Qed.

Lemma set_balance_ok t k b :
  buffer_ok t → starts "BAL#" k = true → tx_balances t !! k = None → (tbl_existed b = false → tbl_readVersion b = 0%Z) →
  buffer_ok (set_balance k b t) ∧ ∀ md, md_bal md k → tx_mono md t (set_balance k b t).
Proof.
  intros Hok Hk Hn H0. pose proof (bo_balput _ Hok k) as Hnp. split.
  - destruct Hok as [? ? ? Hbal Hbp ? ? ? ?]. split; try done; simpl.
    + intros k' b' [[<- <-]|[_ Hb]]%lookup_insert_Some; [|by apply Hbal]. split_and!; [done..|].
      intros pp Hpp. rewrite Hpp, Hn in Hnp. destruct Hnp as [? Hs]; [by eexists|done|done].
    + intros k' Hk' Hpre. destruct (decide (k' = k)) as [->|]; [rewrite lookup_insert_eq; eauto|].
      rewrite lookup_insert_ne by done. by apply Hbp.
  - intros md Hmd. split; simpl; [eauto| | |done].
    + intros k' b' Hb'. destruct (decide (k' = k)) as [->|]; [congruence|]. rewrite lookup_insert_ne by done. eauto.
    + intros k'. destruct (decide (k' = k)) as [->|]; [by right|]. rewrite lookup_insert_ne by done. by left.
Qed.

(** The end of [loadBalance]: the row goes to the overlay, and justifies the
    reads of its key made so far. *)
Definition cached md x key (s' : TxIn * Env) (b : txBalance) : Prop :=
  (good s'.1 ∧ tx_goes md x s'.1) ∧ tx_balances (ti_tx s'.1) !! key = Some b.

Lemma wpo_cache md x key ks b e' :
  good x → starts "BAL#" key = true → md_bal md key → tx_balances (ti_tx x) !! key = None →
  (∀ n k, ks !! n = Some k → k = key ∧
     (tbl_existed b = true → tbl_readVersion b = 0%Z ∨ (row x (length (ti_reads x) + n) k ≫= item_version) = Some (tbl_readVersion b))) →
  (tbl_existed b = false → tbl_readVersion b = 0%Z) →
  wpo (modTx (set_balance key b);; mret b) (λ b s', cached md x key s' b)
    (mkTxIn (ti_world x) (ti_reads x ++ ks) (ti_tx x), e').
Proof.
  intros [Hw Hbuf] Hpre Hmd Hb Hks H0. destruct (set_balance_ok _ key b Hbuf Hpre Hb H0) as [Hok Hm].
  apply wp_bind. unfold modTx, wp. destruct (tx_nil _); [done|]. simpl. split; simpl; [|by rewrite lookup_insert_eq].
  split; [done|]. apply tx_goes_reads; [by apply Hm|]. intros _ n k Hk. destruct (Hks n k Hk) as [-> Hv]. right; left. exists b.
  split; [apply lookup_insert_eq|done].
Qed.

(** Version 0 and no money: a second read decides whether the row exists. *)
Lemma wpo_probe md x key d c e' :
  good x → starts "BAL#" key = true → md_bal md key → tx_balances (ti_tx x) !! key = None →
  wpo (existed ← (probe ← tx_getItem key;
                  match probe with None => mret false | Some i => unmarshal (asBalance i);; mret true end);
       modTx (set_balance key (mkTxBalance d c 0 existed));; mret (mkTxBalance d c 0 existed))
    (λ b s', cached md x key s' b) (mkTxIn (ti_world x) (ti_reads x ++ [key]) (ti_tx x), e').
Proof.
  intros Hg Hpre Hmd Hb. apply wp_bind, wp_bind, wpo_getItem. intros e2. cbn [ti_reads ti_world ti_tx]. rewrite <- app_assoc. simpl.
  assert (Hks : ∀ b, tbl_readVersion b = 0%Z → ∀ n k, [key; key] !! n = Some k → k = key ∧
    (tbl_existed b = true → tbl_readVersion b = 0%Z ∨ (row x (length (ti_reads x) + n) k ≫= item_version) = Some (tbl_readVersion b))).
  { intros b Hb0 n k Hn. split; [|by auto]. by destruct n as [|[|n]]; simplify_eq/=. }
  destruct (row _ _ key) as [i2|]; [apply wp_bind; destruct i2; try done; apply wp_ret|]; apply wp_ret, wpo_cache; auto.
Qed.

(** The cached row, read now or before. *)
Lemma wpo_loadBalance md (tn a c : string) s :
  md_bal md (balancePK tn a c) → good s.1 → wpo (loadBalance tn a c) (λ b s', cached md s.1 (balancePK tn a c) s' b) s.
Proof.
  intros Hmd Hg. destruct s as [x e]; simpl in *. unfold loadBalance. apply wp_bind. unfold wp at 1. cbn [getTx fst].
  destruct (tx_balances (ti_tx x) !! balancePK tn a c) as [b|] eqn:Hb; [by apply wp_ret; split; [split; [|apply tx_goes_refl]|]|].
  set (key := balancePK tn a c) in *. assert (Hpre : starts "BAL#" key = true) by apply (starts_app "BAL#").
  assert (Hone : ∀ b, (tbl_existed b = true → tbl_readVersion b = 0%Z ∨ (row x (length (ti_reads x)) key ≫= item_version) = Some (tbl_readVersion b)) →
    ∀ n k, [key] !! n = Some k → k = key ∧
    (tbl_existed b = true → tbl_readVersion b = 0%Z ∨ (row x (length (ti_reads x) + n) k ≫= item_version) = Some (tbl_readVersion b))).
  { intros b Hv n k [-> <-]%list_lookup_singleton_Some. by rewrite Nat.add_0_r. }
  unfold readBalance. apply wp_bind, wp_bind, wpo_getItem. intros e1. fold key.
  destruct (row x (length (ti_reads x)) key) as [i|] eqn:Hi.
  - apply wp_bind. destruct i as [|it| | | | |]; try done. apply wp_ret. apply wp_bind, wp_lift; [|done]. intros d _.
    apply wp_bind, wp_lift; [|done]. intros cr _. apply wp_ret. cbv beta iota.
    destruct (negb (bi_Version it =? 0)%Z || negb (IsZero d) || negb (IsZero cr)) eqn:Hex.
    + apply wp_bind, wp_ret, wpo_cache; [done..| |done]. apply Hone. intros _. by right.
    + apply orb_false_iff in Hex as [[->%negb_false_iff%Z.eqb_eq _]%orb_false_iff _]. by apply wpo_probe.
  - cbv beta iota. apply wp_ret. cbv beta iota. cbn [Z.eqb negb orb].
    destruct (negb (IsZero decimal_Zero) || negb (IsZero decimal_Zero)) eqn:Hex; [|by apply wpo_probe].
    apply wp_bind, wp_ret, wpo_cache; [done..| |done]. apply Hone. by left.
Qed.

Lemma keeps_LockBalance md (tn a c : string) : md_bal md (balancePK tn a c) → keeps md (dy_LockBalance tn a c).
Proof.
  intros Hmd s Hg. apply wp_bind. eapply wp_mono; [by apply (wpo_loadBalance md)| |done].
  intros b s' [Hk _]. by apply wp_ret.
Qed.
Lemma keeps_EnsureBalanceRow md (tn a c : string) : md_bal md (balancePK tn a c) → keeps md (dy_EnsureBalanceRow tn a c).
Proof.
  intros Hmd s Hg. apply wp_bind. eapply wp_mono; [by apply (wpo_loadBalance md)| |done].
  intros b s' [Hk _]. by apply wp_ret.
Qed.

(** The overlay takes new amounts; what was read of the row stays. *)
Lemma reset_balance_ok t k b d c :
  buffer_ok t → tx_balances t !! k = Some b →
  buffer_ok (set_balance k (mkTxBalance d c (tbl_readVersion b) (tbl_existed b)) t) ∧
  ∀ md, tx_mono md t (set_balance k (mkTxBalance d c (tbl_readVersion b) (tbl_existed b)) t).
Proof.
  intros [? ? ? Hbal Hbp ? ? ? ?] Hb. split.
  - split; try done; simpl.
    + intros k' b' [[<- <-]|[_ Hb']]%lookup_insert_Some; [|by apply Hbal]. apply (Hbal _ _ Hb).
    + intros k' Hk' Hpre. destruct (decide (k' = k)) as [->|]; [rewrite lookup_insert_eq; eauto|].
      rewrite lookup_insert_ne by done. by apply Hbp.
  - intros md. split; simpl; [eauto| | |done].
    + intros k' b' Hb'. destruct (decide (k' = k)) as [->|]; [rewrite lookup_insert_eq; simplify_eq; eauto|].
      rewrite lookup_insert_ne by done. eauto.
    + intros k'. destruct (decide (k' = k)) as [->|]; [rewrite Hb; eauto|]. rewrite lookup_insert_ne by done. by left.
Qed.

(** An update puts the row under the condition of its first read. *)
Lemma wpo_UpdateBalance md (tn a c : string) (d cr : dec) s :
  md_bal md (balancePK tn a c) → good s.1 →
  wpo (dy_UpdateBalance tn a c d cr) (λ _ s', (good s'.1 ∧ tx_goes md s.1 s'.1) ∧
    is_Some (tx_puts (ti_tx s'.1) !! balancePK tn a c)) s.
Proof.
  intros Hmd Hg. unfold dy_UpdateBalance. set (key := balancePK tn a c) in *.
  assert (Hpre : starts "BAL#" key = true) by apply (starts_app "BAL#").
  apply wp_bind. eapply wp_mono; [by apply (wpo_loadBalance md)| |done]. cbv beta. fold key. intros b [x1 e1] [[Hg1 Ht1] Hb].
  cbn [fst] in *. destruct (reset_balance_ok _ key b d cr (proj2 Hg1) Hb) as [Hok Hm].
  apply wp_bind. eapply wp_mono; [by apply (wpo_modTx md)| |done]. cbv beta. intros _ [x2 e2] (Hg2 & Ht2 & Hx2). cbn [fst] in *.
  apply wp_bind. unfold Now, wp at 1. cbv beta iota.
  assert (Hb2 : tx_balances (ti_tx x2) !! key = Some (mkTxBalance d cr (tbl_readVersion b) (tbl_existed b)))
    by (rewrite Hx2; simpl; apply lookup_insert_eq).
  destruct (bo_bal _ (proj2 Hg2) _ _ Hb2) as (_ & H0 & Hcond). cbn [tbl_existed tbl_readVersion] in *.
  assert (Hfit : ∀ it c, bi_Version it = (tbl_readVersion b + 1)%Z → c = row_cond (tbl_existed b) (tbl_readVersion b) → write_fits (ItBalance it) c).
  { intros it c0 Hv ->. unfold row_cond, write_fits. destruct (tbl_existed b); simpl; rewrite Hv; [done|]. right. by rewrite H0. }
  assert (Hwc : ∀ i, write_cond (mkPendingPut i (if tbl_existed b then condVersionEquals else condNotExists) (tbl_readVersion b)) =
    row_cond (tbl_existed b) (tbl_readVersion b)) by (intros; by destruct (tbl_existed b)).
  eapply wp_mono; [apply (wpo_modTx md)| |done].
  - done.
  - apply put_buffer_ok; [apply Hg2|by split|..].
    + intros _. by apply Hfit.
    + intros pp Hpp. by apply Hfit, Hcond.
    + intros _. eexists. split; [done|]. intros _. apply Hwc.
    + intros HR. exfalso. clear -HR. by unfold key, balancePK, starts in HR.
  - apply put_mono. intros _. done.
  - cbv beta. intros _ [x3 e3] (Hg3 & Ht3 & Hx3). cbn [fst] in *. split.
    + split; [done|]. eapply tx_goes_trans; [done|]. by eapply tx_goes_trans.
    + rewrite Hx3, put_buffer_at, lookup_insert_eq. by eexists.
Qed.

(** *** Items without a version *)

Lemma keeps_put_flow md pk fs :
  pk = flowPK (fr_TenantID (fst_run fs)) (fr_ID (fst_run fs)) → keeps md (putFlow pk fs).
Proof. intros ->. by apply keeps_put_plain. Qed.
Lemma keeps_put_journal md pk j : pk = journalPK (jr_TenantID j) (jr_ID j) → keeps md (put pk (ItJournal (journalToItem j)) condNotExists 0).
Proof. intros ->. by apply keeps_put_plain. Qed.

Lemma marker_ok p s attr v : p ∈ ["ACCU#"; "EVT#"; "FIDEMP#"; "RIDEMP#"] → item_typed (p +:+ s) (ItMarker (p +:+ s) attr v).
Proof. intros Hp. split; [done|]. apply list.Exists_exists. exists p. split; [done|apply starts_app]. Qed.

Lemma keeps_put_marker md p s attr v :
  p ∈ ["ACCU#"; "EVT#"; "FIDEMP#"; "RIDEMP#"] → keeps md (put (p +:+ s) (ItMarker (p +:+ s) attr v) condNotExists 0).
Proof.
  intros Hp. apply keeps_put_plain; [by apply marker_ok|].
  rewrite !elem_of_cons, elem_of_nil in Hp. by destruct Hp as [->|[->|[->|[->|[]]]]].
Qed.

Lemma keeps_InsertAccount md a : keeps md (dy_InsertAccount a).
Proof. apply keeps_bind; [by apply keeps_put_plain|]. intros _. apply (keeps_put_marker md "ACCU#"). set_solver. Qed.

Lemma keeps_InsertFlowRun md f : keeps md (dy_InsertFlowRun f).
Proof.
  apply keeps_bind; [by apply keeps_set_flow|intros _]. apply keeps_bind; [by apply keeps_put_flow|intros _].
  apply keeps_bind; [apply (keeps_put_marker md "FIDEMP#"); set_solver|intros _; apply keeps_set_flowIdemp].
Qed.

Lemma keeps_InsertFlowStep md st : keeps md (dy_InsertFlowStep st).
Proof.
  apply keeps_getTx. intros t x e Hg <-. destruct (tx_flows _ !! _) as [fs|] eqn:Hf; [|done].
  pose proof (bo_flow _ (proj2 Hg) _ _ Hf) as Hk.
  apply keeps_bind; [by apply keeps_set_flow|intros _; by apply keeps_put_flow|done].
Qed.

Lemma keeps_CompleteFlowRun md (tn f : string) : keeps md (dy_CompleteFlowRun tn f).
Proof.
  apply keeps_getTx. intros t x e Hg <-. destruct (tx_flows _ !! _) as [fs|] eqn:Hf; [|done].
  pose proof (bo_flow _ (proj2 Hg) _ _ Hf) as Hk.
  apply keeps_bind; [apply keeps_Now|intros now; apply keeps_bind; [by apply keeps_set_flow|intros _; by apply keeps_put_flow]|done].
Qed.

Lemma keeps_InsertJournal md j : keeps md (dy_InsertJournal j).
Proof.
  apply keeps_bind; [by apply keeps_set_journal|intros _]. apply keeps_bind; [by apply (keeps_put_journal md)|intros _].
  apply (keeps_put_marker md "EVT#"). set_solver.
Qed.

Lemma keeps_InsertEntry md (tn eid jid a c : string) (dir : Direction) (amt : dec) : keeps md (dy_InsertEntry tn eid jid a c dir amt).
Proof.
  apply keeps_getTx. intros t x e Hg <-. destruct (tx_journals _ !! _) as [j|] eqn:Hj; [|done].
  pose proof (bo_jrn _ (proj2 Hg) _ _ Hj) as Hk.
  apply keeps_bind; [by apply keeps_set_journal|intros _; by apply keeps_put_journal|done].
Qed.

Lemma keeps_InsertOutbox md o : keeps md (dy_InsertOutbox o).
Proof. apply keeps_put_plain; [split; [done|by eexists]|done]. Qed.

Lemma keeps_readFlow md (tn f : string) : md_reads md = false → keeps md (readFlow tx_getItem tn f).
Proof.
  intros Hm. apply keeps_bind; [by apply keeps_getItem|]. intros [i|]; [|apply keeps_ret].
  apply keeps_bind; [apply keeps_unmarshal|intros it]. apply keeps_bind; [apply keeps_lift|intros []; apply keeps_ret].
Qed.

Lemma keeps_GetFlowByIdempotency md (tn k : string) : md_reads md = false → keeps md (dy_GetFlowByIdempotency tn k).
Proof.
  intros Hm. apply keeps_getTx. intros t x e Hg _. destruct (_ ≫= _) as [fs|]; [by apply (keeps_ret md _ (x, e))|].
  apply keeps_bind; [by apply keeps_getItem|intros [i|]; [|apply keeps_ret]|done].
  apply keeps_bind; [apply keeps_unmarshal|intros id; by apply keeps_readFlow].
Qed.

Lemma keeps_GetFlowSteps md (tn f : string) : md_reads md = false → keeps md (dy_GetFlowSteps tn f).
Proof.
  intros Hm. apply keeps_getTx. intros t x e Hg _. destruct (_ !! _) as [fs|]; [by apply (keeps_ret md _ (x, e))|].
  apply keeps_bind; [by apply keeps_readFlow|intros []; apply keeps_ret|done].
Qed.

(** *** Reservations *)

Lemma set_reservation_ok t k r :
  buffer_ok t → k = reservationPK (rs_TenantID (rst_res r)) (rs_ID (rst_res r)) →
  (∀ pp, tx_puts t !! k = Some pp → write_cond pp = row_cond (rst_existed r) (rst_readVersion r)) →
  buffer_ok (set_reservation k r t).
Proof.
  intros [? ? ? ? ? ? ? Hres Hrp] Hk Hc. split; try done; simpl.
  - intros k' r' [[<- <-]|[_ Hr]]%lookup_insert_Some; [done|by apply Hres].
  - intros k' Hk' Hpre. destruct (decide (k' = k)) as [->|]; [rewrite lookup_insert_eq; eauto|].
    rewrite lookup_insert_ne by done. by apply Hrp.
Qed.

Lemma wpo_put_reservation md (it : reservationItem) c v x e :
  md_plain md = false → good x → item_key_ok (ItReservation it) →
  (∃ r, tx_reservations (ti_tx x) !! ri_PK it = Some r ∧
     write_cond (mkPendingPut (ItReservation it) c v) = row_cond (rst_existed r) (rst_readVersion r) ∧
     write_fits (ItReservation it) (row_cond (rst_existed r) (rst_readVersion r))) →
  wpo (put (ri_PK it) (ItReservation it) c v) (λ _ s', good s'.1 ∧ tx_goes md x s'.1) (x, e).
Proof.
  intros Hmd Hg Hk (r & Hr & Hc & Hf). pose proof (bo_res _ (proj2 Hg) _ _ Hr) as [_ Hlink].
  assert (Hok : buffer_ok (put_buffer (ri_PK it) (ItReservation it) c v (ti_tx x))).
  { apply put_buffer_ok; [apply Hg|by split| | | |].
    - intros _. by rewrite Hc.
    - intros pp Hpp. by rewrite (Hlink _ Hpp).
    - intros HB. exfalso. rewrite Hk in HB. clear -HB. by unfold reservationPK, starts in HB.
    - intros _. eauto. }
  eapply wp_mono; [apply (wpo_modTx md); [done|done|apply put_mono; congruence]| |done]. cbv beta. tauto.
Qed.

(** A new reservation takes a key that the transaction has not written. *)
Lemma wpo_InsertReservation md r s :
  md_plain md = false → good s.1 → tx_puts (ti_tx s.1) !! reservationPK (rs_TenantID r) (rs_ID r) = None →
  wpo (dy_InsertReservation r) (λ _ s', good s'.1 ∧ tx_goes md s.1 s'.1) s.
Proof.
  intros Hmd Hg Hn. destruct s as [x e]. cbn [fst] in *. apply wp_bind.
  eapply wp_mono; [apply (wpo_modTx md); [done| |by apply tx_mono_same]| |done].
  { apply set_reservation_ok; [apply Hg|done|congruence]. }
  cbv beta. intros _ [x1 e1] (Hg1 & Ht1 & Hx1). cbn [fst] in *. apply wp_bind.
  assert (E : ∃ it, reservationToItem r 1 = it ∧ ri_PK it = reservationPK (rs_TenantID r) (rs_ID r) ∧
     item_key_ok (ItReservation it) ∧ ri_Version it = 1%Z).
  { unfold reservationToItem. destruct (parseAccountOwner _). eexists. split; [reflexivity|done]. }
  destruct E as (it & -> & Hpk & Hkey & Hv). rewrite <- Hpk.
  eapply wp_mono; [apply (wpo_put_reservation md); [done..|]| |done].
  { rewrite Hx1, Hpk. simpl. rewrite lookup_insert_eq. eexists. split; [done|]. cbn. rewrite Hv. auto. }
  cbv beta. intros _ s2 [Hg2 Ht2].
  eapply wp_mono; [by apply (keeps_put_marker md "RIDEMP#"); [set_solver|]| |done]. cbv beta. intros _ s3 [Hg3 Ht3].
  split; [done|]. eapply tx_goes_trans; [done|]. by eapply tx_goes_trans.
Qed.

Lemma reservationFromItem_key it r v :
  reservationFromItem it = Ok (r, v) → rs_TenantID r = ri_TenantID it ∧ rs_ID r = ri_ReservationID it ∧ v = ri_Version it.
Proof.
  unfold reservationFromItem, mbind, result_bind. repeat case_match; try done. by intros [= <- <-].
Qed.

Lemma keeps_LockReservation md (tn id : string) : md_reads md = false → keeps md (dy_LockReservation tn id).
Proof.
  intros Hm. apply keeps_getTx. intros t x e Hg <-. destruct (tx_reservations _ !! _) as [rs|] eqn:Hr; [by apply (keeps_ret md _ (x, e))|].
  apply wp_bind, wpo_getItem. intros e1. destruct (row _ _ _) as [i|] eqn:Hi; [|done].
  destruct (row_typed _ _ _ _ Hg Hi) as [[Hpk Hkey] _]. apply wp_bind. destruct i as [| | | | |it|]; try done. apply wp_ret.
  apply wp_bind, wp_lift; [|done]. intros [r v] Hit. apply reservationFromItem_key in Hit as (Ht & Hid & _). simpl in Hpk, Hkey.
  assert (Hg' : good (mkTxIn (ti_world x) (ti_reads x ++ [reservationPK tn id]) (ti_tx x))) by (destruct Hg; by split).
  apply wp_bind. eapply wp_mono; [apply (wpo_modTx md); [done| |by apply tx_mono_same]| |done].
  - apply set_reservation_ok; [apply Hg|cbn; congruence|]. intros pp Hpp. simpl in *.
    destruct (bo_resput _ (proj2 Hg) (reservationPK tn id)) as [r0 Hr0]; [by eexists|apply (starts_app "RES#")|congruence].
  - cbv beta. intros _ s' (Hg2 & Ht2 & _). apply wp_ret. split; [done|]. eapply tx_goes_trans; [by apply read_any|done].
Qed.

Lemma keeps_GetReservationByIdempotency md (tn k : string) : md_reads md = false → keeps md (dy_GetReservationByIdempotency tn k).
Proof.
  intros Hm. apply keeps_getTx. intros t x e Hg _. destruct (sel _ _) as [fs|]; [by apply (keeps_ret md _ (x, e))|].
  apply keeps_bind; [by apply keeps_getItem|intros [i|]; [|apply keeps_ret]|done].
  apply keeps_bind; [apply keeps_unmarshal|intros id]. apply keeps_bind; [by apply keeps_LockReservation|intros; apply keeps_ret].
Qed.

Lemma keeps_UpdateReservationAmounts md (tn id : string) (o c l : dec) (st : ReservationStatus) :
  md_plain md = false → keeps md (dy_UpdateReservationAmounts tn id o c l st).
Proof.
  intros Hm. apply keeps_getTx. intros t x e Hg <-. destruct (tx_reservations _ !! _) as [rs|] eqn:Hr; [|done].
  destruct (bo_res _ (proj2 Hg) _ _ Hr) as [Hk Hlink]. apply wp_bind. unfold Now, wp at 1.
  set (now := host_now _). set (e1 := mkEnv _ _ _). cbv zeta. set (res := resWith _ _ _ _ _ _).
  apply wp_bind. eapply wp_mono; [apply (wpo_modTx md); [done| |by apply tx_mono_same]| |done].
  { apply set_reservation_ok; [apply Hg|done|]. intros pp Hpp. by apply Hlink. }
  cbv beta. intros _ [x1 e1'] (Hg1 & Ht1 & Hx1). cbn [fst] in *.
  assert (E : ∀ v, ∃ it, reservationToItem res v = it ∧ ri_PK it = reservationPK tn id ∧ item_key_ok (ItReservation it) ∧ ri_Version it = v).
  { intros v. unfold reservationToItem. destruct (parseAccountOwner _). eexists. split; [reflexivity|done]. }
  assert (Hput : ∀ v cd, write_cond (mkPendingPut (ItReservation (reservationToItem res v)) cd (if rst_existed rs then rst_readVersion rs else 0)) =
      row_cond (rst_existed rs) (rst_readVersion rs) → v = (if rst_existed rs then rst_readVersion rs + 1 else 1)%Z →
      wpo (put (reservationPK tn id) (ItReservation (reservationToItem res v)) cd (if rst_existed rs then rst_readVersion rs else 0%Z))
        (λ _ s', good s'.1 ∧ tx_goes md x s'.1) (x1, e1')).
  { intros v cd Hc Hv. destruct (E v) as (it & Heq & Hpk & Hkey & Hver). rewrite Heq in *. rewrite <- Hpk.
    eapply wp_mono; [apply (wpo_put_reservation md); [done..|]| |done].
    - rewrite Hx1, Hpk. simpl. rewrite lookup_insert_eq. eexists. split; [done|]. simpl. split; [exact Hc|].
      unfold row_cond, write_fits. destruct (rst_existed rs); simpl; rewrite Hver, Hv; auto.
    - cbv beta. intros _ s' [Hg2 Ht2]. split; [done|]. by eapply tx_goes_trans. }
  destruct (rst_existed rs); by apply Hput.
Qed.
End Ops.
