(* ===== verification/DynamoCommit.v ===== *)
(** * The DynamoDB backend: commits and handlers

    [Commit] on every branch, and that every request the service serves on
    this backend takes only steps of [store_step]. *)

From S2P Require Import Prelude Money Ledger Repo Contract Service Flow Accounts Reservations Exchange Recon Worker System.
From S2P Require Import Rfc3339 DynamoItems Dynamo DynamoLaws DynamoOps.
From stdpp Require Import base gmap strings list numbers.

Section Commit.
Context {H : Host} {D : DecimalOps} {S : Type} {DB : DynamoDB S} {DL : DynamoLaws S DB}.
Implicit Types (t : Tx) (x : TxIn (S:=S)).

(** ** The writes of a buffer *)

Definition buffer_writes t (pps : list pendingPut) : Prop := mapM (λ pk, tx_puts t !! pk) (tx_order t) = Some pps.

Lemma buffer_writes_some t : buffer_ok t → ∃ pps, buffer_writes t pps.
Proof.
  intros Hok. assert (Hs : is_Some (mapM (λ pk, tx_puts t !! pk) (tx_order t))); [|destruct Hs as [pps ?]; by exists pps].
  apply mapM_is_Some, list.Forall_forall. intros k Hk. by apply (bo_dom _ Hok).
Qed.

Lemma buffer_writes_keys t pps : buffer_ok t → buffer_writes t pps → item_pk ∘ fst <$> (to_write <$> pps) = tx_order t.
Proof.
  intros Hok Hp. apply mapM_Some_1 in Hp. rewrite <- list_fmap_compose.
  pose proof (bo_put _ Hok) as Hput. induction Hp as [|k pp ks pps Hk _ IH]; [done|]. cbn. f_equal; [|done].
  by destruct (Hput _ _ Hk) as [[? _] _].
Qed.

Lemma buffer_writes_ok t pps : buffer_ok t → buffer_writes t pps → writes_ok (to_write <$> pps).
Proof.
  intros Hok Hp. split; [by rewrite (buffer_writes_keys t) by done; apply bo_dup|].
  apply mapM_Some_1 in Hp. pose proof (bo_put _ Hok) as Hput. apply Forall_fmap.
  induction Hp as [|k pp ks pps Hk _ IH]; constructor; [|done]. simpl. destruct (Hput _ _ Hk) as [Ht Hf].
  split; [|done]. by destruct Ht as [<- ?].
Qed.

Lemma buffer_writes_in t pps k pp : buffer_ok t → buffer_writes t pps → tx_puts t !! k = Some pp → pp ∈ pps ∧ item_pk (pp_item pp) = k.
Proof.
  intros Hok Hp Hk. split; [|by destruct (bo_put _ Hok _ _ Hk) as [[? _] _]].
  assert (Hin : k ∈ tx_order t) by (apply (bo_dom _ Hok); by eexists). apply mapM_Some_1 in Hp.
  apply list_elem_of_lookup in Hin as [n Hn]. destruct (Forall2_lookup_l _ _ _ _ _ Hp Hn) as (pp' & Hn' & Hk').
  simplify_eq. by eapply list_elem_of_lookup_2.
Qed.

(** The table after the writes of a buffer. *)
Definition written t (m : gmap string Item) : gmap string Item := (pp_item <$> tx_puts t) ∪ m.

Lemma apply_buffer t pps m : buffer_ok t → buffer_writes t pps → apply_writes (to_write <$> pps) m = written t m.
Proof.
  intros Hok Hp. pose proof (buffer_writes_ok t pps Hok Hp) as [Hnd _]. apply map_eq. intros k. unfold written.
  destruct (tx_puts t !! k) as [pp|] eqn:Hk.
  - destruct (buffer_writes_in t pps k pp Hok Hp Hk) as [Hin <-].
    rewrite (lookup_union_Some_l _ _ _ (pp_item pp)) by (rewrite lookup_fmap, Hk; done).
    apply (apply_writes_at _ m (to_write pp)); [done|]. by apply list_elem_of_fmap_2.
  - rewrite lookup_union_r by (by rewrite lookup_fmap, Hk). apply apply_writes_other.
    rewrite (buffer_writes_keys t) by done. rewrite (bo_dom _ Hok), Hk. by intros [].
Qed.

(** Every condition of the buffer holds in the table. *)
Definition conds_hold t (m : gmap string Item) : Prop := ∀ k pp, tx_puts t !! k = Some pp → cond_holds m (to_write pp).

Lemma conds_buffer t pps m : buffer_ok t → buffer_writes t pps → Forall (cond_holds m) (to_write <$> pps) → conds_hold t m.
Proof.
  intros Hok Hp Hc k pp Hk. destruct (buffer_writes_in t pps k pp Hok Hp Hk) as [Hin _].
  rewrite Forall_fmap, list.Forall_forall in Hc. by apply Hc.
Qed.

(** ** Conflicts *)

Lemma classify_spec puts order reasons c :
  classify puts order reasons = Some c →
  ∃ n, reasons !! n = Some (Some ConditionalCheckFailed) ∧
    c = match order !! n with Some pk => classifyPut puts pk | None => classifyPut puts "" end.
Proof.
  revert order. induction reasons as [|r rs IH]; intros order Hc; [done|]. cbn [classify] in Hc.
  case_bool_decide as Hr.
  - exists 0%nat. subst r. split; [done|]. destruct order; by simplify_eq.
  - apply IH in Hc as (n & Hn & ->). exists (Datatypes.S n). split; [done|]. by destruct order.
Qed.

(** What an error of [Commit] says of the table it met. *)
Definition conflict t (m : gmap string Item) (c : DomainCode) : Prop :=
  ∃ k pp, tx_puts t !! k = Some pp ∧ ¬ cond_holds m (to_write pp) ∧
    match c with
    | CodeSerializationRetryExhausted => versioned_key k = true
    | CodeFlowConflict => write_cond pp = AttrNotExists ∧ is_Some (m !! k) ∧ starts "BAL#" k = false
    | _ => False
    end.

Lemma classifyPut_conflict t k pp m :
  buffer_ok t → tx_puts t !! k = Some pp → ¬ cond_holds m (to_write pp) → conflict t m (classifyPut (tx_puts t) k).
Proof.
  intros Hok Hk Hc. exists k, pp. split_and!; [done..|]. unfold classifyPut. rewrite Hk. simpl.
  destruct (bo_put _ Hok _ _ Hk) as [Ht Hf]. unfold to_write, cond_holds, write_cond in *. cbn [fst snd] in *.
  destruct (pp_cond pp) eqn:Hpc; [done| |].
  - destruct (starts "BAL#" k) eqn:HB; [by unfold versioned_key; rewrite HB|]. split_and!; [done| |done].
    destruct Ht as [Hpk _]. rewrite Hpk in Hc. destruct (m !! k) eqn:E; [by eexists|]. by destruct Hc.
  - rewrite <- (item_typed_versioned _ _ Ht). apply bool_decide_eq_true. simpl in Hf. by rewrite Hf.
Qed.

Lemma conflict_at t pps m n reasons c :
  buffer_ok t → buffer_writes t pps → length reasons = length pps →
  (∀ n w, (to_write <$> pps) !! n = Some w → reasons !! n = Some (Some ConditionalCheckFailed) → ¬ cond_holds m w) →
  reasons !! n = Some (Some ConditionalCheckFailed) →
  c = match tx_order t !! n with Some pk => classifyPut (tx_puts t) pk | None => classifyPut (tx_puts t) "" end →
  conflict t m c.
Proof.
  intros Hok Hp Hlen Hr Hn ->. apply mapM_Some_1 in Hp.
  destruct (lookup_lt_is_Some_2 pps n) as [pp Hpp]; [rewrite <- Hlen; by eapply lookup_lt_Some|].
  destruct (Forall2_lookup_r _ _ _ _ _ Hp Hpp) as (k & Hk & Hput). rewrite Hk.
  apply (classifyPut_conflict t k pp); [done..|]. apply (Hr n); [|done]. by rewrite list_lookup_fmap, Hpp.
Qed.

Lemma buffer_size t pps : buffer_ok t → buffer_writes t pps → length pps = length (tx_order t).
Proof. intros _ Hp. apply mapM_Some_1, Forall2_length in Hp. done. Qed.

Lemma written_empty t m : tx_puts t = ∅ → written t m = m.
Proof. intros E. unfold written. by rewrite E, fmap_empty, (left_id_L ∅ (∪)). Qed.

(** The commit of a well-formed buffer. *)
Lemma wp_Commit s x e :
  buffer_ok (ti_tx x) →
  wp dy_Commit
    (λ _ s', size (tx_puts (ti_tx x)) ≤ maxTxItems ∧ conds_hold (ti_tx x) (db_items s) ∧
       db_items s'.1.1 = written (ti_tx x) (db_items s))
    (λ err s',
       (maxTxItems < size (tx_puts (ti_tx x)) ∧ err = ErrDomain CodeFlowTooLarge ∧ s'.1.1 = s) ∨
       (∃ c, err = ErrDomain c ∧ conflict (ti_tx x) (db_items s) c ∧ db_items s'.1.1 = db_items s) ∨
       (err = ErrOther "transact write" ∧ (db_items s'.1.1 = db_items s ∨
          (size (tx_puts (ti_tx x)) ≤ maxTxItems ∧ conds_hold (ti_tx x) (db_items s) ∧
           db_items s'.1.1 = written (ti_tx x) (db_items s)))))
    ((s, x), e).
Proof.
  intros Hok. set (t := ti_tx x) in *. unfold wp, dy_Commit. fold t. rewrite (bo_open _ Hok).
  destruct (Nat.eqb_spec (size (tx_puts t)) 0) as [Hz|Hnz].
  { apply map_size_empty_inv in Hz. rewrite Hz, map_size_empty. simpl. split_and!; [unfold maxTxItems; lia| |by rewrite written_empty].
    intros k pp. by rewrite Hz, lookup_empty. }
  destruct (Nat.ltb_spec maxTxItems (size (tx_puts t))) as [Hgt|Hle]; [by left|].
  destruct (buffer_writes_some t Hok) as [pps Hp]. pose proof Hp as Hp'. unfold buffer_writes in Hp'. rewrite Hp'.
  pose proof (buffer_writes_ok t pps Hok Hp) as [Hnd _].
  pose proof (law_TransactWrite (to_write <$> pps) s e Hnd) as HT.
  destruct (db_TransactWriteItems _ _) as [[|reasons|] [s' e']]; cbn [fst snd].
  - destruct HT as [Hc Hi]. split_and!; [done|by eapply conds_buffer|]. by rewrite Hi, (apply_buffer t).
  - destruct HT as (Hi & Hlen & Hr). rewrite length_fmap in Hlen.
    destruct (classify _ _ reasons) as [c|] eqn:Hcl; [|by right; right; split; [|left]].
    apply classify_spec in Hcl as (n & Hn & Hc). right; left. exists c. split_and!; [done| |done]. by eapply conflict_at.
  - right; right. split; [done|]. destruct HT as [Hi|[Hc Hi]]; [by left|right].
    split_and!; [done|by eapply conds_buffer|]. by rewrite Hi, (apply_buffer t).
Qed.

Lemma written_step t m : buffer_ok t → conds_hold t m → store_step m (written t m).
Proof.
  intros Hok Hc. destruct (buffer_writes_some t Hok) as [pps Hp]. rewrite <- (apply_buffer t pps) by done.
  apply step_commit; [by eapply buffer_writes_ok|]. apply Forall_fmap. apply mapM_Some_1 in Hp.
  unfold conds_hold in Hc. induction Hp as [|k pp ks pps Hk _ IH]; constructor; [|done]. by eapply Hc.
Qed.

Lemma commit_steps s x e :
  buffer_ok (ti_tx x) → rtc store_step (db_items s) (db_items (dy_Commit ((s, x), e)).2.1.1).
Proof.
  intros Hok. pose proof (wp_Commit s x e Hok) as HC. unfold wp in HC.
  destruct (dy_Commit _) as [[[]|er] s']; simpl in *.
  - destruct HC as (_ & Hc & ->). by apply rtc_once, written_step.
  - destruct HC as [(_ & _ & ->)|[(c & _ & _ & ->)|(_ & [->|(_ & Hc & ->)])]]; [done..|]. by apply rtc_once, written_step.
Qed.

(** ** Handlers *)

Definition md_any : mode := mkMode false false (λ _, True).
Definition md_flow : mode := mkMode false true (λ _, True).

Lemma keeps_plain {A} (m : M error (TxIn * Env) A) : keeps md_flow m → keeps md_any m.
Proof.
  intros Hm s Hg. eapply wp_mono; [by apply Hm| |done]. cbv beta. intros a s' [Hg' [Hw Hr [Mp Mb Md Mr] Hn]].
  split; [done|]. by split.
Qed.

Lemma alone_good s : table_ok (db_items s) → good (mkTxIn (λ _, s) [] newTx).
Proof. intros Ht. split; [split; [done|intros n; reflexivity]|apply newTx_ok]. Qed.

(** A step of the store: whatever [m] answers, the table takes only steps. *)
Definition steps {A} (m : M error (S * Env) A) : Prop :=
  ∀ s, table_ok (db_items s.1) → rtc store_step (db_items s.1) (db_items (m s).2.1).

Lemma steps_with_tx {A} (body : M error (TxIn * Env) A) : keeps md_any body → steps (with_tx body).
Proof.
  intros Hb [s e] Ht. unfold with_tx. cbn [st_BeginFlowTx DynamoStore dy_BeginFlowTx].
  specialize (Hb (mkTxIn (λ _, s) [] newTx, e) (alone_good s Ht)). unfold wp in Hb.
  destruct (body _) as [[a|er] [x' e']]; [|done]. destruct Hb as [[_ Hok] _]. simpl in Hok.
  pose proof (commit_steps s x' e' Hok) as HC. cbn [tx_Commit DynamoStore] in *.
  destruct (dy_Commit _) as [[[]|er] [[s2 x2] e2]]; exact HC.
Qed.
Lemma steps_runInTx (body : M error (TxIn * Env) unit) : keeps md_any body → steps (runInTx body).
Proof.
  intros Hb [s e] Ht. unfold runInTx. cbn [st_BeginFlowTx DynamoStore dy_BeginFlowTx].
  specialize (Hb (mkTxIn (λ _, s) [] newTx, e) (alone_good s Ht)). unfold wp in Hb.
  destruct (body _) as [[[]|er] [x' e']]; [|done]. destruct Hb as [[_ Hok] _]. simpl in Hok.
  pose proof (commit_steps s x' e' Hok) as HC. cbn [tx_Commit DynamoStore] in *.
  destruct (dy_Commit _) as [[[]|er] [[s2 x2] e2]]; exact HC.
Qed.

Lemma steps_bind {A B} (m : M error (S * Env) A) (f : A → M error (S * Env) B) :
  steps m → (∀ a, steps (f a)) → steps (m ≫= f).
Proof.
  intros Hm Hf s Ht. specialize (Hm s Ht). unfold mbind, M_bind.
  destruct (m s) as [[a|e] s']; simpl in *; [|done]. etransitivity; [done|]. apply Hf. by eapply store_steps_ok.
Qed.
Lemma steps_ret {A} (a : A) : steps (mret a).
Proof. by intros s Ht. Qed.
Lemma steps_throw {A} e : steps (A:=A) (throw e).
Proof. by intros s Ht. Qed.
Lemma steps_throw_if c e : steps (throw_if c e).
Proof. destruct c; [apply steps_throw|apply steps_ret]. Qed.
Lemma steps_lift {A} (r : result error A) : steps (lift_result r).
Proof. destruct r; [apply steps_ret|apply steps_throw]. Qed.
Lemma steps_unmarshal {A} (o : option A) : steps (unmarshal o).
Proof. destruct o; [apply steps_ret|apply steps_throw]. Qed.
Lemma steps_NewID : steps NewID.
Proof. by intros [t e] Ht. Qed.
Lemma steps_Now : steps Now.
Proof. by intros [t e] Ht. Qed.
Lemma steps_rpc {A} (m : M error (S * Env) A) : steps m → steps (rpc m).
Proof. intros Hm s Ht. specialize (Hm s Ht). unfold rpc. by destruct (m s) as [[a|e] s']. Qed.
Lemma steps_ignore {A} (m : M error (S * Env) A) : steps m → steps (ignore m).
Proof. intros Hm s Ht. by apply Hm. Qed.
Lemma steps_foldM {A B} (f : B → A → M error (S * Env) B) l b : (∀ b a, steps (f b a)) → steps (foldM f l b).
Proof. intros Hf. revert b. induction l as [|a l IH]; intros b; simpl; [apply steps_ret|]. by apply steps_bind. Qed.
Lemma steps_amount txt : steps (parseReservationAmount (X:=S * Env) txt).
Proof. intros s Ht. unfold parseReservationAmount. by destruct (ParseAmount txt). Qed.
Lemma steps_parseFX txt : steps (parseFX (X:=S * Env) txt).
Proof. intros s Ht. unfold parseFX. by destruct (ParseAmount txt). Qed.

Lemma steps_GetItem k : steps (db_GetItem k).
Proof. intros [s e] Ht. by rewrite law_GetItem. Qed.
Lemma steps_Query ix h b n : steps (db_Query ix h b n).
Proof.
  intros [s e] Ht. pose proof (law_Query ix h b n s e) as HQ. destruct (db_Query _ _ _ _ _) as [[l|er] [s' e']]; simpl.
  - by destruct HQ as [-> _].
  - by rewrite HQ.
Qed.
Lemma steps_UpdateItem id (u : UpdateExpr) : steps (db_UpdateItem (outboxPK id) u).
Proof.
  intros [s e] Ht. pose proof (law_UpdateItem (outboxPK id) u s e) as HU. destruct (db_UpdateItem _ _ _) as [[[]|er] [s' e']]; simpl in *.
  - destruct HU as (i & Hi & ->). by apply rtc_once, step_update.
  - destruct HU as [->|(i & Hi & ->)]; [done|by apply rtc_once, step_update].
Qed.

Lemma keeps_UpdateBalance md (tn a c : string) (d cr : dec) : (∀ k, md_bal md k) → keeps md (dy_UpdateBalance tn a c d cr).
Proof. intros Hm s Hg. eapply wp_mono; [by apply (wpo_UpdateBalance md)| |done]. cbv beta. tauto. Qed.

End Commit.

(** ** Transaction bodies *)

(** Walks a body down to the operations of the interface. *)
Ltac keep :=
  repeat lazymatch goal with
  | |- keeps _ (mret _) => apply keeps_ret
  | |- keeps _ (throw _) => apply keeps_throw
  | |- keeps _ (throw_if _ _) => apply keeps_throw_if
  | |- keeps _ (lift_result _) => apply keeps_lift
  | |- keeps _ NewID => apply keeps_NewID
  | |- keeps _ Now => apply keeps_Now
  | |- keeps _ (tx_GetAccount _ _) => apply keeps_GetAccount
  | |- keeps _ (tx_LockBalance _ _ _) => apply keeps_LockBalance; done
  | |- keeps _ (tx_UpdateBalance _ _ _ _ _) => apply keeps_UpdateBalance; done
  | |- keeps _ (tx_InsertAccount _) => apply keeps_InsertAccount
  | |- keeps _ (tx_InsertOutbox _) => apply keeps_InsertOutbox
  | |- keeps _ (tx_InsertFlowRun _) => apply keeps_InsertFlowRun
  | |- keeps _ (tx_InsertFlowStep _) => apply keeps_InsertFlowStep
  | |- keeps _ (tx_CompleteFlowRun _ _) => apply keeps_CompleteFlowRun
  | |- keeps _ (tx_InsertJournal _) => apply keeps_InsertJournal
  | |- keeps _ (tx_InsertEntry _ _ _ _ _ _ _) => apply keeps_InsertEntry
  | |- keeps _ (tx_GetFlowByIdempotency _ _) => apply keeps_GetFlowByIdempotency; done
  | |- keeps _ (tx_GetFlowSteps _ _) => apply keeps_GetFlowSteps; done
  | |- keeps _ (tx_LockReservation _ _) => apply keeps_LockReservation; done
  | |- keeps _ (tx_GetReservationByIdempotency _ _) => apply keeps_GetReservationByIdempotency; done
  | |- keeps _ (tx_UpdateReservationAmounts _ _ _ _ _ _) => apply keeps_UpdateReservationAmounts; done
  | |- keeps _ (executeFlowInTx _) => solve [auto with ledger nocore]
  | |- keeps _ (_ ≫= _) => apply keeps_bind; [|intros ?]
  | |- keeps _ (foldM _ _ _) => apply keeps_foldM; intros ? ?
  | |- keeps _ (let '(_, _) := ?x in _) => destruct x
  | |- keeps _ (match ?x with _ => _ end) => destruct x
  end.

Section Bodies.
Context {H : Host} {D : DecimalOps} {S : Type} {DB : DynamoDB S} {DL : DynamoLaws S DB}.
Implicit Types (t : Tx) (x : TxIn (S:=S)).

Lemma keeps_executeFlow r : keeps md_flow (executeFlowInTx r).
Proof.
  unfold executeFlowInTx, runNewFlow, lockKey, applyStep, postEntry, settleKey. cbv zeta. keep.
Qed.

Lemma keeps_flow r : keeps md_any (executeFlowInTx r).
Proof. apply keeps_plain, keeps_executeFlow. Qed.
#[local] Hint Resolve keeps_flow : ledger.

Lemma goes_plain x x' : tx_goes md_flow x x' → tx_goes md_any x x'.
Proof. intros [Hw Hr [Mp Mb Md Mr] Hn]. by repeat split. Qed.

(** A transaction that has written no reservation can insert one. *)
Lemma wpo_createReservation r amount s :
  good s.1 → (∀ k, starts "RES#" k = true → tx_puts (ti_tx s.1) !! k = None) →
  wpo (createReservationInTx r amount) (λ _ s', good s'.1 ∧ tx_goes md_any s.1 s'.1) s.
Proof.
  intros Hg Hn. unfold createReservationInTx.
  eapply (wpo_keeps md_flow _ _ s.1); [by apply keeps_GetReservationByIdempotency|done|apply tx_goes_refl|].
  intros [res|] s1 Hg1 Ht1; [apply wp_ret; split; [done|by apply goes_plain]|].
  eapply (wpo_keeps md_flow); [apply keeps_executeFlow|done..|]. intros flowResp s2 Hg2 Ht2.
  eapply (wpo_keeps md_flow); [apply keeps_NewID|done..|]. intros id s3 Hg3 Ht3.
  eapply (wpo_keeps md_flow); [apply keeps_Now|done..|]. intros createdAt s4 Hg4 Ht4.
  eapply (wpo_keeps md_flow); [apply keeps_Now|done..|]. intros updatedAt s5 Hg5 Ht5. cbv zeta.
  apply wp_bind. eapply wp_mono; [apply (wpo_InsertReservation md_any); [done|done|]| |done].
  { destruct (tg_mono _ _ _ Ht5) as [_ _ _ Hr]. by rewrite Hr, Hn by (try done; apply (starts_app "RES#")). }
  cbv beta. intros _ s6 [Hg6 Ht6]. assert (Ht : tx_goes md_any s.1 s6.1) by (eapply tx_goes_trans; [by apply goes_plain|done]).
  eapply (wpo_keeps md_any); [apply keeps_NewID|done..|]. intros oid s7 Hg7 Ht7.
  eapply (wpo_keeps md_any); [apply keeps_Now|done..|]. intros now s8 Hg8 Ht8.
  eapply (wpo_keeps md_any); [apply keeps_InsertOutbox|done..|]. intros _ s9 Hg9 Ht9. by apply wp_ret.
Qed.

Lemma steps_createReservation r amount : steps (with_tx (createReservationInTx r amount)).
Proof.
  intros [s e] Ht. unfold with_tx. cbn [st_BeginFlowTx DynamoStore dy_BeginFlowTx].
  pose proof (wpo_createReservation r amount (mkTxIn (λ _, s) [] newTx, e) (alone_good s Ht)) as Hb.
  unfold wp in Hb. destruct (createReservationInTx _ _ _) as [[a|er] [x' e']]; [|done].
  destruct Hb as [[_ Hok] _]; [intros k _; apply lookup_empty|]. simpl in Hok.
  pose proof (commit_steps s x' e' Hok) as HC. cbn [tx_Commit DynamoStore] in *.
  destruct (dy_Commit _) as [[[]|er] [[s2 x2] e2]]; exact HC.
Qed.

Lemma keeps_commitReservation r amount : keeps md_any (commitReservationInTx r amount).
Proof. unfold commitReservationInTx, saveReservation. cbv zeta. keep. Qed.
Lemma keeps_releaseReservation r amount : keeps md_any (releaseReservationInTx r amount).
Proof. unfold releaseReservationInTx, saveReservation. cbv zeta. keep. Qed.
Lemma keeps_expireReservation tn id : keeps md_any (expireReservationInTx tn id).
Proof. unfold expireReservationInTx, saveReservation. cbv zeta. keep. Qed.
Lemma keeps_exchange r a b c d e f : keeps md_any (exchangeInTx r a b c d e f).
Proof. unfold exchangeInTx. keep. Qed.
Lemma keeps_reconcile r ws we : keeps md_any (runReconciliationInTx r ws we).
Proof. by intros s Hg. Qed.
Lemma keeps_resolve r : keeps md_any (resolveDiscrepancyInTx r).
Proof. by intros s Hg. Qed.
Lemma keeps_insertAccount a : keeps md_any (tx_InsertAccount a).
Proof. keep. Qed.

End Bodies.

(** Walks a handler down to the operations of the store. *)
Ltac step :=
  repeat lazymatch goal with
  | |- steps (mret _) => apply steps_ret
  | |- steps (throw _) => apply steps_throw
  | |- steps (throw_if _ _) => apply steps_throw_if
  | |- steps (lift_result _) => apply steps_lift
  | |- steps (unmarshal _) => apply steps_unmarshal
  | |- steps NewID => apply steps_NewID
  | |- steps Now => apply steps_Now
  | |- steps (rpc _) => apply steps_rpc
  | |- steps (ignore _) => apply steps_ignore
  | |- steps (parseReservationAmount _) => apply steps_amount
  | |- steps (parseFX _) => apply steps_parseFX
  | |- steps (with_tx (createReservationInTx _ _)) => apply steps_createReservation
  | |- steps (with_tx _) => apply steps_with_tx
  | |- steps (runInTx _) => apply steps_runInTx
  | |- steps (db_GetItem _) => apply steps_GetItem
  | |- steps (db_Query _ _ _ _) => apply steps_Query
  | |- steps (db_UpdateItem _ _) => apply steps_UpdateItem
  | |- steps errUnsupported => apply steps_throw
  | |- steps (_ ≫= _) => apply steps_bind; [|intros ?]
  | |- steps (foldM _ _ _) => apply steps_foldM; intros ? ?
  | |- steps (let '(_, _) := ?x in _) => destruct x
  | |- steps (match ?x with _ => _ end) => destruct x
  | |- keeps _ (commitReservationInTx _ _) => apply keeps_commitReservation
  | |- keeps _ (releaseReservationInTx _ _) => apply keeps_releaseReservation
  | |- keeps _ (expireReservationInTx _ _) => apply keeps_expireReservation
  | |- keeps _ (exchangeInTx _ _ _ _ _ _ _) => apply keeps_exchange
  | |- keeps _ (runReconciliationInTx _ _ _) => apply keeps_reconcile
  | |- keeps _ (resolveDiscrepancyInTx _) => apply keeps_resolve
  | |- keeps _ (executeFlowInTx _) => apply keeps_flow
  | |- keeps _ (tx_InsertAccount _) => apply keeps_insertAccount
  end.

Section Handle.
Context {H : Host} {D : DecimalOps} {S : Type} {DB : DynamoDB S} {DL : DynamoLaws S DB}.
Implicit Types (t : Tx) (x : TxIn (S:=S)).

Lemma steps_handle (q : request) : ∀ s, table_ok (db_items s.1) → rtc store_step (db_items s.1) (db_items (handle s q).1).
Proof.
  intros s Ht. destruct q; cbn [handle];
    lazymatch goal with |- rtc _ _ (db_items (?m s).2.1) => revert s Ht; change (steps m) end.
  all: unfold CreateAccount, GetAccount, GetBalance, balanceAsOf, TakeBalanceSnapshot, snapshotRow,
    ListAccountActivity, ExecuteFlow, PostJournal, ExecuteFlow, GetFlow, CreateReservation, CommitReservation,
    ReleaseReservation, GetReservation, ListReservations, PutFXRate, GetFXRate, ListFXRates, ExecuteExchange,
    resolveRate, IngestExternalRecords, ingestOne, RunReconciliation, ResolveDiscrepancy,
    GetReconciliationBatch, ListDiscrepancies, snapshotTick, snapshotTenant, expiryTick, expireOne,
    ExpireReservation, retentionTick, TakeBalanceSnapshot, snapshotRow.
  all: cbn [DynamoStore st_GetAccount st_GetBalance st_GetFlow st_ListAccountActivity st_MarkOutboxPublished
    st_IncrementOutboxAttempts st_InsertSnapshot st_GetSnapshotBefore st_SumEntriesBetween st_ListTenantBalances
    st_ListTenantsDueForSnapshot st_PruneSnapshotsOlderThan st_UpsertFXRate st_GetFXRateAt st_ListFXRates
    st_GetReservation st_ListExpiredReservations st_ListReservations st_InsertExternalRecord st_GetReconBatch st_ListDiscrepancies].
  all: unfold readAccount, readBalance, readFlow, dy_GetReservation, dy_ListExpiredReservations, expiredFromItem,
    dy_ListReservations, listedReservation, dy_MarkOutboxPublished, dy_IncrementOutboxAttempts.
  all: cbv zeta; step.
Qed.

Lemma steps_handle_all qs s : table_ok (db_items s.1) → rtc store_step (db_items s.1) (db_items (foldl handle s qs).1).
Proof.
  revert s. induction qs as [|q qs IH]; intros s Ht; simpl; [done|].
  pose proof (steps_handle q s Ht) as Hq. etransitivity; [done|]. apply IH. by eapply store_steps_ok.
Qed.

Lemma dynamo_steps_ok qs s : table_ok (db_items s.1) → table_ok (db_items (foldl handle s qs).1).
Proof. intros Ht. eapply store_steps_ok; [by apply steps_handle_all|done]. Qed.

(** C33. The table of the DynamoDB backend is well typed: whatever requests
    and ticks run, with any failures of the service, every item sits under
    the key that its own attributes give, of the kind that the prefix of the
    key tells, and every version is positive; no row is ever removed, a row
    without a version never changes outside the outbox, and a balance or a
    reservation is replaced only by a later version. *)
Theorem dynamo_table_typed (qs : list request) (s : S * Env) :
  table_ok (db_items s.1) →
  table_ok (db_items (foldl handle s qs).1) ∧
  ∀ k, row_grows k (db_items s.1 !! k) (db_items (foldl handle s qs).1 !! k).
Proof.
  intros Ht. pose proof (steps_handle_all qs s Ht) as Hs. split; [by eapply store_steps_ok|].
  intros k. by apply store_steps_grow.
Qed.

(** C35. A commit on DynamoDB that is refused with a domain error has written
    nothing, and the error says why: the buffer is too large; or a balance or
    reservation is no longer at the version the transaction read, or exists
    where it found none, and the caller may retry; or a key that must be new
    exists, and it may not. *)
Theorem Commit_conflicts s x e c s' :
  buffer_ok (ti_tx x) → dy_Commit ((s, x), e) = (Err (ErrDomain c), s') →
  db_items s'.1.1 = db_items s ∧
  ((c = CodeFlowTooLarge ∧ 100 < size (tx_puts (ti_tx x))) ∨
   (∃ k pp, tx_puts (ti_tx x) !! k = Some pp ∧
     ((c = CodeSerializationRetryExhausted ∧ versioned_key k = true ∧ ¬ cond_holds (db_items s) (to_write pp)) ∨
      (c = CodeFlowConflict ∧ write_cond pp = AttrNotExists ∧ is_Some (db_items s !! k) ∧ starts "BAL#" k = false)))).
Proof.
  intros Hok Hr. eapply wp_err in Hr; [|by apply wp_Commit]. cbv beta in Hr.
  destruct Hr as [(Hgt & [= ->] & ->)|[(c' & [= <-] & (k & pp & Hk & Hc & Hcode) & Hs)|([=] & _)]]; [by auto|].
  split; [done|]. right. exists k, pp. split; [done|]. destruct c; tauto.
Qed.
End Handle.
