(* ===== verification/DynamoSerial.v ===== *)
(** * The DynamoDB backend: flows are serializable

    A transaction reads without locks while other clients commit.  A body
    depends on the table only through the rows it reads ([replays]), and a
    commit that succeeds finds those rows as they were read
    ([read_ok_commit]): the run could have happened at the commit. *)

From S2P Require Import Prelude Money Ledger Repo Contract Service Flow.
From S2P Require Import Rfc3339 DynamoItems Dynamo DynamoLaws DynamoOps DynamoCommit.
From stdpp Require Import base gmap strings list numbers.

Section Serial.
Context {H : Host} {D : DecimalOps} {S : Type} {DB : DynamoDB S} {DL : DynamoLaws S DB}.
Abbreviation TxM A := (M error (TxIn (S:=S) * Env) A).
Implicit Types (x : TxIn (S:=S)) (w : nat → S).

(** ** A run depends on the table only through the rows it reads *)

(** The reads [ks], from read number [n] on, find the same rows. *)
Definition same_rows w w' (n : nat) (ks : list string) : Prop :=
  ∀ i k, ks !! i = Some k → db_items (w (n + i)) !! k = db_items (w' (n + i)) !! k.

Definition replays {A} (m : TxM A) : Prop := ∀ w w' ks t e r x e',
  m (mkTxIn w ks t, e) = (r, (x, e')) →
  ∃ new, x = mkTxIn w (ks ++ new) (ti_tx x) ∧
    (same_rows w w' (length ks) new → m (mkTxIn w' ks t, e) = (r, (mkTxIn w' (ks ++ new) (ti_tx x), e'))).

Lemma replays_const {A} (m : TxM A) :
  (∀ w ks t e, ∃ r t' e', ∀ w', m (mkTxIn w ks t, e) = (r, (mkTxIn w ks t', e')) ∧ m (mkTxIn w' ks t, e) = (r, (mkTxIn w' ks t', e'))) →
  replays m.
Proof.
  intros Hm w w' ks t e r x e' Hr. destruct (Hm w ks t e) as (r0 & t' & e0 & Hc). destruct (Hc w') as [H1 H2].
  rewrite H1 in Hr. simplify_eq. exists []. rewrite app_nil_r. done.
Qed.

Lemma replays_ret {A} (a : A) : replays (mret a).
Proof. apply replays_const. intros w ks t e. by eexists _, _, _. Qed.
Lemma replays_throw {A} e : replays (A:=A) (throw e).
Proof. apply replays_const. intros w ks t e0. by eexists _, _, _. Qed.
Lemma replays_throw_if c e : replays (throw_if c e).
Proof. destruct c; [apply replays_throw|apply replays_ret]. Qed.
Lemma replays_lift {A} (r : result error A) : replays (lift_result r).
Proof. destruct r; [apply replays_ret|apply replays_throw]. Qed.
Lemma replays_unmarshal {A} (o : option A) : replays (unmarshal o).
Proof. destruct o; [apply replays_ret|apply replays_throw]. Qed.
Lemma replays_NewID : replays NewID.
Proof. apply replays_const. intros w ks t e. by eexists _, _, _. Qed.
Lemma replays_Now : replays Now.
Proof. apply replays_const. intros w ks t e. by eexists _, _, _. Qed.
Lemma replays_getTx : replays getTx.
Proof. apply replays_const. intros w ks t e. by eexists _, _, _. Qed.
Lemma replays_modTx f : replays (modTx f).
Proof. apply replays_const. intros w ks t e. unfold modTx. simpl. destruct (tx_nil t); by eexists _, _, _. Qed.
Lemma replays_getItem pk : replays (tx_getItem pk).
Proof.
  intros w w' ks t e r x e' Hr. unfold tx_getItem in *. cbn [ti_world ti_reads ti_tx] in *. rewrite law_GetItem in *.
  simplify_eq. exists [pk]. split; [done|]. intros Hs. specialize (Hs 0 pk eq_refl). rewrite Nat.add_0_r in Hs. by rewrite Hs.
Qed.

Lemma replays_bind {A B} (m : TxM A) (f : A → TxM B) : replays m → (∀ a, replays (f a)) → replays (m ≫= f).
Proof.
  intros Hm Hf w w' ks t e r x e' Hr. unfold mbind, M_bind in *.
  destruct (m (mkTxIn w ks t, e)) as [[a|er] [x1 e1]] eqn:H1.
  - destruct (Hm w w' _ _ _ _ _ _ H1) as (n1 & Hx1 & Hs1). rewrite Hx1 in Hr.
    destruct (Hf a w w' _ _ _ _ _ _ Hr) as (n2 & Hx2 & Hs2). exists (n1 ++ n2). rewrite app_assoc. split; [done|].
    intros Hs. rewrite Hs1.
    + apply Hs2. intros i k Hk. rewrite length_app, <- Nat.add_assoc. apply Hs.
      by rewrite lookup_app_r, Nat.add_sub_swap, Nat.sub_diag by lia.
    + intros i k Hk. apply Hs. by apply lookup_app_l_Some.
  - simplify_eq. destruct (Hm w w' _ _ _ _ _ _ H1) as (n1 & Hx1 & Hs1). exists n1. split; [done|].
    intros Hs. by rewrite Hs1.
Qed.
Lemma replays_foldM {A B} (f : B → A → TxM B) l b : (∀ b a, replays (f b a)) → replays (foldM f l b).
Proof. intros Hf. revert b. induction l as [|a l IH]; intros b; simpl; [apply replays_ret|]. by apply replays_bind. Qed.

Ltac replay :=
  repeat lazymatch goal with
  | |- replays (mret _) => apply replays_ret
  | |- replays (throw _) => apply replays_throw
  | |- replays (throw_if _ _) => apply replays_throw_if
  | |- replays (lift_result _) => apply replays_lift
  | |- replays (unmarshal _) => apply replays_unmarshal
  | |- replays NewID => apply replays_NewID
  | |- replays Now => apply replays_Now
  | |- replays getTx => apply replays_getTx
  | |- replays (modTx _) => apply replays_modTx
  | |- replays (tx_getItem _) => apply replays_getItem
  | |- replays (_ ≫= _) => apply replays_bind; [|intros ?]
  | |- replays (foldM _ _ _) => apply replays_foldM; intros ? ?
  | |- replays (let '(_, _) := ?x in _) => destruct x
  | |- replays (match ?x with _ => _ end) => destruct x
  end.

Lemma replays_executeFlow r : replays (executeFlowInTx r).
Proof.
  unfold executeFlowInTx, runNewFlow, lockKey, applyStep, postEntry, settleKey.
  cbn [DynamoTx tx_GetFlowByIdempotency tx_GetAccount tx_LockBalance tx_UpdateBalance tx_InsertFlowRun
    tx_CompleteFlowRun tx_InsertJournal tx_InsertEntry tx_InsertFlowStep tx_InsertOutbox tx_GetFlowSteps].
  unfold dy_GetFlowByIdempotency, dy_GetFlowSteps, readFlow, dy_InsertFlowRun, dy_GetAccount, readAccount,
    dy_LockBalance, dy_UpdateBalance, loadBalance, readBalance, dy_InsertJournal, dy_InsertEntry, dy_InsertFlowStep,
    dy_InsertOutbox, dy_CompleteFlowRun, putFlow, put.
  cbv zeta. replay.
Qed.

(** ** A commit validates the reads *)

(** Every balance the transaction loaded is one it writes. *)
Definition locks_written (t : Tx) : Prop := ∀ k, is_Some (tx_balances t !! k) → is_Some (tx_puts t !! k).

Lemma read_ok_commit x n k s :
  good x → table_ok (db_items s) → rtc store_step (db_items (ti_world x n)) (db_items s) →
  conds_hold (ti_tx x) (db_items s) → locks_written (ti_tx x) →
  read_ok (ti_tx x) k (row x n k) → db_items s !! k = row x n k.
Proof.
  intros [Hw Hok] Hs Hsteps Hc Hl Hr. unfold row in *.
  assert (Hno : ∀ pp, tx_puts (ti_tx x) !! k = Some pp → write_cond pp = AttrNotExists → db_items s !! k = db_items (ti_world x n) !! k).
  { intros pp Hk Hwc. specialize (Hc _ _ Hk). unfold cond_holds, to_write in Hc. cbn [fst snd] in Hc.
    destruct (bo_put _ Hok _ _ Hk) as [[Hpk _] _]. rewrite Hwc, Hpk in Hc. rewrite Hc. symmetry. by eapply row_absent. }
  destruct Hr as [(i & Hi & Hv & Ho)|[(b & Hb & Hv)|(pp & Hk & Hwc)]]; [|destruct (Hl k) as [pp Hk]; [by eexists|]|by eapply Hno].
  - rewrite Hi. by eapply row_fixed.
  - destruct (bo_bal _ Hok _ _ Hb) as (Hpre & H0 & Hcond). specialize (Hcond _ Hk).
    destruct (tbl_existed b) eqn:He; [|by eapply Hno]. specialize (Hc _ _ Hk). unfold cond_holds, to_write in Hc. cbn [fst snd] in Hc.
    destruct (bo_put _ Hok _ _ Hk) as [[Hpk _] _]. rewrite Hcond, Hpk in Hc. simpl in Hc.
    assert (Hout : outbox_key k = false) by (apply starts_inv in Hpre as [r ->]; done).
    destruct (Hv eq_refl) as [Hz|Hver]; [|by eapply row_same].
    apply bind_Some in Hc as (i & Hi & Hvi). apply Hs in Hi as [_ Hpos]. specialize (Hpos _ Hvi). lia.
Qed.

(** ** A new flow: what it reads is covered, what it locks is written *)

Definition lock_pks (tn : string) (ordered : list key) (k : string) : Prop := ∃ q, q ∈ ordered ∧ k = balancePK tn q.1 q.2.
Definition md_serial (tn : string) (ordered : list key) : mode := mkMode true true (lock_pks tn ordered).

(** A write buffered before is still there. *)
Lemma put_stays md x x' k : tx_goes md x x' → is_Some (tx_puts (ti_tx x) !! k) → is_Some (tx_puts (ti_tx x') !! k).
Proof. intros Ht [pp Hk]. destruct (tm_puts _ _ _ (tg_mono _ _ _ Ht) _ _ Hk) as (pp' & -> & _). by eexists. Qed.

Lemma wpo_put md pk i c v x e :
  keeps md (put pk i c v) → good x →
  wpo (put pk i c v) (λ _ s', (good s'.1 ∧ tx_goes md x s'.1) ∧ is_Some (tx_puts (ti_tx s'.1) !! pk)) (x, e).
Proof.
  intros Hk Hg. specialize (Hk (x, e) Hg). unfold put, modTx, wp in *. destruct (tx_nil _); [done|].
  split; [done|]. cbn [fst ti_tx]. rewrite put_buffer_at, lookup_insert_eq. by eexists.
Qed.

Lemma wpo_InsertFlowRun md f x e :
  good x → wpo (dy_InsertFlowRun f) (λ _ s', (good s'.1 ∧ tx_goes md x s'.1) ∧
    is_Some (tx_puts (ti_tx s'.1) !! flowIdempPK (fr_TenantID f) (fr_IdempotencyKey f))) (x, e).
Proof.
  intros Hg. unfold dy_InsertFlowRun. cbv zeta.
  eapply (wpo_keeps md _ _ x); [by apply keeps_set_flow|done|apply tx_goes_refl|]. intros _ s1 Hg1 Ht1.
  eapply (wpo_keeps md); [by apply keeps_put_flow|done..|]. intros _ [x2 e2] Hg2 Ht2.
  apply wp_bind. eapply wp_mono; [apply (wpo_put md)| |done]; [apply (keeps_put_marker md "FIDEMP#"); set_solver|done|].
  cbv beta. intros _ s3 [[Hg3 Ht3] Hp]. pose proof (keeps_set_flowIdemp md (flowIdempPK (fr_TenantID f) (fr_IdempotencyKey f))
    (flowPK (fr_TenantID f) (fr_ID f)) s3 Hg3) as Hk. eapply wp_mono; [apply Hk| |done]. cbv beta. intros _ s4 [Hg4 Ht4].
  split; [split; [done|]|by eapply put_stays]. eapply tx_goes_trans; [exact Ht2|]. by eapply tx_goes_trans.
Qed.

Lemma keeps_lockKey tn ordered state (q : key) : q ∈ ordered → keeps (md_serial tn ordered) (lockKey tn state q).
Proof. intros Hq. unfold lockKey. keep. apply keeps_LockBalance. by exists q. Qed.
Lemma keeps_applyStep md r id meta acc st : keeps md (applyStep r id meta acc st).
Proof. unfold applyStep, postEntry. cbv zeta. keep. Qed.

Lemma keeps_foldM_in md {A B} (f : B → A → TxM B) l b : (∀ b a, a ∈ l → keeps md (f b a)) → keeps md (foldM f l b).
Proof.
  revert b. induction l as [|a l IH]; intros b Hf; simpl; [apply keeps_ret|].
  apply keeps_bind; [apply Hf; by left|]. intros b'. apply IH. intros b2 a2 Ha. apply Hf. by right.
Qed.

(** The last loop of a flow writes every balance it locked. *)
Lemma wpo_settle tn ordered state x e :
  good x →
  wpo (foldM (settleKey tn state) ordered tt) (λ _ s', (good s'.1 ∧ tx_goes (md_serial tn ordered) x s'.1) ∧
    ∀ q, q ∈ ordered → is_Some (tx_puts (ti_tx s'.1) !! balancePK tn q.1 q.2)) (x, e).
Proof.
  intros Hg. apply (wp_foldM _ _ _ (λ pre _ s', (good s'.1 ∧ tx_goes (md_serial tn ordered) x s'.1) ∧
    ∀ q, q ∈ pre → is_Some (tx_puts (ti_tx s'.1) !! balancePK tn q.1 q.2))).
  - split; [split; [done|apply tx_goes_refl]|]. intros q Hq. by apply elem_of_nil in Hq.
  - intros pre q post [] s' Hl [[Hg' Ht'] Hpre]. unfold settleKey. destruct (state !! q) as [b|]; [|done].
    assert (Hin : q ∈ ordered) by (rewrite Hl; set_solver).
    eapply (wpo_keeps (md_serial tn ordered) _ _ s'.1); [apply keeps_throw_if|done|apply tx_goes_refl|]. intros _ s2 Hg2 Ht2.
    eapply wp_mono; [apply (wpo_UpdateBalance (md_serial tn ordered)); [by exists q|done]| |done]. cbv beta.
    intros _ s3 [[Hg3 Ht3] Hp]. assert (Ht : tx_goes (md_serial tn ordered) s'.1 s3.1) by (by eapply tx_goes_trans).
    split; [split; [done|by eapply tx_goes_trans]|].
    intros q' [Hq'| ->%list_elem_of_singleton]%elem_of_app; [|done]. eapply put_stays; [done|by apply Hpre].
Qed.

(** The path of a new key: its reads are covered, its locks written, and its
    idempotency key is required to be absent. *)
Lemma wpo_runNewFlow r steps x e :
  good x → tx_balances (ti_tx x) = ∅ →
  wpo (runNewFlow r steps) (λ _ s', good s'.1 ∧ locks_written (ti_tx s'.1) ∧
    tx_goes (md_serial (ef_TenantId r) (orderedKeys steps)) x s'.1 ∧
    is_Some (tx_puts (ti_tx s'.1) !! flowIdempPK (ef_TenantId r) (ef_IdempotencyKey r))) (x, e).
Proof.
  intros Hg Hb. unfold runNewFlow. set (md := md_serial (ef_TenantId r) (orderedKeys steps)). cbv zeta.
  eapply (wpo_keeps md _ _ x); [apply keeps_NewID|done|apply tx_goes_refl|]. intros id s1 Hg1 Ht1.
  eapply (wpo_keeps md); [apply keeps_Now|done..|]. intros now [x2 e2] Hg2 Ht2.
  apply wp_bind. eapply wp_mono; [by apply (wpo_InsertFlowRun md)| |done]. cbv beta. cbn [fr_TenantID fr_IdempotencyKey].
  intros _ s3 [[Hg3 Ht3] Hp]. set (pk := flowIdempPK _ _) in *. assert (H3 : tx_goes md x s3.1) by (by eapply tx_goes_trans).
  eapply (wpo_keeps md _ _ s3.1); [by apply keeps_foldM_in; intros; apply keeps_lockKey|done|apply tx_goes_refl|]. intros state s4 Hg4 Ht4.
  eapply (wpo_keeps md); [by apply keeps_foldM; intros; apply keeps_applyStep|done..|]. intros [state' results] [x5 e5] Hg5 Ht5.
  apply wp_bind. eapply wp_mono; [by apply wpo_settle| |done]. cbv beta. intros _ s6 [[Hg6 Ht6] Hset].
  eapply (wpo_keeps md _ _ s6.1); [apply keeps_CompleteFlowRun|done|apply tx_goes_refl|]. intros _ s7 Hg7 Ht7. apply wp_ret.
  assert (H7 : tx_goes md s3.1 s7.1) by (eapply tx_goes_trans; [exact Ht5|]; by eapply tx_goes_trans).
  assert (Hall : tx_goes md x s7.1) by (by eapply tx_goes_trans).
  split_and!; [done| |done|by apply (put_stays md s3.1)].
  intros k Hk. destruct (tm_dom _ _ _ (tg_mono _ _ _ Hall) _ Hk) as [Hk0|(q & Hq & ->)].
  - rewrite Hb, lookup_empty in Hk0. by destruct Hk0.
  - apply (put_stays md s6.1); [done|by apply Hset].
Qed.

(** ** The reads of the idempotency check *)

Lemma lookup_flow_key tn k w e ex x e' :
  dy_GetFlowByIdempotency tn k (mkTxIn w [] newTx, e) = (Ok ex, (x, e')) →
  ti_world x = w ∧ ti_tx x = newTx ∧
  ((ex = None ∧ ti_reads x = [flowIdempPK tn k] ∧ db_items (w 0%nat) !! flowIdempPK tn k = None) ∨
   (∃ rest, ti_reads x = flowIdempPK tn k :: rest) ∧ is_Some (db_items (w 0%nat) !! flowIdempPK tn k)).
Proof.
  unfold dy_GetFlowByIdempotency, getTx. intros Hr. inv_ok Hr. injection Hrun as <- <-. simpl in Hr.
  inv_ok Hr. unfold tx_getItem in Hrun. cbn [ti_world ti_reads ti_tx length] in Hrun. rewrite law_GetItem in Hrun.
  destruct (host_fault _); [done|]. injection Hrun as <- <-. simpl in Hr.
  destruct (db_items (w 0%nat) !! flowIdempPK tn k) as [i|] eqn:Hi; [|injection Hr as <- <- <-; split_and!; [done..|by left]].
  inv_ok Hr. destruct (asMarker _ i) as [v|]; [|done]. injection Hrun as <- <-.
  unfold readFlow in Hr. inv_ok Hr. unfold tx_getItem in Hrun. cbn [ti_world ti_reads ti_tx] in Hrun. rewrite law_GetItem in Hrun.
  destruct (host_fault _); [done|]. injection Hrun as <- <-.
  assert (Hx : x = mkTxIn w [flowIdempPK tn k; flowPK tn v] newTx).
  { destruct (_ !! flowPK tn v) as [j|]; [|by injection Hr as <- <- <-]. inv_ok Hr. destruct (asFlow j); [|done].
    injection Hrun as <- <-. inv_ok Hr. unfold lift_result in Hrun. destruct (flowFromItem _) as [[fl sts]|]; [|done].
    injection Hrun as <- <-. by injection Hr as <- <- <-. }
  subst x. simpl. split_and!; [done..|]. right. split; by eexists.
Qed.

(** A replayed key writes nothing. *)
Lemma replay_writes_nothing tn f x e l x' e' :
  dy_GetFlowSteps tn f (x, e) = (Ok l, (x', e')) → ti_tx x' = ti_tx x.
Proof.
  unfold dy_GetFlowSteps, getTx. intros Hr. inv_ok Hr. injection Hrun as <- <-. simpl in Hr.
  destruct (_ !! _) as [fs|]; [by injection Hr as _ <- _|]. inv_ok Hr. unfold readFlow in Hrun. inv_ok Hrun.
  unfold tx_getItem in Hrun0. rewrite law_GetItem in Hrun0. destruct (host_fault _); [done|]. injection Hrun0 as <- <-.
  assert (E : ti_tx s.1 = ti_tx x).
  { destruct (_ !! _) as [j|]; [|by injection Hrun as _ <-]. inv_ok Hrun. destruct (asFlow j); [|done].
    injection Hrun0 as <- <-. inv_ok Hrun. unfold lift_result in Hrun0. destruct (flowFromItem _) as [[fl sts]|]; [|done].
    injection Hrun0 as <- <-. by injection Hrun as _ <-. }
  destruct a as [f'|]; injection Hr as _ ->; exact E.
Qed.

(** What a flow that wrote something read, once its conditions hold. *)
Lemma flow_reads r w e resp x e' s :
  world_ok w → table_ok (db_items s) → (∀ n, n < length (ti_reads x) → rtc store_step (db_items (w n)) (db_items s)) →
  executeFlowInTx r (mkTxIn w [] newTx, e) = (Ok resp, (x, e')) → tx_puts (ti_tx x) ≠ ∅ →
  conds_hold (ti_tx x) (db_items s) →
  ti_world x = w ∧ good x ∧ ∀ n k, ti_reads x !! n = Some k → db_items s !! k = row x n k.
Proof.
  intros Hw Hs Hsteps Hr Hne Hc. assert (Hg0 : good (mkTxIn w [] newTx)) by (split; [done|apply newTx_ok]).
  unfold executeFlowInTx in Hr. inv_ok Hr. destruct (stepsFromProto _) as [steps|]; [|done]. injection Hrun as <- <-.
  inv_ok Hr. cbn [DynamoTx tx_GetFlowByIdempotency] in Hrun. destruct s0 as [x1 e1].
  pose proof (keeps_GetFlowByIdempotency md_flow (ef_TenantId r) (ef_IdempotencyKey r) eq_refl (mkTxIn w [] newTx, e) Hg0) as Hk.
  eapply wp_ok in Hk; [|exact Hrun]. destruct Hk as [Hg1 _]. simpl in Hg1.
  apply lookup_flow_key in Hrun as (Hx1 & Ht1 & Hex). destruct a as [f|].
  { exfalso. apply Hne. unfold throw_if in Hr. destruct (negb _); inv_ok Hr; [done|]. injection Hrun as <- <-.
    inv_ok Hr. destruct s0 as [x2 e2]. apply replay_writes_nothing in Hrun. injection Hr as _ <- _. by rewrite Hrun, Ht1. }
  pose proof (wpo_runNewFlow r steps x1 e1 Hg1) as Hnew. eapply wp_ok in Hnew; [|by rewrite Ht1|exact Hr].
  destruct Hnew as (Hg & Hl & Hgo & [pp Hp]). simpl in Hg, Hl, Hgo, Hp. destruct Hgo as [Hw1 [new Hreads] _ Hnew].
  assert (Hwc : write_cond pp = AttrNotExists).
  { destruct (bo_put _ (proj2 Hg) _ _ Hp) as [Ht Hf]. pose proof (item_typed_versioned _ _ Ht) as Hv.
    apply bool_decide_eq_false in Hv. apply write_fits_unversioned in Hf; [done|]. by apply eq_None_not_Some. }
  assert (Hn0 : db_items s !! flowIdempPK (ef_TenantId r) (ef_IdempotencyKey r) = None).
  { specialize (Hc _ _ Hp). destruct (bo_put _ (proj2 Hg) _ _ Hp) as [[Hpk _] _]. unfold cond_holds, to_write in Hc.
    cbn [fst snd] in Hc. by rewrite Hwc, Hpk in Hc. }
  assert (H0 : ∃ rest, ti_reads x = flowIdempPK (ef_TenantId r) (ef_IdempotencyKey r) :: rest).
  { destruct Hex as [(_ & Hk & _)|[[rest Hk] _]]; rewrite Hreads, Hk; by eexists. }
  assert (Hn : db_items (w 0%nat) !! flowIdempPK (ef_TenantId r) (ef_IdempotencyKey r) = None).
  { eapply row_absent; [apply Hsteps|done]. destruct H0 as [rest ->]. simpl. lia. }
  destruct Hex as [(_ & Hk & _)|[_ Hs0]]; [|rewrite Hn in Hs0; by destruct Hs0].
  split; [congruence|]. split; [done|]. intros n k Hnk. destruct n as [|n].
  - destruct H0 as [rest Hrest]. rewrite Hrest in Hnk. injection Hnk as <-. rewrite Hn0. unfold row. rewrite Hw1, Hx1. done.
  - apply read_ok_commit; try done.
    + rewrite Hw1, Hx1. apply Hsteps. by eapply lookup_lt_Some.
    + apply Hnew; [done| |done]. rewrite Hk. simpl. lia.
Qed.

(** A commit looks at the buffer only. *)
Lemma commit_same_tx s x x' e :
  ti_tx x' = ti_tx x →
  (dy_Commit ((s, x'), e)).1 = (dy_Commit ((s, x), e)).1 ∧
  (dy_Commit ((s, x'), e)).2.1.1 = (dy_Commit ((s, x), e)).2.1.1 ∧ (dy_Commit ((s, x'), e)).2.2 = (dy_Commit ((s, x), e)).2.2.
Proof. intros E. unfold dy_Commit. rewrite E. by repeat (case_match; simplify_eq/=). Qed.

(** C32. Flows on DynamoDB are serializable: take a flow that ran while other
    clients committed between any two of its reads, wrote something and
    committed. Run alone on the table its commit met, it gives the same
    answer, the same table and uses the same ids and instants. *)
Theorem flow_serializable (r : ExecuteFlowRequest) w (s : S) e resp x e1 s' x' e2 :
  world_ok w →
  (∀ n, n ≤ length (ti_reads x) → rtc store_step (db_items (w n)) (db_items s)) →
  executeFlowInTx r (mkTxIn w [] newTx, e) = (Ok resp, (x, e1)) → tx_puts (ti_tx x) ≠ ∅ →
  tx_Commit ((s, x), e1) = (Ok tt, ((s', x'), e2)) →
  ExecuteFlow r (s, e) = (Ok resp, (s', e2)).
Proof.
  intros Hw Hsteps Hr Hne Hcommit. cbn [tx_Commit DynamoStore] in Hcommit.
  assert (Hbuf : good x) by (by eapply wp_ok in Hr; [|apply (keeps_executeFlow r); split; [done|apply newTx_ok]]; destruct Hr).
  pose proof (wp_Commit s x e1 (proj2 Hbuf)) as HC. eapply wp_ok in HC; [|exact Hcommit]. destruct HC as (_ & Hc & _).
  assert (Hs : table_ok (db_items s)) by (eapply store_steps_ok; [apply (Hsteps 0); lia|apply Hw]).
  destruct (flow_reads r w e resp x e1 s Hw Hs) as (Hx & _ & Hrows); [intros n Hn; apply Hsteps; lia|done..|].
  destruct (replays_executeFlow r w (λ _, s) [] newTx e _ _ _ Hr) as (new & Hnew & Halone).
  assert (Hreads : ti_reads x = new) by (by rewrite Hnew).
  unfold ExecuteFlow, rpc, with_tx. cbn [st_BeginFlowTx DynamoStore dy_BeginFlowTx].
  rewrite Halone by (intros i k Hk; rewrite <- Hreads in Hk; rewrite (Hrows _ _ Hk); unfold row; by rewrite Hx).
  cbn [tx_Commit DynamoStore]. pose proof (commit_same_tx s x (mkTxIn (λ _, s) ([] ++ new) (ti_tx x)) e1 eq_refl) as Hsame.
  rewrite Hcommit in Hsame. destruct (dy_Commit ((s, mkTxIn _ _ _), e1)) as [rc [[s2 x2] e3]]. simpl in Hsame.
  destruct Hsame as (-> & -> & ->). done.
Qed.
End Serial.
