(* ===== verification/DynamoBound.v ===== *)
(** * The DynamoDB backend: how many items a flow writes

    A transaction writes at most 100 items.  [adds n m]: [m] buffers at most
    [n] items more.  A flow of [s] steps over [b] balances buffers at most
    [2 + 3 s + b] of them, and a flow that buffers more than 100 is refused. *)

From S2P Require Import Prelude Money Ledger Repo Contract Service Flow.
From S2P Require Import Rfc3339 DynamoItems Dynamo DynamoLaws DynamoOps DynamoCommit.
From stdpp Require Import base gmap strings list numbers.

Section Bound.
Context {H : Host} {D : DecimalOps} {S : Type} {DB : DynamoDB S} {DL : DynamoLaws S DB}.
Abbreviation TxM A := (M error (TxIn (S:=S) * Env) A).
Implicit Types (x : TxIn (S:=S)) (t : Tx).

(** The flows and journals of the overlay are buffered. *)
Definition overlay_put t : Prop :=
  (∀ k, is_Some (tx_flows t !! k) → is_Some (tx_puts t !! k)) ∧
  (∀ k, is_Some (tx_journals t !! k) → is_Some (tx_puts t !! k)).
Definition nputs t : nat := size (tx_puts t).

Definition adds (n : nat) {A} (m : TxM A) : Prop := ∀ s, overlay_put (ti_tx s.1) →
  wpo m (λ _ s', overlay_put (ti_tx s'.1) ∧ nputs (ti_tx s'.1) ≤ nputs (ti_tx s.1) + n) s.

Lemma adds_weaken n n' {A} (m : TxM A) : adds n m → n ≤ n' → adds n' m.
Proof. intros Hm Hle s Ho. eapply wp_mono; [by apply Hm| |done]. cbv beta. intros a s' [? ?]. split; [done|lia]. Qed.
Lemma adds_bind n1 n2 {A B} (m : TxM A) (f : A → TxM B) : adds n1 m → (∀ a, adds n2 (f a)) → adds (n1 + n2) (m ≫= f).
Proof.
  intros Hm Hf s Ho. apply wp_bind. eapply wp_mono; [by apply Hm| |done]. cbv beta. intros a s1 [Ho1 H1].
  eapply wp_mono; [by apply Hf| |done]. cbv beta. intros b s2 [Ho2 H2]. split; [done|lia].
Qed.
Lemma adds_bind0 n {A B} (m : TxM A) (f : A → TxM B) : adds 0 m → (∀ a, adds n (f a)) → adds n (m ≫= f).
Proof. apply (adds_bind 0). Qed.
Lemma adds_assoc n {A} (m1 m2 : TxM unit) (k : unit → TxM A) :
  adds n ((m1 ≫= λ _, m2) ≫= k) → adds n (m1 ≫= λ _, m2 ≫= k).
Proof.
  intros Ha s Ho. apply wp_assoc. by apply Ha.
Qed.
Lemma adds_foldM n {A B} (f : B → A → TxM B) l b : (∀ b a, adds n (f b a)) → adds (n * length l) (foldM f l b).
Proof.
  intros Hf. revert b. induction l as [|a l IH]; intros b; simpl.
  - intros s Ho. apply wp_ret. split; [done|lia].
  - replace (n * Datatypes.S (length l)) with (n + n * length l) by lia. by apply adds_bind.
Qed.

(** A computation that leaves the buffer alone. *)
Definition same_tx {A} (m : TxM A) : Prop := ∀ s, wpo m (λ _ s', ti_tx s'.1 = ti_tx s.1) s.
Lemma adds_same {A} (m : TxM A) : same_tx m → adds 0 m.
Proof. intros Hm s Ho. eapply wp_mono; [apply Hm| |done]. cbv beta. intros a s' ->. split; [done|lia]. Qed.
Lemma same_ret {A} (a : A) : same_tx (mret a).
Proof. by intros s. Qed.
Lemma same_throw {A} e : same_tx (A:=A) (throw e).
Proof. by intros s. Qed.
Lemma same_throw_if c e : same_tx (throw_if c e).
Proof. destruct c; [apply same_throw|apply same_ret]. Qed.
Lemma same_lift {A} (r : result error A) : same_tx (lift_result r).
Proof. destruct r; [apply same_ret|apply same_throw]. Qed.
Lemma same_unmarshal {A} (o : option A) : same_tx (unmarshal o).
Proof. destruct o; [apply same_ret|apply same_throw]. Qed.
Lemma same_NewID : same_tx NewID.
Proof. by intros [x e]. Qed.
Lemma same_Now : same_tx Now.
Proof. by intros [x e]. Qed.
Lemma same_getTx : same_tx getTx.
Proof. by intros [x e]. Qed.
Lemma same_getItem pk : same_tx (tx_getItem pk).
Proof. intros [x e]. by apply wpo_getItem. Qed.
Lemma same_bind {A B} (m : TxM A) (f : A → TxM B) : same_tx m → (∀ a, same_tx (f a)) → same_tx (m ≫= f).
Proof.
  intros Hm Hf s. apply wp_bind. eapply wp_mono; [apply Hm| |done]. cbv beta. intros a s1 E1.
  eapply wp_mono; [apply Hf| |done]. cbv beta. intros b s2 E2. congruence.
Qed.

Ltac same :=
  repeat lazymatch goal with
  | |- same_tx (mret _) => apply same_ret
  | |- same_tx (throw _) => apply same_throw
  | |- same_tx (throw_if _ _) => apply same_throw_if
  | |- same_tx (lift_result _) => apply same_lift
  | |- same_tx (unmarshal _) => apply same_unmarshal
  | |- same_tx NewID => apply same_NewID
  | |- same_tx Now => apply same_Now
  | |- same_tx getTx => apply same_getTx
  | |- same_tx (tx_getItem _) => apply same_getItem
  | |- same_tx (_ ≫= _) => apply same_bind; [|intros ?]
  | |- same_tx (let '(_, _) := ?x in _) => destruct x
  | |- same_tx (match ?x with _ => _ end) => destruct x
  end.

(** ** The operations *)

Lemma nputs_put pk i c v t : nputs (put_buffer pk i c v t) ≤ nputs t + 1.
Proof. unfold nputs. rewrite put_buffer_at, map_size_insert. destruct (tx_puts t !! pk); simpl; lia. Qed.
Lemma nputs_again pk i c v t : is_Some (tx_puts t !! pk) → nputs (put_buffer pk i c v t) = nputs t.
Proof. intros [pp Hp]. unfold nputs. by rewrite put_buffer_at, map_size_insert, Hp. Qed.
Lemma puts_grow pk i c v t k : is_Some (tx_puts t !! k) → is_Some (tx_puts (put_buffer pk i c v t) !! k).
Proof. intros Hk. rewrite put_buffer_at. destruct (decide (k = pk)) as [->|]; [rewrite lookup_insert_eq; by eexists|by rewrite lookup_insert_ne]. Qed.
Lemma puts_at pk i c v t : is_Some (tx_puts (put_buffer pk i c v t) !! pk).
Proof. rewrite put_buffer_at, lookup_insert_eq. by eexists. Qed.
Lemma put_buffer_flows pk i c v t : tx_flows (put_buffer pk i c v t) = tx_flows t.
Proof. unfold put_buffer. by destruct (tx_puts t !! pk). Qed.
Lemma put_buffer_journals pk i c v t : tx_journals (put_buffer pk i c v t) = tx_journals t.
Proof. unfold put_buffer. by destruct (tx_puts t !! pk). Qed.
Lemma overlay_buffer pk i c v t : overlay_put t → overlay_put (put_buffer pk i c v t).
Proof.
  intros [Hf Hj]. split; intros k; rewrite ?put_buffer_flows, ?put_buffer_journals; intros Hk; apply puts_grow; auto.
Qed.

Lemma adds_put pk i c v : adds 1 (put pk i c v).
Proof.
  intros [x e] Ho. unfold put, modTx, wp. destruct (tx_nil _); [done|]. simpl. split; [by apply overlay_buffer|apply nputs_put].
Qed.

(** An overlay entry and the put of its item. *)
Lemma adds_overlay n (f : Tx → Tx) pk i c v :
  (∀ t, tx_puts (f t) = tx_puts t ∧ (∀ k, is_Some (tx_flows (f t) !! k) → k = pk ∨ is_Some (tx_flows t !! k)) ∧
     (∀ k, is_Some (tx_journals (f t) !! k) → k = pk ∨ is_Some (tx_journals t !! k))) →
  ∀ s : TxIn (S:=S) * Env, overlay_put (ti_tx s.1) → (n = 0 → is_Some (tx_puts (ti_tx s.1) !! pk)) →
  wpo (modTx f;; put pk i c v) (λ _ s', overlay_put (ti_tx s'.1) ∧ nputs (ti_tx s'.1) ≤ nputs (ti_tx s.1) + n) s.
Proof.
  intros Hf [x e] [Ho1 Ho2] Hn. apply wp_bind. unfold modTx at 1, wp at 1. destruct (tx_nil _); [done|].
  unfold put, modTx, wp. cbn [ti_tx fst] in *. destruct (tx_nil _); [done|]. cbn [ti_tx fst]. destruct (Hf (ti_tx x)) as (Hp & H1 & H2).
  assert (Hs : nputs (f (ti_tx x)) = nputs (ti_tx x)) by (unfold nputs; by rewrite Hp).
  split; [split|].
  - intros k. rewrite put_buffer_flows. intros Hk. destruct (H1 k Hk) as [->|Hk2]; [apply puts_at|apply puts_grow]. rewrite Hp. by apply Ho1.
  - intros k. rewrite put_buffer_journals. intros Hk. destruct (H2 k Hk) as [->|Hk2]; [apply puts_at|apply puts_grow]. rewrite Hp. by apply Ho2.
  - destruct n as [|n]; [rewrite nputs_again by (rewrite Hp; by apply Hn); lia|].
    etransitivity; [apply nputs_put|]. rewrite Hs. lia.
Qed.

Lemma set_flow_overlay pk fs t :
  tx_puts (set_flow pk fs t) = tx_puts t ∧ (∀ k, is_Some (tx_flows (set_flow pk fs t) !! k) → k = pk ∨ is_Some (tx_flows t !! k)) ∧
  (∀ k, is_Some (tx_journals (set_flow pk fs t) !! k) → k = pk ∨ is_Some (tx_journals t !! k)).
Proof.
  split_and!; [done| |by right]. intros k Hk. simpl in Hk. destruct (decide (k = pk)); [by left|]. rewrite lookup_insert_ne in Hk by done. by right.
Qed.
Lemma set_journal_overlay pk j t :
  tx_puts (set_journal pk j t) = tx_puts t ∧ (∀ k, is_Some (tx_flows (set_journal pk j t) !! k) → k = pk ∨ is_Some (tx_flows t !! k)) ∧
  (∀ k, is_Some (tx_journals (set_journal pk j t) !! k) → k = pk ∨ is_Some (tx_journals t !! k)).
Proof.
  split_and!; [done|by right|]. intros k Hk. simpl in Hk. destruct (decide (k = pk)); [by left|]. rewrite lookup_insert_ne in Hk by done. by right.
Qed.

Lemma adds_modTx f :
  (∀ t, tx_puts (f t) = tx_puts t ∧ tx_flows (f t) = tx_flows t ∧ tx_journals (f t) = tx_journals t) → adds 0 (modTx f).
Proof.
  intros Hf [x e] [H1 H2]. unfold modTx, wp. destruct (tx_nil _); [done|]. cbn [ti_tx fst] in *.
  destruct (Hf (ti_tx x)) as (E1 & E2 & E3). unfold overlay_put, nputs. rewrite E1, E2, E3. split; [done|lia].
Qed.

Lemma adds_loadBalance (tn a c : string) : adds 0 (loadBalance tn a c).
Proof.
  unfold loadBalance. cbv zeta. apply adds_bind0; [apply adds_same; same|intros t].
  destruct (_ !! _); [apply adds_same; same|]. unfold readBalance. apply adds_bind0; [apply adds_same; same|intros [[d cr] v]].
  apply adds_bind0; [apply adds_same; same|intros ex]. apply adds_bind0; [by apply adds_modTx|intros _; apply adds_same; same].
Qed.

Lemma adds_UpdateBalance (tn a c : string) (d cr : dec) : adds 1 (dy_UpdateBalance tn a c d cr).
Proof.
  unfold dy_UpdateBalance. cbv zeta. apply adds_bind0; [apply adds_loadBalance|intros b].
  apply adds_bind0; [by apply adds_modTx|intros _]. apply adds_bind0; [apply adds_same; same|intros now]. apply adds_put.
Qed.

Lemma adds_InsertFlowRun f : adds 2 (dy_InsertFlowRun f).
Proof.
  unfold dy_InsertFlowRun, putFlow. cbv zeta.
  apply adds_assoc.
  apply (adds_bind 1 1); [intros s Ho; apply adds_overlay; [apply set_flow_overlay|done|done]|intros _].
  apply (adds_bind 1 0); [apply adds_put|intros _]. by apply adds_modTx.
Qed.

Lemma adds_InsertFlowStep st : adds 0 (dy_InsertFlowStep st).
Proof.
  intros [x e] Ho. unfold dy_InsertFlowStep. cbv zeta. apply wp_bind. unfold getTx, wp at 1. cbn [fst] in *.
  destruct (tx_flows (ti_tx x) !! _) as [fs|] eqn:Hf; [|done].
  apply (adds_overlay 0); [apply set_flow_overlay|done|]. intros _. apply (proj1 Ho). by eexists.
Qed.
Lemma adds_CompleteFlowRun (tn f : string) : adds 0 (dy_CompleteFlowRun tn f).
Proof.
  intros [x e] Ho. unfold dy_CompleteFlowRun. cbv zeta. apply wp_bind. unfold getTx, wp at 1. cbn [fst] in *.
  destruct (tx_flows (ti_tx x) !! _) as [fs|] eqn:Hf; [|done]. apply wp_bind. unfold Now, wp at 1.
  apply (adds_overlay 0 _ _ _ _ _ (set_flow_overlay _ _) (x, _)); [done|]. intros _. apply (proj1 Ho). by eexists.
Qed.
Lemma adds_InsertJournal j : adds 2 (dy_InsertJournal j).
Proof.
  unfold dy_InsertJournal. cbv zeta.
  apply adds_assoc.
  apply (adds_bind 1 1); [intros s Ho; apply adds_overlay; [apply set_journal_overlay|done|done]|intros _]. apply adds_put.
Qed.
Lemma adds_InsertEntry (tn eid jid a c : string) (dir : Direction) (amt : dec) : adds 0 (dy_InsertEntry tn eid jid a c dir amt).
Proof.
  intros [x e] Ho. unfold dy_InsertEntry. cbv zeta. apply wp_bind. unfold getTx, wp at 1. cbn [fst] in *.
  destruct (tx_journals (ti_tx x) !! _) as [fs|] eqn:Hf; [|done].
  apply (adds_overlay 0); [apply set_journal_overlay|done|]. intros _. apply (proj2 Ho). by eexists.
Qed.

(** ** A flow *)

Lemma adds_postEntry tn jid state e : adds 0 (postEntry tn jid state e).
Proof.
  unfold postEntry. apply adds_bind0; [apply adds_same; same|intros id]. apply adds_bind0; [apply adds_InsertEntry|intros _].
  destruct (_ !! _); apply adds_same; same.
Qed.

Lemma adds_applyStep r id meta acc st : adds 3 (applyStep r id meta acc st).
Proof.
  unfold applyStep. destruct acc as [state results]. destruct (Journal_Validate _); [|apply (adds_weaken 0); [apply adds_same; same|lia]].
  do 2 (apply adds_bind0; [apply adds_same; same|intros ?]). apply (adds_bind 2 1); [apply adds_InsertJournal|intros _].
  apply adds_bind0; [apply (adds_foldM 0); intros; apply adds_postEntry|intros state'].
  do 2 (apply adds_bind0; [apply adds_same; same|intros ?]). cbv zeta. apply adds_bind0; [apply adds_InsertFlowStep|intros _].
  do 2 (apply adds_bind0; [apply adds_same; same|intros ?]). apply (adds_bind 1 0); [apply adds_put|intros _; apply adds_same; same].
Qed.

Lemma adds_runNewFlow r steps : adds (2 + 3 * length steps + length (orderedKeys steps)) (runNewFlow r steps).
Proof.
  unfold runNewFlow. cbv zeta. do 2 (apply adds_bind0; [apply adds_same; same|intros ?]). rewrite <- Nat.add_assoc.
  apply adds_bind; [apply adds_InsertFlowRun|intros _].
  apply adds_bind0.
  { apply (adds_foldM 0). intros state k. unfold lockKey. apply adds_bind0; [|intros acc].
    - apply adds_same. cbn [DynamoTx tx_GetAccount]. unfold dy_GetAccount, readAccount. same.
    - do 2 (apply adds_bind0; [apply adds_same; same|intros ?]). apply adds_bind0; [|intros [[d c] v]; apply adds_same; same].
      apply adds_bind0; [apply adds_loadBalance|intros b; apply adds_same; same]. }
  intros state. apply adds_bind; [apply adds_foldM; intros; apply adds_applyStep|intros [state' results]].
  rewrite <- (Nat.add_0_r (length (orderedKeys steps))), <- (Nat.mul_1_l (length (orderedKeys steps))).
  apply adds_bind; [apply adds_foldM; intros [] k; unfold settleKey; destruct (_ !! k); [|apply (adds_weaken 0); [apply adds_same; same|lia]]|intros _].
  - apply adds_bind0; [apply adds_same; same|intros _]. apply adds_UpdateBalance.
  - apply adds_bind0; [apply adds_CompleteFlowRun|intros _; apply adds_same; same].
Qed.

Lemma adds_executeFlow r steps :
  stepsFromProto (ef_Steps r) = Ok steps → adds (2 + 3 * length steps + length (orderedKeys steps)) (executeFlowInTx r).
Proof.
  intros Hsteps s Ho. unfold executeFlowInTx. rewrite Hsteps. apply wp_bind, wp_lift; [|done]. intros steps' [= <-].
  revert s Ho. change (adds (2 + 3 * length steps + length (orderedKeys steps))
    (tx_GetFlowByIdempotency (ef_TenantId r) (ef_IdempotencyKey r) ≫= λ existing, match existing with
      | Some f => throw_if (negb (fr_Status f =s FlowCompleted)) (ErrDomain CodeFlowConflict);;
          existingSteps ← tx_GetFlowSteps (ef_TenantId r) (fr_ID f);
          mret (flowRunToResponse (fr_ID f) (fr_Status f) existingSteps)
      | None => runNewFlow r steps end)).
  apply adds_bind0.
  - apply adds_same. cbn [DynamoTx tx_GetFlowByIdempotency]. unfold dy_GetFlowByIdempotency, readFlow. cbv zeta. same.
  - intros [f|]; [|apply adds_runNewFlow]. apply (adds_weaken 0); [|lia]. apply adds_same.
    cbn [DynamoTx tx_GetFlowSteps]. unfold dy_GetFlowSteps, readFlow. cbv zeta. same.
Qed.

(** A commit refuses for size only a buffer of more than 100 items. *)
Lemma ExecuteFlow_refused r s e resp x e1 :
  table_ok (db_items s) →
  executeFlowInTx r (mkTxIn (λ _, s) [] newTx, e) = (Ok resp, (x, e1)) →
  (maxTxItems < nputs (ti_tx x) →
     ExecuteFlow r (s, e) = (Err (ErrConnect CodeInternal (Some CodeFlowTooLarge)), (s, e1))) ∧
  (nputs (ti_tx x) ≤ maxTxItems → (ExecuteFlow r (s, e)).1 ≠ Err (ErrConnect CodeInternal (Some CodeFlowTooLarge))).
Proof.
  intros Ht Hr. assert (Hbuf : good x) by (by eapply wp_ok in Hr; [|apply (keeps_executeFlow r); by apply alone_good]; destruct Hr).
  unfold ExecuteFlow, rpc, with_tx. cbn [st_BeginFlowTx DynamoStore dy_BeginFlowTx tx_Commit]. rewrite Hr. split.
  - intros Hgt. unfold dy_Commit. rewrite (bo_open _ (proj2 Hbuf)). unfold nputs in Hgt.
    destruct (Nat.eqb_spec (size (tx_puts (ti_tx x))) 0); [unfold maxTxItems in Hgt; lia|].
    by destruct (Nat.ltb_spec maxTxItems (size (tx_puts (ti_tx x)))); [|lia].
  - intros Hle. pose proof (wp_Commit s x e1 (proj2 Hbuf)) as HC. unfold wp in HC.
    destruct (dy_Commit _) as [[[]|er] [[s2 x2] e2]]; [done|]. simpl.
    destruct HC as [(Hgt & _)|[(c & -> & (k & pp & _ & _ & Hc) & _)|(-> & _)]]; [unfold nputs in Hle; lia| |done].
    by destruct c.
Qed.

(** C34. The size of a flow: a flow of [n] steps over [b] balances buffers at
    most [2 + 3 n + b] items; one that buffers more than 100 is answered with
    FLOW_TOO_LARGE as an internal error and changes nothing; one of 100 or
    fewer never gets that answer. *)
Theorem flow_write_bound r s e steps resp x e1 :
  table_ok (db_items s) → stepsFromProto (ef_Steps r) = Ok steps →
  executeFlowInTx r (mkTxIn (λ _, s) [] newTx, e) = (Ok resp, (x, e1)) →
  nputs (ti_tx x) ≤ 2 + 3 * length steps + length (orderedKeys steps) ∧
  (100 < nputs (ti_tx x) → ExecuteFlow r (s, e) = (Err (ErrConnect CodeInternal (Some CodeFlowTooLarge)), (s, e1))) ∧
  (nputs (ti_tx x) ≤ 100 → (ExecuteFlow r (s, e)).1 ≠ Err (ErrConnect CodeInternal (Some CodeFlowTooLarge))).
Proof.
  intros Ht Hsteps Hr. split; [|by apply (ExecuteFlow_refused r s e resp)].
  assert (Ho : overlay_put newTx) by (split; intros k [? Hk]; simpl in Hk; by rewrite lookup_empty in Hk).
  pose proof (adds_executeFlow r steps Hsteps (mkTxIn (λ _, s) [] newTx, e) Ho) as Ha.
  eapply wp_ok in Ha; [|exact Hr]. destruct Ha as [_ Hn]. cbn [fst ti_tx] in Hn.
  unfold nputs at 2 in Hn. cbn [newTx tx_puts] in Hn. by rewrite map_size_empty in Hn.
Qed.
End Bound.
