(* ===== verification/DynamoBooks.v ===== *)
(** * The DynamoDB backend: the books of a table

    [dy_ledger_ok]: every balance item is the total of the journal items,
    every journal item balances, and no account that may not go negative is
    negative.  [money_ok] is what a transaction's buffer owes to the table
    its commit will meet; a commit of such a buffer keeps the books
    ([written_ledger]), whatever happened between the reads. *)

From S2P Require Import Prelude Money Ledger Repo Contract Service Flow FlowLaws.
From S2P Require Import Rfc3339 DynamoItems Dynamo DynamoLaws DynamoOps DynamoCommit.
From stdpp Require Import base gmap strings list numbers.
From Stdlib Require Import Qcanon.

(** ** The books of a table *)

Section Table.
Context {D : DecimalOps} {L : DecimalLaws D}.
Implicit Types (m : gmap string Item) (g : gmap string journalItem) (k pk tn c : string).

(** The number a stored amount denotes. *)
Definition text_amount (s : string) : Qc := match parseDec s with Ok d => val d | Err _ => 0%Qc end.

(** An amount a request may move. *)
Definition amount_pos (a : dec) : Prop := (0 < val a)%Qc.

Lemma text_amount_parse s d : parseDec s = Ok d → text_amount s = val d.
Proof. unfold text_amount. by intros ->. Qed.
Lemma text_amount_String d : text_amount (dString d) = val d.
Proof.
  unfold text_amount, parseDec. rewrite (eqs_false _ _ (String_nonempty d)).
  by destruct (String_roundtrip d) as (b & -> & ->).
Qed.

(** What a line of a journal adds to the balance item under [pk]. *)
Definition line_at pk tn (e : entryItem) : bool := bool_decide (balancePK tn (ei_AccountID e) (ei_Currency e) = pk).
Definition line_debit pk tn (e : entryItem) : Qc :=
  if line_at pk tn e && (ei_Direction e =s DirectionDebit) then text_amount (ei_Amount e) else 0%Qc.
Definition line_credit pk tn (e : entryItem) : Qc :=
  if line_at pk tn e && negb (ei_Direction e =s DirectionDebit) then text_amount (ei_Amount e) else 0%Qc.
Definition lines_at pk tn (es : list entryItem) : Qc * Qc :=
  (Qcsum (line_debit pk tn) es, Qcsum (line_credit pk tn) es).

(** Debits minus credits in a currency. *)
Definition line_signed c (e : entryItem) : Qc :=
  if ei_Currency e =s c
  then (if ei_Direction e =s DirectionDebit then text_amount (ei_Amount e) else - text_amount (ei_Amount e))%Qc
  else 0%Qc.
Definition journal_balanced (j : journalItem) : Prop := ∀ c, Qcsum (line_signed c) (ji_Entries j) = 0%Qc.

Definition asJournal (i : Item) : option journalItem := match i with ItJournal j => Some j | _ => None end.
Definition journals m : gmap string journalItem := omap asJournal m.
(** Debits and credits that all journals post to [pk]. *)
Definition posted_at pk g : Qc * Qc :=
  map_fold (λ _ j acc, add2 (lines_at pk (ji_TenantID j) (ji_Entries j)) acc) (0, 0)%Qc g.

Definition amounts (it : balanceItem) : Qc * Qc := (text_amount (bi_PostedDebits it), text_amount (bi_PostedCredits it)).
Definition balance_at pk m : Qc * Qc := match m !! pk with Some (ItBalance it) => amounts it | _ => (0, 0)%Qc end.

(** The account of a balance item, in its currency and not overdrawn. *)
Definition item_funded (a : accountItem) (b : Qc * Qc) : Prop :=
  ai_AllowNegative a = false → (0 <= if ai_NormalBalance a =s NormalCredit then b.2 - b.1 else b.1 - b.2)%Qc.
Definition backed m (it : balanceItem) : Prop :=
  ∃ a, m !! accountPK (bi_TenantID it) (bi_AccountID it) = Some (ItAccount a) ∧
    ai_Currency a = bi_Currency it ∧ item_funded a (amounts it).

Record dy_ledger_ok m : Prop := {
  dy_books : ∀ pk, starts "BAL#" pk = true → balance_at pk m = posted_at pk (journals m);
  dy_journals : ∀ k j, m !! k = Some (ItJournal j) → journal_balanced j;
  dy_funded : ∀ k it, m !! k = Some (ItBalance it) → backed m it;
}.

Lemma add2_comm x y : add2 x y = add2 y x.
Proof. unfold add2. f_equal; ring. Qed.

Lemma posted_at_empty pk : posted_at pk ∅ = (0, 0)%Qc.
Proof. done. Qed.

Lemma posted_swap pk (j1 j2 : string) z1 z2 y :
  add2 (lines_at pk (ji_TenantID z1) (ji_Entries z1)) (add2 (lines_at pk (ji_TenantID z2) (ji_Entries z2)) y) =
  add2 (lines_at pk (ji_TenantID z2) (ji_Entries z2)) (add2 (lines_at pk (ji_TenantID z1) (ji_Entries z1)) y).
Proof. by rewrite <- !add2_assoc, (add2_comm (lines_at _ _ _)). Qed.

Lemma posted_at_insert pk g k j :
  g !! k = None → posted_at pk (<[k := j]> g) = add2 (lines_at pk (ji_TenantID j) (ji_Entries j)) (posted_at pk g).
Proof.
  intros Hk. unfold posted_at. rewrite map_fold_insert_L; [done| |done].
  intros j1 j2 z1 z2 y _ _ _. by apply posted_swap.
Qed.

Lemma posted_at_union pk g1 g2 : g1 ##ₘ g2 → posted_at pk (g1 ∪ g2) = add2 (posted_at pk g1) (posted_at pk g2).
Proof.
  intros Hd. induction g1 as [|k j g1 Hk IH] using map_ind.
  - rewrite (left_id_L ∅ (∪)), posted_at_empty. unfold add2. destruct (posted_at pk g2). simpl. by f_equal; ring.
  - apply map_disjoint_insert_l in Hd as [Hk2 Hd]. rewrite <- insert_union_l, !posted_at_insert, IH, add2_assoc; try done.
    by apply lookup_union_None.
Qed.
End Table.

(** ** What a buffer owes to the table its commit meets *)

Section Buffer.
Context {D : DecimalOps} {L : DecimalLaws D}.
Implicit Types (m : gmap string Item) (t : Tx) (k pk : string).

Definition buffered t : gmap string journalItem := omap (asJournal ∘ pp_item) (tx_puts t).
Definition tbl_val (b : txBalance) : Qc * Qc := (val (tbl_debits b), val (tbl_credits b)).

(** The table has the balance row as the transaction read it. *)
Definition met m pk (b : txBalance) : Prop :=
  match row_cond (tbl_existed b) (tbl_readVersion b) with
  | VersionIs v => (m !! pk) ≫= item_version = Some v
  | _ => m !! pk = None
  end.

(** A balance put that is right if the row is as it was read. *)
Definition put_right m t pk (pp : pendingPut) : Prop :=
  ∃ b it, tx_balances t !! pk = Some b ∧ pp_item pp = ItBalance it ∧ amounts it = tbl_val b ∧ backed m it.

Record money_ok m t : Prop := {
  mo_bal : ∀ pk b, tx_balances t !! pk = Some b → met m pk b →
    tbl_val b = add2 (balance_at pk m) (posted_at pk (buffered t));
  mo_cover : ∀ pk, starts "BAL#" pk = true → tx_puts t !! pk = None → posted_at pk (buffered t) = (0, 0)%Qc;
  mo_put : ∀ pk pp, tx_puts t !! pk = Some pp → starts "BAL#" pk = true → put_right m t pk pp;
  mo_journals : map_Forall (λ _ j, journal_balanced j) (buffered t);
}.

Lemma money_newTx m : money_ok m newTx.
Proof. split; simpl; intros *; rewrite ?lookup_empty; try done. Qed.

Lemma lookup_buffered t k j : buffered t !! k = Some j ↔ ∃ pp, tx_puts t !! k = Some pp ∧ pp_item pp = ItJournal j.
Proof.
  unfold buffered. rewrite lookup_omap, bind_Some. split; intros (pp & Hpp & Hj); exists pp; (split; [done|]).
  - unfold compose in Hj. destruct (pp_item pp); simplify_eq/=; done.
  - by unfold compose; rewrite Hj.
Qed.
Lemma lookup_journals m k j : journals m !! k = Some j ↔ m !! k = Some (ItJournal j).
Proof.
  unfold journals. rewrite lookup_omap, bind_Some. split; [|by intros ->; eexists].
  intros (i & Hi & Hj). by destruct i; simplify_eq/=.
Qed.

(** Journal items sit under journal keys. *)
Lemma item_typed_journal k i : item_typed k i → starts "JRN#" k = true ↔ ∃ j, i = ItJournal j.
Proof.
  intros [<- Hk]. destruct i as [it|it|it|it|it|it|pk a v]; simpl in *;
    (split; [|intros (j & Hj); simplify_eq; try done]).
  - by rewrite Hk.
  - by rewrite Hk.
  - by eexists.
  - by rewrite Hk; apply (starts_app "JRN#").
  - by rewrite Hk.
  - by destruct Hk as [id ->].
  - by rewrite Hk.
  - repeat apply Exists_cons in Hk as [Hk|Hk]; [..|by apply Exists_nil in Hk]; by apply starts_inv in Hk as [r ->].
Qed.

(** A put that meets a table which has the row already is a versioned one. *)
Lemma put_new m t k pp i :
  buffer_ok t → table_ok m → conds_hold t m → tx_puts t !! k = Some pp → m !! k = Some i → versioned_key k = true.
Proof.
  intros Hok Hm Hc Hpp Hi. destruct (bo_put _ Hok _ _ Hpp) as [Ht Hf]. specialize (Hc _ _ Hpp).
  rewrite <- (item_typed_versioned _ _ Ht). apply bool_decide_eq_true. destruct (item_version (pp_item pp)) eqn:Hv; [done|].
  apply write_fits_unversioned in Hf; [|done]. unfold cond_holds, to_write in Hc. cbn [fst snd] in Hc.
  destruct Ht as [Hpk _]. rewrite Hf, Hpk in Hc. congruence.
Qed.

Lemma journals_written m t :
  buffer_ok t → table_ok m → conds_hold t m →
  buffered t ##ₘ journals m ∧ journals (written t m) = buffered t ∪ journals m.
Proof.
  intros Hok Hm Hc. assert (Hnew : ∀ k pp i, tx_puts t !! k = Some pp → m !! k = Some i → ¬ ∃ j, i = ItJournal j).
  { intros k pp i Hpp Hi Hj. pose proof (put_new _ _ _ _ _ Hok Hm Hc Hpp Hi) as Hv.
    apply (item_typed_journal k) in Hj; [|by apply Hm]. by apply starts_inv in Hj as [r ->]. }
  split.
  - apply map_disjoint_spec. intros k j1 j2 (pp & Hpp & _)%lookup_buffered Hj%lookup_journals. eapply Hnew; eauto.
  - apply map_eq. intros k. unfold written. rewrite lookup_union. unfold journals at 1. rewrite lookup_omap, lookup_union, lookup_fmap.
    unfold buffered. rewrite lookup_omap. destruct (tx_puts t !! k) as [pp|] eqn:Hpp; simpl.
    + rewrite union_Some_l. simpl. destruct (journals m !! k) as [j|] eqn:Hj; [|by rewrite (right_id_L None (∪))].
      apply lookup_journals in Hj. exfalso. eapply Hnew; eauto.
    + rewrite !(left_id_L None (∪)). unfold journals. by rewrite lookup_omap.
Qed.

(** The condition of a balance put is that its row is as it was read. *)
Lemma put_met m t pk pp b :
  buffer_ok t → conds_hold t m → tx_puts t !! pk = Some pp → tx_balances t !! pk = Some b → met m pk b.
Proof.
  intros Hok Hc Hpp Hb. destruct (bo_bal _ Hok _ _ Hb) as (_ & _ & Hw). specialize (Hw _ Hpp). specialize (Hc _ _ Hpp).
  destruct (bo_put _ Hok _ _ Hpp) as [[Hpk _] _]. unfold cond_holds, to_write in Hc. cbn [fst snd] in Hc.
  rewrite Hw, Hpk in Hc. unfold met, row_cond in *. by destruct (tbl_existed b).
Qed.

Lemma backed_written m t it : buffer_ok t → table_ok m → conds_hold t m → backed m it → backed (written t m) it.
Proof.
  intros Hok Hm Hc (a & Ha & Hrest). exists a. split; [|done]. unfold written. rewrite lookup_union_r; [done|].
  rewrite lookup_fmap. destruct (tx_puts t !! _) as [pp|] eqn:Hpp; [|done]. exfalso.
  pose proof (put_new _ _ _ _ _ Hok Hm Hc Hpp Ha) as Hv. by unfold versioned_key, accountPK, starts in Hv.
Qed.

(** A commit whose conditions hold keeps the books. *)
Lemma written_ledger m t :
  buffer_ok t → table_ok m → conds_hold t m → money_ok m t → dy_ledger_ok m → dy_ledger_ok (written t m).
Proof.
  intros Hok Hm Hc Hmo Hl. destruct (journals_written m t Hok Hm Hc) as [Hd Hj]. split.
  - intros pk Hpk. rewrite Hj, posted_at_union by done. unfold balance_at, written. rewrite lookup_union, lookup_fmap.
    destruct (tx_puts t !! pk) as [pp|] eqn:Hpp; simpl.
    + destruct (mo_put _ _ Hmo _ _ Hpp Hpk) as (b & it & Hb & -> & Ha & _). rewrite union_Some_l, Ha.
      rewrite (mo_bal _ _ Hmo _ _ Hb) by (by eapply put_met). by rewrite add2_comm, <- (dy_books _ Hl).
    + rewrite (left_id_L None (∪)), (mo_cover _ _ Hmo), add2_comm, add2_zero by done. by apply (dy_books _ Hl).
  - intros k j Hk. assert (Hk' : journals (written t m) !! k = Some j) by (by apply lookup_journals).
    rewrite Hj in Hk'. apply lookup_union_Some_raw in Hk' as [Hk'|[_ Hk']]; [by eapply (mo_journals _ _ Hmo)|].
    eapply (dy_journals _ Hl). by apply lookup_journals.
  - intros k it Hk. apply backed_written; [done..|]. unfold written in Hk. rewrite lookup_union, lookup_fmap in Hk.
    destruct (tx_puts t !! k) as [pp|] eqn:Hpp; simpl in Hk.
    + rewrite union_Some_l in Hk. injection Hk as Hi. assert (Hpk : starts "BAL#" k = true).
      { destruct (bo_put _ Hok _ _ Hpp) as [[<- Hkey] _]. rewrite Hi in *. simpl in *. rewrite Hkey. apply (starts_app "BAL#"). }
      destruct (mo_put _ _ Hmo _ _ Hpp Hpk) as (b & it' & _ & Hi' & _ & Hb). rewrite Hi in Hi'. by injection Hi' as ->.
    + rewrite (left_id_L None (∪)) in Hk. by eapply (dy_funded _ Hl).
Qed.
End Buffer.
