(* ===== verification/DynamoMoney.v ===== *)
(** * The DynamoDB backend: transactions keep their books

    [m] is the table that the commit of a transaction will meet.  [tidy]: the
    buffer owes it nothing ([money_ok]).  A flow run in a tidy transaction
    leaves it tidy ([tidies_executeFlow]), and so do the other operations
    ([quiet]: they touch no balance and no journal). *)

From S2P Require Import Prelude Money Ledger Repo Contract Service Flow FlowLaws.
From S2P Require Import Rfc3339 DynamoItems Dynamo DynamoLaws DynamoOps DynamoCommit DynamoBooks.
From stdpp Require Import base gmap strings list numbers.
From Stdlib Require Import Qcanon.

Section Operations.
Context {H : Host} {D : DecimalOps} {L : DecimalLaws D} {S : Type} {DB : DynamoDB S} {DL : DynamoLaws S DB}.
Abbreviation TxM A := (M error (TxIn (S:=S) * Env) A).
Implicit Types (x : TxIn (S:=S)) (t : Tx) (s : TxIn (S:=S) * Env) (k pk : string).

(** ** Operations that move no money *)

Definition money_key k : bool := starts "BAL#" k || starts "JRN#" k || starts "ACC#" k.
Definition same_money t t' : Prop :=
  tx_balances t' = tx_balances t ∧ tx_journals t' = tx_journals t ∧
  ∀ k, money_key k = true → tx_puts t' !! k = tx_puts t !! k.
(** A transaction before and after: the worlds it reads stay, ids are only
    used up, and the buffers are related by [P]. *)
Record framed (P : Tx → Tx → Prop) s s' : Prop := {
  fr_world : ti_world s'.1 = ti_world s.1;
  fr_ids : (e_ids s.2 ≤ e_ids s'.2)%nat;
  fr_tx : P (ti_tx s.1) (ti_tx s'.1);
}.
Definition frames (P : Tx → Tx → Prop) {A} (body : TxM A) : Prop := ∀ s, wpo body (λ _ s', framed P s s') s.
Abbreviation quiet := (frames same_money).

#[export] Instance same_money_preorder : PreOrder same_money.
Proof.
  split; [done|]. intros t1 t2 t3 (B1 & J1 & P1) (B2 & J2 & P2). split_and!; [congruence..|].
  intros k Hk. by rewrite P2, P1.
Qed.
#[export] Instance any_preorder : PreOrder (λ _ _ : Tx, True).
Proof. done. Qed.

Section Frames.
Context (P : Tx → Tx → Prop) `{!PreOrder P}.

#[local] Instance framed_refl : Reflexive (framed P).
Proof. intros s. by split. Qed.
#[local] Instance framed_trans : Transitive (framed P).
Proof. intros s1 s2 s3 [W1 I1 T1] [W2 I2 T2]. split; [congruence|lia|by etransitivity]. Qed.

Lemma frames_ret {A} (a : A) : frames P (mret a).
Proof. intros s. by apply wp_ret. Qed.
Lemma frames_throw {A} e : frames P (A:=A) (throw e).
Proof. by intros s. Qed.
Lemma frames_throw_if c e : frames P (throw_if c e).
Proof. destruct c; [apply frames_throw|apply frames_ret]. Qed.
Lemma frames_lift {A} (r : result error A) : frames P (lift_result r).
Proof. destruct r; [apply frames_ret|apply frames_throw]. Qed.
Lemma frames_unmarshal {A} (o : option A) : frames P (unmarshal o).
Proof. destruct o; [apply frames_ret|apply frames_throw]. Qed.
Lemma frames_NewID : frames P NewID.
Proof. intros [x e]. split; [done|simpl; lia|done]. Qed.
Lemma frames_Now : frames P Now.
Proof. intros [x e]. by split. Qed.
Lemma frames_getTx : frames P getTx.
Proof. intros [x e]. by split. Qed.
Lemma frames_getItem pk : frames P (tx_getItem pk).
Proof.
  intros [x e]. unfold wp, tx_getItem. rewrite law_GetItem. destruct (host_fault _); [done|].
  split; [done|simpl; by rewrite law_spent|done].
Qed.
Lemma frames_bind {A B} (body : TxM A) (f : A → TxM B) : frames P body → (∀ a, frames P (f a)) → frames P (body ≫= f).
Proof.
  intros Hm Hf s. apply wp_bind. eapply wp_mono; [apply Hm| |done]. cbv beta. intros a s1 H1.
  eapply wp_mono; [apply Hf| |done]. cbv beta. intros b s2 H2. by etransitivity.
Qed.
Lemma frames_foldM {A B} (f : B → A → TxM B) l b : (∀ b a, frames P (f b a)) → frames P (foldM f l b).
Proof. intros Hf. revert b. induction l as [|a l IH]; intros b; simpl; [apply frames_ret|]. by apply frames_bind. Qed.
Lemma frames_modTx (f : Tx → Tx) : (∀ t, P t (f t)) → frames P (modTx f).
Proof. intros Hf [x e]. unfold wp, modTx. destruct (tx_nil _); [done|]. by split; [| |apply Hf]. Qed.
End Frames.

Lemma quiet_put pk i c v : money_key pk = false → quiet (put pk i c v).
Proof.
  intros Hk. apply (frames_modTx _). intros t. split_and!; [by unfold put_buffer; destruct (_ !! pk)..|].
  intros k Hk'. rewrite put_buffer_at, lookup_insert_ne; [done|]. by intros ->; rewrite Hk in Hk'.
Qed.

(** The puts under the keys of [K] stay. *)
Definition same_puts (K : string → bool) t t' : Prop := ∀ k, K k = true → tx_puts t' !! k = tx_puts t !! k.
#[export] Instance same_puts_preorder K : PreOrder (same_puts K).
Proof. split; [done|]. intros t1 t2 t3 P1 P2 k Hk. by rewrite P2, P1. Qed.
Lemma frames_put (K : string → bool) pk i c v : K pk = false → frames (same_puts K) (put pk i c v).
Proof.
  intros Hk. apply (frames_modTx _). intros t k Hk'. rewrite put_buffer_at, lookup_insert_ne; [done|].
  by intros ->; rewrite Hk in Hk'.
Qed.

End Operations.

(** Walks an operation down to the buffer. *)
Ltac hush :=
  repeat lazymatch goal with
  | |- frames _ (mret _) => apply (frames_ret _)
  | |- frames _ (throw _) => apply (frames_throw _)
  | |- frames _ (throw_if _ _) => apply (frames_throw_if _)
  | |- frames _ (lift_result _) => apply (frames_lift _)
  | |- frames _ (unmarshal _) => apply (frames_unmarshal _)
  | |- frames _ NewID => apply (frames_NewID _)
  | |- frames _ Now => apply (frames_Now _)
  | |- frames _ getTx => apply (frames_getTx _)
  | |- frames _ (tx_getItem _) => apply (frames_getItem _)
  | |- frames same_money (put _ _ _ _) => apply quiet_put; reflexivity
  | |- frames (same_puts _) (put _ _ _ _) => apply frames_put; reflexivity
  | |- frames _ (modTx _) => apply (frames_modTx _); by intros t
  | |- frames _ (_ ≫= _) => apply (frames_bind _); [|intros ?]
  | |- frames _ (foldM _ _ _) => apply (frames_foldM _); intros ? ?
  | |- frames _ (let '(_, _) := ?y in _) => destruct y
  | |- frames _ (match ?y with _ => _ end) => destruct y
  end.

Section Money.
Context {H : Host} {D : DecimalOps} {L : DecimalLaws D} {S : Type} {DB : DynamoDB S} {DL : DynamoLaws S DB}.
Abbreviation TxM A := (M error (TxIn (S:=S) * Env) A).
Abbreviation quiet := (frames (S:=S) same_money).
Abbreviation steady := (frames (S:=S) (λ _ _, True)).
Implicit Types (x : TxIn (S:=S)) (t : Tx) (s : TxIn (S:=S) * Env) (k pk : string).

Lemma quiet_InsertFlowRun f : quiet (dy_InsertFlowRun f).
Proof. unfold dy_InsertFlowRun, putFlow. cbv zeta. hush. Qed.
Lemma quiet_InsertFlowStep st : quiet (dy_InsertFlowStep st).
Proof. unfold dy_InsertFlowStep, putFlow. cbv zeta. hush. Qed.
Lemma quiet_CompleteFlowRun (tn f : string) : quiet (dy_CompleteFlowRun tn f).
Proof. unfold dy_CompleteFlowRun, putFlow. cbv zeta. hush. Qed.
Lemma quiet_InsertOutbox o : quiet (dy_InsertOutbox o).
Proof. unfold dy_InsertOutbox. cbv zeta. hush. Qed.
Lemma quiet_GetFlowByIdempotency (tn key : string) : quiet (dy_GetFlowByIdempotency tn key).
Proof. unfold dy_GetFlowByIdempotency, readFlow. cbv zeta. hush. Qed.
Lemma quiet_GetFlowSteps (tn f : string) : quiet (dy_GetFlowSteps tn f).
Proof. unfold dy_GetFlowSteps, readFlow. hush. Qed.
Lemma quiet_GetAccount (tn a : string) : quiet (dy_GetAccount tn a).
Proof. unfold dy_GetAccount, readAccount. hush. Qed.
Lemma quiet_LockReservation (tn id : string) : quiet (dy_LockReservation tn id).
Proof. unfold dy_LockReservation. cbv zeta. hush. Qed.
Lemma quiet_GetReservationByIdempotency (tn key : string) : quiet (dy_GetReservationByIdempotency tn key).
Proof. unfold dy_GetReservationByIdempotency. hush. apply quiet_LockReservation. Qed.
Lemma quiet_UpdateReservationAmounts (tn id : string) (o c l : dec) (st : ReservationStatus) :
  quiet (dy_UpdateReservationAmounts tn id o c l st).
Proof. unfold dy_UpdateReservationAmounts. cbv zeta. hush. Qed.
Lemma steady_loadBalance (tn a c : string) : steady (loadBalance tn a c).
Proof. unfold loadBalance, readBalance. cbv zeta. hush. Qed.
Lemma quiet_InsertReservation r : quiet (dy_InsertReservation r).
Proof. unfold dy_InsertReservation. cbv zeta. hush. Qed.

(** ** Tidy transactions *)

Context (m : gmap string Item) (tn : string).

(** The journals of the buffer are of the tenant and have ids made before;
    it creates no account. *)
Record sound s : Prop := {
  so_good : good s.1;
  so_world : ∀ n, rtc store_step (db_items (ti_world s.1 n)) m;
  so_ids : ∀ k, is_Some (buffered (ti_tx s.1) !! k) → ∃ i, k = journalPK tn (host_newid i) ∧ (i < e_ids s.2)%nat;
  so_accounts : ∀ k, starts "ACC#" k = true → tx_puts (ti_tx s.1) !! k = None;
}.
Definition tidy s : Prop := sound s ∧ money_ok m (ti_tx s.1).
Definition tidies {A} (body : TxM A) : Prop := ∀ s, tidy s → wpo body (λ _ s', tidy s') s.

Lemma sound_table s : sound s → table_ok m.
Proof. intros [[[Ht _] _] Hw _ _]. by eapply store_steps_ok; [apply (Hw 0%nat)|]. Qed.

(** What a quiet operation leaves as it was. *)
Record kept t t' : Prop := {
  kp_bal : tx_balances t' = tx_balances t;
  kp_jrn : tx_journals t' = tx_journals t;
  kp_put : ∀ pk, starts "BAL#" pk = true → tx_puts t' !! pk = tx_puts t !! pk;
  kp_buf : buffered t' = buffered t;
}.

Lemma same_buffered t t' : buffer_ok t → buffer_ok t' → same_money t t' → buffered t' = buffered t.
Proof.
  intros Hok Hok' (_ & _ & Hp). apply map_eq. intros k. unfold buffered. rewrite !lookup_omap.
  destruct (money_key k) eqn:Hk; [by rewrite Hp|].
  assert (Hno : ∀ t0, buffer_ok t0 → tx_puts t0 !! k ≫= asJournal ∘ pp_item = None).
  { intros t0 Hok0. destruct (tx_puts t0 !! k) as [pp|] eqn:Hpp; [|done]. simpl. destruct (bo_put _ Hok0 _ _ Hpp) as [Ht _].
    pose proof (item_typed_journal _ _ Ht) as Hj. unfold compose. destruct (pp_item pp) eqn:Hi; try done.
    destruct Hj as [_ Hj]. unfold money_key in Hk. rewrite Hj in Hk by (by eexists). by rewrite orb_true_r in Hk. }
  by rewrite !Hno.
Qed.

Lemma framed_sound s s' : sound s → good s'.1 → framed same_money s s' → sound s' ∧ kept (ti_tx s.1) (ti_tx s'.1).
Proof.
  intros [Hg Hw Hi Ha] Hg' [Qw Qi Qm]. pose proof (same_buffered _ _ (proj2 Hg) (proj2 Hg') Qm) as Hb.
  destruct Qm as (Qb & Qj & Qp). split; split; try done.
  - intros n. by rewrite Qw.
  - intros k. rewrite Hb. intros (i & Hk & Hlt)%Hi. exists i. split; [done|]. by eapply Nat.lt_le_trans.
  - intros k Hk. rewrite Qp; [by apply Ha|]. unfold money_key. by rewrite Hk, orb_true_r.
  - intros pk Hk. apply Qp. unfold money_key. by rewrite Hk.
Qed.

Lemma kept_money t t' : kept t t' → money_ok m t → money_ok m t'.
Proof.
  intros [Kb _ Kp Kf] [Hb Hc Hp Hj]. split; rewrite ?Kb, ?Kf; [done| | |done].
  - intros pk Hpk. rewrite Kp by done. by apply Hc.
  - intros pk pp Hpp Hpk. rewrite Kp in Hpp by done. destruct (Hp _ _ Hpp Hpk) as (b & it & Hb' & Hrest).
    exists b, it. by rewrite Kb.
Qed.

Lemma wpo_quiet {A} (body : TxM A) s :
  quiet body → keeps md_any body → sound s →
  wpo body (λ _ s', sound s' ∧ kept (ti_tx s.1) (ti_tx s'.1)) s.
Proof.
  intros Hq Hk Hs. eapply wp_mono; [apply wp_conj; [apply Hq|apply Hk, Hs]| |done]. cbv beta.
  intros a s' [Hqt [Hg _]]. by apply framed_sound.
Qed.
Lemma tidies_quiet {A} (body : TxM A) : quiet body → keeps md_any body → tidies body.
Proof.
  intros Hq Hk s [Hs Hm]. eapply wp_mono; [by apply wpo_quiet| |done]. cbv beta.
  intros a s' [Hs' Hkp]. split; [done|by eapply kept_money].
Qed.
Lemma tidies_bind {A B} (body : TxM A) (f : A → TxM B) : tidies body → (∀ a, tidies (f a)) → tidies (body ≫= f).
Proof.
  intros Hm Hf s Hs. apply wp_bind. eapply wp_mono; [by apply Hm| |done]. cbv beta. intros a s1 H1. by apply Hf.
Qed.

(** ** Accounts and balances *)

(** The account of a key, as the commit will find it. *)
Definition account_seen (a : string) (acc : Account) : Prop :=
  ∃ it, m !! accountPK tn a = Some (ItAccount it) ∧ accountFromItem it = Ok acc.

Lemma wpo_GetAccount_seen (a : string) s :
  sound s → wpo (dy_GetAccount tn a) (λ acc s', (sound s' ∧ kept (ti_tx s.1) (ti_tx s'.1)) ∧ account_seen a acc) s.
Proof.
  intros Hs. eapply wp_mono; [apply wp_conj; [apply wpo_quiet; [apply quiet_GetAccount|apply keeps_GetAccount|done]|
    apply (wpo_intro _ (λ acc _, account_seen a acc))]| |done]; [|by cbv beta].
  intros acc s' Hr. destruct s as [x e]. pose proof (so_accounts _ Hs _ (starts_app "ACC#" (tn +:+ "#" +:+ a))) as Hn.
  unfold dy_GetAccount in Hr. inv_ok Hr. injection Hrun as <- <-. cbn [fst] in Hn.
  change (tx_puts (ti_tx x) !! accountPK tn a = None) in Hn. rewrite Hn in Hr. unfold readAccount in Hr. inv_ok Hr.
  unfold tx_getItem in Hrun. rewrite law_GetItem in Hrun. destruct (host_fault _); [done|]. injection Hrun as <- <-.
  destruct (db_items _ !! accountPK tn a) as [i|] eqn:Hi; [|done]. inv_ok Hr. destruct i as [it| | | | | |]; try done.
  injection Hrun as <- <-. exists it. split; [|unfold lift_result in Hr; congruence].
  eapply row_fixed; [apply (so_world _ Hs)|exact Hi|done|done].
Qed.

(** The overlay holds the row: the one the commit will find, if it finds it
    as it was read. *)
Definition loaded pk t (b : txBalance) t' : Prop :=
  tx_puts t' = tx_puts t ∧ tx_journals t' = tx_journals t ∧ tx_balances t' !! pk = Some b ∧
  (tx_balances t' = tx_balances t ∨
   (tx_balances t !! pk = None ∧ tx_balances t' = <[pk := b]> (tx_balances t) ∧ (met m pk b → tbl_val b = balance_at pk m))).

Lemma wpo_modTx_plain (f : Tx → Tx) (Q : unit → TxIn * Env → Prop) x e :
  Q tt (mkTxIn (ti_world x) (ti_reads x) (f (ti_tx x)), e) → wpo (modTx f) Q (x, e).
Proof. intros HQ. unfold wp, modTx. by destruct (tx_nil _). Qed.

Lemma wpo_cached pk b ks x e :
  (met m pk b → tbl_val b = balance_at pk m) → tx_balances (ti_tx x) !! pk = None →
  wpo (modTx (set_balance pk b);; mret b) (λ b' s', loaded pk (ti_tx x) b' (ti_tx s'.1))
    (mkTxIn (ti_world x) ks (ti_tx x), e).
Proof.
  intros Hb Hn. apply wp_bind, wpo_modTx_plain, wp_ret. unfold loaded; simpl. rewrite lookup_insert_eq.
  split_and!; [done..|]. right. by split_and!.
Qed.

(** A version that no row has. *)
Lemma met_zero pk d c : table_ok m → ¬ met m pk (mkTxBalance d c 0 true).
Proof. intros Hm Hv. unfold met in Hv; simpl in Hv. apply bind_Some in Hv as (i & Hi & Hv). apply Hm in Hi as [_ Hpos]. by apply Hpos in Hv. Qed.

Lemma wpo_loaded (a c : string) s :
  sound s → wpo (loadBalance tn a c) (λ b s', loaded (balancePK tn a c) (ti_tx s.1) b (ti_tx s'.1)) s.
Proof.
  intros Hs. pose proof (sound_table _ Hs) as Hm. destruct s as [x e]. set (key := balancePK tn a c).
  unfold loadBalance. apply wp_bind. unfold wp at 1. cbn [getTx fst]. fold key.
  destruct (tx_balances (ti_tx x) !! key) as [b|] eqn:Hb; [by apply wp_ret; split_and!; try done; left|].
  assert (Habs : ∀ d cr ks e', val d = 0%Qc → val cr = 0%Qc →
    wpo (modTx (set_balance key (mkTxBalance d cr 0 false));; mret (mkTxBalance d cr 0 false))
      (λ b s', loaded key (ti_tx x) b (ti_tx s'.1)) (mkTxIn (ti_world x) ks (ti_tx x), e')).
  { intros d cr ks e' Hd Hc. apply wpo_cached; [|done]. unfold met, balance_at; simpl. intros ->. unfold tbl_val; simpl. by rewrite Hd, Hc. }
  assert (Hz : ∀ d cr ks e', wpo (modTx (set_balance key (mkTxBalance d cr 0 true));; mret (mkTxBalance d cr 0 true))
      (λ b s', loaded key (ti_tx x) b (ti_tx s'.1)) (mkTxIn (ti_world x) ks (ti_tx x), e')).
  { intros d cr ks e'. apply wpo_cached; [|done]. intros Hv. by apply met_zero in Hv. }
  unfold readBalance. apply wp_bind, wp_bind, wpo_getItem. intros e1. fold key.
  destruct (row x (length (ti_reads x)) key) as [i|] eqn:Hi.
  - apply wp_bind. destruct i as [|it| | | | |]; try done. apply wp_ret. apply wp_bind, wp_lift; [|done]. intros d Hd.
    apply wp_bind, wp_lift; [|done]. intros cr Hcr. apply wp_ret. cbv beta iota.
    pose proof (row_typed _ _ _ _ (so_good _ Hs) Hi) as [_ Hpos]. specialize (Hpos _ eq_refl).
    rewrite (proj2 (Z.eqb_neq (bi_Version it) 0)) by lia. simpl negb. cbn [orb].
    apply wp_bind, wp_ret, wpo_cached; [|done]. unfold met; simpl. intros Hv. unfold balance_at.
    change (db_items (ti_world x (length (ti_reads x))) !! key = Some (ItBalance it)) in Hi.
    assert (E : m !! key = Some (ItBalance it)).
    { rewrite <- Hi. apply (row_same _ _ _ (bi_Version it)); [apply (so_world _ Hs)|done|by rewrite Hi|done]. }
    rewrite E. unfold tbl_val, amounts; simpl. by rewrite (text_amount_parse _ _ Hd), (text_amount_parse _ _ Hcr).
  - cbv beta iota. apply wp_ret. cbv beta iota. cbn [Z.eqb negb orb]. rewrite IsZero_spec, val_zero, bool_decide_eq_true_2 by done. simpl negb. cbn [orb].
    apply wp_bind, wp_bind, wpo_getItem. intros e2. cbn [ti_reads ti_world ti_tx].
    clear Hi. destruct (row _ _ key) as [i2|]; [apply wp_bind; destruct i2; try done; apply wp_ret|]; apply wp_ret; [apply Hz|].
    apply Habs; apply val_zero.
Qed.

Lemma loaded_money pk t b t' :
  buffer_ok t → starts "BAL#" pk = true → loaded pk t b t' → money_ok m t → money_ok m t'.
Proof.
  intros Hok Hpk (Hp & _ & _ & Hb) Hmo. assert (Hbuf : buffered t' = buffered t) by (unfold buffered; by rewrite Hp).
  destruct Hmo as [Mb Mc Mp Mj]. split; rewrite ?Hbuf, ?Hp; try done.
  - intros pk' b' Hb' Hm'. destruct Hb as [Hb|(Hn & Hb & Hv)]; rewrite Hb in Hb'; [by apply Mb|].
    apply lookup_insert_Some in Hb' as [[<- <-]|[_ Hb']]; [|by apply Mb].
    rewrite (Mc pk), add2_zero; [by apply Hv|done|]. apply eq_None_not_Some. intros Hs.
    apply (bo_balput _ Hok) in Hs; [|done]. rewrite Hn in Hs. by destruct Hs.
  - intros pk' pp Hpp Hpk'. destruct (Mp _ _ Hpp Hpk') as (b' & it & Hb' & Hrest). exists b', it. split; [|done].
    destruct Hb as [->|(Hn & -> & _)]; [done|]. rewrite lookup_insert_ne; [done|]. intros ->. congruence.
Qed.

Lemma wpo_LockBalance_tidy (a c : string) s :
  tidy s → wpo (dy_LockBalance tn a c) (λ r s', tidy s' ∧
    (∃ b, tx_balances (ti_tx s'.1) !! balancePK tn a c = Some b ∧ tbl_val b = (val r.1.1, val r.1.2)) ∧
    ∀ pk b, tx_balances (ti_tx s.1) !! pk = Some b → tx_balances (ti_tx s'.1) !! pk = Some b) s.
Proof.
  intros [Hs Hmo]. unfold dy_LockBalance. apply wp_bind.
  eapply wp_mono; [apply wp_conj; [by apply (wpo_loadBalance md_any); [|apply Hs]|
    apply wp_conj; [apply steady_loadBalance|by apply wpo_loaded]]| |done].
  cbv beta. intros b s' [[[Hg _] _] [[Fw Fi _] Hl]]. apply wp_ret.
  assert (Hbuf : buffered (ti_tx s'.1) = buffered (ti_tx s.1)) by (destruct Hl as [Hp _]; unfold buffered; by rewrite Hp).
  split; [split|].
  - destruct Hs as [Hg0 Hw Hi Ha]. split; [done|by rewrite Fw| |].
    + intros k. rewrite Hbuf. intros (i & Hk & Hlt)%Hi. exists i. split; [done|]. by eapply Nat.lt_le_trans.
    + intros k Hk. destruct Hl as [-> _]. by apply Ha.
  - eapply loaded_money; [apply Hs|apply (starts_app "BAL#")|done..].
  - destruct Hl as (_ & _ & Hb & Hc). split; [by exists b|]. intros pk b' Hb'.
    destruct Hc as [->|(Hn & -> & _)]; [done|]. rewrite lookup_insert_ne; [done|]. intros <-. congruence.
Qed.

(** An update of a row that the overlay holds. *)
Lemma wpo_UpdateBalance_loaded (a c : string) (d cr : dec) b s :
  tx_balances (ti_tx s.1) !! balancePK tn a c = Some b →
  wpo (dy_UpdateBalance tn a c d cr) (λ _ s',
    let pk := balancePK tn a c in
    framed eq s (mkTxIn (ti_world s'.1) (ti_reads s'.1) (ti_tx s.1), s'.2) ∧
    ∃ it pp, bi_TenantID it = tn ∧ bi_AccountID it = a ∧ bi_Currency it = c ∧ amounts it = (val d, val cr) ∧
      pp_item pp = ItBalance it ∧
      tx_puts (ti_tx s'.1) = <[pk := pp]> (tx_puts (ti_tx s.1)) ∧
      tx_balances (ti_tx s'.1) = <[pk := mkTxBalance d cr (tbl_readVersion b) (tbl_existed b)]> (tx_balances (ti_tx s.1)) ∧
      tx_journals (ti_tx s'.1) = tx_journals (ti_tx s.1)) s.
Proof.
  intros Hb. destruct s as [x e]; cbn [fst snd] in *. unfold dy_UpdateBalance, loadBalance. set (pk := balancePK tn a c) in *.
  apply wp_bind, wp_bind. unfold wp at 1. cbn [getTx fst]. fold pk. rewrite Hb. apply wp_ret.
  apply wp_bind, wpo_modTx_plain, wp_bind. unfold wp at 1, Now. cbv beta iota. apply wpo_modTx_plain. cbn [fst ti_tx].
  split; [by split|]. eexists _, _. rewrite put_buffer_at. unfold put_buffer. cbn [tx_puts set_balance].
  split_and!; [| | | | |done| |]; cycle 4.
  - by destruct (tx_puts (ti_tx x) !! pk).
  - by destruct (tx_puts (ti_tx x) !! pk).
  - by destruct (tx_puts (ti_tx x) !! pk).
  - done.
  - done.
  - done.
  - unfold amounts; simpl. by rewrite !text_amount_String.
Qed.
End Money.
