(* ===== verification/DynamoPost.v ===== *)
(** * The DynamoDB backend: a flow keeps the books of its transaction

    The orchestrator locks balances, posts journals and settles the balances.
    Between the first journal and the last settled balance the buffer owes the
    table money; at the end it owes nothing ([tidies_executeFlow]). *)

From S2P Require Import Prelude Money Ledger Repo Contract Service Flow FlowLaws.
From S2P Require Import Rfc3339 DynamoItems Dynamo DynamoLaws DynamoOps DynamoCommit DynamoBooks DynamoMoney.
From stdpp Require Import base gmap strings list numbers.
From Stdlib Require Import Qcanon.

(** ** Names that hold no [#]

    The key of a balance item is [BAL#tenant#account#currency]; two items of a
    tenant are apart when their currencies hold no [#]. *)

Fixpoint has_hash (s : string) : bool :=
  match s with EmptyString => false | String c s' => Ascii.eqb c (Ascii.ascii_of_nat 35) || has_hash s' end.

Lemma has_hash_app a b : has_hash (a +:+ b) = has_hash a || has_hash b.
Proof. induction a as [|c a IH]; [done|]. simpl. by rewrite IH, orb_assoc. Qed.

Lemma last_hash (a b c d : string) :
  has_hash c = false → has_hash d = false → a +:+ "#" +:+ c = b +:+ "#" +:+ d → a = b ∧ c = d.
Proof.
  intros Hc Hd. revert b. induction a as [|x a IH]; intros [|y b] E; simpl in E.
  - by injection E.
  - injection E as _ E. change (c = b +:+ "#" +:+ d) in E. rewrite E, has_hash_app in Hc. by apply orb_false_iff in Hc as [_ ?].
  - injection E as _ E. change (a +:+ "#" +:+ c = d) in E. rewrite <- E, has_hash_app in Hd. by apply orb_false_iff in Hd as [_ ?].
  - injection E as -> E. apply IH in E as [-> ->]. done.
Qed.

(** The accounts of a table have such currencies. *)
Definition plain_currencies (m : gmap string Item) : Prop :=
  ∀ k a, m !! k = Some (ItAccount a) → has_hash (ai_Currency a) = false.

Section Post.
Context {H : Host} {D : DecimalOps} {L : DecimalLaws D} {S : Type} {DB : DynamoDB S} {DL : DynamoLaws S DB}.
Context (m : gmap string Item) (tn : string).
(** The ids made by one process are all different. *)
Context (Hids : Inj (=) (=) host_newid).
Abbreviation TxM A := (M error (TxIn (S:=S) * Env) A).
Abbreviation sound := (sound m tn).
Abbreviation tidy := (tidy m tn).
Abbreviation quiet := (frames (S:=S) same_money).
Implicit Types (t : Tx) (s : TxIn (S:=S) * Env) (pk : string) (k : key) (ks : list key) (es : list Entry).

(** ** What entries post to a balance item *)

Definition en_at pk es : Qc * Qc := lines_at pk tn (entryToItem <$> es).
Definition pkof k : string := balancePK tn k.1 k.2.

Lemma en_at_app pk es1 es2 : en_at pk (es1 ++ es2) = add2 (en_at pk es1) (en_at pk es2).
Proof. unfold en_at, lines_at, add2; simpl. by rewrite fmap_app, !Qcsum_app. Qed.
Lemma en_at_nil pk : en_at pk [] = (0, 0)%Qc.
Proof. done. Qed.

(** Distinct keys of a flow have distinct balance items. *)
Definition apart (ks : list key) : Prop := ∀ k k', k ∈ ks → k' ∈ ks → pkof k = pkof k' → k = k'.

Lemma en_at_key ks k es : apart ks → k ∈ ks → (∀ e, e ∈ es → entry_key e ∈ ks) → en_at (pkof k) es = totals k es.
Proof.
  intros Ha Hk Hes. unfold en_at, lines_at, totals. rewrite !Qcsum_fmap.
  assert (E : ∀ e, e ∈ es → line_at (pkof k) tn (entryToItem e) = bool_decide (entry_key e = k)).
  { intros e He. apply bool_decide_ext. unfold entryToItem, pkof, entry_key; simpl. split; [|by intros <-].
    intros E. apply Ha; [by apply Hes|done|done]. }
  f_equal; apply Qcsum_ext; intros e He; unfold line_debit, line_credit, entry_debit, entry_credit;
    rewrite (E e He); simpl; by rewrite text_amount_String.
Qed.
Lemma en_at_other ks pk es : (∀ e, e ∈ es → entry_key e ∈ ks) → (∀ k, k ∈ ks → pkof k ≠ pk) → en_at pk es = (0, 0)%Qc.
Proof.
  intros Hes Hpk. unfold en_at, lines_at. rewrite !Qcsum_fmap.
  f_equal; apply Qcsum_zero; intros e He; unfold line_debit, line_credit, line_at; simpl;
    by rewrite bool_decide_eq_false_2 by (apply (Hpk (entry_key e)), Hes, He).
Qed.

Lemma lines_journal pk j : jr_TenantID j = tn → lines_at pk (ji_TenantID (journalToItem j)) (ji_Entries (journalToItem j)) = en_at pk (jr_Entries j).
Proof. intros Ht. unfold journalToItem; simpl. by rewrite Ht. Qed.

Lemma valid_balanced j j0 u : Journal_Validate j0 = Ok u → jr_Entries j = jr_Entries j0 → journal_balanced (journalToItem j).
Proof.
  intros [HF Hz]%Journal_Validate_sound E c. unfold journalToItem; simpl. rewrite E, Qcsum_fmap, <- (Hz c).
  apply Qcsum_ext. intros e He. rewrite list.Forall_forall in HF. destruct (HF _ He) as (_ & _ & Hd & _).
  unfold line_signed, signed_in; simpl. rewrite text_amount_String. destruct (_ =s c); [|done].
  unfold Direction_Valid in Hd.
  destruct (en_Direction e =s DirectionDebit) eqn:E1, (en_Direction e =s DirectionCredit) eqn:E2; try done.
  eqs. by rewrite E1 in E2.
Qed.

(** ** Journals of the buffer *)

(** The journal under [jk] is [j], every other one as in [g]. *)
Definition has_journal g (jk : string) (j : Journal) t : Prop :=
  tx_journals t !! jk = Some j ∧ buffered t = <[jk := journalToItem j]> g.

(** The balances, and their puts, are as they were. *)
Definition same_balances t t' : Prop :=
  tx_balances t' = tx_balances t ∧ ∀ pk, starts "BAL#" pk = true → tx_puts t' !! pk = tx_puts t !! pk.

#[local] Instance same_balances_refl : Reflexive same_balances.
Proof. by intros t. Qed.
#[local] Instance same_balances_trans : Transitive same_balances.
Proof. intros t1 t2 t3 [B1 P1] [B2 P2]. split; [congruence|]. intros pk Hpk. by rewrite P2, P1. Qed.
Lemma kept_same t t' : kept t t' → same_balances t t'.
Proof. by intros [? ? ? ?]. Qed.

Lemma put_journal_tx jk j t :
  jk = journalPK (jr_TenantID j) (jr_ID j) →
  let t' := put_buffer jk (ItJournal (journalToItem j)) condNotExists 0 (set_journal jk j t) in
  same_balances t t' ∧ has_journal (buffered t) jk j t' ∧
  ∀ (a : string), starts "ACC#" a = true → tx_puts t' !! a = tx_puts t !! a.
Proof.
  intros Hjk. cbv zeta. assert (E : tx_puts (put_buffer jk (ItJournal (journalToItem j)) condNotExists 0 (set_journal jk j t)) =
    <[jk := match tx_puts t !! jk with
            | Some pp => mkPendingPut (ItJournal (journalToItem j)) (pp_cond pp) (pp_version pp)
            | None => mkPendingPut (ItJournal (journalToItem j)) condNotExists 0 end]> (tx_puts t)) by (by rewrite put_buffer_at).
  assert (Hother : ∀ k : string, starts "BAL#" k = true ∨ starts "ACC#" k = true → jk ≠ k).
  { intros k Hk ->. rewrite Hjk in Hk. by destruct Hk. }
  split_and!.
  - split; [by unfold put_buffer; destruct (_ !! jk)|]. intros k Hk. rewrite E, lookup_insert_ne by auto. done.
  - split; [by unfold put_buffer; destruct (_ !! jk); simpl; rewrite lookup_insert_eq|].
    unfold buffered. rewrite E, omap_insert. by destruct (tx_puts t !! jk).
  - intros k Hk. rewrite E, lookup_insert_ne by auto. done.
Qed.

Definition fresh_id (jk : string) s : Prop := ∃ i, jk = journalPK tn (host_newid i) ∧ (i < e_ids s.2)%nat.

Lemma wpo_post_journal jk j s :
  sound s → jk = journalPK (jr_TenantID j) (jr_ID j) → fresh_id jk s →
  wpo (modTx (set_journal jk j);; put jk (ItJournal (journalToItem j)) condNotExists 0) (λ _ s',
    sound s' ∧ e_ids s'.2 = e_ids s.2 ∧ same_balances (ti_tx s.1) (ti_tx s'.1) ∧ has_journal (buffered (ti_tx s.1)) jk j (ti_tx s'.1)) s.
Proof.
  intros Hs Hjk Hid. eapply wp_mono; [apply wp_conj|cbv beta|done].
  - apply (keeps_bind md_any); [by apply keeps_set_journal|intros _; by apply keeps_put_journal|apply Hs].
  - instantiate (1 := λ _ _, True). instantiate (1 := λ _ s', ti_world s'.1 = ti_world s.1 ∧ s'.2 = s.2 ∧
      ti_tx s'.1 = put_buffer jk (ItJournal (journalToItem j)) condNotExists 0 (set_journal jk j (ti_tx s.1))).
    destruct s as [x e]. by apply wp_bind, wpo_modTx_plain, wpo_modTx_plain.
  - intros _ [x' e'] [[Hg _] (Hw & He & Ht)]. cbn [fst snd] in *. rewrite Ht.
    destruct (put_journal_tx jk j (ti_tx s.1) Hjk) as (Hb & Hj & Hacc). split_and!; [|by rewrite He|done|done].
    destruct Hs as [_ Hworld Hids' Ha]. split; cbn [fst snd]; [done|by rewrite Hw| |].
    + rewrite Ht, He. intros k0. destruct Hj as [_ ->]. destruct (decide (k0 = jk)) as [->|Hne]; [by intros _|].
      rewrite lookup_insert_ne by done. apply Hids'.
    + intros k0 Hk0. rewrite Ht, Hacc by done. by apply Ha.
Qed.

Lemma wpo_InsertJournal j s :
  let jk := journalPK (jr_TenantID j) (jr_ID j) in
  sound s → fresh_id jk s →
  wpo (dy_InsertJournal j) (λ _ s', sound s' ∧ e_ids s'.2 = e_ids s.2 ∧
    same_balances (ti_tx s.1) (ti_tx s'.1) ∧ has_journal (buffered (ti_tx s.1)) jk (with_entries j []) (ti_tx s'.1)) s.
Proof.
  intros jk Hs Hid. unfold dy_InsertJournal. cbv zeta. apply wp_assoc, wp_bind.
  eapply wp_mono; [by apply wpo_post_journal| |done]. cbv beta. intros _ s1 (Hs1 & He1 & Hb1 & Hj1).
  eapply wp_mono; [apply wp_conj; [apply wpo_quiet; [by apply quiet_put|apply (keeps_put_marker md_any "EVT#"); set_solver|exact Hs1]|]|cbv beta|done].
  - instantiate (1 := λ _ _, True). instantiate (1 := λ _ s', e_ids s'.2 = e_ids s1.2). destruct s1. by apply wpo_modTx_plain.
  - intros _ s2 [[Hs2 [Kb Kj Kp Kf]] He2]. split_and!; [done|by rewrite He2|etransitivity; [done|by split]|].
    destruct Hj1 as [J1 J2]. split; [by rewrite Kj|by rewrite Kf].
Qed.

Lemma wpo_InsertEntry (eid a c : string) (dir : Direction) (amt : dec) id g j s :
  let jk := journalPK tn id in
  sound s → fresh_id jk s → has_journal g jk j (ti_tx s.1) → jk = journalPK (jr_TenantID j) (jr_ID j) →
  wpo (dy_InsertEntry tn eid id a c dir amt) (λ _ s', sound s' ∧ e_ids s'.2 = e_ids s.2 ∧
    same_balances (ti_tx s.1) (ti_tx s'.1) ∧
    has_journal g jk (with_entries j (jr_Entries j ++ [mkEntry a c dir amt])) (ti_tx s'.1)) s.
Proof.
  intros jk Hs Hid [Hj Hb] Hjk. unfold dy_InsertEntry. destruct s as [x e]. apply wp_bind. unfold wp at 1. cbn [getTx fst]. fold jk.
  cbn [fst] in Hj. rewrite Hj. cbv zeta. eapply wp_mono; [by apply wpo_post_journal| |done]. cbv beta.
  intros _ s1 (Hs1 & He1 & Hb1 & [J1 J2]). split_and!; [done..|]. split; [done|]. cbn [fst] in *. by rewrite J2, Hb, insert_insert_eq.
Qed.

(** ** Posting *)

(** Since [t1] the entries [es] were posted and no balance was touched. *)
Record posting t1 es s : Prop := {
  ps_sound : sound s;
  ps_same : same_balances t1 (ti_tx s.1);
  ps_posted : ∀ pk, posted_at pk (buffered (ti_tx s.1)) = add2 (posted_at pk (buffered t1)) (en_at pk es);
  ps_journals : map_Forall (λ _ j, journal_balanced j) (buffered (ti_tx s.1));
}.

Lemma posting_quiet {A} (body : TxM A) t1 es s :
  quiet body → keeps md_any body → posting t1 es s → wpo body (λ _ s', posting t1 es s') s.
Proof.
  intros Hq Hk [Hs Hb Hp Hj]. eapply wp_mono; [by apply wpo_quiet| |done]. cbv beta. intros a s' [Hs' Hkp].
  pose proof (kept_same _ _ Hkp). destruct Hkp as [_ _ _ Kf]. split; rewrite ?Kf; try done. by etransitivity.
Qed.

(** ** Locking *)

(** The map of the flow holds the locked balances plus the totals of [es]. *)
Definition holds t1 ks es (st : gmap key balState) : Prop := ∀ k, k ∈ ks → ∃ b tb,
  st !! k = Some b ∧ tx_balances t1 !! pkof k = Some tb ∧ bal_val b = add2 (tbl_val tb) (totals k es) ∧
  account_seen m tn k.1 (bal_acct b) ∧ acc_Currency (bal_acct b) = k.2.

Lemma holds_lock t1 t2 ks k st b tb acc :
  holds t1 ks [] st → (∀ pk tb, tx_balances t1 !! pk = Some tb → tx_balances t2 !! pk = Some tb) →
  tx_balances t2 !! pkof k = Some tb → bal_acct b = acc → bal_val b = tbl_val tb →
  account_seen m tn k.1 acc → acc_Currency acc = k.2 →
  holds t2 (ks ++ [k]) [] (<[k := b]> st).
Proof.
  intros Hh Hkeep Htb <- Hb Ha Hc k' Hk'. destruct (decide (k' = k)) as [->|Hne].
  - exists b, tb. rewrite lookup_insert_eq, totals_nil, add2_zero. by split_and!.
  - assert (Hin : k' ∈ ks) by set_solver. destruct (Hh _ Hin) as (b' & tb' & ? & ? & ?). exists b', tb'.
    rewrite lookup_insert_ne by done. split_and!; [done|by apply Hkeep|tauto..].
Qed.

Lemma wpo_lockKey ks k st s :
  tidy s → holds (ti_tx s.1) ks [] st →
  wpo (lockKey tn st k) (λ st' s', tidy s' ∧ holds (ti_tx s'.1) (ks ++ [k]) [] st') s.
Proof.
  intros [Hs Hmo] Hh. unfold lockKey. apply wp_bind. eapply wp_mono; [by apply (wpo_GetAccount_seen m tn)| |done].
  cbv beta. intros acc s1 [[Hs1 Hk1] Ha]. apply wp_bind, wp_throw_if; [done|]. intros _. apply wp_bind, wp_throw_if; [done|].
  intros Hc. apply negb_false_iff, eqs_true in Hc.
  apply wp_bind. eapply wp_mono; [apply (wpo_LockBalance_tidy m tn); split; [done|by eapply kept_money]| |done].
  cbv beta. intros [[d c] ver] s2 (Ht2 & (tb & Htb & Hv) & Hkeep). apply wp_ret. split; [done|].
  eapply holds_lock; [exact Hh| |exact Htb|done|by symmetry|done|done].
  intros pk tb' Htb'. apply Hkeep. by rewrite (kp_bal _ _ Hk1).
Qed.

Lemma wpo_lockKeys ks s :
  tidy s → wpo (foldM (lockKey tn) ks ∅) (λ st s', tidy s' ∧ holds (ti_tx s'.1) ks [] st) s.
Proof.
  intros Ht. apply (wp_foldM _ _ _ (λ pre st s', tidy s' ∧ holds (ti_tx s'.1) pre [] st)).
  - split; [done|]. intros k Hk. by apply elem_of_nil in Hk.
  - intros pre k post st s' _ [Ht' Hh]. by apply wpo_lockKey.
Qed.

(** ** The entries of a step *)

Lemma holds_post t1 ks es st e b :
  holds t1 ks es st → st !! entry_key e = Some b →
  holds t1 ks (es ++ [e]) (<[entry_key e := bumpBalance (en_Direction e) (en_Amount e) b]> st).
Proof.
  intros Hh Hb k Hk. destruct (Hh k Hk) as (b' & tb & Hb' & Htb & Hv & Ha & Hc).
  assert (E : add2 (tbl_val tb) (totals k (es ++ [e])) = add2 (bal_val b') (totals k [e])) by (by rewrite totals_app, <- add2_assoc, Hv).
  destruct (decide (entry_key e = k)) as [He|He].
  - subst k. rewrite Hb in Hb'. injection Hb' as <-. rewrite lookup_insert_eq. eexists _, tb. split; [done|].
    split; [done|]. rewrite E. split; [by apply bal_val_bump|]. unfold bumpBalance. by destruct (en_Direction e =s DirectionDebit).
  - rewrite lookup_insert_ne by done. exists b', tb. by rewrite E, totals_other, add2_zero.
Qed.

(** The journal [jid] is being filled with the entries [es]. *)
Record filling t1 (jid : string) g es s : Prop := {
  fl_sound : sound s;
  fl_fresh : fresh_id (journalPK tn jid) s;
  fl_same : same_balances t1 (ti_tx s.1);
  fl_journal : ∃ j, jr_TenantID j = tn ∧ jr_ID j = jid ∧ jr_Entries j = es ∧ has_journal g (journalPK tn jid) j (ti_tx s.1);
}.

Lemma wpo_postEntry t1 ks jid g es0 es e st s :
  filling t1 jid g es s → holds t1 ks es0 st → entry_key e ∈ ks →
  wpo (postEntry tn jid st e) (λ st' s', filling t1 jid g (es ++ [e]) s' ∧ holds t1 ks (es0 ++ [e]) st') s.
Proof.
  intros [Hs (i & Hi & Hlt) Hb (j & Ht & Hid & He & Hj)] Hh Hk. unfold postEntry.
  apply wp_bind. eapply wp_mono; [apply wp_conj; [apply wpo_quiet; [apply (frames_NewID _)|apply keeps_NewID|exact Hs]|apply (frames_NewID eq)]| |done].
  cbv beta. intros eid s1 [[Hs1 _] [_ Hle Heq]]. apply wp_bind.
  eapply wp_mono; [apply (wpo_InsertEntry _ _ _ _ _ jid g j); [exact Hs1| | |]| |done].
  - exists i. split; [done|lia].
  - by rewrite <- Heq.
  - by rewrite Ht, Hid.
  - cbv beta. intros _ s2 (Hs2 & He2 & Hb2 & Hj2). destruct (Hh _ Hk) as (b & tb & Hst & _). rewrite Hst. apply wp_ret.
    split; [|by apply holds_post]. split; [done|exists i; split; [done|lia]|rewrite Heq in Hb; by etransitivity|].
    eexists. split_and!; [| | |exact Hj2]; simpl; [done..|]. rewrite He. by destruct e.
Qed.

Lemma wpo_postEntries t1 ks jid g es0 es st s :
  filling t1 jid g [] s → holds t1 ks es0 st → (∀ e, e ∈ es → entry_key e ∈ ks) →
  wpo (foldM (postEntry tn jid) es st) (λ st' s', filling t1 jid g es s' ∧ holds t1 ks (es0 ++ es) st') s.
Proof.
  intros Hf Hh Hks. apply (wp_foldM _ _ _ (λ pre st' s', filling t1 jid g pre s' ∧ holds t1 ks (es0 ++ pre) st')).
  - by rewrite app_nil_r.
  - intros pre e post st' s' -> [Hf' Hh']. eapply wp_mono; [apply wpo_postEntry; [done|exact Hh'|apply Hks; set_solver]| |done].
    cbv beta. intros st2 s2 [Hf2 Hh2]. by rewrite app_assoc.
Qed.

(** ** The steps of a flow *)

(** A new id names a journal that the buffer does not have. *)
Lemma new_journal s : sound s → buffered (ti_tx s.1) !! journalPK tn (host_newid (e_ids s.2)) = None.
Proof.
  intros Hs. apply eq_None_not_Some. intros (i & Hi & Hlt)%(so_ids _ _ _ Hs).
  assert (E : host_newid (e_ids s.2) = host_newid i) by (unfold journalPK in Hi; by simplify_eq). apply Hids in E. lia.
Qed.

(** The full journal joins the posted ones. *)
Lemma filled_posting t1 jid g es0 es s j0 u :
  g !! journalPK tn jid = None → (∀ pk, posted_at pk g = add2 (posted_at pk (buffered t1)) (en_at pk es0)) →
  map_Forall (λ _ j, journal_balanced j) g → Journal_Validate j0 = Ok u → jr_Entries j0 = es →
  filling t1 jid g es s → posting t1 (es0 ++ es) s.
Proof.
  intros Hg Hp HF Hval He0 [Hs _ Hb (j & Ht & Hid & He & _ & Hbuf)]. split; [done..| |].
  - intros pk. rewrite Hbuf, posted_at_insert, lines_journal, He, Hp, en_at_app by done. by rewrite add2_comm, add2_assoc.
  - rewrite Hbuf. apply map_Forall_insert_2; [|done]. eapply valid_balanced; [exact Hval|congruence].
Qed.

Lemma wpo_applyStep r run meta t1 ks es0 st results x s :
  ef_TenantId r = tn → posting t1 es0 s → holds t1 ks es0 st → (∀ e, e ∈ step_entries x → entry_key e ∈ ks) →
  wpo (applyStep r run meta (st, results) x) (λ acc s',
    posting t1 (es0 ++ step_entries x) s' ∧ holds t1 ks (es0 ++ step_entries x) acc.1) s.
Proof.
  intros Hr [Hs Hb Hp HF] Hh Hks. unfold applyStep. rewrite Hr. destruct (Journal_Validate (si_Journal x)) as [u|] eqn:Hval; [|done].
  set (jid := host_newid (e_ids s.2)). assert (Hnew := new_journal s Hs). fold jid in Hnew.
  apply wp_bind. eapply wp_mono; [apply wp_conj; [apply wpo_quiet; [apply (frames_NewID _)|apply keeps_NewID|exact Hs]|
    apply (wpo_intro _ (λ id s', id = jid ∧ s'.2 = mkEnv (Datatypes.S (e_ids s.2)) (e_now s.2) (e_db s.2) ∧ ti_tx s'.1 = ti_tx s.1))]| |done]; [|cbv beta].
  { destruct s as [x0 e0]. unfold NewID. intros id s' [= <- <-]. done. }
  intros id s1 [[Hs1 _] (-> & He1 & Htx1)]. apply wp_bind.
  eapply wp_mono; [apply wp_conj; [apply wpo_quiet; [apply (frames_Now _)|apply keeps_Now|exact Hs1]|apply (frames_Now eq)]| |done].
  cbv beta. intros now s2 [[Hs2 _] [_ He2 Htx2]]. rewrite He1 in He2. simpl in He2.
  assert (Hfresh : fresh_id (journalPK tn jid) s2) by (exists (e_ids s.2); split; [done|lia]).
  apply wp_bind. eapply wp_mono; [by apply wpo_InsertJournal| |done]. cbv beta. cbn [jr_TenantID jr_ID].
  intros _ s3 (Hs3 & He3 & Hb3 & Hj3). rewrite <- Htx2, Htx1 in Hb3, Hj3.
  apply wp_bind. eapply wp_mono; [apply (wpo_postEntries t1 ks jid (buffered (ti_tx s.1)) es0); [|exact Hh|exact Hks]| |done].
  { split; [done|exists (e_ids s.2); split; [done|lia]|by etransitivity|]. eexists. by split_and!; [| | |exact Hj3]. }
  cbv beta. intros st' s4 [Hf4 Hh4]. assert (H4 : posting t1 (es0 ++ step_entries x) s4).
  { by eapply filled_posting; [exact Hnew|exact Hp|exact HF|exact Hval| |exact Hf4]. }
  apply wp_bind. eapply wp_mono; [apply (posting_quiet _ t1 _ _ (frames_NewID _) (keeps_NewID _) H4)| |done]. cbv beta. intros id5 s5 H5.
  apply wp_bind. eapply wp_mono; [apply (posting_quiet _ t1 _ _ (frames_Now _) (keeps_Now _) H5)| |done]. cbv beta. intros n6 s6 H6.
  apply wp_bind. eapply wp_mono; [apply (posting_quiet _ t1 _ _ (quiet_InsertFlowStep _) (keeps_InsertFlowStep _ _) H6)| |done]. cbv beta. intros _ s7 H7.
  apply wp_bind. eapply wp_mono; [apply (posting_quiet _ t1 _ _ (frames_NewID _) (keeps_NewID _) H7)| |done]. cbv beta. intros id8 s8 H8.
  apply wp_bind. eapply wp_mono; [apply (posting_quiet _ t1 _ _ (frames_Now _) (keeps_Now _) H8)| |done]. cbv beta. intros n9 s9 H9.
  apply wp_bind. eapply wp_mono; [apply (posting_quiet _ t1 _ _ (quiet_InsertOutbox _) (keeps_InsertOutbox _ _) H9)| |done]. cbv beta. intros _ s10 H10.
  by apply wp_ret.
Qed.

Lemma wpo_applySteps r run meta t1 ks steps st s :
  ef_TenantId r = tn → posting t1 [] s → holds t1 ks [] st → (∀ e, e ∈ steps ≫= step_entries → entry_key e ∈ ks) →
  wpo (foldM (applyStep r run meta) steps (st, [])) (λ acc s',
    posting t1 (steps ≫= step_entries) s' ∧ holds t1 ks (steps ≫= step_entries) acc.1) s.
Proof.
  intros Hr Hp Hh Hks. apply (wp_foldM _ _ _ (λ pre acc s', posting t1 (pre ≫= step_entries) s' ∧ holds t1 ks (pre ≫= step_entries) acc.1)).
  - done.
  - intros pre x post [st' res] s' -> [Hp' Hh']. eapply wp_mono; [apply wpo_applyStep; [done|exact Hp'|exact Hh'|]| |done].
    + intros e He. apply Hks, list_elem_of_bind. exists x. set_solver.
    + cbv beta. intros acc s2 [H2 Hh2]. rewrite bind_app. simpl. by rewrite app_nil_r.
Qed.

(** ** Settling the balances *)

(** The balances of [done] are credited with [es]; the others are as in [t1]. *)
Record closing t1 es (done : list key) s : Prop := {
  cl_sound : sound s;
  cl_posted : ∀ pk, posted_at pk (buffered (ti_tx s.1)) = add2 (posted_at pk (buffered t1)) (en_at pk es);
  cl_journals : map_Forall (λ _ j, journal_balanced j) (buffered (ti_tx s.1));
  cl_done : ∀ k, k ∈ done → ∃ tb d c pp it, tx_balances t1 !! pkof k = Some tb ∧
    tx_balances (ti_tx s.1) !! pkof k = Some (mkTxBalance d c (tbl_readVersion tb) (tbl_existed tb)) ∧
    (val d, val c) = add2 (tbl_val tb) (totals k es) ∧
    tx_puts (ti_tx s.1) !! pkof k = Some pp ∧ pp_item pp = ItBalance it ∧ amounts it = (val d, val c) ∧ backed m it;
  cl_rest : ∀ pk, (∀ k, k ∈ done → pkof k ≠ pk) → tx_balances (ti_tx s.1) !! pk = tx_balances t1 !! pk ∧
    (starts "BAL#" pk = true → tx_puts (ti_tx s.1) !! pk = tx_puts t1 !! pk);
}.

Lemma posting_closing t1 es s : posting t1 es s → closing t1 es [] s.
Proof.
  intros [Hs [Hb Hp] Hpo Hj]. split; [done..| |].
  - intros k Hk. by apply elem_of_nil in Hk.
  - intros pk _. split; [by rewrite Hb|by apply Hp].
Qed.

(** A put of a balance leaves the journals alone. *)
Lemma buffered_put_balance t t' pk pp it :
  buffer_ok t → starts "BAL#" pk = true → pp_item pp = ItBalance it →
  tx_puts t' = <[pk := pp]> (tx_puts t) → buffered t' = buffered t.
Proof.
  intros Hok Hpk Hi Hp. unfold buffered. rewrite Hp, omap_insert. unfold compose at 1. rewrite Hi. simpl.
  apply delete_id. rewrite lookup_omap. destruct (tx_puts t !! pk) as [p0|] eqn:Hp0; [|done]. simpl.
  destruct (bo_put _ Hok _ _ Hp0) as [Ht _]. pose proof (item_typed_journal _ _ Ht) as Hj. unfold compose.
  destruct (pp_item p0) eqn:E; try done. exfalso. apply starts_inv in Hpk as [r ->]. destruct Hj as [_ Hj]. by discriminate (Hj (ex_intro _ _ eq_refl)).
Qed.

Lemma overdraft_backed k b it d c :
  account_seen m tn k.1 (bal_acct b) → acc_Currency (bal_acct b) = k.2 →
  negb (acc_AllowNegative (bal_acct b)) && IsNegative (NormalizedBalance (acc_NormalBalance (bal_acct b)) d c) = false →
  bi_TenantID it = tn → bi_AccountID it = k.1 → bi_Currency it = k.2 → amounts it = (val d, val c) → backed m it.
Proof.
  intros (ia & Hia & Hacc) Hc Hf Ht Ha Hcur Ham. exists ia. rewrite Ht, Ha, Hcur, Ham. split; [done|].
  unfold accountFromItem, mbind, result_bind in Hacc. destruct (parseTime _); [|done]. injection Hacc as E.
  rewrite <- E in *. cbn in Hc, Hf. split; [done|]. intros Hneg. rewrite Hneg in Hf. cbn in Hf.
  rewrite IsNegative_spec, val_NormalizedBalance in Hf. apply bool_decide_eq_false in Hf. by apply Qcnot_lt_le.
Qed.

Lemma wpo_settleKey t1 ks es (done : list key) st k s :
  apart ks → closing t1 es done s → holds t1 ks es st → (∀ k', k' ∈ done → k' ∈ ks) → k ∈ ks → k ∉ done →
  wpo (settleKey tn st tt k) (λ _ s', closing t1 es (done ++ [k]) s') s.
Proof.
  intros Hap [Hs Hp Hj Hd Hr] Hh Hsub Hk Hnew. unfold settleKey.
  destruct (Hh k Hk) as (b & tb & -> & Htb & Hv & Ha & Hc). apply wp_bind, wp_throw_if; [done|]. intros Hf.
  assert (Hne : ∀ k', k' ∈ done → pkof k' ≠ pkof k) by (intros k' Hk' E; apply Hap in E; [by subst|by apply Hsub|done]).
  assert (Htb' : tx_balances (ti_tx s.1) !! balancePK tn k.1 k.2 = Some tb) by (rewrite <- Htb; by apply Hr).
  eapply wp_mono; [apply wp_conj; [by apply (keeps_UpdateBalance md_any), Hs|by apply wpo_UpdateBalance_loaded]| |done].
  cbv beta zeta. intros _ s' [[Hg _] [[Fw Fi _] (it & pp & Hbt & Hba & Hbc & Ham & Hpi & Ep & Eb & _)]]. cbn [fst snd ti_world] in *.
  change (balancePK tn k.1 k.2) with (pkof k) in *. assert (Hpre : starts "BAL#" (pkof k) = true) by apply (starts_app "BAL#").
  assert (Ebuf : buffered (ti_tx s'.1) = buffered (ti_tx s.1)) by (eapply buffered_put_balance; [apply Hs|exact Hpre|done..]).
  split; rewrite ?Ebuf; [|done..| |].
  - destruct Hs as [_ Hw Hi Hacc]. split; [done|by rewrite Fw| |].
    + intros k0. rewrite Ebuf. intros (i & Hi0 & Hlt)%Hi. exists i. split; [done|lia].
    + intros k0 Hk0. rewrite Ep, lookup_insert_ne; [by apply Hacc|]. by intros <-.
  - intros k' [Hk'| ->%list_elem_of_singleton]%elem_of_app; rewrite Eb, Ep.
    + rewrite !lookup_insert_ne by (by intros E; eapply Hne). by apply Hd.
    + exists tb, (bal_debits b), (bal_credits b), pp, it. rewrite !lookup_insert_eq. split_and!; try done.
      by eapply overdraft_backed.
  - intros pk Hpk. rewrite Eb, Ep. assert (pkof k ≠ pk) by (apply Hpk; set_solver).
    rewrite !lookup_insert_ne by done. apply Hr. intros k' Hk'. apply Hpk. set_solver.
Qed.

Lemma wpo_settleKeys t1 ks es st s :
  apart ks → NoDup ks → closing t1 es [] s → holds t1 ks es st →
  wpo (foldM (settleKey tn st) ks tt) (λ _ s', closing t1 es ks s') s.
Proof.
  intros Hap Hnd Hc Hh. apply (wp_foldM _ _ _ (λ pre _ s', closing t1 es pre s')); [done|].
  intros pre k post [] s' -> Hc'. apply list.NoDup_app in Hnd as (_ & Hdis & _).
  eapply wpo_settleKey; [exact Hap|done|exact Hh|set_solver|set_solver|]. intros Hk. apply (Hdis _ Hk). by left.
Qed.

(** Settled, the buffer owes nothing. *)
Lemma closing_money t1 es ks s :
  apart ks → (∀ e, e ∈ es → entry_key e ∈ ks) → money_ok m t1 → closing t1 es ks s → money_ok m (ti_tx s.1).
Proof.
  intros Hap Hks [Mb Mc Mp _] [Hs Hp Hj Hd Hr].
  assert (Hcase : ∀ pk, (∃ k, k ∈ ks ∧ pkof k = pk) ∨ ∀ k, k ∈ ks → pkof k ≠ pk).
  { intros pk. destruct (decide (Exists (λ k, pkof k = pk) ks)) as [He|Hn]; [left|right].
    - by apply list.Exists_exists in He.
    - intros k Hk E. apply Hn, list.Exists_exists. by exists k. }
  split; [| | |done].
  - intros pk b Hb Hm. rewrite Hp. destruct (Hcase pk) as [(k & Hk & <-)|Hno].
    + destruct (Hd k Hk) as (tb & d & c & pp & it & Htb & Htb' & Hv & _). rewrite Htb' in Hb. injection Hb as <-.
      unfold tbl_val at 1; cbn. rewrite Hv, (Mb _ _ Htb) by done. by rewrite add2_assoc, (en_at_key ks).
    + destruct (Hr pk Hno) as [E _]. rewrite E in Hb. rewrite (en_at_other ks), add2_zero by done. by apply Mb.
  - intros pk Hpk Hn. rewrite Hp. destruct (Hcase pk) as [(k & Hk & <-)|Hno].
    + destruct (Hd k Hk) as (tb & d & c & pp & it & _ & _ & _ & Hpp & _). congruence.
    + destruct (Hr pk Hno) as [_ E]. rewrite E in Hn by done. by rewrite (en_at_other ks), add2_zero, Mc.
  - intros pk pp Hpp Hpk. destruct (Hcase pk) as [(k & Hk & <-)|Hno].
    + destruct (Hd k Hk) as (tb & d & c & pp' & it & _ & Htb' & _ & Hpp' & Hi & Ham & Hbk). rewrite Hpp in Hpp'. injection Hpp' as <-.
      by eexists _, it.
    + destruct (Hr pk Hno) as [Eb Ep]. rewrite Ep in Hpp by done. unfold put_right. rewrite Eb. by apply Mp.
Qed.

(** ** The flow *)

(** A flow that has locked its balances has seen their accounts. *)
Lemma holds_apart t1 ks es st : plain_currencies m → holds t1 ks es st → apart ks.
Proof.
  intros Hm Hh.
  assert (Hk : ∀ k, k ∈ ks → has_hash k.2 = false).
  { intros k Hk. destruct (Hh k Hk) as (b & tb & _ & _ & _ & (it & Hit & Hacc) & <-). rewrite <- (Hm _ _ Hit).
    unfold accountFromItem, mbind, result_bind in Hacc. destruct (parseTime _); [|done]. by injection Hacc as <-. }
  intros k k' Hin Hin' E. unfold pkof, balancePK in E.
  apply (inj (String.append "BAL#")), (inj (String.append tn)) in E. injection E as E.
  apply last_hash in E as [E1 E2]; [|by apply Hk..]. destruct k, k'; simpl in *; congruence.
Qed.

Lemma wpo_runNewFlow_books r steps s :
  plain_currencies m → ef_TenantId r = tn → tidy s → wpo (runNewFlow r steps) (λ _ s', tidy s') s.
Proof.
  intros Hpl Hr Ht. set (ks := orderedKeys steps) in *.
  assert (Hks : ∀ e, e ∈ steps ≫= step_entries → entry_key e ∈ ks) by (intros e He; apply elem_of_orderedKeys; by eexists).
  unfold runNewFlow. rewrite Hr. fold ks.
  apply wp_bind. eapply wp_mono; [by apply (tidies_quiet m tn _ (frames_NewID _) (keeps_NewID _))| |done]. cbv beta. intros run s1 H1.
  apply wp_bind. eapply wp_mono; [by apply (tidies_quiet m tn _ (frames_Now _) (keeps_Now _))| |done]. cbv beta. intros now s2 H2.
  apply wp_bind. eapply wp_mono; [by apply (tidies_quiet m tn _ (quiet_InsertFlowRun _) (keeps_InsertFlowRun _ _))| |done]. cbv beta. intros _ s3 H3.
  apply wp_bind. eapply wp_mono; [by apply wpo_lockKeys| |done]. cbv beta. intros st s4 [[Hs4 Hmo4] Hh4].
  pose proof (holds_apart _ _ _ _ Hpl Hh4) as Hap.
  apply wp_bind. eapply wp_mono; [apply (wpo_applySteps r run _ (ti_tx s4.1) ks); [done| |exact Hh4|exact Hks]| |done].
  { split; [done..| |apply Hmo4]. intros pk. by rewrite en_at_nil, add2_zero. }
  cbv beta. intros [st' results] s5 [H5 Hh5].
  apply wp_bind. eapply wp_mono; [apply (wpo_settleKeys (ti_tx s4.1)); [done|apply NoDup_orderedKeys|by apply posting_closing|exact Hh5]| |done].
  cbv beta. intros _ s6 H6. assert (Ht6 : tidy s6) by (split; [apply H6|by eapply closing_money]).
  apply wp_bind. eapply wp_mono; [by apply (tidies_quiet m tn _ (quiet_CompleteFlowRun _ _) (keeps_CompleteFlowRun _ _ _))| |done].
  cbv beta. intros _ s7 H7. by apply wp_ret.
Qed.

Lemma tidies_executeFlow r : plain_currencies m → ef_TenantId r = tn → tidies m tn (executeFlowInTx r).
Proof.
  intros Hpl Hr s Ht. unfold executeFlowInTx. apply wp_bind, wp_lift; [|done]. intros steps Hsteps.
  apply wp_bind. eapply wp_mono; [by apply (tidies_quiet m tn _ (quiet_GetFlowByIdempotency _ _)); [by apply keeps_GetFlowByIdempotency|]| |done].
  cbv beta. intros [f|] s1 H1; [|by apply wpo_runNewFlow_books].
  apply wp_bind, wp_throw_if; [done|]. intros _. apply wp_bind.
  eapply wp_mono; [by apply (tidies_quiet m tn _ (quiet_GetFlowSteps _ _)); [by apply keeps_GetFlowSteps|]| |done].
  cbv beta. intros steps' s2 H2. by apply wp_ret.
Qed.
End Post.
