(* ===== verification/DynamoHistory.v ===== *)
(** * The DynamoDB backend: clients that commit at the same time

    [TxReq] lists the transactions of the service.  A [history] of the table
    grows by one commit at a time; a transaction may have started at any
    earlier moment, and each of its reads sees the table of some moment since.
    Every table of a history keeps its books ([dynamo_keeps_books]). *)

From S2P Require Import Prelude Money Ledger Repo Contract Service Flow FlowLaws Accounts Reservations Exchange Recon Worker System.
From S2P Require Import Rfc3339 DynamoItems Dynamo DynamoLaws DynamoOps DynamoCommit DynamoBooks DynamoMoney DynamoPost.
From stdpp Require Import base gmap strings list numbers.

(** ** The transactions of the service *)

Section Transactions.
Context {H : Host} {D : DecimalOps} {L : DecimalLaws D} {S : Type} {DB : DynamoDB S}.
Abbreviation TxM A := (M error (TxIn (S:=S) * Env) A).

Inductive TxReq :=
| TxAccount (a : Account)
| TxFlow (r : ExecuteFlowRequest)
| TxReserve (r : CreateReservationRequest) (amount : dec)
| TxCommit (r : CommitReservationRequest) (amount : dec)
| TxRelease (r : ReleaseReservationRequest) (amount : dec)
| TxExpire (tenant id : string)
| TxExchange (r : ExecuteExchangeRequest) (fromAmount toAmount : dec) (fromAcc toAcc : Account) (rate : dec) (src : string)
| TxReconcile (r : RunReconciliationRequest) (ws we : Time)
| TxResolve (r : ResolveDiscrepancyRequest).

(** The body a handler runs in its transaction, answer dropped. *)
Definition tx_body (q : TxReq) : TxM unit :=
  match q with
  | TxAccount a => tx_InsertAccount a
  | TxFlow r => executeFlowInTx r;; mret tt
  | TxReserve r amount => createReservationInTx r amount;; mret tt
  | TxCommit r amount => commitReservationInTx r amount;; mret tt
  | TxRelease r amount => releaseReservationInTx r amount;; mret tt
  | TxExpire tenant id => expireReservationInTx tenant id
  | TxExchange r a b c d e f => exchangeInTx r a b c d e f;; mret tt
  | TxReconcile r ws we => runReconciliationInTx r ws we;; mret tt
  | TxResolve r => resolveDiscrepancyInTx r;; mret tt
  end.

Definition tx_tenant (q : TxReq) : string :=
  match q with
  | TxAccount a => acc_TenantID a
  | TxFlow r => ef_TenantId r
  | TxReserve r _ => cr_TenantId r
  | TxCommit r _ => cm_TenantId r
  | TxRelease r _ => rl_TenantId r
  | TxExpire tenant _ => tenant
  | TxExchange r _ _ _ _ _ _ => ex_TenantId r
  | TxReconcile r _ _ => rr_TenantId r
  | TxResolve r => rd_TenantId r
  end.

(** An account is made in a currency without a [#]; what is reserved,
    committed or released is positive. *)
Definition tx_fit (q : TxReq) : Prop :=
  match q with
  | TxAccount a => has_hash (acc_Currency a) = false
  | TxReserve _ a | TxCommit _ a | TxRelease _ a => amount_pos a
  | _ => True
  end.
End Transactions.

(** ** Every transaction leaves a tidy buffer *)

(** Walks a body down to the operations of the interface. *)
Ltac tidy_up :=
  repeat lazymatch goal with
  | |- tidies _ _ (_ ≫= _) => apply tidies_bind; [|intros ?]
  | |- tidies _ _ (executeFlowInTx _) => by apply tidies_executeFlow
  | |- tidies _ _ (let '(_, _) := ?y in _) => destruct y
  | |- tidies _ _ (match ?y with _ => _ end) => destruct y
  | |- tidies _ _ (mret _) => apply tidies_quiet; [apply (frames_ret _)|keep]
  | |- tidies _ _ (throw _) => apply tidies_quiet; [apply (frames_throw _)|keep]
  | |- tidies _ _ (throw_if _ _) => apply tidies_quiet; [apply (frames_throw_if _)|keep]
  | |- tidies _ _ NewID => apply tidies_quiet; [apply (frames_NewID _)|keep]
  | |- tidies _ _ Now => apply tidies_quiet; [apply (frames_Now _)|keep]
  | |- tidies _ _ (tx_GetAccount _ _) => apply tidies_quiet; [apply quiet_GetAccount|keep]
  | |- tidies _ _ (tx_InsertOutbox _) => apply tidies_quiet; [apply quiet_InsertOutbox|keep]
  | |- tidies _ _ (tx_LockReservation _ _) => apply tidies_quiet; [apply quiet_LockReservation|keep]
  | |- tidies _ _ (tx_UpdateReservationAmounts _ _ _ _ _ _) => apply tidies_quiet; [apply quiet_UpdateReservationAmounts|keep]
  end.

Section Tidy.
Context {H : Host} {D : DecimalOps} {L : DecimalLaws D} {S : Type} {DB : DynamoDB S} {DL : DynamoLaws S DB}.
Context (Hids : Inj (=) (=) host_newid) (m : gmap string Item) (Hpl : plain_currencies m).
Abbreviation TxM A := (M error (TxIn (S:=S) * Env) A).
Implicit Types (s : TxIn (S:=S) * Env).

Lemma tidies_commitReservation r amount : tidies m (cm_TenantId r) (commitReservationInTx r amount).
Proof. unfold commitReservationInTx, saveReservation. cbv zeta. tidy_up. Qed.
Lemma tidies_releaseReservation r amount : tidies m (rl_TenantId r) (releaseReservationInTx r amount).
Proof. unfold releaseReservationInTx, saveReservation. cbv zeta. tidy_up. Qed.
Lemma tidies_expireReservation (tn id : string) : tidies m tn (expireReservationInTx tn id).
Proof. unfold expireReservationInTx, saveReservation. cbv zeta. tidy_up. Qed.
Lemma tidies_exchange r (a b : dec) (c d : Account) (e : dec) (f : string) : tidies m (ex_TenantId r) (exchangeInTx r a b c d e f).
Proof. unfold exchangeInTx. tidy_up. Qed.

(** The accounts a buffer creates have a currency without a [#]. *)
Definition plain_puts (t : Tx) : Prop :=
  ∀ k pp a, tx_puts t !! k = Some pp → pp_item pp = ItAccount a → has_hash (ai_Currency a) = false.

(** A commit of this buffer keeps the books. *)
Definition solvent s : Prop := good s.1 ∧ money_ok m (ti_tx s.1) ∧ plain_puts (ti_tx s.1).
Lemma tidy_solvent (tn : string) s : tidy m tn s → solvent s.
Proof.
  intros [[Hg _ _ Ha] Hm]. split_and!; [done..|]. intros k pp a Hpp Hi. exfalso.
  destruct (bo_put _ (proj2 Hg) _ _ Hpp) as [[Hpk Hk] _]. rewrite Hi in *. simpl in *. rewrite Ha in Hpp; [done|].
  rewrite <- Hpk, Hk. apply (starts_app "ACC#").
Qed.

Lemma wpo_framed {A} (body : TxM A) (tn : string) s :
  tidy m tn s → frames same_money body → wpo body (λ _ s', ∃ s1, tidy m tn s1 ∧ framed same_money s1 s') s.
Proof. intros Ht Hf. eapply wp_mono; [apply Hf| |done]. cbv beta. intros a s' Hs. by exists s. Qed.

(** The only transaction whose reservation is new; the flow is done then. *)
Lemma wpo_createReservation_solvent r amount s :
  (∀ k, starts "RES#" k = true → tx_puts (ti_tx s.1) !! k = None) → tidy m (cr_TenantId r) s →
  wpo (createReservationInTx r amount) (λ _ s', solvent s') s.
Proof.
  intros Hn Ht. eapply wp_mono; [apply wp_conj; [apply wpo_createReservation; [apply Ht|done]|]|cbv beta|done].
  - instantiate (1 := λ _ _, True). instantiate (1 := λ _ s', ∃ s1, tidy m (cr_TenantId r) s1 ∧ framed same_money s1 s').
    unfold createReservationInTx. apply wp_bind.
    eapply wp_mono; [apply (tidies_quiet m (cr_TenantId r)); [apply quiet_GetReservationByIdempotency|by apply keeps_GetReservationByIdempotency|exact Ht]| |done].
    cbv beta. intros [res|] s1 H1; [apply wp_ret; exists s1; split; [done|by split]|]. apply wp_bind.
    eapply wp_mono; [by apply (tidies_executeFlow m (cr_TenantId r))| |done].
    cbv beta. intros resp s2 H2. apply wpo_framed; [exact H2|]. cbv zeta.
    repeat first [apply quiet_InsertReservation | apply quiet_InsertOutbox | apply (frames_NewID _) | apply (frames_Now _)
      | apply (frames_ret _) | apply (frames_bind _); [|intros ?]].
  - intros res s' [[Hg _] (s1 & [Hs1 Hm1] & Hf)]. destruct (framed_sound _ _ _ _ Hs1 Hg Hf) as [Hs' Hkp].
    eapply tidy_solvent. split; [exact Hs'|by eapply kept_money].
Qed.

(** A buffer of rows that hold no money. *)
Lemma money_plain (t : Tx) :
  tx_balances t = ∅ → (∀ k, starts "BAL#" k = true ∨ starts "JRN#" k = true → tx_puts t !! k = None) → buffer_ok t →
  money_ok m t.
Proof.
  intros Hb Hp Hok. assert (Hbuf : buffered t = ∅).
  { apply map_empty. intros k. apply eq_None_not_Some. intros [j (pp & Hpp & Hj)%lookup_buffered].
    destruct (bo_put _ Hok _ _ Hpp) as [Ht _]. rewrite Hp in Hpp; [done|]. right. apply (item_typed_journal _ _ Ht). by exists j. }
  split; rewrite ?Hb, ?Hbuf.
  - by intros pk b ?%lookup_empty_Some.
  - done.
  - intros pk pp Hpp Hpk. rewrite Hp in Hpp by auto. done.
  - by intros k j ?%lookup_empty_Some.
Qed.

Lemma wpo_InsertAccount_solvent a w e :
  has_hash (acc_Currency a) = false → good (mkTxIn w [] newTx) → wpo (dy_InsertAccount a) (λ _ s', solvent s') (mkTxIn w [] newTx, e).
Proof.
  intros Ha Hg. eapply wp_mono; [apply wp_conj; [by apply (keeps_InsertAccount md_any)|]|cbv beta|done].
  - instantiate (1 := λ _ _, True). instantiate (1 := λ _ s', tx_balances (ti_tx s'.1) = ∅ ∧
      (∀ k, starts "BAL#" k = true ∨ starts "JRN#" k = true → tx_puts (ti_tx s'.1) !! k = None) ∧ plain_puts (ti_tx s'.1)).
    unfold dy_InsertAccount. cbv zeta. apply wp_bind, wpo_modTx_plain, wpo_modTx_plain. cbn [fst ti_tx]. split_and!.
    + unfold put_buffer at 1. by destruct (_ !! _).
    + intros k Hk. rewrite !put_buffer_at. rewrite !lookup_insert_ne; [done| |]; intros <-; by destruct Hk.
    + intros k pp b. rewrite !put_buffer_at.
      intros [[_ <-]|[_ [[_ <-]|[_ ?]]%lookup_insert_Some]]%lookup_insert_Some; [by destruct (_ !! _)| |done]. by intros [= <-].
  - intros _ s' [[Hg' _] (Hb & Hp & Hpp)]. split_and!; [done| |done]. apply money_plain; [done..|apply Hg'].
Qed.

(** Whatever its reads saw on the way to [m]. *)
Lemma wpo_tx_body q w e :
  world_ok w → (∀ n, rtc store_step (db_items (w n)) m) → tx_fit q →
  wpo (tx_body q) (λ _ s', solvent s') (mkTxIn w [] newTx, e).
Proof.
  intros Hw Hm Hq. assert (Hg : good (mkTxIn w [] newTx)) by (split; [done|apply newTx_ok]).
  assert (Ht : ∀ tn, tidy m tn (mkTxIn w [] newTx, e)).
  { intros tn. split; [|apply money_newTx]. split; [done|done| |]; simpl; intros *; rewrite ?lookup_empty; [by intros []|done]. }
  assert (Hdrop : ∀ A (body : TxM A), wpo body (λ _ s', solvent s') (mkTxIn w [] newTx, e) →
    wpo (body;; mret tt) (λ _ s', solvent s') (mkTxIn w [] newTx, e)).
  { intros A body Hb. apply wp_bind. eapply wp_mono; [exact Hb| |done]. done. }
  assert (Htidy : ∀ A tn (body : TxM A), tidies m tn body → wpo body (λ _ s', solvent s') (mkTxIn w [] newTx, e)).
  { intros A tn body Hb. eapply wp_mono; [by apply Hb| |done]. cbv beta. intros a s'. apply tidy_solvent. }
  destruct q; simpl.
  - by apply wpo_InsertAccount_solvent.
  - by apply Hdrop, (Htidy _ (ef_TenantId r)), tidies_executeFlow.
  - apply Hdrop, wpo_createReservation_solvent; [|done]. intros k _. apply lookup_empty.
  - eapply Hdrop, Htidy, tidies_commitReservation.
  - eapply Hdrop, Htidy, tidies_releaseReservation.
  - eapply Htidy, tidies_expireReservation.
  - eapply Hdrop, Htidy, tidies_exchange.
  - done.
  - done.
Qed.

End Tidy.

(** ** Histories *)

Section History.
Context {H : Host} {D : DecimalOps} {L : DecimalLaws D} {S : Type} {DB : DynamoDB S} {DL : DynamoLaws S DB}.
Implicit Types (h : list S) (st : S) (w : nat → S).

(** Read number [n] saw the table number [at_ n], counted from the newest;
    a later read saw the same or a newer one. *)
Definition reads_from h w : Prop :=
  ∃ at_ : nat → nat, (∀ n, at_ (n + 1) ≤ at_ n) ∧ ∀ n, h !! at_ n = Some (w n).

(** The tables of a run, newest first: an empty table, then publications of
    the dispatcher and commits, accepted or not, of transactions that may
    have started and read at any earlier moments. *)
Inductive history : list S → Prop :=
| history_start st : db_items st = ∅ → history [st]
| history_publish st h id e : history (st :: h) →
    history ((st_MarkOutboxPublished id (st, e)).2.1 :: st :: h)
| history_attempt st h id e : history (st :: h) →
    history ((st_IncrementOutboxAttempts id (st, e)).2.1 :: st :: h)
| history_commit st h q w e x e1 : history (st :: h) → tx_fit q → reads_from (st :: h) w →
    tx_body q (mkTxIn w [] newTx, e) = (Ok tt, (x, e1)) →
    history ((tx_Commit ((st, x), e1)).2.1.1 :: st :: h).

(** Later tables come from earlier ones by steps of the store. *)
Definition ordered h : Prop :=
  Forall (λ st, table_ok (db_items st)) h ∧
  ∀ i j st st', i ≤ j → h !! i = Some st → h !! j = Some st' → rtc store_step (db_items st') (db_items st).

Lemma ordered_cons st st' h :
  ordered (st :: h) → rtc store_step (db_items st) (db_items st') → ordered (st' :: st :: h).
Proof.
  intros [HF Hs] Hst. split.
  - constructor; [|done]. inversion HF; subst. by eapply store_steps_ok.
  - intros [|i] [|j] a b Hij Ha Hb; simpl in *; [by simplify_eq|..|by eapply (Hs i j); [lia|..]].
    + simplify_eq. etransitivity; [by apply (Hs 0 j st b); [lia|..]|done].
    + lia.
Qed.

Lemma ordered_reads h st w : ordered (st :: h) → reads_from (st :: h) w → world_ok w ∧ ∀ n, rtc store_step (db_items (w n)) (db_items st).
Proof.
  intros [HF Hs] (at_ & Hle & Hat). split; [split|].
  - rewrite list.Forall_forall in HF. eapply HF, list_elem_of_lookup_2, Hat.
  - intros n. eapply Hs; [apply (Hle n)|apply Hat..].
  - intros n. eapply (Hs 0); [lia|done|apply Hat].
Qed.

(** What every table of a history keeps. *)
Definition books_ok (m : gmap string Item) : Prop := dy_ledger_ok m ∧ plain_currencies m.

Lemma books_empty : books_ok ∅.
Proof.
  split; [split|by intros k a ?%lookup_empty_Some].
  - intros pk _. unfold balance_at. by rewrite lookup_empty.
  - by intros k j ?%lookup_empty_Some.
  - by intros k it ?%lookup_empty_Some.
Qed.

(** A commit, whatever it answers. *)
Lemma written_books (m : gmap string Item) (t : Tx) :
  buffer_ok t → table_ok m → conds_hold t m → money_ok m t → plain_puts t → books_ok m → books_ok (written t m).
Proof.
  intros Hok Hm Hc Hmo Hp [Hl Hpl]. split; [by apply written_ledger|]. intros k a Hk. unfold written in Hk.
  apply lookup_union_Some_raw in Hk as [Hk|[_ Hk]]; [|by eapply Hpl].
  rewrite lookup_fmap in Hk. destruct (tx_puts t !! k) as [pp|] eqn:Hpp; [|done]. injection Hk as Hk. by eapply Hp.
Qed.
Lemma commit_books st x e :
  table_ok (db_items st) → solvent (db_items st) (x, e) → books_ok (db_items st) →
  books_ok (db_items (dy_Commit ((st, x), e)).2.1.1).
Proof.
  intros Ht ([_ Hok] & Hm & Hp) Hl. cbn [fst] in *. pose proof (wp_Commit st x e Hok) as HC. unfold wp in HC.
  destruct (dy_Commit _) as [[[]|er] s']; cbn [fst snd] in *.
  - destruct HC as (_ & Hc & ->). by apply written_books.
  - destruct HC as [(_ & _ & ->)|[(c & _ & _ & ->)|(_ & [->|(_ & Hc & ->)])]]; [done..|]. by apply written_books.
Qed.

(** Publication moves no money. *)
Lemma update_books (m : gmap string Item) id u i :
  table_ok m → m !! outboxPK id = Some i → books_ok m → books_ok (<[outboxPK id := update_item u i]> m).
Proof.
  intros Hm Hi [[Hb Hj Hf] Hpl]. set (k0 := outboxPK id) in *.
  assert (Hout : ∃ it it', i = ItOutbox it ∧ update_item u i = ItOutbox it').
  { destruct (Hm _ _ Hi) as [Ht _]. apply item_typed_outbox in Ht. rewrite (starts_app "OBX#" id : outbox_key k0 = true) in Ht.
    destruct i as [| | | |it| |]; try done. exists it. destruct u; by eexists. }
  destruct Hout as (it & it' & -> & ->).
  assert (Hother : ∀ k j, (∀ o, j ≠ ItOutbox o) → <[k0 := ItOutbox it']> m !! k = Some j ↔ m !! k = Some j).
  { intros k j Hno. rewrite lookup_insert_Some. split; [intros [[_ Hj0]|[_ Hk]]; [by destruct (Hno it')|done]|].
    intros Hk. right. split; [|done]. intros <-. rewrite Hi in Hk. injection Hk as Hk. by destruct (Hno it). }
  assert (Hjs : journals (<[k0 := ItOutbox it']> m) = journals m).
  { apply map_eq. intros k. apply option_eq. intros j. rewrite !lookup_journals. by apply Hother. }
  split; [split|intros k a Hk; apply Hother in Hk; [by eapply Hpl|done]].
  - intros pk Hpk. rewrite Hjs, <- Hb by done. unfold balance_at. rewrite lookup_insert_ne; [done|]. by intros <-.
  - intros k j Hk. apply Hother in Hk; [by eapply Hj|done].
  - intros k b Hk. apply Hother in Hk; [|done]. destruct (Hf _ _ Hk) as (a & Ha & Hrest). exists a.
    split; [|done]. by apply Hother.
Qed.

Lemma publish_books id (u : UpdateExpr) st e :
  table_ok (db_items st) → books_ok (db_items st) →
  rtc store_step (db_items st) (db_items (db_UpdateItem (outboxPK id) u (st, e)).2.1) ∧
  books_ok (db_items (db_UpdateItem (outboxPK id) u (st, e)).2.1).
Proof.
  intros Ht Hl. split; [exact (steps_UpdateItem id u (st, e) Ht)|].
  pose proof (law_UpdateItem (outboxPK id) u st e) as HU. destruct (db_UpdateItem _ _ _) as [[[]|er] [s' e']]; simpl in *.
  - destruct HU as (i & Hi & ->). by apply update_books.
  - destruct HU as [->|(i & Hi & ->)]; [done|by apply update_books].
Qed.

Context (Hids : Inj (=) (=) host_newid).

Lemma history_ok h : history h → ordered h ∧ Forall (λ st, books_ok (db_items st)) h.
Proof.
  induction 1 as [st Hst|st h id e _ [Ho Hl]|st h id e _ [Ho Hl]|st h q w e x e1 _ [Ho Hl] Hq Hreads Hrun].
  - split; [split|].
    + constructor; [|done]. rewrite Hst. apply map_Forall_empty.
    + intros [|i] [|j] a b _ Ha Hb; by simplify_eq/=.
    + constructor; [|done]. rewrite Hst. apply books_empty.
  - pose proof Ho as [HF _]. inversion HF as [|? ? Ht _]; inversion Hl as [|? ? Hlst _]; subst.
    destruct (publish_books id (RemoveGsi1SetPublished (fmtTime (host_now (e_now e)))) st (mkEnv (e_ids e) (Datatypes.S (e_now e)) (e_db e)) Ht Hlst).
    split; [by apply ordered_cons|by constructor].
  - pose proof Ho as [HF _]. inversion HF as [|? ? Ht _]; inversion Hl as [|? ? Hlst _]; subst.
    destruct (publish_books id (AddAttempts 1) st e Ht Hlst). split; [by apply ordered_cons|by constructor].
  - pose proof Ho as [HF _]. inversion HF as [|? ? Ht _]; inversion Hl as [|? ? Hlst _]; subst.
    destruct (ordered_reads _ _ _ Ho Hreads) as [Hw Hsteps].
    pose proof (wpo_tx_body Hids (db_items st) (proj2 Hlst) q w e Hw Hsteps Hq) as Hb. eapply wp_ok in Hb; [|exact Hrun]. split.
    + apply ordered_cons; [done|]. apply commit_steps, Hb.
    + constructor; [|done]. by apply commit_books.
Qed.

(** C6. Concurrency on DynamoDB: let any number of clients run flows,
    reservations, exchanges and account creations on an empty table at the
    same time, each read of a transaction seeing the table of any moment
    since its last one, its commit coming at any later moment and being
    accepted, refused or lost. As long as ids are not made twice and no
    account is created in a currency that holds a [#], every table reached keeps its books: each balance
    item is the total of the journal lines posted to it, each journal
    balances in each currency, and each balance belongs to an account of its
    currency that is not overdrawn unless it may be. *)
Theorem dynamo_keeps_books h st : history (st :: h) → dy_ledger_ok (db_items st).
Proof. intros Hh. apply history_ok in Hh as [_ Hl]. inversion Hl as [|? ? [Hb _]]; subst. done. Qed.
End History.

(** ** Served requests are histories *)

Section Served.
Context {H : Host} {D : DecimalOps} {L : DecimalLaws D} {S : Type} {DB : DynamoDB S} {DL : DynamoLaws S DB}.
Implicit Types (st : S) (h : list S).

(** [m] leaves a table of a longer history. *)
Definition runs {A} (m : M error (S * Env) A) : Prop := ∀ st h e,
  history (st :: h) → ∃ h', history ((m (st, e)).2.1 :: h').

Lemma runs_same {A} (m : M error (S * Env) A) : (∀ st e, (m (st, e)).2.1 = st) → runs m.
Proof. intros Hm st h e Hh. exists h. by rewrite Hm. Qed.
Lemma runs_bind {A B} (m : M error (S * Env) A) (f : A → M error (S * Env) B) : runs m → (∀ a, runs (f a)) → runs (m ≫= f).
Proof.
  intros Hm Hf st h e Hh. destruct (Hm st h e Hh) as [h1 H1]. unfold mbind, M_bind.
  destruct (m (st, e)) as [[a|er] [st1 e1]]; simpl in *; [by apply (Hf a st1 h1 e1)|by exists h1].
Qed.
Lemma runs_foldM {A B} (f : B → A → M error (S * Env) B) l b : (∀ b a, runs (f b a)) → runs (foldM f l b).
Proof. intros Hf. revert b. induction l as [|a l IH]; intros b; simpl; [by apply runs_same|]. by apply runs_bind. Qed.
Lemma runs_rpc {A} (m : M error (S * Env) A) : runs m → runs (rpc m).
Proof. intros Hm st h e Hh. destruct (Hm st h e Hh) as [h' H']. exists h'. unfold rpc. by destruct (m _) as [[]]. Qed.
Lemma runs_ignore {A} (m : M error (S * Env) A) : runs m → runs (ignore m).
Proof. intros Hm st h e Hh. by apply (Hm st h e). Qed.
Lemma runs_throw_if c e : runs (throw_if c e).
Proof. by apply runs_same; destruct c. Qed.
Lemma runs_amount {A} txt (f : dec → M error (S * Env) A) :
  (∀ a, amount_pos a → runs (f a)) → runs (parseReservationAmount txt ≫= f).
Proof.
  intros Hf st h e Hh. unfold mbind, M_bind, parseReservationAmount.
  destruct (ParseAmount txt) as [a|er] eqn:Ha; [|by exists h].
  by apply (Hf a (proj2 (ParseAmount_pos _ _ Ha)) st h).
Qed.
Lemma runs_parseFX txt : runs (parseFX (X:=S * Env) txt).
Proof. apply runs_same. intros st e. unfold parseFX. by destruct (ParseAmount txt). Qed.
Lemma runs_unmarshal {A} (o : option A) : runs (unmarshal o).
Proof. by apply runs_same; destruct o. Qed.
Lemma runs_GetItem k : runs (db_GetItem k).
Proof. apply runs_same. intros st e. by rewrite law_GetItem. Qed.
Lemma runs_Query ix hk b n : runs (db_Query ix hk b n).
Proof.
  apply runs_same. intros st e. pose proof (law_Query ix hk b n st e) as HQ.
  destruct (db_Query _ _ _ _ _) as [[l|er] [s' e']]; simpl; [by destruct HQ as [-> _]|done].
Qed.

(** The transaction of a handler, alone on its table. *)
Lemma commit_alone q st h e x e1 :
  history (st :: h) → tx_fit q → tx_body q (mkTxIn (λ _, st) [] newTx, e) = (Ok tt, (x, e1)) →
  history ((tx_Commit ((st, x), e1)).2.1.1 :: st :: h).
Proof. intros Hh Hq. apply history_commit; [done..|]. by exists (λ _, 0). Qed.

Definition body_of {A} (q : TxReq) (body : M error (TxIn (S:=S) * Env) A) : Prop :=
  ∀ s a s', body s = (Ok a, s') → tx_body q s = (Ok tt, s').
Lemma body_drop {A} q (body : M error (TxIn (S:=S) * Env) A) : tx_body q = (body;; mret tt) → body_of q body.
Proof. intros E s a s' Hb. rewrite E. unfold mbind, M_bind. by rewrite Hb. Qed.
Lemma body_unit q (body : M error (TxIn (S:=S) * Env) unit) : tx_body q = body → body_of q body.
Proof. intros <- s [] s' Hb. done. Qed.

Lemma runs_with_tx {A} q (body : M error (TxIn (S:=S) * Env) A) : body_of q body → tx_fit q → runs (with_tx body).
Proof.
  intros Hb Hq st h e Hh. unfold with_tx. cbn [st_BeginFlowTx DynamoStore dy_BeginFlowTx].
  destruct (body _) as [[a|er] [x e1]] eqn:Hr; [|by exists h]. apply Hb in Hr. pose proof (commit_alone q st h e x e1 Hh Hq Hr) as Hc.
  exists (st :: h). destruct (tx_Commit _) as [[[]|er] [[st' x'] e2]]; exact Hc.
Qed.
Lemma runs_runInTx q (body : M error (TxIn (S:=S) * Env) unit) : body_of q body → tx_fit q → runs (runInTx body).
Proof.
  intros Hb Hq st h e Hh. unfold runInTx. cbn [st_BeginFlowTx DynamoStore dy_BeginFlowTx].
  destruct (body _) as [[a|er] [x e1]] eqn:Hr; [|by exists h]. apply Hb in Hr. pose proof (commit_alone q st h e x e1 Hh Hq Hr) as Hc.
  exists (st :: h). destruct (tx_Commit _) as [[[]|er] [[st' x'] e2]]; exact Hc.
Qed.
End Served.

(** Walks a handler down to the operations of the store. *)
Ltac run :=
  repeat lazymatch goal with
  | |- runs (mret _) => by apply runs_same
  | |- runs (throw _) => by apply runs_same
  | |- runs (throw_if _ _) => apply runs_throw_if
  | |- runs (unmarshal _) => apply runs_unmarshal
  | |- runs (lift_result ?r) => apply runs_same; by destruct r
  | |- runs NewID => by apply runs_same
  | |- runs Now => by apply runs_same
  | |- runs errUnsupported => by apply runs_same
  | |- runs (rpc _) => apply runs_rpc
  | |- runs (ignore _) => apply runs_ignore
  | |- runs (parseFX _) => apply runs_parseFX
  | |- runs (db_GetItem _) => apply runs_GetItem
  | |- runs (db_Query _ _ _ _) => apply runs_Query
  | |- runs (with_tx (executeFlowInTx ?r)) => apply (runs_with_tx (TxFlow r)); [by apply body_drop|done]
  | |- runs (with_tx (createReservationInTx ?r ?a)) => apply (runs_with_tx (TxReserve r a)); [by apply body_drop|assumption]
  | |- runs (with_tx (commitReservationInTx ?r ?a)) => apply (runs_with_tx (TxCommit r a)); [by apply body_drop|assumption]
  | |- runs (with_tx (releaseReservationInTx ?r ?a)) => apply (runs_with_tx (TxRelease r a)); [by apply body_drop|assumption]
  | |- runs (with_tx (expireReservationInTx ?t ?i)) => apply (runs_with_tx (TxExpire t i)); [by apply body_unit|done]
  | |- runs (with_tx (exchangeInTx ?r ?a ?b ?c ?d ?e ?f)) => apply (runs_with_tx (TxExchange r a b c d e f)); [by apply body_drop|done]
  | |- runs (with_tx (runReconciliationInTx ?r ?a ?b)) => apply (runs_with_tx (TxReconcile r a b)); [by apply body_drop|done]
  | |- runs (with_tx (resolveDiscrepancyInTx ?r)) => apply (runs_with_tx (TxResolve r)); [by apply body_drop|done]
  | |- runs (runInTx (tx_InsertAccount ?a)) => apply (runs_runInTx (TxAccount a)); [by apply body_unit|assumption]
  | |- runs (parseReservationAmount _ ≫= _) => apply runs_amount; intros ? ?
  | |- runs (_ ≫= _) => apply runs_bind; [|intros ?]
  | |- runs (foldM _ _ _) => apply runs_foldM; intros ? ?
  | |- runs (let '(_, _) := ?x in _) => destruct x
  | |- runs (match ?x with _ => _ end) => destruct x
  end.

Section Handled.
Context {H : Host} {D : DecimalOps} {L : DecimalLaws D} {S : Type} {DB : DynamoDB S} {DL : DynamoLaws S DB}.
Implicit Types (st : S) (h : list S).

(** Accounts are created in currencies without a [#]. *)
Definition request_plain (q : request) : Prop :=
  match q with RqCreateAccount r => has_hash (ca_Currency r) = false | _ => True end.

Lemma runs_handle q st h e : request_plain q → history (st :: h) → ∃ h', history ((handle (st, e) q).1 :: h').
Proof.
  intros Hq Hh. destruct q; cbn [handle]; cbn [request_plain] in Hq;
    lazymatch goal with |- ∃ h', history ((?m _).2.1 :: h') => revert st h e Hh; change (runs m) end.
  all: unfold CreateAccount, GetAccount, GetBalance, balanceAsOf, TakeBalanceSnapshot, snapshotRow,
    ListAccountActivity, ExecuteFlow, PostJournal, ExecuteFlow, GetFlow, CreateReservation, CommitReservation,
    ReleaseReservation, GetReservation, ListReservations, PutFXRate, GetFXRate, ListFXRates, ExecuteExchange,
    resolveRate, IngestExternalRecords, ingestOne, RunReconciliation, ResolveDiscrepancy,
    GetReconciliationBatch, ListDiscrepancies, snapshotTick, snapshotTenant, expiryTick, expireOne,
    ExpireReservation, retentionTick, TakeBalanceSnapshot, snapshotRow.
  all: cbn [DynamoStore st_GetAccount st_GetBalance st_GetFlow st_ListAccountActivity
    st_InsertSnapshot st_GetSnapshotBefore st_SumEntriesBetween st_ListTenantBalances
    st_ListTenantsDueForSnapshot st_PruneSnapshotsOlderThan st_UpsertFXRate st_GetFXRateAt st_ListFXRates
    st_GetReservation st_ListExpiredReservations st_ListReservations st_InsertExternalRecord st_GetReconBatch st_ListDiscrepancies].
  all: unfold readAccount, readBalance, readFlow, dy_GetReservation, dy_ListExpiredReservations, expiredFromItem,
    dy_ListReservations, listedReservation.
  all: cbv zeta; run.
  - intros st h e Hh. exists (st :: h). by apply history_publish.
  - intros st h e Hh. exists (st :: h). by apply history_attempt.
Qed.

(** A table after any requests and ticks, one after the other. *)
Lemma served_history qs st h e : Forall request_plain qs → history (st :: h) → ∃ h', history ((foldl handle (st, e) qs).1 :: h').
Proof.
  intros Hqs. revert st h e. induction Hqs as [|q qs Hq _ IH]; intros st h e Hh; simpl; [by exists h|].
  destruct (runs_handle q st h e Hq Hh) as [h' H']. destruct (handle (st, e) q) as [st' e']. by eapply IH.
Qed.
End Handled.
