(* ===== verification/DynamoOnce.v ===== *)
(** * The DynamoDB backend: a flow happens once per key

    Clients may send the same flow at the same time.  At most one of them
    posts it ([dynamo_flow_once]): the marker of the idempotency key is put
    under the condition that it is new, and never removed. *)

From S2P Require Import Prelude Money Ledger Repo Contract Service Flow FlowLaws.
From S2P Require Import Rfc3339 DynamoItems Dynamo DynamoLaws DynamoOps DynamoCommit DynamoSerial DynamoBooks DynamoMoney.
From stdpp Require Import base gmap strings list numbers.

Section Once.
Context {H : Host} {D : DecimalOps} {S : Type} {DB : DynamoDB S} {DL : DynamoLaws S DB}.
Abbreviation TxM A := (M error (TxIn (S:=S) * Env) A).
Implicit Types (x : TxIn (S:=S)) (t : Tx) (s : TxIn (S:=S) * Env).

(** ** The marker and the row of a flow *)

(** The markers of the buffer stay, and so do the ids of its flows. *)
Definition keeps_ids t t' : Prop := ∀ k fs, tx_flows t !! k = Some fs →
  ∃ fs', tx_flows t' !! k = Some fs' ∧ fr_ID (fst_run fs') = fr_ID (fst_run fs).
Definition marks t t' : Prop := same_puts (starts "FIDEMP#") t t' ∧ keeps_ids t t'.
#[local] Instance marks_preorder : PreOrder marks.
Proof.
  split; [intros t; split; [done|by intros k fs Hk; exists fs]|]. intros t1 t2 t3 [P1 F1] [P2 F2]. split; [by etransitivity|].
  intros k fs Hk. destruct (F1 _ _ Hk) as (fs2 & H2 & E2). destruct (F2 _ _ H2) as (fs3 & H3 & E3). exists fs3. split; congruence.
Qed.
Abbreviation marked := (frames (S:=S) marks).

Lemma marks_put pk i c v : starts "FIDEMP#" pk = false → marked (put pk i c v).
Proof.
  intros Hk. apply (frames_modTx _). intros t. split.
  - intros k Hk'. rewrite put_buffer_at, lookup_insert_ne; [done|]. by intros ->; rewrite Hk in Hk'.
  - intros k fs Hfs. exists fs. unfold put_buffer. by destruct (tx_puts t !! pk).
Qed.
Lemma marks_modTx (f : Tx → Tx) : (∀ t, tx_puts (f t) = tx_puts t ∧ tx_flows (f t) = tx_flows t) → marked (modTx f).
Proof.
  intros Hf. apply (frames_modTx _). intros t. destruct (Hf t) as [Hp Hfl]. split; [intros k _; by rewrite Hp|].
  intros k fs Hfs. exists fs. by rewrite Hfl.
Qed.
Ltac mark := hush; try (apply marks_put; reflexivity); try (apply marks_modTx; by intros t).

Lemma marked_lockKey (tn : string) st k : marked (lockKey tn st k).
Proof.
  unfold lockKey. cbn [tx_GetAccount tx_LockBalance DynamoTx].
  unfold dy_GetAccount, readAccount, dy_LockBalance, loadBalance, readBalance. cbv zeta. mark.
Qed.
Lemma marked_settleKey (tn : string) st u k : marked (settleKey tn st u k).
Proof.
  unfold settleKey. cbn [tx_UpdateBalance DynamoTx]. unfold dy_UpdateBalance, loadBalance, readBalance. cbv zeta. mark.
Qed.

(** A flow of the overlay takes a new value and is put again. *)
Lemma wpo_reput pk fs fs' x e :
  tx_flows (ti_tx x) !! pk = Some fs → fr_ID (fst_run fs') = fr_ID (fst_run fs) → starts "FIDEMP#" pk = false →
  wpo (modTx (set_flow pk fs');; putFlow pk fs') (λ _ s', framed marks (x, e) s' ∧
    ∃ pp, tx_puts (ti_tx s'.1) !! pk = Some pp ∧ pp_item pp = ItFlow (flowToItem (fst_run fs') (fst_steps fs'))) (x, e).
Proof.
  intros Hfs Hid Hk. apply wp_bind, wpo_modTx_plain, wpo_modTx_plain. split.
  - split; [done|done|]. split.
    + intros k Hk'. simpl. rewrite put_buffer_at, lookup_insert_ne; [done|]. by intros ->; rewrite Hk in Hk'.
    + intros k f Hf. simpl in Hf. simpl. assert (E : ∀ i c v t0, tx_flows (put_buffer pk i c v t0) = tx_flows t0).
      { intros. unfold put_buffer. by destruct (tx_puts t0 !! pk). }
      rewrite E. simpl. destruct (decide (k = pk)) as [->|]; [rewrite lookup_insert_eq; exists fs'; split; congruence|].
      rewrite lookup_insert_ne by done. by exists f.
  - cbn [fst ti_tx]. rewrite put_buffer_at, lookup_insert_eq. eexists. split; [done|]. by destruct (tx_puts (set_flow pk fs' (ti_tx x)) !! pk).
Qed.

Lemma marked_InsertFlowStep st : marked (dy_InsertFlowStep st).
Proof.
  intros [x e]. apply wp_bind. unfold wp at 1. cbn [getTx fst]. destruct (tx_flows (ti_tx x) !! _) as [fs|] eqn:Hfs; [|done].
  eapply wp_mono; [by apply (wpo_reput _ fs)| |done]. cbv beta. by intros _ s' [? _].
Qed.
Lemma marked_applyStep r run meta acc st : marked (applyStep r run meta acc st).
Proof.
  unfold applyStep, postEntry. cbn [tx_InsertJournal tx_InsertEntry tx_InsertFlowStep tx_InsertOutbox DynamoTx].
  unfold dy_InsertJournal, dy_InsertOutbox. cbv zeta. destruct acc. destruct (Journal_Validate _); [|apply (frames_throw _)].
  mark; [|apply marked_InsertFlowStep]. unfold dy_InsertEntry. cbv zeta. mark.
Qed.

(** ** What a new flow puts *)

(** The marker of the key names the run, and the row of the run is complete. *)
Definition marker_item r (run : string) : Item :=
  ItMarker (flowIdempPK (ef_TenantId r) (ef_IdempotencyKey r)) "flow_run_id" run.
Definition flow_done r (run : string) t : Prop :=
  (pp_item <$> tx_puts t !! flowIdempPK (ef_TenantId r) (ef_IdempotencyKey r)) = Some (marker_item r run) ∧
  ∃ it, (pp_item <$> tx_puts t !! flowPK (ef_TenantId r) run) = Some (ItFlow it) ∧
    fi_FlowRunID it = run ∧ fi_Status it = FlowCompleted.

(** The row [pk] of the overlay is the flow [id]. *)
Definition flow_is (pk id : string) t : Prop := ∃ fs, tx_flows t !! pk = Some fs ∧ fr_ID (fst_run fs) = id.

Lemma wpo_InsertFlowRun_marks f x e :
  wpo (dy_InsertFlowRun f) (λ _ s',
    pp_item <$> tx_puts (ti_tx s'.1) !! flowIdempPK (fr_TenantID f) (fr_IdempotencyKey f) =
      Some (ItMarker (flowIdempPK (fr_TenantID f) (fr_IdempotencyKey f)) "flow_run_id" (fr_ID f)) ∧
    flow_is (flowPK (fr_TenantID f) (fr_ID f)) (fr_ID f) (ti_tx s'.1)) (x, e).
Proof.
  unfold dy_InsertFlowRun. cbv zeta. apply wp_bind, wpo_modTx_plain, wp_bind, wpo_modTx_plain, wp_bind, wpo_modTx_plain, wpo_modTx_plain.
  set (k := flowIdempPK _ _). set (pk := flowPK _ _). cbn [fst ti_tx].
  assert (E : ∀ pk' i c v t0, tx_flows (put_buffer pk' i c v t0) = tx_flows t0) by (intros; unfold put_buffer; by destruct (tx_puts t0 !! pk')).
  split.
  - simpl. rewrite put_buffer_at, lookup_insert_eq. simpl. f_equal. by destruct (tx_puts _ !! k).
  - exists (mkFlowState f []). simpl. rewrite !E. simpl. by rewrite lookup_insert_eq.
Qed.

Lemma wpo_CompleteFlowRun_marks (tn run : string) x e :
  flow_is (flowPK tn run) run (ti_tx x) →
  wpo (dy_CompleteFlowRun tn run) (λ _ s', framed marks (x, e) s' ∧
    ∃ it, (pp_item <$> tx_puts (ti_tx s'.1) !! flowPK tn run) = Some (ItFlow it) ∧ fi_FlowRunID it = run ∧ fi_Status it = FlowCompleted) (x, e).
Proof.
  intros (fs & Hfs & Hid). apply wp_bind. unfold wp at 1. cbn [getTx fst]. rewrite Hfs. apply wp_bind. unfold wp at 1, Now.
  eapply wp_mono; [by apply (wpo_reput _ fs)| |done]. cbv beta. intros _ s' [[Fw Fi Ft] (pp & Hpp & Hi)]. split; [by split|].
  rewrite Hpp. simpl. rewrite Hi. by eexists.
Qed.

Lemma wpo_runNewFlow_marks r steps x e :
  wpo (runNewFlow r steps) (λ resp s', flow_done r (er_FlowRunId resp) (ti_tx s'.1)) (x, e).
Proof.
  unfold runNewFlow. apply wp_bind. unfold wp at 1. cbn [NewID]. set (run := host_newid _). apply wp_bind. unfold wp at 1. cbn [Now].
  apply wp_bind. eapply wp_mono; [apply wpo_InsertFlowRun_marks| |done]. cbv beta. cbn [fr_TenantID fr_IdempotencyKey fr_ID].
  intros _ s1 [Hm1 Hf1].
  apply wp_bind. eapply wp_mono; [apply (frames_foldM marks); intros; apply marked_lockKey| |done]. cbv beta. intros st s2 [_ _ [P2 F2]].
  apply wp_bind. eapply wp_mono; [apply (frames_foldM marks); intros; apply marked_applyStep| |done]. cbv beta. intros [st' results] s3 [_ _ [P3 F3]].
  apply wp_bind. eapply wp_mono; [apply (frames_foldM marks); intros; apply marked_settleKey| |done]. cbv beta. intros _ [x4 e4] [_ _ [P4 F4]].
  assert (Hf4 : flow_is (flowPK (ef_TenantId r) run) run (ti_tx x4)).
  { destruct Hf1 as (fs & Hfs & Hid). destruct (F2 _ _ Hfs) as (f2 & H2 & E2). destruct (F3 _ _ H2) as (f3 & H3 & E3).
    destruct (F4 _ _ H3) as (f4 & H4 & E4). exists f4. split; [done|congruence]. }
  apply wp_bind. eapply wp_mono; [by apply wpo_CompleteFlowRun_marks| |done]. cbv beta. intros _ s5 [[_ _ [P5 _]] Hit]. apply wp_ret.
  split; [|exact Hit]. cbn [er_FlowRunId flowRunToResponse]. rewrite P5, P4, P3, P2 by apply (starts_app "FIDEMP#"). exact Hm1.
Qed.

(** ** What a replay answers *)

Lemma lookup_flow_found (tn k : string) w e f x e' :
  dy_GetFlowByIdempotency tn k (mkTxIn w [] newTx, e) = (Ok (Some f), (x, e')) →
  ti_tx x = newTx ∧ ∃ i v it, db_items (w 0) !! flowIdempPK tn k = Some i ∧ asMarker "flow_run_id" i = Some v ∧
    db_items (w 1) !! flowPK tn v = Some (ItFlow it) ∧ fr_ID f = fi_FlowRunID it.
Proof.
  unfold dy_GetFlowByIdempotency, getTx. intros Hr. inv_ok Hr. injection Hrun as <- <-. simpl in Hr.
  inv_ok Hr. unfold tx_getItem in Hrun. cbn [ti_world ti_reads ti_tx length] in Hrun. rewrite law_GetItem in Hrun.
  destruct (host_fault _); [done|]. injection Hrun as <- <-. simpl in Hr.
  destruct (db_items (w 0) !! flowIdempPK tn k) as [i|] eqn:Hi; [|done].
  inv_ok Hr. destruct (asMarker _ i) as [v|] eqn:Hv; [|done]. injection Hrun as <- <-.
  unfold readFlow in Hr. inv_ok Hr. unfold tx_getItem in Hrun. cbn [ti_world ti_reads ti_tx] in Hrun. rewrite law_GetItem in Hrun.
  destruct (host_fault _); [done|]. injection Hrun as <- <-. simpl in Hr.
  destruct (db_items (w 1) !! flowPK tn v) as [j|] eqn:Hj; [|done]. inv_ok Hr. destruct (asFlow j) as [it|] eqn:Hit; [|done].
  injection Hrun as <- <-. inv_ok Hr. unfold lift_result in Hrun. destruct (flowFromItem it) as [[fl sts]|] eqn:Hfl; [|done].
  injection Hrun as <- <-. injection Hr as <- <- <-. split; [done|]. exists i, v, it. split_and!; [done..| |].
  - by destruct j; simplify_eq/=.
  - unfold flowFromItem, mbind, result_bind in Hfl. repeat case_match; try done. by injection Hfl as <- _.
Qed.

(** ** Two requests with one key *)

(** The request [r] ran with reads on the tables [w], all before [st], up to
    its commit. *)
Record flow_ran r w (st : S) e resp x e1 : Prop := {
  rn_world : world_ok w;
  rn_before : ∀ n, rtc store_step (db_items (w n)) (db_items st);
  rn_run : executeFlowInTx r (mkTxIn w [] newTx, e) = (Ok resp, (x, e1));
}.

(** It posts a new flow, or it answers with the one it found. *)
Lemma flow_ran_cases r w st e resp x e1 :
  flow_ran r w st e resp x e1 →
  good x ∧ ((tx_puts (ti_tx x) ≠ ∅ ∧ flow_done r (er_FlowRunId resp) (ti_tx x)) ∨
   (tx_puts (ti_tx x) = ∅ ∧ ∃ i v it, db_items (w 0) !! flowIdempPK (ef_TenantId r) (ef_IdempotencyKey r) = Some i ∧
     asMarker "flow_run_id" i = Some v ∧ db_items (w 1) !! flowPK (ef_TenantId r) v = Some (ItFlow it) ∧
     er_FlowRunId resp = fi_FlowRunID it)).
Proof.
  intros [Hw Hb Hr]. split.
  { pose proof (keeps_executeFlow r (mkTxIn w [] newTx, e)) as Hk. eapply wp_ok in Hk; [|split; [done|apply newTx_ok]|exact Hr]. by destruct Hk. }
  unfold executeFlowInTx in Hr. inv_ok Hr. destruct (stepsFromProto _) as [steps|]; [|done]. injection Hrun as <- <-.
  inv_ok Hr. destruct s as [x1 e2]. cbn [DynamoTx tx_GetFlowByIdempotency] in Hrun. destruct a as [f|].
  - right. apply lookup_flow_found in Hrun as (Ht & i & v & it & Hi & Hv & Hit & Hid).
    unfold throw_if in Hr. destruct (negb _); inv_ok Hr; [done|]. injection Hrun as <- <-. inv_ok Hr. destruct s as [x2 e3].
    apply replay_writes_nothing in Hrun. injection Hr as <- <- _. split; [by rewrite Hrun, Ht|]. by exists i, v, it.
  - left. pose proof (wpo_runNewFlow_marks r steps x1 e2) as Hd. eapply wp_ok in Hd; [|exact Hr]. split; [|exact Hd].
    destruct Hd as [Hm _]. cbn [fst] in Hm. intros E. by rewrite E, lookup_empty in Hm.
Qed.

Lemma flow_commit_steps r w (st st1 : S) e e1 e2 resp x x1 :
  flow_ran r w st e resp x e1 → tx_Commit ((st, x), e1) = (Ok tt, ((st1, x1), e2)) → rtc store_step (db_items st) (db_items st1).
Proof.
  intros Hr Hc. destruct (flow_ran_cases _ _ _ _ _ _ _ Hr) as [[_ Hok] _]. pose proof (commit_steps st x e1 Hok) as Hs.
  cbn [tx_Commit DynamoStore] in Hc. by rewrite Hc in Hs.
Qed.

(** What a commit published stays. *)
Lemma published_stays (t : Tx) (m m' : gmap string Item) k i :
  rtc store_step (written t m) m' → pp_item <$> tx_puts t !! k = Some i → item_version i = None → outbox_key k = false → m' !! k = Some i.
Proof.
  intros Hs Hi Hv Ho. eapply row_fixed; [exact Hs| |done|done]. unfold written.
  by rewrite (lookup_union_Some_l _ _ _ i) by (by rewrite lookup_fmap).
Qed.

(** C7. A flow happens once on DynamoDB, however its requests race: once the
    commit of a new flow is accepted, a request with the same tenant and key
    that ran at any time, before that commit or after, either wrote nothing
    and answers with the flow run that was accepted, or wrote a flow of its
    own and has its commit refused, which changes nothing. *)
Theorem dynamo_flow_once r r' w w' (st st1 st2 : S) e e1 e2 e' e1' resp resp' x x1 x' :
  flow_ran r w st e resp x e1 → tx_puts (ti_tx x) ≠ ∅ → tx_Commit ((st, x), e1) = (Ok tt, ((st1, x1), e2)) →
  rtc store_step (db_items st1) (db_items st2) →
  flow_ran r' w' st2 e' resp' x' e1' → ef_TenantId r' = ef_TenantId r → ef_IdempotencyKey r' = ef_IdempotencyKey r →
  (tx_puts (ti_tx x') = ∅ ∧ er_FlowRunId resp' = er_FlowRunId resp) ∨
  (tx_puts (ti_tx x') ≠ ∅ ∧ ∃ er z, tx_Commit ((st2, x'), e1') = (Err er, z) ∧ db_items z.1.1 = db_items st2).
Proof.
  intros Hrun Hne Hcommit Hlater Hrun' Ht Hk.
  destruct (flow_ran_cases _ _ _ _ _ _ _ Hrun) as [[_ Hok] [[_ [Hm (it & Hit & Hid & _)]]|[E _]]]; [|done].
  pose proof (wp_Commit st x e1 Hok) as HC. eapply wp_ok in HC; [|exact Hcommit]. destruct HC as (_ & Hc & Hs1). cbn [fst] in Hs1.
  rewrite Hs1 in Hlater. pose proof (published_stays _ _ _ _ _ Hlater Hm eq_refl eq_refl) as Hm2.
  pose proof (published_stays _ _ _ _ _ Hlater Hit eq_refl eq_refl) as Hit2.
  destruct (flow_ran_cases _ _ _ _ _ _ _ Hrun') as [[_ Hok'] [[Hne' [Hm' _]]|(E' & i & v & it' & Hi & Hv & Hit' & ->)]]; [right|left].
  - split; [done|]. pose proof (wp_Commit st2 x' e1' Hok') as HC.
    assert (Hno : ¬ conds_hold (ti_tx x') (db_items st2)).
    { intros Hc'. rewrite Ht, Hk in Hm'. destruct (tx_puts (ti_tx x') !! _) as [pp|] eqn:Hpp; [|done].
      pose proof (put_new _ _ _ _ _ Hok' (store_steps_ok _ _ (rn_before _ _ _ _ _ _ _ Hrun' 0%nat) (proj1 (rn_world _ _ _ _ _ _ _ Hrun'))) Hc' Hpp Hm2) as Hver.
      by unfold versioned_key, flowIdempPK, starts in Hver. }
    unfold wp in HC. change (tx_Commit ((st2, x'), e1')) with (dy_Commit ((st2, x'), e1')).
    destruct (dy_Commit _) as [[[]|er] z]; [by destruct HC as (_ & ? & _)|]. exists er, z. split; [done|].
    destruct HC as [(_ & _ & ->)|[(c & _ & _ & ->)|(_ & [->|(_ & ? & _)])]]; done.
  - split; [done|]. rewrite Ht, Hk in Hi. rewrite Ht in Hit'.
    destruct (rn_world _ _ _ _ _ _ _ Hrun') as [Hw0 Hw1]. pose proof (rn_before _ _ _ _ _ _ _ Hrun') as Hb.
    assert (Hi2 : db_items st2 !! flowIdempPK (ef_TenantId r) (ef_IdempotencyKey r) = Some i).
    { eapply row_fixed; [apply (Hb 0%nat)|exact Hi| |done]. by destruct i. }
    rewrite Hm2 in Hi2. injection Hi2 as <-. injection Hv as <-.
    pose proof (row_fixed _ _ _ _ (Hb 1%nat) Hit' eq_refl eq_refl) as Hit3. rewrite Hit2 in Hit3. by injection Hit3 as <-.
Qed.
End Once.
