(* ===== verification/DynamoResv.v ===== *)
(** * The DynamoDB backend: the life of a reservation among many clients

    A commit, a release or an expiry puts the reservation row under the
    condition that it still has the version that was read.  So every table
    of a [history] holds reservations that add up, and later tables hold them
    some steps of [resv_step] further on ([dynamo_reservation_life]). *)

From S2P Require Import Prelude Money Ledger Repo Contract Service Flow FlowLaws Reservations ReservationLaws Exchange Recon.
From S2P Require Import Rfc3339 DynamoItems Dynamo DynamoLaws DynamoOps DynamoCommit DynamoBooks DynamoMoney DynamoPost DynamoHistory.
From stdpp Require Import base gmap strings list numbers.
From Stdlib Require Import Qcanon.

(** ** Reservation rows *)

Section Rows.
Context {H : Host} {D : DecimalOps} {L : DecimalLaws D}.
Implicit Types (t : Tx) (k pk : string) (m : gmap string Item).

Definition item_rview (it : reservationItem) : RView :=
  mkRView (ri_ReservationID it) (ri_TenantID it) (ri_IdempotencyKey it) (ri_SourceAccountID it)
    (ri_ReservedAccountID it) (ri_Currency it) (text_amount (ri_OriginalAmount it))
    (text_amount (ri_OutstandingAmount it)) (text_amount (ri_CommittedAmount it))
    (text_amount (ri_ReleasedAmount it)) (ri_Status it) (ri_FlowRunID it).

Lemma item_rview_to r v : item_rview (reservationToItem r v) = rview r.
Proof.
  unfold reservationToItem. destruct (parseAccountOwner _). unfold item_rview; simpl. by rewrite !text_amount_String.
Qed.
Lemma item_rview_from it r v : reservationFromItem it = Ok (r, v) → item_rview it = rview r ∧ ri_Version it = v.
Proof.
  unfold reservationFromItem, mbind, result_bind. repeat case_match; try done. intros [= <- <-].
  split; [|done]. unfold item_rview, rview; simpl. by erewrite !text_amount_parse by done.
Qed.

(** A table of reservations that add up, and what becomes of them. *)
Definition resv_fine m : Prop := ∀ k it, m !! k = Some (ItReservation it) → rv_ok (item_rview it).
Definition resv_moved m m' : Prop := ∀ k it, m !! k = Some (ItReservation it) →
  ∃ it', m' !! k = Some (ItReservation it') ∧ rtc resv_step (item_rview it) (item_rview it').

Lemma resv_moved_refl m : resv_moved m m.
Proof. intros k it Hk. by exists it. Qed.
Lemma resv_moved_trans m1 m2 m3 : resv_moved m1 m2 → resv_moved m2 m3 → resv_moved m1 m3.
Proof.
  intros H1 H2 k it Hk. destruct (H1 _ _ Hk) as (it2 & Hk2 & S2). destruct (H2 _ _ Hk2) as (it3 & Hk3 & S3).
  exists it3. split; [done|by etransitivity].
Qed.

Lemma item_typed_resv k i : item_typed k i → starts "RES#" k = true ↔ ∃ it, i = ItReservation it.
Proof.
  intros [<- Hk]. destruct i as [it|it|it|it|it|it|pk a v]; simpl in *;
    (split; [|intros (j & Hj); simplify_eq; try done]).
  - by rewrite Hk.
  - by rewrite Hk.
  - by rewrite Hk.
  - by rewrite Hk.
  - by destruct Hk as [id ->].
  - by eexists.
  - by rewrite Hk; apply (starts_app "RES#").
  - repeat apply Exists_cons in Hk as [Hk|Hk]; [..|by apply Exists_nil in Hk]; by apply starts_inv in Hk as [r ->].
Qed.

(** A put of the row [k]: a new reservation that adds up, or one step of the
    row whose version it names. *)
Definition resv_put_ok m k (pp : pendingPut) : Prop := ∃ it, pp_item pp = ItReservation it ∧
  match write_cond pp with
  | AttrNotExists => rv_ok (item_rview it)
  | VersionIs v => ∀ it0, m !! k = Some (ItReservation it0) → ri_Version it0 = v → resv_step (item_rview it0) (item_rview it)
  | NoCond => False
  end.
Definition resv_puts m t : Prop := ∀ k pp, starts "RES#" k = true → tx_puts t !! k = Some pp → resv_put_ok m k pp.

Lemma resv_puts_same m t t' : same_puts (starts "RES#") t t' → resv_puts m t → resv_puts m t'.
Proof. intros Hs Hp k pp Hk. rewrite Hs by done. by apply Hp. Qed.

(** What a put that meets its condition makes of the row. *)
Lemma resv_put_step m t k pp it :
  buffer_ok t → table_ok m → conds_hold t m → resv_puts m t → tx_puts t !! k = Some pp → pp_item pp = ItReservation it →
  (m !! k = None ∧ rv_ok (item_rview it)) ∨
  ∃ it0, m !! k = Some (ItReservation it0) ∧ resv_step (item_rview it0) (item_rview it).
Proof.
  intros Hok Hm Hc Hp Hpp Hi. destruct (bo_put _ Hok _ _ Hpp) as [Ht _]. specialize (Hc _ _ Hpp).
  assert (Hk : starts "RES#" k = true) by (apply (item_typed_resv _ _ Ht); by exists it).
  destruct (Hp _ _ Hk Hpp) as (it' & Hi' & Hw). rewrite Hi in Hi'. injection Hi' as <-. unfold cond_holds, to_write in Hc.
  cbn [fst snd] in Hc. destruct Ht as [Hpk _]. rewrite Hpk in Hc. destruct (write_cond pp) as [|v|] eqn:Hcond; [by left| |done].
  right. apply bind_Some in Hc as (i & Hmi & Hv). destruct (Hm _ _ Hmi) as [Hti _].
  apply (item_typed_resv _ _ Hti) in Hk as [it0 ->]. injection Hv as Hv. exists it0. split; [done|]. by apply Hw.
Qed.

Lemma written_resv m t :
  buffer_ok t → table_ok m → conds_hold t m → resv_puts m t → resv_fine m →
  resv_fine (written t m) ∧ resv_moved m (written t m).
Proof.
  intros Hok Hm Hc Hp Hf. split.
  - intros k it Hk. unfold written in Hk. rewrite lookup_union, lookup_fmap in Hk.
    destruct (tx_puts t !! k) as [pp|] eqn:Hpp; simpl in Hk; [|rewrite (left_id_L None (∪)) in Hk; by eapply Hf].
    rewrite union_Some_l in Hk. injection Hk as Hi.
    destruct (resv_put_step _ _ _ _ _ Hok Hm Hc Hp Hpp Hi) as [[_ Hr]|(it0 & H0 & Hs)]; [done|].
    eapply resv_step_ok; [by eapply Hf|done].
  - intros k it0 Hk0. unfold written. rewrite lookup_union, lookup_fmap.
    destruct (tx_puts t !! k) as [pp|] eqn:Hpp; simpl; [|rewrite (left_id_L None (∪)); by exists it0].
    destruct (bo_put _ Hok _ _ Hpp) as [Ht _].
    assert (Hk : starts "RES#" k = true) by (apply (item_typed_resv _ (ItReservation it0)); [by apply Hm|by eexists]).
    apply (item_typed_resv _ _ Ht) in Hk as [it Hi]. rewrite union_Some_l, Hi. exists it. split; [done|].
    destruct (resv_put_step _ _ _ _ _ Hok Hm Hc Hp Hpp Hi) as [[Hn _]|(it1 & H1 & Hs)]; [congruence|].
    rewrite Hk0 in H1. injection H1 as <-. by apply rtc_once.
Qed.
End Rows.

(** ** Transactions *)

Section Transactions.
Context {H : Host} {D : DecimalOps} {L : DecimalLaws D} {S : Type} {DB : DynamoDB S} {DL : DynamoLaws S DB}.
Abbreviation TxM A := (M error (TxIn (S:=S) * Env) A).
Implicit Types (x : TxIn (S:=S)) (t : Tx) (s : TxIn (S:=S) * Env) (k pk : string) (w : nat → S).

(** Reservation rows are left alone. *)
Definition same_resv t t' : Prop := tx_reservations t' = tx_reservations t ∧ same_puts (starts "RES#") t t'.
#[local] Instance same_resv_preorder : PreOrder same_resv.
Proof. split; [done|]. intros t1 t2 t3 [R1 P1] [R2 P2]. split; [congruence|by etransitivity]. Qed.
Abbreviation idle := (frames (S:=S) same_resv).

Lemma idle_put pk i c v : starts "RES#" pk = false → idle (put pk i c v).
Proof.
  intros Hk. apply (frames_modTx _). intros t. split; [by unfold put_buffer; destruct (tx_puts t !! pk)|].
  intros k Hk'. rewrite put_buffer_at, lookup_insert_ne; [done|]. by intros ->; rewrite Hk in Hk'.
Qed.

Ltac idle := hush; try (apply idle_put; reflexivity).

Lemma idle_executeFlow r : idle (executeFlowInTx r).
Proof.
  unfold executeFlowInTx, runNewFlow, lockKey, applyStep, postEntry, settleKey.
  cbn [tx_GetFlowByIdempotency tx_GetFlowSteps tx_InsertFlowRun tx_GetAccount tx_LockBalance tx_InsertJournal tx_InsertEntry
    tx_InsertFlowStep tx_InsertOutbox tx_UpdateBalance tx_CompleteFlowRun DynamoTx].
  unfold dy_GetFlowByIdempotency, dy_GetFlowSteps, readFlow, dy_InsertFlowRun, dy_GetAccount, readAccount, dy_LockBalance,
    loadBalance, readBalance, dy_InsertJournal, dy_InsertEntry, dy_InsertFlowStep, dy_InsertOutbox, dy_UpdateBalance,
    loadBalance, readBalance, dy_CompleteFlowRun, putFlow.
  cbv zeta. idle.
Qed.
Lemma idle_GetAccount (tn a : string) : idle (dy_GetAccount tn a).
Proof. unfold dy_GetAccount, readAccount. idle. Qed.
Lemma idle_InsertOutbox o : idle (dy_InsertOutbox o).
Proof. unfold dy_InsertOutbox. cbv zeta. idle. Qed.

(** Reads a transaction makes on its way to the table [m]. *)
Context (m : gmap string Item).
Definition toward s : Prop := ∀ n, rtc store_step (db_items (ti_world s.1 n)) m.

(** The row [pk] was read as [r]; no reservation is put yet. *)
Definition locked pk (r : Reservation) t : Prop :=
  (∀ k, starts "RES#" k = true → tx_puts t !! k = None) ∧
  ∃ v, tx_reservations t = {[pk := mkResState r v true]} ∧
    ∀ it, m !! pk = Some (ItReservation it) → ri_Version it = v → item_rview it = rview r.

Lemma locked_idle pk r t t' : same_resv t t' → locked pk r t → locked pk r t'.
Proof.
  intros [Hr Hp] [Hn (v & Hv & Hit)]. split; [intros k Hk; rewrite Hp by done; by apply Hn|]. exists v. by rewrite Hr.
Qed.

Lemma wpo_LockReservation (tn id : string) w e :
  (∀ n, rtc store_step (db_items (w n)) m) →
  wpo (dy_LockReservation tn id) (λ r s', locked (reservationPK tn id) r (ti_tx s'.1)) (mkTxIn w [] newTx, e).
Proof.
  intros Hw. unfold dy_LockReservation. apply wp_bind. unfold wp at 1. cbn [getTx fst ti_tx newTx tx_reservations].
  rewrite lookup_empty. apply wp_bind, wpo_getItem. intros e1. unfold row. set (pk := reservationPK tn id). cbn [ti_world ti_reads length].
  destruct (db_items (w 0%nat) !! pk) as [i|] eqn:Hi; [|done]. apply wp_bind. destruct i as [| | | | |it|]; try done. apply wp_ret.
  apply wp_bind, wp_lift; [|done]. intros [r v] Hr. apply item_rview_from in Hr as [Hr Hv].
  apply wp_bind, wpo_modTx_plain, wp_ret. simpl. split; [intros k _; apply lookup_empty|]. exists v. split; [done|].
  intros it' Hit' Hv'. rewrite <- Hr. f_equal.
  assert (E : m !! pk = db_items (w 0%nat) !! pk).
  { eapply (row_same _ _ _ v); [apply Hw|done|by rewrite Hi; simpl; rewrite Hv|by rewrite Hit'; simpl; rewrite Hv']. }
  rewrite Hit', Hi in E. by injection E.
Qed.

Lemma resv_puts_locked pk r t : locked pk r t → resv_puts m t.
Proof. intros [Hn _] k pp Hk. by rewrite Hn. Qed.

(** Saving a step of the row that was read. *)
Lemma wpo_save tenant ev key payload pk r (o c l : dec) st now s :
  locked pk r (ti_tx s.1) →
  resv_step (rview r) (rv_amounts (val o) (val c) (val l) st (rview r)) →
  wpo (saveReservation tenant ev key payload (withAmounts r o c l st now)) (λ _ s', resv_puts m (ti_tx s'.1)) s.
Proof.
  intros [Hn (v & Hv & Hit)] Hs. destruct s as [x e]; cbn [fst] in *. unfold saveReservation.
  cbn [tx_UpdateReservationAmounts tx_InsertOutbox DynamoTx]. apply wp_bind. unfold dy_UpdateReservationAmounts. cbv zeta.
  apply wp_bind. unfold wp at 1. cbn [getTx fst]. set (pk' := reservationPK _ _). rewrite Hv.
  destruct (decide (pk' = pk)) as [->|Hne]; [|by rewrite lookup_singleton_ne]. rewrite lookup_singleton_eq.
  apply wp_bind. unfold wp at 1. cbn [Now]. cbn [rst_res rst_existed rst_readVersion].
  apply wp_bind, wpo_modTx_plain, wpo_modTx_plain. cbn [ti_tx ti_world ti_reads].
  match goal with |- wpo ?b _ (mkTxIn ?w ?rs ?t, ?e1) => assert (Hp : resv_puts m t); [|set (t1 := t) in *; set (body := b)] end.
  { intros k pp Hk. rewrite put_buffer_at. intros [[<- <-]|[_ Hpp]]%lookup_insert_Some; [|by simpl in Hpp; rewrite Hn in Hpp].
    simpl. rewrite Hn by done. eexists. split; [done|]. unfold write_cond; simpl. intros it0 H0 Hv0.
    rewrite item_rview_to, (Hit _ H0 Hv0). exact Hs. }
  assert (Hi : idle body).
  { unfold body. repeat first [apply idle_InsertOutbox | apply (frames_NewID _) | apply (frames_Now _)
      | apply (frames_ret _) | apply (frames_bind _); [|intros ?]]. }
  eapply wp_mono; [apply Hi| |done]. cbv beta. intros _ s' [_ _ [_ Hsp]]. by eapply resv_puts_same.
Qed.

(** ** The bodies *)

Lemma wpo_idle {A B} (body : TxM A) (f : A → TxM B) Q pk r s :
  idle body → locked pk r (ti_tx s.1) → (∀ a s', locked pk r (ti_tx s'.1) → wpo (f a) Q s') → wpo (body ≫= f) Q s.
Proof.
  intros Hb Hl Hf. apply wp_bind. eapply wp_mono; [apply Hb| |done]. cbv beta. intros a s' [_ _ Hs]. apply Hf. by eapply locked_idle.
Qed.
Lemma wpo_same {A} (body : TxM A) s :
  frames (same_puts (starts "RES#")) body → resv_puts m (ti_tx s.1) → wpo body (λ _ s', resv_puts m (ti_tx s'.1)) s.
Proof. intros Hb Hp. eapply wp_mono; [apply Hb| |done]. cbv beta. intros _ s' [_ _ Hs]. by eapply resv_puts_same. Qed.
Lemma idle_same {A} (body : TxM A) : idle body → frames (same_puts (starts "RES#")) body.
Proof. intros Hb s. eapply wp_mono; [apply Hb| |done]. cbv beta. by intros _ s' [? ? []]. Qed.

Context (w : nat → S) (Hw : ∀ n, rtc store_step (db_items (w n)) m).

Lemma wpo_commitReservation_step r amount e :
  amount_pos amount → wpo (commitReservationInTx r amount) (λ _ s', resv_puts m (ti_tx s'.1)) (mkTxIn w [] newTx, e).
Proof.
  intros Ha. unfold commitReservationInTx. apply wp_bind. eapply wp_mono; [by apply wpo_LockReservation| |done].
  cbv beta. intros res s1 H1. apply wp_bind, wp_throw_if; [done|]. intros Hcl. apply wp_bind, wp_throw_if; [done|].
  intros Hgt%GreaterThan_false. eapply wpo_idle; [apply idle_GetAccount|exact H1|]. intros dst s2 H2.
  apply wp_bind, wp_throw_if; [done|]. intros _. eapply wpo_idle; [apply idle_executeFlow|exact H2|]. intros ? s3 H3. cbv zeta.
  eapply wpo_idle; [apply (frames_Now _)|exact H3|]. intros now s4 H4. eapply wpo_save; [exact H4|].
  rewrite val_sub, val_add, val_next, val_sub. by apply (resv_commit (rview res)).
Qed.
Lemma wpo_releaseReservation_step r amount e :
  amount_pos amount → wpo (releaseReservationInTx r amount) (λ _ s', resv_puts m (ti_tx s'.1)) (mkTxIn w [] newTx, e).
Proof.
  intros Ha. unfold releaseReservationInTx. apply wp_bind. eapply wp_mono; [by apply wpo_LockReservation| |done].
  cbv beta. intros res s1 H1. apply wp_bind, wp_throw_if; [done|]. intros Hcl. apply wp_bind, wp_throw_if; [done|].
  intros Hgt%GreaterThan_false. eapply wpo_idle; [apply idle_executeFlow|exact H1|]. intros ? s3 H3. cbv zeta.
  eapply wpo_idle; [apply (frames_Now _)|exact H3|]. intros now s4 H4. eapply wpo_save; [exact H4|].
  rewrite val_sub, val_add, val_next, val_sub. by apply (resv_release (rview res)).
Qed.
Lemma wpo_expireReservation_step (tn id : string) e :
  wpo (expireReservationInTx tn id) (λ _ s', resv_puts m (ti_tx s'.1)) (mkTxIn w [] newTx, e).
Proof.
  unfold expireReservationInTx. apply wp_bind. eapply wp_mono; [by apply wpo_LockReservation| |done].
  cbv beta. intros res s1 H1. destruct (ReservationStatus_Closed _) eqn:Hcl; [by apply wp_ret; eapply resv_puts_locked|].
  rewrite IsZero_spec. case_bool_decide as Hz; [by apply wp_ret; eapply resv_puts_locked|].
  eapply wpo_idle; [apply idle_executeFlow|exact H1|]. intros ? s3 H3. cbv zeta.
  eapply wpo_idle; [apply (frames_Now _)|exact H3|]. intros now s4 H4.
  apply wp_bind. eapply wp_mono; [eapply wpo_save; [exact H4|]| |done]; [|cbv beta; by intros].
  rewrite val_sub, val_add. replace (val (rs_OutstandingAmount res) - _)%Qc with 0%Qc by ring.
  by apply (resv_expire (rview res)).
Qed.

(** No reservation is put yet. *)
Definition blank t : Prop := ∀ k, starts "RES#" k = true → tx_puts t !! k = None.
Lemma resv_puts_blank t : blank t → resv_puts m t.
Proof. intros Hn k pp Hk. by rewrite Hn. Qed.
Lemma wpo_blank {A B} (body : TxM A) (f : A → TxM B) Q s :
  frames (same_puts (starts "RES#")) body → blank (ti_tx s.1) → (∀ a s', blank (ti_tx s'.1) → wpo (f a) Q s') → wpo (body ≫= f) Q s.
Proof.
  intros Hb Hl Hf. apply wp_bind. eapply wp_mono; [apply Hb| |done]. cbv beta. intros a s' [_ _ Hs]. apply Hf.
  intros k Hk. rewrite Hs by done. by apply Hl.
Qed.

Lemma wpo_InsertReservation_step res s :
  blank (ti_tx s.1) → rv_ok (rview res) → wpo (dy_InsertReservation res) (λ _ s', resv_puts m (ti_tx s'.1)) s.
Proof.
  intros Hn Hr. destruct s as [x e]. unfold dy_InsertReservation. cbv zeta. apply wp_bind, wpo_modTx_plain, wp_bind, wpo_modTx_plain.
  apply wpo_modTx_plain. cbn [fst ti_tx]. intros k pp Hk. rewrite put_buffer_at.
  intros [[<- _]|[_ Hpp]]%lookup_insert_Some; [done|]. revert Hpp. rewrite put_buffer_at.
  intros [[<- <-]|[_ Hpp]]%lookup_insert_Some; [|by simpl in Hpp; rewrite Hn in Hpp].
  simpl. rewrite Hn by done. eexists. split; [done|]. unfold write_cond; simpl. by rewrite item_rview_to.
Qed.

Lemma new_reservation_ok r amount id run ca ua :
  amount_pos amount →
  rv_ok (rview (mkReservation id (cr_TenantId r) (cr_IdempotencyKey r) (cr_SourceAccountId r)
    (cr_ReservedAccountId r) (cr_Currency r) amount amount decimal_Zero decimal_Zero
    ReservationHeld (cr_ExpiresAt r) run (structToMap (cr_Metadata r)) ca ua)).
Proof.
  unfold amount_pos. intros Ha. split; simpl; rewrite ?val_zero; try done; [ring|by apply Qclt_le_weak|].
  split; [done|]. intros E. rewrite E in Ha. by apply Qclt_not_eq in Ha.
Qed.

Lemma wpo_createReservation_step r amount e :
  amount_pos amount → wpo (createReservationInTx r amount) (λ _ s', resv_puts m (ti_tx s'.1)) (mkTxIn w [] newTx, e).
Proof.
  intros Ha. unfold createReservationInTx. eapply wpo_blank; [|by intros k _; apply lookup_empty|].
  { cbn [tx_GetReservationByIdempotency DynamoTx]. unfold dy_GetReservationByIdempotency, dy_LockReservation. cbv zeta. hush. }
  intros [res|] s1 H1; [by apply wp_ret, resv_puts_blank|].
  eapply wpo_blank; [apply idle_same, idle_executeFlow|exact H1|]. intros resp s2 H2.
  eapply wpo_blank; [apply (frames_NewID _)|exact H2|]. intros id s3 H3.
  eapply wpo_blank; [apply (frames_Now _)|exact H3|]. intros ca s4 H4.
  eapply wpo_blank; [apply (frames_Now _)|exact H4|]. intros ua s5 H5. cbv zeta.
  apply wp_bind. eapply wp_mono; [apply wpo_InsertReservation_step; [exact H5|by apply new_reservation_ok]| |done].
  cbv beta. intros _ s6 H6. apply wpo_same; [|done]. apply idle_same.
  repeat first [apply idle_InsertOutbox | apply (frames_NewID _) | apply (frames_Now _)
    | apply (frames_ret _) | apply (frames_bind _); [|intros ?]].
Qed.

Lemma wpo_tx_body_step q e : tx_fit q → wpo (tx_body q) (λ _ s', resv_puts m (ti_tx s'.1)) (mkTxIn w [] newTx, e).
Proof.
  intros Hq. assert (Hdrop : ∀ A (body : TxM A), wpo body (λ _ s', resv_puts m (ti_tx s'.1)) (mkTxIn w [] newTx, e) →
    wpo (body;; mret tt) (λ _ s', resv_puts m (ti_tx s'.1)) (mkTxIn w [] newTx, e)).
  { intros A body Hb. apply wp_bind. eapply wp_mono; [exact Hb| |done]. done. }
  assert (Hidle : ∀ A (body : TxM A), idle body → wpo body (λ _ s', resv_puts m (ti_tx s'.1)) (mkTxIn w [] newTx, e)).
  { intros A body Hb. apply wpo_same; [by apply idle_same|]. apply resv_puts_blank. intros k _. apply lookup_empty. }
  destruct q; simpl.
  - apply Hidle. unfold dy_InsertAccount. cbv zeta. idle.
  - apply Hdrop, Hidle, idle_executeFlow.
  - by apply Hdrop, wpo_createReservation_step.
  - by apply Hdrop, wpo_commitReservation_step.
  - by apply Hdrop, wpo_releaseReservation_step.
  - apply wpo_expireReservation_step.
  - apply Hdrop, Hidle. unfold exchangeInTx. idle; first [apply idle_executeFlow|apply idle_InsertOutbox].
  - done.
  - done.
Qed.
End Transactions.

(** ** Histories *)

Section Life.
Context {H : Host} {D : DecimalOps} {L : DecimalLaws D} {S : Type} {DB : DynamoDB S} {DL : DynamoLaws S DB}.
Implicit Types (h : list S) (st : S) (m : gmap string Item).

(** What a change of the table does to its reservations. *)
Definition resv_goes m m' : Prop := resv_fine m → resv_fine m' ∧ resv_moved m m'.
Lemma resv_goes_refl m : resv_goes m m.
Proof. intros Hf. split; [done|apply resv_moved_refl]. Qed.

Lemma commit_resv st x e :
  table_ok (db_items st) → buffer_ok (ti_tx x) → resv_puts (db_items st) (ti_tx x) →
  resv_goes (db_items st) (db_items (dy_Commit ((st, x), e)).2.1.1).
Proof.
  intros Ht Hok Hp. assert (Hw : conds_hold (ti_tx x) (db_items st) → resv_goes (db_items st) (written (ti_tx x) (db_items st))).
  { intros Hc Hf. by apply written_resv. }
  pose proof (wp_Commit st x e Hok) as HC. unfold wp in HC.
  destruct (dy_Commit _) as [[[]|er] s']; cbn [fst snd] in *.
  - destruct HC as (_ & Hc & ->). by apply Hw.
  - destruct HC as [(_ & _ & ->)|[(c & _ & _ & ->)|(_ & [->|(_ & Hc & ->)])]]; [apply resv_goes_refl..|]. by apply Hw.
Qed.

Lemma publish_resv id (u : UpdateExpr) st e :
  table_ok (db_items st) → resv_goes (db_items st) (db_items (db_UpdateItem (outboxPK id) u (st, e)).2.1).
Proof.
  intros Ht. assert (Hu : ∀ i, db_items st !! outboxPK id = Some i → resv_goes (db_items st) (<[outboxPK id := update_item u i]> (db_items st))).
  { intros i Hi Hf. destruct (Ht _ _ Hi) as [Hty _]. apply item_typed_outbox in Hty.
    rewrite (starts_app "OBX#" id : outbox_key (outboxPK id) = true) in Hty. destruct i as [| | | |o| |]; try done. split.
    - intros k it [[_ Hk]|[_ Hk]]%lookup_insert_Some; [by destruct u|by eapply Hf].
    - intros k it Hk. exists it. split; [|done]. rewrite lookup_insert_ne; [done|]. intros <-. congruence. }
  pose proof (law_UpdateItem (outboxPK id) u st e) as HU. destruct (db_UpdateItem _ _ _) as [[[]|er] [s' e']]; simpl in *.
  - destruct HU as (i & Hi & ->). by apply Hu.
  - destruct HU as [->|(i & Hi & ->)]; [apply resv_goes_refl|by apply Hu].
Qed.

Context (Hids : Inj (=) (=) host_newid).

(** The newest table of a history against all its tables. *)
Definition resv_history h : Prop := match h with
  | [] => True
  | st :: _ => resv_fine (db_items st) ∧ Forall (λ st0, resv_fine (db_items st0) ∧ resv_moved (db_items st0) (db_items st)) h
  end.
Lemma resv_history_cons st' st h :
  resv_goes (db_items st) (db_items st') → resv_history (st :: h) → resv_history (st' :: st :: h).
Proof.
  intros Hg [Hf Hh]. destruct (Hg Hf) as [Hf' Hm]. split; [done|]. constructor; [split; [done|apply resv_moved_refl]|].
  eapply list.Forall_impl; [exact Hh|]. intros st0 [H0 M0]. split; [done|by eapply resv_moved_trans].
Qed.

Lemma history_resv h : history h → resv_history h.
Proof.
  induction 1 as [st Hst|st h id e Hh IH|st h id e Hh IH|st h q w e x e1 Hh IH Hq Hreads Hrun].
  { assert (Hf : resv_fine (db_items st)) by (rewrite Hst; by intros k it ?%lookup_empty_Some).
    split; [done|]. constructor; [split; [done|apply resv_moved_refl]|done]. }
  all: apply resv_history_cons; [|done]; destruct (history_ok Hids _ Hh) as [Ho Hl];
    pose proof Ho as [HF _]; inversion HF as [|? ? Ht _]; subst.
  - exact (publish_resv id (RemoveGsi1SetPublished (fmtTime (host_now (e_now e)))) st (mkEnv (e_ids e) (Datatypes.S (e_now e)) (e_db e)) Ht).
  - exact (publish_resv id (AddAttempts 1) st e Ht).
  - destruct (ordered_reads _ _ _ Ho Hreads) as [Hw Hsteps]. inversion Hl as [|? ? [_ Hpl] _]; subst.
    pose proof (wpo_tx_body Hids (db_items st) Hpl q w e Hw Hsteps Hq) as Hb. eapply wp_ok in Hb; [|exact Hrun].
    pose proof (wpo_tx_body_step (db_items st) w Hsteps q e Hq) as Hp. eapply wp_ok in Hp; [|exact Hrun].
    apply commit_resv; [done|apply Hb|exact Hp].
Qed.

(** C8. The life of a reservation on DynamoDB: let any number of clients
    reserve, commit, release and expire at the same time, as [dynamo_keeps_books] says. In every
    table reached each reservation adds up, and every reservation of an earlier
    table is still there, some steps of its life cycle further on; one that
    was closed has not changed. So no more ever leaves a reservation than was
    reserved, whatever outstanding amount the clients read. *)
Theorem dynamo_reservation_life h st st0 :
  history (st :: h) → st0 ∈ st :: h →
  (∀ k it, db_items st !! k = Some (ItReservation it) → rv_ok (item_rview it)) ∧
  ∀ k it0, db_items st0 !! k = Some (ItReservation it0) →
    ∃ it, db_items st !! k = Some (ItReservation it) ∧ rtc resv_step (item_rview it0) (item_rview it) ∧
      rv_original (item_rview it) = rv_original (item_rview it0) ∧
      (rv_outstanding (item_rview it) <= rv_outstanding (item_rview it0))%Qc ∧
      (rv_closed (item_rview it0) = true → item_rview it = item_rview it0).
Proof.
  intros [Hf Hh]%history_resv Hin. split; [exact Hf|]. intros k it0 H0. rewrite list.Forall_forall in Hh.
  destruct (Hh _ Hin) as [Hf0 Hm]. destruct (Hm _ _ H0) as (it & Hit & Hs). exists it.
  by destruct (rtc_resv_mono _ _ (Hf0 _ _ H0) Hs) as (_ & Ho & Hle & Hcl).
Qed.
End Life.
