(* ===== verification/DynamoOutbox.v ===== *)
(** * The DynamoDB backend: the outbox among many clients

    A flow puts an event next to each journal it posts, in the same commit,
    and the dispatcher only moves events from pending to published.  So in
    every table of a [history] each journal has its event, each event is
    pending until it is marked, and none is ever lost or rewritten
    ([dynamo_outbox]). *)

From S2P Require Import Prelude Money Ledger Repo Contract Service Flow FlowLaws Reservations Exchange Recon.
From S2P Require Import Rfc3339 DynamoItems Dynamo DynamoLaws DynamoOps DynamoCommit DynamoBound DynamoBooks DynamoMoney DynamoHistory.
From stdpp Require Import base gmap strings list numbers.

(** ** Events *)

(** The event of a posting: of its tenant and flow, with its id in the payload. *)
Definition tells (o : outboxItem) (j : journalItem) : Prop :=
  oi_TenantID o = ji_TenantID j ∧ oi_AggregateID o = ji_FlowRunID j ∧
  oi_Payload o !! "journal_id" = Some (ji_JournalID j).

(** The index of pending events holds it. *)
Definition queued (o : outboxItem) : Prop := ∃ sk, index_key gsi1 (ItOutbox o) = Some (gsiOutboxPending, sk).

(** What may become of an event: more attempts, and out of the queue. *)
Record event_grows (o o' : outboxItem) : Prop := {
  eg_tenant : oi_TenantID o' = oi_TenantID o;
  eg_aggregate : oi_AggregateID o' = oi_AggregateID o;
  eg_type : oi_EventType o' = oi_EventType o;
  eg_key : oi_IdempotencyKey o' = oi_IdempotencyKey o;
  eg_payload : oi_Payload o' = oi_Payload o;
  eg_created : oi_CreatedAt o' = oi_CreatedAt o;
  eg_attempts : (oi_Attempts o ≤ oi_Attempts o')%Z;
  eg_published : queued o' → queued o;
}.

Definition events_kept (m m' : gmap string Item) : Prop :=
  ∀ k o, m !! k = Some (ItOutbox o) → ∃ o', m' !! k = Some (ItOutbox o') ∧ event_grows o o'.
Definition postings_told (m : gmap string Item) : Prop :=
  ∀ k j, m !! k = Some (ItJournal j) → ∃ k' o, m !! k' = Some (ItOutbox o) ∧ tells o j.

#[export] Instance event_grows_preorder : PreOrder event_grows.
Proof.
  split; [by intros o; split|]. intros o1 o2 o3 [] []. split; try congruence; [by etransitivity|by auto].
Qed.
#[export] Instance events_kept_preorder : PreOrder events_kept.
Proof.
  split; [intros m k o Hk; by exists o|]. intros m1 m2 m3 H1 H2 k o Hk.
  destruct (H1 _ _ Hk) as (o2 & Hk2 & G2). destruct (H2 _ _ Hk2) as (o3 & Hk3 & G3).
  exists o3. split; [done|by etransitivity].
Qed.

Lemma tells_grows o o' j : event_grows o o' → tells o j → tells o' j.
Proof. intros [Ht Ha _ _ Hp _ _ _] (T & A & P). unfold tells. by rewrite Ht, Ha, Hp. Qed.

Lemma queued_new {D : DecimalOps} e : queued (outboxToItem e).
Proof.
  exists (oi_GSI1SK (outboxToItem e)). simpl. rewrite eqs_false; [done|]. by destruct (fmtTime _).
Qed.

(** ** The events of a transaction *)

Section Transactions.
Context {H : Host} {D : DecimalOps} {L : DecimalLaws D} {S : Type} {DB : DynamoDB S} {DL : DynamoLaws S DB}.
Context (Hids : Inj (=) (=) host_newid).
Abbreviation TxM A := (M error (TxIn (S:=S) * Env) A).
Implicit Types (x : TxIn (S:=S)) (t : Tx) (s : TxIn (S:=S) * Env) (k : string).

(** The rows of journals and events. *)
Definition news_key k : bool := starts "JRN#" k || outbox_key k.
Abbreviation silent := (frames (S:=S) (same_puts news_key)).

(** Every event of the buffer is new. *)
Definition fresh_events t : Prop :=
  ∀ k pp, outbox_key k = true → tx_puts t !! k = Some pp → ∃ e, pp_item pp = ItOutbox (outboxToItem e).

(** The buffer holds the event of [j], under an id made before. *)
Definition told s j : Prop := ∃ i pp e, (i < e_ids s.2)%nat ∧
  tx_puts (ti_tx s.1) !! outboxPK (host_newid i) = Some pp ∧ pp_item pp = ItOutbox (outboxToItem e) ∧
  tells (outboxToItem e) j.

(** All journals of the buffer have events, but for those that [owed] says. *)
Record telling (owed : journalItem → Prop) s : Prop := {
  tl_fresh : fresh_events (ti_tx s.1);
  tl_told : ∀ k pp j, tx_puts (ti_tx s.1) !! k = Some pp → pp_item pp = ItJournal j → starts "JRN#" k = true → owed j ∨ told s j;
}.
Abbreviation all_told := (telling (λ _, False)).
Definition speaks {A} (body : TxM A) : Prop := ∀ s, all_told s → wpo body (λ _ s', all_told s') s.

Lemma telling_frame owed s s' : framed (same_puts news_key) s s' → telling owed s → telling owed s'.
Proof.
  intros [_ Hi Hp] [Hf Ht]. split.
  - intros k pp Hk. rewrite Hp by (unfold news_key; by rewrite Hk, orb_true_r). by apply Hf.
  - intros k pp j Hpp Hj Hk. rewrite Hp in Hpp by (unfold news_key; by rewrite Hk).
    destruct (Ht _ _ _ Hpp Hj Hk) as [Ho|(i & pp' & e & Hlt & He & Hrest)]; [by left|right].
    exists i, pp', e. split; [by eapply Nat.lt_le_trans|]. split; [|exact Hrest].
    rewrite Hp; [done|]. unfold news_key. by rewrite (starts_app "OBX#" _ : outbox_key (outboxPK _) = true), orb_true_r.
Qed.
Lemma wpo_silent {A} (body : TxM A) owed s : silent body → telling owed s → wpo body (λ _ s', telling owed s') s.
Proof. intros Hb Hs. eapply wp_mono; [apply Hb| |done]. cbv beta. intros a s' Hf. by eapply telling_frame. Qed.

Lemma speaks_silent {A} (body : TxM A) : silent body → speaks body.
Proof. intros Hb s. by apply wpo_silent. Qed.
Lemma speaks_bind {A B} (body : TxM A) (f : A → TxM B) : speaks body → (∀ a, speaks (f a)) → speaks (body ≫= f).
Proof.
  intros Hm Hf s Hs. apply wp_bind. eapply wp_mono; [by apply Hm| |done]. cbv beta. intros a s1 H1. by apply Hf.
Qed.
Lemma speaks_foldM {A B} (f : B → A → TxM B) l b : (∀ b a, speaks (f b a)) → speaks (foldM f l b).
Proof. intros Hf. revert b. induction l as [|a l IH]; intros b; simpl; [apply speaks_silent, (frames_ret _)|]. by apply speaks_bind. Qed.

(** The event of a journal that was owed, or of none. *)
Lemma wpo_event (owed : journalItem → Prop) (ev : string → Time → OutboxEvent) s :
  (∀ id now, ob_ID (ev id now) = id) → (∀ id now j, owed j → tells (outboxToItem (ev id now)) j) →
  telling owed s → wpo (id ← NewID; now ← Now; dy_InsertOutbox (ev id now)) (λ _ s', all_told s') s.
Proof.
  intros Hid Hev [Hf Ht]. destruct s as [x e]. apply wp_bind. unfold wp at 1. cbn [NewID]. apply wp_bind. unfold wp at 1. cbn [Now].
  set (o := ev _ _). unfold dy_InsertOutbox. cbv zeta. apply wpo_modTx_plain. cbn [fst ti_tx] in *.
  assert (Hpk : oi_PK (outboxToItem o) = outboxPK (host_newid (e_ids e))) by (by simpl; unfold o; rewrite Hid).
  rewrite Hpk. set (t' := put_buffer _ _ _ _ _).
  assert (Hmine : ∃ pp, tx_puts t' !! outboxPK (host_newid (e_ids e)) = Some pp ∧ pp_item pp = ItOutbox (outboxToItem o)).
  { unfold t'. rewrite put_buffer_at, lookup_insert_eq. eexists. split; [done|]. by destruct (_ !! _). }
  split; cbn [fst ti_tx].
  - intros k pp Hk Hpp. unfold t' in Hpp. rewrite put_buffer_at in Hpp.
    apply lookup_insert_Some in Hpp as [[_ <-]|[_ Hpp]]; [|by eapply Hf]. exists o. by case_match.
  - intros k pp j Hpp Hj Hk. right. unfold t' in Hpp. rewrite put_buffer_at in Hpp.
    apply lookup_insert_Some in Hpp as [[<- _]|[_ Hpp]]; [done|]. destruct (Ht _ _ _ Hpp Hj Hk) as [Ho|(i & pp' & e' & Hlt & He & Hrest)].
    + destruct Hmine as (pp' & Hpp' & Hi). exists (e_ids e), pp', o. split_and!; [simpl; lia|done|done|by apply Hev].
    + exists i, pp', e'. split; [simpl in *; lia|]. split; [|done]. unfold t'. simpl in *. rewrite put_buffer_at, lookup_insert_ne; [done|].
      intros E. apply (inj (String.append "OBX#")) in E. apply Hids in E. lia.
Qed.
Lemma wpo_event_ret {A} (owed : journalItem → Prop) (ev : string → Time → OutboxEvent) (a : A) s :
  (∀ id now, ob_ID (ev id now) = id) → (∀ id now j, owed j → tells (outboxToItem (ev id now)) j) →
  telling owed s → wpo (id ← NewID; now ← Now; dy_InsertOutbox (ev id now);; mret a) (λ _ s', all_told s') s.
Proof.
  intros Hid Hev Hs. pose proof (wpo_event owed ev s Hid Hev Hs) as Hw. revert Hw.
  unfold wp, mbind, M_bind. destruct s as [x e]. cbn [NewID Now]. by destruct (dy_InsertOutbox _ _) as [[]].
Qed.
Lemma speaks_event {A} (ev : string → Time → OutboxEvent) (a : A) :
  (∀ id now, ob_ID (ev id now) = id) → speaks (id ← NewID; now ← Now; dy_InsertOutbox (ev id now);; mret a).
Proof. intros Hid s Hs. by apply (wpo_event_ret (λ _, False)). Qed.

(** ** A flow *)

(** The journal [jid] is being written; its event is still to come. *)
Definition posting (tn flow jid : string) (j : journalItem) : Prop :=
  ji_TenantID j = tn ∧ ji_FlowRunID j = flow ∧ ji_JournalID j = jid.
Definition writing (tn flow jid : string) s : Prop :=
  telling (posting tn flow jid) s ∧
  ∀ j, tx_journals (ti_tx s.1) !! journalPK tn jid = Some j → posting tn flow jid (journalToItem j).

Lemma journal_not_event tn jid k : outbox_key k = true → journalPK tn jid ≠ k.
Proof. by intros Hk <-. Qed.

Lemma telling_journal owed w ks t e tn jid j c v :
  owed j → telling owed (mkTxIn w ks t, e) → telling owed (mkTxIn w ks (put_buffer (journalPK tn jid) (ItJournal j) c v t), e).
Proof.
  intros Hj [Hf Ht]. cbn [fst ti_tx] in *. split; cbn [fst ti_tx].
  - intros k pp Hk. rewrite put_buffer_at, lookup_insert_ne by (by apply journal_not_event). by apply Hf.
  - intros k pp j' Hpp Hj' Hk. rewrite put_buffer_at in Hpp.
    apply lookup_insert_Some in Hpp as [[_ <-]|[_ Hpp]]; [left; by case_match; simpl in Hj'; simplify_eq|].
    destruct (Ht _ _ _ Hpp Hj' Hk) as [Ho|(i & pp' & o & Hlt & He & Hrest)]; [by left|right].
    exists i, pp', o. split; [done|]. split; [|exact Hrest]. cbn [fst ti_tx] in *.
    rewrite put_buffer_at, lookup_insert_ne; [done|]. by apply journal_not_event, (starts_app "OBX#").
Qed.

Lemma wpo_InsertJournal_writing (a : Journal) s :
  all_told s → wpo (dy_InsertJournal a) (λ _ s', writing (jr_TenantID a) (jr_FlowRunID a) (jr_ID a) s') s.
Proof.
  intros [Hf Ht]. destruct s as [x e]. unfold dy_InsertJournal. cbv zeta.
  apply wp_bind, wpo_modTx_plain, wp_bind, wpo_modTx_plain. cbn [ti_tx ti_world ti_reads].
  match goal with |- wpo _ _ ?st => assert (Hw : writing (jr_TenantID a) (jr_FlowRunID a) (jr_ID a) st) end.
  { split; [apply telling_journal; [done|]; split; [exact Hf|]|].
    - intros k pp j Hpp Hj Hk. destruct (Ht _ _ _ Hpp Hj Hk) as [[]|Hto]. by right.
    - intros j. cbn [fst ti_tx]. rewrite put_buffer_journals. cbn [tx_journals set_journal]. rewrite lookup_insert_eq. by intros [= <-]. }
  destruct Hw as [Hw Hj]. eapply wp_mono; [apply wp_conj; [apply wpo_silent; [|exact Hw]|]| |done].
  - apply frames_put. reflexivity.
  - instantiate (1 := λ _ _, True). instantiate (1 := λ _ s', ∀ j, tx_journals (ti_tx s'.1) !! _ = Some j → posting _ _ _ (journalToItem j)).
    apply wpo_modTx_plain. cbn [fst ti_tx] in *. rewrite put_buffer_journals. exact Hj.
  - cbv beta. by intros _ s' [? ?].
Qed.

Lemma wpo_InsertEntry_writing (tn flow jid eid a c : string) (d : Direction) (amt : dec) s :
  writing tn flow jid s → wpo (dy_InsertEntry tn eid jid a c d amt) (λ _ s', writing tn flow jid s') s.
Proof.
  intros [Ht Hj]. destruct s as [x e]. unfold dy_InsertEntry. cbv zeta. apply wp_bind. unfold wp at 1. cbn [getTx fst] in *.
  destruct (tx_journals (ti_tx x) !! journalPK tn jid) as [j|] eqn:Hjl; [|done].
  specialize (Hj j eq_refl). apply wp_bind, wpo_modTx_plain, wpo_modTx_plain. cbn [ti_tx ti_world ti_reads]. split.
  - apply telling_journal; [exact Hj|]. destruct Ht as [Hf Ht]. by split.
  - intros j'. cbn [fst ti_tx]. rewrite put_buffer_journals. cbn [tx_journals set_journal]. rewrite lookup_insert_eq. by intros [= <-].
Qed.

Lemma wpo_postEntry_writing (tn flow jid : string) state en s :
  writing tn flow jid s → wpo (postEntry tn jid state en) (λ _ s', writing tn flow jid s') s.
Proof.
  intros Hs. unfold postEntry. apply wp_bind. destruct s as [x e]. unfold wp at 1. cbn [NewID]. apply wp_bind.
  eapply wp_mono; [apply (wpo_InsertEntry_writing _ flow)| |done].
  - destruct Hs as [[Hf Ht] Hj]. split; [split; [exact Hf|]|exact Hj].
    intros k pp j Hpp Hjj Hk. destruct (Ht _ _ _ Hpp Hjj Hk) as [Ho|(i & pp' & o & Hlt & Hrest)]; [by left|right].
    exists i, pp', o. split; [simpl in *; lia|exact Hrest].
  - cbv beta. intros _ s' Hs'. destruct (state !! _); [by apply wp_ret|done].
Qed.

(** The row of the step, then its event. *)
Lemma wpo_step_event {A} (flow jid : string) r (fs : string → Time → FlowStep) (ev : string → Time → OutboxEvent) (out : string → Time → A) s :
  (∀ id now, ob_ID (ev id now) = id) →
  (∀ id now j, posting (ef_TenantId r) flow jid j → tells (outboxToItem (ev id now)) j) →
  telling (posting (ef_TenantId r) flow jid) s →
  wpo (a ← NewID; b ← Now; dy_InsertFlowStep (fs a b);; c ← NewID; d ← Now; dy_InsertOutbox (ev c d);; mret (out a b))
    (λ _ s', all_told s') s.
Proof.
  intros Hid Hev Hs.
  apply wp_bind. eapply wp_mono; [apply wpo_silent; [apply (frames_NewID _)|exact Hs]| |done]. cbv beta. intros i s1 H1.
  apply wp_bind. eapply wp_mono; [apply wpo_silent; [apply (frames_Now _)|exact H1]| |done]. cbv beta. intros now s2 H2.
  apply wp_bind. eapply wp_mono; [apply wpo_silent; [|exact H2]| |done].
  { unfold dy_InsertFlowStep, putFlow. cbv zeta. hush. }
  cbv beta. intros _ s3 H3. by eapply wpo_event_ret.
Qed.

Lemma speaks_applyStep r (flow : string) (meta : Meta) acc st : speaks (applyStep r flow meta acc st).
Proof.
  intros s Hs. unfold applyStep. destruct acc as [state results]. destruct (Journal_Validate _); [|done].
  apply wp_bind. destruct s as [x e]. unfold wp at 1. cbn [NewID]. apply wp_bind. unfold wp at 1. cbn [Now]. apply wp_bind.
  eapply wp_mono; [apply wpo_InsertJournal_writing| |done].
  { destruct Hs as [Hf Ht]. split; [exact Hf|]. intros k pp j Hpp Hj Hk.
    destruct (Ht _ _ _ Hpp Hj Hk) as [[]|(i & pp' & o & Hlt & Hrest)]. right. exists i, pp', o. split; [simpl in *; lia|exact Hrest]. }
  cbv beta. intros _ s1 H1. cbn [jr_TenantID jr_FlowRunID jr_ID] in H1. set (jid := host_newid _) in *.
  apply wp_bind. eapply wp_mono; [apply (wp_foldM _ _ _ (λ _ _ s', writing (ef_TenantId r) flow jid s') (λ _ _, True)); [exact H1|]| |done].
  { intros ? ? ? ? ? _. apply wpo_postEntry_writing. }
  cbv beta. intros state' s2 [H2 _].
  apply (wpo_step_event flow jid r (λ a b, mkFlowStep a (ef_TenantId r) flow (Ledger.si_StepID st) StepCompleted jid "" b)
    (λ id now, mkOutboxEvent id (ef_TenantId r) flow (ef_FlowType r +:+ "." +:+ Ledger.si_StepID st) (flow +:+ ":" +:+ Ledger.si_StepID st)
      (stepPayload (ef_FlowType r) (Ledger.si_StepID st) jid) now)
    (λ a b, (state', results ++ [mkFlowStep a (ef_TenantId r) flow (Ledger.si_StepID st) StepCompleted jid "" b]))); [done| |exact H2].
  intros id now j (E1 & E2 & E3). unfold tells. rewrite E1, E2, E3. by split_and!.
Qed.

(** ** The bodies *)

(** Walks a body down to the events it puts. *)
Ltac speak :=
  repeat first
    [ apply speaks_applyStep
    | apply speaks_event; done
    | apply speaks_silent; by hush
    | lazymatch goal with
      | |- speaks (_ ≫= _) => apply speaks_bind; [|intros ?]
      | |- speaks (foldM _ _ _) => apply speaks_foldM; intros ? ?
      | |- speaks (let '(_, _) := ?y in _) => destruct y
      | |- speaks (match ?y with _ => _ end) => destruct y
      end ].

Lemma speaks_executeFlow r : speaks (executeFlowInTx r).
Proof.
  unfold executeFlowInTx, runNewFlow, lockKey, settleKey.
  cbn [tx_GetFlowByIdempotency tx_GetFlowSteps tx_InsertFlowRun tx_GetAccount tx_LockBalance tx_UpdateBalance tx_CompleteFlowRun DynamoTx].
  unfold dy_GetFlowByIdempotency, dy_GetFlowSteps, readFlow, dy_InsertFlowRun, dy_GetAccount, readAccount, dy_LockBalance,
    loadBalance, readBalance, dy_UpdateBalance, loadBalance, readBalance, dy_CompleteFlowRun, putFlow.
  cbv zeta. speak.
Qed.

Lemma speaks_save (tn ev key : string) (payload : Meta) res : speaks (saveReservation tn ev key payload res).
Proof.
  unfold saveReservation. cbn [tx_UpdateReservationAmounts tx_InsertOutbox DynamoTx].
  apply speaks_bind; [|intros _; by apply (speaks_event (λ id now, mkOutboxEvent id _ _ ev key payload now))].
  apply speaks_silent. unfold dy_UpdateReservationAmounts. cbv zeta. hush.
Qed.

Ltac speak_all := repeat first [apply speaks_executeFlow | apply speaks_save | progress speak].

Lemma speaks_tx_body q : speaks (tx_body q).
Proof.
  destruct q; simpl.
  all: unfold createReservationInTx, commitReservationInTx, releaseReservationInTx, expireReservationInTx, exchangeInTx.
  all: cbn [tx_GetReservationByIdempotency tx_InsertReservation tx_LockReservation tx_GetAccount tx_InsertOutbox tx_InsertAccount DynamoTx].
  all: unfold dy_GetReservationByIdempotency, dy_LockReservation, dy_InsertReservation, dy_GetAccount, readAccount, dy_InsertAccount.
  all: cbv zeta; speak_all.
Qed.
End Transactions.

(** ** Commits *)

Section Commits.
Context {H : Host} {D : DecimalOps} {L : DecimalLaws D} {S : Type} {DB : DynamoDB S} {DL : DynamoLaws S DB}.
Context (Hids : Inj (=) (=) host_newid).
Implicit Types (h : list S) (st : S) (m : gmap string Item) (t : Tx) (k : string).

(** What a change of the table does to its events and postings, where only
    the rows of [gone] may leave the queue. *)
Record outbox_goes (gone : string → Prop) m m' : Prop := {
  og_kept : events_kept m m';
  og_told : postings_told m → postings_told m';
  og_queue : ∀ k o, m' !! k = Some (ItOutbox o) → queued o ∨ gone k ∨
    ∃ o0, m !! k = Some (ItOutbox o0) ∧ (queued o0 → queued o);
}.
Lemma outbox_goes_refl gone m : outbox_goes gone m m.
Proof. split; [done|done|]. intros k o Hk. right; right. by exists o. Qed.

(** An event is put where no row is. *)
Lemma new_event_absent t m k pp :
  buffer_ok t → conds_hold t m → outbox_key k = true → tx_puts t !! k = Some pp → m !! k = None.
Proof.
  intros Hok Hc Hk Hpp. destruct (bo_put _ Hok _ _ Hpp) as [Ht Hf]. pose proof (item_typed_outbox _ _ Ht) as Ho.
  rewrite Hk in Ho. specialize (Hc _ _ Hpp). destruct (pp_item pp) as [| | | |o| |] eqn:Hi; try done.
  apply write_fits_unversioned in Hf; [|done]. unfold cond_holds, to_write in Hc. cbn [fst snd] in Hc.
  rewrite Hf, Hi in Hc. destruct Ht as [Hpk _]. rewrite <- Hpk. exact Hc.
Qed.

Lemma written_outbox t m e x :
  ti_tx x = t → buffer_ok t → table_ok m → conds_hold t m → telling (S:=S) (λ _, False) (x, e) →
  outbox_goes (λ _, False) m (written t m).
Proof.
  intros <- Hok Hm Hc [Hf Ht]. cbn [fst] in *. set (t := ti_tx x) in *.
  assert (Hat : ∀ k i, written t m !! k = Some i ↔
    (∃ pp, tx_puts t !! k = Some pp ∧ pp_item pp = i) ∨ (tx_puts t !! k = None ∧ m !! k = Some i)).
  { intros k i. unfold written. rewrite lookup_union, lookup_fmap. destruct (tx_puts t !! k) as [pp|]; simpl.
    - rewrite union_Some_l. naive_solver.
    - rewrite (left_id_L None (∪)). naive_solver. }
  assert (Hold : ∀ k o, m !! k = Some (ItOutbox o) → written t m !! k = Some (ItOutbox o)).
  { intros k o Hk. apply Hat. right. split; [|done]. apply eq_None_not_Some. intros [pp Hpp].
    destruct (Hm _ _ Hk) as [Hty _]. apply item_typed_outbox in Hty.
    by rewrite (new_event_absent t m k pp) in Hk. }
  split.
  - intros k o Hk. exists o. split; [by apply Hold|done].
  - intros Hp k j [(pp & Hpp & Hj)|[_ Hk]]%Hat.
    + destruct (bo_put _ Hok _ _ Hpp) as [Hty _]. assert (Hkey : starts "JRN#" k = true).
      { apply (item_typed_journal _ _ Hty). rewrite Hj. by eexists. }
      destruct (Ht _ _ _ Hpp Hj Hkey) as [[]|(i & pp' & ev & _ & Hpp' & Hev & Htell)].
      exists (outboxPK (host_newid i)), (outboxToItem ev). split; [|done]. apply Hat. left. by exists pp'.
    + destruct (Hp _ _ Hk) as (k' & o & Ho & Htell). exists k', o. split; [by apply Hold|done].
  - intros k o [(pp & Hpp & Ho)|[_ Hk]]%Hat; [left|right; right; by exists o]. destruct (bo_put _ Hok _ _ Hpp) as [Hty _].
    apply item_typed_outbox in Hty. rewrite Ho in Hty. destruct (Hf _ _ Hty Hpp) as [ev Hev].
    rewrite Ho in Hev. injection Hev as ->. apply queued_new.
Qed.

Lemma commit_outbox st x e :
  table_ok (db_items st) → buffer_ok (ti_tx x) → telling (S:=S) (λ _, False) (x, e) →
  outbox_goes (λ _, False) (db_items st) (db_items (dy_Commit ((st, x), e)).2.1.1).
Proof.
  intros Ht Hok Hp.
  assert (Hw : conds_hold (ti_tx x) (db_items st) → outbox_goes (λ _, False) (db_items st) (written (ti_tx x) (db_items st))).
  { intros Hc. by apply (written_outbox _ _ e x). }
  pose proof (wp_Commit st x e Hok) as HC. unfold wp in HC.
  destruct (dy_Commit _) as [[[]|er] s']; cbn [fst snd] in *.
  - destruct HC as (_ & Hc & ->). by apply Hw.
  - destruct HC as [(_ & _ & ->)|[(c & _ & _ & ->)|(_ & [->|(_ & Hc & ->)])]]; [apply outbox_goes_refl..|]. by apply Hw.
Qed.

(** The two updates of an event. *)
Definition takes_off (u : UpdateExpr) : Prop := match u with RemoveGsi1SetPublished _ => True | AddAttempts n => False end.

Lemma update_outbox id u st e :
  (match u with AddAttempts n => (0 ≤ n)%Z | _ => True end) → table_ok (db_items st) →
  outbox_goes (λ k, takes_off u ∧ k = outboxPK id) (db_items st) (db_items (db_UpdateItem (outboxPK id) u (st, e)).2.1).
Proof.
  intros Hn Ht. set (m := db_items st) in *.
  assert (Hu : ∀ i, m !! outboxPK id = Some i →
    outbox_goes (λ k, takes_off u ∧ k = outboxPK id) m (<[outboxPK id := update_item u i]> m)).
  { intros i Hi. destruct (Ht _ _ Hi) as [Hty _]. apply item_typed_outbox in Hty.
    rewrite (starts_app "OBX#" id : outbox_key (outboxPK id) = true) in Hty. destruct i as [| | | |o| |]; try done.
    assert (Ho' : ∃ o', update_item u (ItOutbox o) = ItOutbox o' ∧ event_grows o o' ∧ (takes_off u ∨ (queued o → queued o'))).
    { destruct u as [t0|n]; eexists; (split; [reflexivity|]); (split; [split|]); simpl; try done; try lia; [|by right].
      intros [sk Hsk]. by cbv in Hsk. }
    destruct Ho' as (o' & -> & Hg & Hq).
    assert (Hat : ∀ k o1, m !! k = Some (ItOutbox o1) → ∃ o2, <[outboxPK id := ItOutbox o']> m !! k = Some (ItOutbox o2) ∧ event_grows o1 o2).
    { intros k o1 Hk. destruct (decide (k = outboxPK id)) as [->|Hne].
      - rewrite Hi in Hk. injection Hk as <-. exists o'. by rewrite lookup_insert_eq.
      - exists o1. by rewrite lookup_insert_ne. }
    split; [exact Hat| |].
    - intros Hp k j [[_ ?]|[_ Hk]]%lookup_insert_Some; [done|]. destruct (Hp _ _ Hk) as (k' & o1 & Hk' & Htell).
      destruct (Hat _ _ Hk') as (o2 & Ho2 & G). exists k', o2. split; [done|by eapply tells_grows].
    - intros k o1 [[<- [= <-]]|[_ Hk]]%lookup_insert_Some; [|right; right; by exists o1].
      destruct Hq as [Hoff|Hq]; [by auto|]. right; right. by exists o. }
  pose proof (law_UpdateItem (outboxPK id) u st e) as HU. destruct (db_UpdateItem _ _ _) as [[[]|er] [s' e']]; simpl in *.
  - destruct HU as (i & Hi & ->). by apply Hu.
  - destruct HU as [->|(i & Hi & ->)]; [apply outbox_goes_refl|by apply Hu].
Qed.
End Commits.

(** ** Histories *)

Section Events.
Context {H : Host} {D : DecimalOps} {L : DecimalLaws D} {S : Type} {DB : DynamoDB S} {DL : DynamoLaws S DB}.
Context (Hids : Inj (=) (=) host_newid).
Implicit Types (h : list S) (st : S) (m : gmap string Item) (k : string).

(** A step of [h] marked the event as published. *)
Definition marked h k : Prop :=
  ∃ h1 st1 h2 id e, h = h1 ++ (st_MarkOutboxPublished id (st1, e)).2.1 :: st1 :: h2 ∧ k = outboxPK id.
Lemma marked_cons st h k : marked h k → marked (st :: h) k.
Proof. intros (h1 & st1 & h2 & id & e & -> & Hk). by exists (st :: h1), st1, h2, id, e. Qed.

(** The newest table of a history against all its tables. *)
Record outbox_history st h : Prop := {
  oh_told : postings_told (db_items st);
  oh_queue : ∀ k o, db_items st !! k = Some (ItOutbox o) → queued o ∨ marked (st :: h) k;
  oh_kept : Forall (λ st0, events_kept (db_items st0) (db_items st)) (st :: h);
}.

Lemma outbox_history_cons (gone : string → Prop) st' st h :
  (∀ k, gone k → marked (st' :: st :: h) k) → outbox_goes gone (db_items st) (db_items st') →
  outbox_history st h → outbox_history st' (st :: h).
Proof.
  intros Hgone [Hk Ht Hq] [Pt Pq Pk]. split; [by apply Ht| |].
  - intros k o Ho. destruct (Hq _ _ Ho) as [?|[?|(o0 & Ho0 & Hback)]]; [by left|by right; apply Hgone|].
    destruct (Pq _ _ Ho0) as [?|Hm]; [by left; apply Hback|right; by apply marked_cons].
  - constructor; [done|]. eapply list.Forall_impl; [exact Pk|]. cbv beta. intros st0 Hst0. by etransitivity.
Qed.

Lemma history_outbox hs : history hs → match hs with [] => True | st :: h => outbox_history st h end.
Proof.
  induction 1 as [st Hst|st h id e Hh IH|st h id e Hh IH|st h q w e x e1 Hh IH Hq Hreads Hrun].
  { split; [by intros k j; rewrite Hst, lookup_empty|by intros k o; rewrite Hst, lookup_empty|by constructor]. }
  all: destruct (history_ok Hids _ Hh) as [Ho Hl]; pose proof Ho as [HF _]; inversion HF as [|? ? Ht _]; subst.
  - eapply outbox_history_cons; [|exact (update_outbox id (RemoveGsi1SetPublished (fmtTime (host_now (e_now e)))) st
      (mkEnv (e_ids e) (Datatypes.S (e_now e)) (e_db e)) I Ht)|done].
    intros k [_ ->]. by exists [], st, h, id, e.
  - eapply outbox_history_cons; [|exact (update_outbox id (AddAttempts 1) st e ltac:(done) Ht)|done]. by intros k [[] _].
  - destruct (ordered_reads _ _ _ Ho Hreads) as [Hw Hsteps]. inversion Hl as [|? ? [_ Hpl] _]; subst.
    pose proof (wpo_tx_body Hids (db_items st) Hpl q w e Hw Hsteps Hq) as Hb. eapply wp_ok in Hb; [|exact Hrun].
    assert (Hnew : telling (S:=S) (λ _, False) (mkTxIn w [] newTx, e)) by (split; intros k pp; cbn; rewrite lookup_empty; by intros).
    pose proof (speaks_tx_body Hids q _ Hnew) as Hp. eapply wp_ok in Hp; [|exact Hrun].
    eapply outbox_history_cons; [|apply (commit_outbox st x e1); [done|apply Hb|exact Hp]|done]. by intros k [].
Qed.

(** C9. The outbox on DynamoDB: let any number of clients and dispatchers work
    at the same time, as [dynamo_keeps_books] says. In every table reached each journal has its
    event, of the same tenant and flow and with the journal's id; each event
    is in the index of pending ones unless a dispatcher has marked it; and
    every event of an earlier table is still there, with the same contents,
    no fewer attempts, and pending only if it was pending before. *)
Theorem dynamo_outbox h st st0 :
  history (st :: h) → st0 ∈ st :: h →
  (∀ k j, db_items st !! k = Some (ItJournal j) → ∃ k' o, db_items st !! k' = Some (ItOutbox o) ∧ tells o j) ∧
  (∀ k o, db_items st !! k = Some (ItOutbox o) → queued o ∨ marked (st :: h) k) ∧
  (∀ k o0, db_items st0 !! k = Some (ItOutbox o0) → ∃ o, db_items st !! k = Some (ItOutbox o) ∧ event_grows o0 o).
Proof.
  intros [Ht Hq Hk]%history_outbox Hin. split; [exact Ht|]. split; [exact Hq|].
  rewrite list.Forall_forall in Hk. exact (Hk _ Hin).
Qed.
End Events.
