(* ===== verification/Concrete.v ===== *)
(** * Concrete runs

    The service on the SQLite model with whole-number amounts, a counting id
    generator and clock, and no driver faults: the inputs at which the
    theorems of the development are applied. *)

From S2P Require Import Prelude Money Ledger Retry Repo Contract Sql SqliteDb Sqlite SqliteLaws Service Flow.
From S2P Require Import FlowLaws Books Accounts Reservations ReservationLaws Exchange ExchangeLaws Recon.
From S2P Require Import ReconLaws Worker System Once AccountLaws SqliteSystem SqliteLimits Progress.
From stdpp Require Import base gmap strings list numbers pretty sorting.
From Stdlib Require Import Qcanon.
From Stdlib Require QArith_base.

#[local] Existing Instances ZDecimal ZDecimalLaws.

(** Ids ["id0"], ["id1"], ...; the server clock ticks in seconds, the
    database clock in milliseconds. *)
Definition host : Host := {|
  host_newid n := "id" +:+ pretty n;
  host_now n := (1000000000 * Z.of_nat (S n))%Z;
  host_dbnow n := Z.of_nat n;
  host_fault _ := false;
|}.
#[local] Existing Instance host.

Definition env0 : Env := mkEnv 0 0 0.

Definition engine : SqlEngine ZDecimal := {|
  sql_order_by A le l := merge_sort (λ x y, le x y) l;
  sql_real_sum l := foldr (λ s acc, Z.add (default 0%Z (Z_of_text s)) acc) 0%Z l;
  sql_foreign_keys := true;
|}.
#[local] Existing Instance engine.

Lemma engine_laws : SqlEngineLaws ZDecimal engine.
Proof.
  split.
  - intros A le l. apply merge_sort_Permutation.
  - intros A le l Htot Htr.
    assert (Transitive (λ x y, le x y)) by exact Htr.
    assert (Total (λ x y, le x y)) by exact Htot. apply (StronglySorted_merge_sort _).
Qed.
#[local] Existing Instance engine_laws.

(** ** Requests *)

Definition rq_treasury : CreateAccountRequest := mkCreateAccountRequest "acme" "house" "t" "cash" "USD" 1 true.
Definition rq_alice : CreateAccountRequest := mkCreateAccountRequest "acme" "user" "alice" "cash" "USD" 1 false.
Definition rq_hold : CreateAccountRequest := mkCreateAccountRequest "acme" "user" "alice" "hold" "USD" 1 false.
Definition treasury : string := "house:t:cash:USD".
Definition alice : string := "user:alice:cash:USD".
Definition hold : string := "user:alice:hold:USD".

(** Moves [amt] dollars from the second account to the first. *)
Definition rq_move (key to from amt : string) : ExecuteFlowRequest :=
  moveFlow "acme" "TRANSFER" key "svc" "actor" "move" (key +:+ ":ev") to from "USD" amt.
Definition rq_fund : ExecuteFlowRequest := rq_move "k1" alice treasury "100".
Definition rq_reserve : CreateReservationRequest :=
  mkCreateReservationRequest "acme" "r1" "svc" "actor" alice hold "USD" "40" None None.

Definition opening : list request :=
  [RqCreateAccount rq_treasury; RqCreateAccount rq_alice; RqCreateAccount rq_hold].

(** The store after some requests on an empty database. *)
Definition after (qs : list request) : DB * Env := foldl handle (db_empty, env0) qs.

Definition funded_qs : list request := opening ++ [RqExecuteFlow rq_fund].
Definition reserved_qs : list request := funded_qs ++ [RqCreateReservation rq_reserve].

Definition rq_commit (key : string) : CommitReservationRequest :=
  mkCommitReservationRequest "acme" key "svc" "actor" "id12" "25" treasury.
Definition rq_release (key : string) : ReleaseReservationRequest :=
  mkReleaseReservationRequest "acme" key "svc" "actor" "id12" "15".
Definition rq_over : ExecuteFlowRequest := rq_move "k2" treasury alice "1000".

(** ** Facts the witnesses share *)


Lemma has {A} (o : option A) : match o with Some _ => true | None => false end = true → ∃ a, o = Some a.
Proof. destruct o; [by eauto|done]. Qed.

(** The answer of a run, or [d]. *)
Definition answer {E S A} (d : A) (r : result E A * S) : A := match r.1 with Ok a => a | Err _ => d end.

Lemma lacks {A} (o : option A) : match o with Some _ => false | None => true end = true → o = None.
Proof. by destruct o. Qed.

Lemma two_accounts : NoDup [treasury; alice].
Proof. by apply (bool_decide_eq_true_1 _). Qed.

Lemma all_in (es : list PEntry) (t c : string) (accts : list string) :
  forallb (λ e, bool_decide (pe_account e ∈ accts)) es = true →
  ∀ e, e ∈ es → pe_tenant e = t → pe_currency e = c → pe_account e ∈ accts.
Proof. intros Hall e He _ _. rewrite forallb_forall in Hall. apply (bool_decide_eq_true_1 _), Hall. by apply list_elem_of_In. Qed.

Lemma after_ok qs : ledger_ok (svw (after qs).1) ∧ resv_ok (svw (after qs).1).
Proof. pose proof (handle_all_ok _ qs (db_empty, env0) db_empty_ok) as Hok. split; apply Hok. Qed.

(** A run that succeeds, and the entry a concrete store holds. *)
Ltac run m := let E := fresh "Hrun" in
  destruct (ran m) as (? & ? & E); [by vm_compute|].
Ltac books qs := let H1 := fresh "Hledger" in let H2 := fresh "Hresv" in pose proof (after_ok qs) as [H1 H2].

(** ** The flow engine *)

Lemma ExecuteFlow_refines_witness : ∃ res s' (run : string) l,
  ExecuteFlow rq_fund (after opening) = (Ok res, s') ∧
  svw s'.1 = flow_post rq_fund run l (svw (after opening).1) ∧ res = flow_response run l.
Proof.
  run (ExecuteFlow rq_fund (after opening)).
  destruct (ExecuteFlow_refines _ _ _ _ Hrun) as (steps & run & l & _ & _ & Hv & Hr & _); [by apply lacks; vm_compute|].
  by eauto 10.
Defined.

Lemma ExecuteFlow_idempotent_witness : ∃ res s1 res' s2,
  ExecuteFlow rq_fund (after opening) = (Ok res, s1) ∧ ExecuteFlow rq_fund s1 = (Ok res', s2) ∧
  svw s2.1 = svw s1.1 ∧ er_FlowRunId res' = er_FlowRunId res.
Proof.
  run (ExecuteFlow rq_fund (after opening)).
  run (ExecuteFlow rq_fund (ExecuteFlow rq_fund (after opening)).2). rewrite Hrun in Hrun0. simpl in Hrun0.
  destruct (ExecuteFlow_idempotent _ _ _ _ _ _ Hrun Hrun0) as (Hv & Hid & _); [by apply lacks; vm_compute| |by eauto 10].
  replace x with (match (ExecuteFlow rq_fund (after opening)).1 with Ok a => a | Err _ => x end) by by rewrite Hrun.
  by vm_compute.
Defined.

Definition fund_steps : list StepInput := answer [] (stepsFromProto (ef_Steps rq_fund), tt).

Lemma host_ids_distinct m n : host_newid m = host_newid n → m = n.
Proof. intros Heq%(inj (String.append "id")). by apply (inj pretty) in Heq. Qed.

(** No flow was run yet, so nothing can clash. *)
Lemma opening_no_clash : no_clash rq_fund fund_steps (after opening).1 (after opening).2.
Proof. split; [intros m _; by split|done|split; [by apply (bool_decide_eq_true_1 _)|done]..|done|by vm_compute]. Qed.

Lemma ExecuteFlow_decides_witness : ∃ res s',
  ExecuteFlow rq_fund ((after opening).1, (after opening).2) = (Ok res, s') ∧
  flow_guards rq_fund fund_steps (svw (after opening).1).
Proof.
  pose proof (ExecuteFlow_decides (λ _, eq_refl) host_ids_distinct rq_fund fund_steps (after opening).1 (after opening).2
    eq_refl opening_no_clash) as Hdec.
  rewrite <- surjective_pairing in *. run (ExecuteFlow rq_fund (after opening)). rewrite Hrun in *.
  destruct Hdec as [Hg _]. exists x, x0. split; [reflexivity|exact Hg].
Defined.

(** ** The service as a whole *)

Lemma service_trial_balance_witness :
  let v := svw (foldl handle (after opening) [RqExecuteFlow rq_fund]).1 in
  Qcsum (λ a, (lv_balance v ("acme", a, "USD")).1) [treasury; alice] =
  Qcsum (λ a, (lv_balance v ("acme", a, "USD")).2) [treasury; alice].
Proof.
  books opening. apply (service_trial_balance [RqExecuteFlow rq_fund] _ "acme" "USD" [treasury; alice] Hledger Hresv two_accounts).
  apply all_in. by vm_compute.
Defined.

Lemma service_atomic_witness :
  svw (handle (after funded_qs) (RqExecuteFlow rq_over)).1 = svw (after funded_qs).1.
Proof.
  books funded_qs. apply (service_atomic (RqExecuteFlow rq_over) _ Hledger Hresv); [done|].
  simpl. assert (E : match (ExecuteFlow rq_over (after funded_qs)).1 with Err _ => true | Ok _ => false end = true) by by vm_compute.
  destruct (ExecuteFlow rq_over (after funded_qs)).1 as [?|e]; [done|by exists e].
Defined.

(** ** Reservations *)

Lemma CreateReservation_spec_witness : ∃ p s' (res : Reservation),
  CreateReservation rq_reserve (after funded_qs) = (Ok p, s') ∧ p = reservationToProto res ∧
  rv_outstanding (rview res) = rv_original (rview res) ∧
  lv_resv (svw s'.1) "acme" (rv_id (rview res)) = Some (rview res).
Proof.
  run (CreateReservation rq_reserve (after funded_qs)).
  destruct (CreateReservation_spec _ _ _ _ Hrun) as (a & res & _ & Hp & Hspec).
  rewrite (lacks (lv_resvk (svw (after funded_qs).1) (cr_TenantId rq_reserve) (cr_IdempotencyKey rq_reserve))) in Hspec
    by by vm_compute.
  destruct Hspec as (Ho & Hout & _ & _ & _ & _ & Hv & _).
  exists x, x0, res. split_and!; [assumption|assumption|congruence|].
  rewrite Hv. by rewrite !bool_decide_eq_true_2 by reflexivity.
Defined.

Lemma CommitReservation_spec_witness : ∃ p s' rv rv',
  CommitReservation (rq_commit "c1") (after reserved_qs) = (Ok p, s') ∧
  lv_resv (svw (after reserved_qs).1) "acme" "id12" = Some rv ∧
  rv_outstanding rv' = (rv_outstanding rv - Qc_of_Z 25)%Qc ∧ rv_committed rv' = (rv_committed rv + Qc_of_Z 25)%Qc.
Proof.
  books reserved_qs. run (CommitReservation (rq_commit "c1") (after reserved_qs)).
  destruct (CommitReservation_spec _ _ _ _ Hresv Hrun) as (a & rv & rv' & Ha & Hrv & _ & _ & _ & Hrv' & _).
  assert (Ea : val a = Qc_of_Z 25) by (injection Ha as <-; by apply Qc_is_canon; vm_compute).
  exists x, x0, rv, rv'. rewrite <- Ea, Hrv'. split_and!; first [assumption|reflexivity].
Defined.

Lemma ReleaseReservation_spec_witness : ∃ p s' rv rv',
  ReleaseReservation (rq_release "c1") (after reserved_qs) = (Ok p, s') ∧
  lv_resv (svw (after reserved_qs).1) "acme" "id12" = Some rv ∧
  rv_outstanding rv' = (rv_outstanding rv - Qc_of_Z 15)%Qc ∧ rv_released rv' = (rv_released rv + Qc_of_Z 15)%Qc.
Proof.
  books reserved_qs. run (ReleaseReservation (rq_release "c1") (after reserved_qs)).
  destruct (ReleaseReservation_spec _ _ _ _ Hresv Hrun) as (a & rv & rv' & Ha & Hrv & _ & _ & _ & Hrv' & _).
  assert (Ea : val a = Qc_of_Z 15) by (injection Ha as <-; by apply Qc_is_canon; vm_compute).
  exists x, x0, rv, rv'. rewrite <- Ea, Hrv'. split_and!; first [assumption|reflexivity].
Defined.

Lemma ExpireReservation_spec_witness : ∃ a s' rv,
  ExpireReservation "acme" "id12" (after reserved_qs) = (Ok a, s') ∧
  lv_resv (svw (after reserved_qs).1) "acme" "id12" = Some rv.
Proof.
  books reserved_qs. run (ExpireReservation "acme" "id12" (after reserved_qs)).
  pose proof (ExpireReservation_spec "acme" "id12" (after reserved_qs) Hresv) as Hspec. rewrite Hrun in Hspec.
  destruct Hspec as (rv & Hrv & _). exists x, x0, rv. split; assumption.
Defined.

(** ** Accounts *)

Lemma CreateAccount_spec_witness : ∃ p s',
  CreateAccount rq_alice (after []) = (Ok p, s') ∧ pa_Id p = alice ∧
  lv_balance (svw s'.1) ("acme", alice, "USD") = (0, 0)%Qc.
Proof.
  books (@nil request). run (CreateAccount rq_alice (after [])).
  destruct (CreateAccount_spec _ _ _ _ Hrun) as (_ & Hid & _ & _ & _ & _ & Hz).
  exists x, x0. split; [assumption|]. split; [exact Hid|exact (Hz Hledger)].
Defined.

Definition rq_balance (at_ : option Time) : GetBalanceRequest := mkGetBalanceRequest "acme" alice "USD" at_.

Lemma GetBalance_spec_witness : ∃ p s',
  GetBalance (rq_balance None) (after funded_qs) = (Ok p, s') ∧ svw s'.1 = svw (after funded_qs).1 ∧
  (text_val (pb_PostedDebits p), text_val (pb_PostedCredits p)) =
    posted ("acme", alice, "USD") (lv_entries (svw (after funded_qs).1)).
Proof.
  books funded_qs. run (GetBalance (rq_balance None) (after funded_qs)).
  destruct (GetBalance_spec (rq_balance None) _ _ _ eq_refl Hrun) as (Hv & a & _ & _ & _ & _ & Hp).
  exists x, x0. split; [assumption|]. split; [exact Hv|exact (Hp Hledger)].
Defined.

(** ** Exchange *)

Definition rq_euro (owner : string) (neg : bool) : CreateAccountRequest :=
  mkCreateAccountRequest "acme" "user" owner "cash" "EUR" 1 neg.
Definition exchange_qs : list request :=
  funded_qs ++ [RqCreateAccount (rq_euro "alice" false); RqCreateAccount (rq_euro "desk" true)].
Definition rq_exchange : ExecuteExchangeRequest :=
  mkExecuteExchangeRequest "acme" "x1" "svc" "actor" alice treasury "user:alice:cash:EUR" "user:desk:cash:EUR"
    "10" "20" "2" "desk" None.

Lemma ExecuteExchange_spec_witness : ∃ p s' a b rate,
  ExecuteExchange rq_exchange (after exchange_qs) = (Ok p, s') ∧ exr_RateUsed p = dString rate ∧
  exchange_effect rq_exchange a b rate "USD" "EUR" (svw (after exchange_qs).1) (svw s'.1).
Proof.
  run (ExecuteExchange rq_exchange (after exchange_qs)).
  destruct (ExecuteExchange_spec _ _ _ _ Hrun) as (fa & ta & a & b & rate & Hfa & Hta & _ & _ & Hr & He).
  assert (Ef : acc_Currency <$> lv_acct (svw (after exchange_qs).1) (ex_TenantId rq_exchange) (ex_FromAccountId rq_exchange) = Some "USD")
    by by vm_compute.
  assert (Et : acc_Currency <$> lv_acct (svw (after exchange_qs).1) (ex_TenantId rq_exchange) (ex_ToAccountId rq_exchange) = Some "EUR")
    by by vm_compute.
  rewrite Hfa in Ef. rewrite Hta in Et. injection Ef as Ef. injection Et as Et. rewrite Ef, Et in He.
  exists x, x0, a, b, rate. split; [assumption|]. split; [exact Hr|exact He].
Defined.

(** ** Reconciliation *)

(** The funding journal as the source service saw it, a movement it saw with
    another amount, one the ledger misses, and a movement it did not see. *)
Definition moved_qs : list request :=
  funded_qs ++ [RqExecuteFlow (rq_move "k2" alice treasury "7"); RqExecuteFlow (rq_move "k3" alice treasury "9")].
Definition source_records : list PbExternalRecord :=
  [mkPbExternalRecord "svc" "k1:ev" "100" "USD" (Some 7000000%Z) alice None;
   mkPbExternalRecord "svc" "k2:ev" "8" "USD" (Some 8000000%Z) alice None;
   mkPbExternalRecord "svc" "unknown" "5" "USD" (Some 9000000%Z) "" None].
Definition ingested_qs : list request := moved_qs ++ [RqIngestExternalRecords "acme" source_records].
Definition recon_tx : SqTx * Env := (mkSqTx (after ingested_qs).1 false, (after ingested_qs).2).
Definition recon_run := matcherRun "acme" "svc" 0%Z 1000000000%Z.

Lemma engine_exact : real_sum_exact.
Proof.
  intros l. induction l as [|x l IH]; [apply Z2Qc_inj_0|]. rewrite Qcsum_cons, <- IH. simpl. rewrite Z2Qc_inj_add. f_equal.
  unfold text_val. simpl. destruct (Z_of_text x); [done|apply Z2Qc_inj_0].
Qed.

Lemma matcherRun_spec_witness : ∃ res s3 e,
  recon_run recon_tx = (Ok res, s3) ∧
  mr_Ingested res = 3%Z ∧ mr_Matched res = 1%Z ∧ mr_Mismatched res = 1%Z ∧ mr_MissingInLedger res = 1%Z ∧
  mr_MissingInExternal res = 1%Z ∧
  er_ExternalRef e = "k2:ev" ∧ fst <$> mt_marks s3.1 "acme" (er_ID e) = Some ExternalMismatched.
Proof.
  run (recon_run recon_tx).
  destruct (matcherRun_spec _ _ _ _ _ _ _ Hrun) as (ext & s1 & js & s2 & Hext & Hjs & Hspec).
  assert (Eext : ext = answer [] (tx_ListExternalRecordsForRecon "acme" "svc" 0%Z 1000000000%Z recon_tx)) by by rewrite Hext.
  assert (Es1 : s1 = (tx_ListExternalRecordsForRecon "acme" "svc" 0%Z 1000000000%Z recon_tx).2) by by rewrite Hext.
  assert (Ejs : js = answer [] (tx_ListJournalsForRecon "acme" "svc" 0%Z 1000000000%Z s1)) by by rewrite Hjs.
  rewrite Es1 in Ejs. rewrite Eext, Ejs in Hspec.
  destruct Hspec as (Hi & Hm & Hmm & Hu & _ & Hx & _ & Hmarks & _);
    [intros p; apply engine_exact|by vm_compute|by vm_compute|by apply (bool_decide_eq_true_1 _); vm_compute|
     by apply (bool_decide_eq_true_1 _); vm_compute|].
  destruct (has (answer [] (tx_ListExternalRecordsForRecon "acme" "svc" 0%Z 1000000000%Z recon_tx) !! 1%nat)) as [e He]; [by vm_compute|].
  specialize (Hmarks e (list_elem_of_lookup_2 _ _ _ He)). exists x, x0, e.
  vm_compute in He. injection He as <-.
  split; [assumption|]. rewrite Hi, Hm, Hmm, Hu, Hx, Hmarks. vm_compute. split_and!; reflexivity.
Defined.

(** ** The tables *)

Lemma sqlite_tables_right_witness : ∃ row,
  sel (bal_row "acme" alice "USD") (t_balances (foldl handle (db_empty, env0) funded_qs).1) = Some row ∧
  text_val (b_posted_debits row) =
    entry_total (λ r, entry_at "acme" alice "USD" r && (e_direction r =s DirectionDebit))
      (t_entries (foldl handle (db_empty, env0) funded_qs).1).
Proof.
  destruct (has (sel (bal_row "acme" alice "USD") (t_balances (foldl handle (db_empty, env0) funded_qs).1))) as [row Hrow];
    [by vm_compute|].
  destruct (sqlite_tables_right funded_qs env0 _ _ _ _ Hrow) as (Hd & _). exists row. split; assumption.
Defined.

(** A snapshot, then more movements a while later. *)
Definition snapshot_qs : list request :=
  funded_qs ++ [RqTakeBalanceSnapshot (mkTakeBalanceSnapshotRequest "acme" alice "USD")].
Definition later (s : DB * Env) : DB * Env := (s.1, mkEnv (e_ids s.2) (e_now s.2) 100000).
Definition moved : DB * Env :=
  foldl handle (later (after snapshot_qs)) [RqExecuteFlow (rq_move "k3" treasury alice "5")].

Definition snapshot_check (db : DB) (sn : BalanceSnapshotRow) : bool :=
  let total dir := total_until (sn_tenant_id sn) (sn_account_id sn) (sn_currency sn) dir (sn_snapshot_at sn) (t_entries db) in
  QArith_base.Qeq_bool (text_val (sn_posted_debits sn)) (total debit_row) && QArith_base.Qeq_bool (text_val (sn_posted_credits sn)) (total credit_row).

Lemma snapshot_check_exact db sn : snapshot_check db sn = true → snapshot_exact db sn.
Proof. intros [H1%QArith_base.Qeq_bool_eq H2%QArith_base.Qeq_bool_eq]%andb_true_iff. split; by apply Qc_is_canon. Qed.

Lemma balanceAsOf_exact_witness : ∃ d k ver s',
  balanceAsOf "acme" alice "USD" 1000000000000%Z moved = (Ok (d, k, ver), s') ∧
  length (t_snapshots moved.1) = 1%nat ∧
  val d = total_until "acme" alice "USD" debit_row 1000000%Z (t_entries moved.1) ∧
  val k = total_until "acme" alice "USD" credit_row 1000000%Z (t_entries moved.1).
Proof.
  run (balanceAsOf "acme" alice "USD" 1000000000000%Z moved). destruct x as [[d k] ver].
  destruct (balanceAsOf_exact "acme" alice "USD" 1000000000000%Z moved.1 moved.2 d k ver x0 engine_exact) as [Hd Hk].
  - intros sn Hin _. apply snapshot_check_exact. revert sn Hin. apply check_all. by vm_compute.
  - intros r Hin. apply Z.ltb_lt. revert r Hin.
    apply (check_all (λ r, sqliteTimeFormat time_zero <? e_created_at r)%Z). by vm_compute.
  - by vm_compute.
  - rewrite <- surjective_pairing. exact Hrun.
  - exists d, k, ver, x0. split; [assumption|]. split; [by vm_compute|]. split; [exact Hd|exact Hk].
Defined.

(** ** Theorems of every input, at one *)

Lemma ExecuteFlow_atomic_witness : ∃ e s',
  ExecuteFlow rq_over (after funded_qs) = (Err e, s') ∧ s'.1 = (after funded_qs).1 ∧ ∃ cc h, e = ErrConnect cc h.
Proof.
  pose proof (ExecuteFlow_atomic rq_over (after funded_qs)) as Hat.
  destruct (ExecuteFlow rq_over (after funded_qs)) as [[a|e] s'] eqn:E.
  - apply (f_equal (λ r, match r.1 with Ok _ => true | Err _ => false end)) in E. vm_compute in E. discriminate.
  - exists e, s'. split; [reflexivity|exact Hat].
Defined.

Definition amount (z : Z) : @dec ZDecimal := z.

Lemma ParseAmount_spec_witness : ParseAmount "40" = Ok (amount 40) ∧ ParseAmount "-3" ≠ Ok (amount (-3)).
Proof.
  split.
  - apply (proj1 (ParseAmount_spec "40" (amount 40))). split; [done|]. split; [by vm_compute|]. by apply (Z2Qc_inj_lt 0 40).
  - intros (_ & _ & Hpos)%(proj1 (ParseAmount_spec "-3" (amount (-3)))). by apply (Z2Qc_inj_lt 0 (-3)) in Hpos.
Defined.

Definition sample_journal : Journal :=
  mkJournal "" "" "" "ev" "" "" "" ∅
    [mkEntry alice "USD" DirectionDebit (amount 7); mkEntry treasury "USD" DirectionCredit (amount 7)] 0%Z.

Lemma Journal_Validate_spec_witness : Qcsum (signed_in "USD") (jr_Entries sample_journal) = 0%Qc.
Proof. assert (Hv : Journal_Validate sample_journal = Ok tt) by by vm_compute. by apply Journal_Validate_spec in Hv as (_ & _ & _ & Hz). Defined.

Definition tick_cfg : OutboxConfig := NewDispatcher (mkOutboxConfig 0 0).

Lemma dispatcherTick_safe_witness :
  published_by (accepted [] (answer [] (st_PendingOutbox (oc_BatchSize tick_cfg) (after funded_qs))))
    (t_outbox (after funded_qs).1) (t_outbox (dispatcherTick tick_cfg (after funded_qs, [])).1.1) ∧
  forallb is_published (t_outbox (dispatcherTick tick_cfg (after funded_qs, [])).1.1) = true.
Proof.
  split; [|by vm_compute]. pose proof (dispatcherTick_safe tick_cfg (after funded_qs) []) as Hs.
  destruct (st_PendingOutbox (oc_BatchSize tick_cfg) (after funded_qs)) as [[evs|e] s'] eqn:E.
  - cbv zeta in Hs. cbn [fst] in Hs. unfold answer. exact Hs.
  - apply (f_equal (λ r, match r.1 with Ok _ => true | Err _ => false end)) in E. vm_compute in E. discriminate.
Defined.

Definition small_cfg : OutboxConfig := NewDispatcher (mkOutboxConfig 0 1).

Lemma dispatcher_drains_witness :
  pending_count (t_outbox (after reserved_qs).1) = 3%nat ∧
  Forall (λ r, o_publish_state r ≠ "PENDING")
    (t_outbox (Nat.iter 3 (dispatcherTick small_cfg) (after reserved_qs, [])).1.1).
Proof.
  assert (Hn : pending_count (t_outbox (after reserved_qs).1) = 3%nat) by by vm_compute.
  split; [exact Hn|]. apply dispatcher_drains; [reflexivity|reflexivity|]. rewrite Hn. lia.
Defined.

(** A function that always meets a serialization failure, counting its calls. *)
Definition conflicting : M error nat unit := λ n, (Err (ErrPg "40001"), S n).

Lemma WithRetry_spec_witness :
  ∃ k y r z waits, WithRetry (λ _ d, d) (λ _, None) 3 conflicting (0%nat, []) = (r, (z, waits)) ∧
    (k <= 3)%nat ∧ retry_end (λ _, None) conflicting 3 k y r z.
Proof.
  destruct (WithRetry_spec (λ _ d, d) (λ _, None) 3 conflicting 0%nat)
    as (k & y & r & z & waits & Hr & _ & _ & Hk & _ & _ & He).
  exists k, y, r, z, waits. split; [exact Hr|]. split; [exact Hk|exact He].
Defined.

Definition sample_steps : list StepInput := [mkStepInput "s" sample_journal].

Lemma orderedKeys_canonical_witness : NoDup (orderedKeys sample_steps) ∧ orderedKeys sample_steps = [(treasury, "USD"); (alice, "USD")].
Proof. destruct (orderedKeys_canonical sample_steps) as [Hn _]. split; [exact Hn|by vm_compute]. Defined.

Lemma ToConnectError_faithful_witness : as_domain (ToConnectError (ErrDomain CodeInsufficientFunds)) = Some CodeInsufficientFunds.
Proof. by destruct (ToConnectError_faithful (ErrDomain CodeInsufficientFunds)) as [Hd _]. Defined.

(** ** A second tenant, and one clock tick *)

Definition rq_alice_beta : CreateAccountRequest := mkCreateAccountRequest "beta" "user" "alice" "cash" "USD" 1 false.
Definition rq_fund_beta : ExecuteFlowRequest :=
  moveFlow "beta" "TRANSFER" "k1" "svc" "actor" "move" "k1:beta" alice treasury "USD" "1".

Lemma CreateAccount_id_taken_witness : 
  refused (after opening).1 (CreateAccount rq_alice_beta ((after opening).1, (after opening).2)).
Proof.
  destruct (has (sel (λ a, a_id a =s alice) (t_accounts (after opening).1))) as [row Hrow]; [by vm_compute|].
  apply (CreateAccount_id_taken rq_alice_beta (after opening).1 (after opening).2 row).
  - by apply sel_some in Hrow as [Hin _].
  - by apply sel_some in Hrow as [_ Hk%bool_decide_eq_true_1].
Defined.

Lemma ExecuteFlow_key_taken_witness : 
  refused (after funded_qs).1 (ExecuteFlow rq_fund_beta ((after funded_qs).1, (after funded_qs).2)).
Proof.
  destruct (has (sel (λ f, f_idempotency_key f =s "k1") (t_flows (after funded_qs).1))) as [row Hrow]; [by vm_compute|].
  apply (ExecuteFlow_key_taken rq_fund_beta (after funded_qs).1 (after funded_qs).2 row
           (answer [] (stepsFromProto (ef_Steps rq_fund_beta), tt))).
  - by apply sel_some in Hrow as [Hin _].
  - by apply sel_some in Hrow as [_ Hk%bool_decide_eq_true_1].
  - intros f Hf _.
    assert (Hall : forallb (λ f, negb (f_tenant_id f =s "beta")) (t_flows (after funded_qs).1) = true) by by vm_compute.
    rewrite forallb_forall in Hall. apply list_elem_of_In, Hall in Hf. apply negb_true_iff in Hf. by apply bool_decide_eq_false_1 in Hf.
  - by vm_compute.
Defined.

(** A host whose clocks stand still while a snapshot is taken. *)
Definition frozen : Host := {|
  host_newid n := "id" +:+ pretty n; host_now _ := 1000000000%Z; host_dbnow _ := 1000%Z; host_fault _ := false |}.
#[local] Existing Instance frozen | 0.

Definition frozen_qs : list request :=
  funded_qs ++ [RqTakeBalanceSnapshot (mkTakeBalanceSnapshotRequest "acme" alice "USD");
                RqExecuteFlow (rq_move "k4" alice treasury "5")].
Definition frozen_store : DB * Env := foldl (handle) (db_empty, env0) frozen_qs.
Definition debits_at (at_ : option Time) : option string :=
  match (GetBalance (rq_balance at_) frozen_store).1 with Ok p => Some (pb_PostedDebits p) | Err _ => None end.

(** An entry posted in the millisecond of a snapshot, after it, is in no
    balance as of a later instant: the account's debits are 105 now but 100
    as of any instant an hour later. *)
Theorem balanceAsOf_misses_an_entry :
  debits_at None = Some "105" ∧ debits_at (Some 3600000000000%Z) = Some "100".
Proof. by vm_compute. Qed.
