(* ===== verification/InterleaveRun.v ===== *)
(** * A busy SQLite ledger, run

    Two clients, a scheduler and two dispatchers interleaved on concrete
    requests, and requests that race with one idempotency key: the inputs at
    which the theorems on interleaved threads are applied, an event that two
    dispatchers deliver twice, as the documentation lets them, and a snapshot
    that a posting interrupts. *)

From S2P Require Import Prelude Money Ledger Repo Contract Sql SqliteDb Sqlite SqliteLaws Service Flow FlowLaws Books.
From S2P Require Import Accounts Reservations ReservationLaws Exchange Recon Worker System SqliteSystem Concrete Rpc Threads Interleave Once Races Dispatch SqliteDispatch.
From stdpp Require Import base gmap strings list numbers pretty.
From Stdlib Require Import Qcanon.

#[local] Existing Instances ZDecimal ZDecimalLaws host engine engine_laws.

(** Funds alice; then, if that worked, reserves some of it. *)
Definition payer : Script :=
  Call PExecuteFlow rq_fund (λ r, match r with
    | Ok _ => Call PCreateReservation rq_reserve (λ _, Stop)
    | Err _ => Stop
    end).
(** Looks at a balance, sends the funding again, whatever it saw. *)
Definition repeater : Script :=
  Call PGetBalance (mkGetBalanceRequest "acme" alice "USD" None) (λ _, Call PExecuteFlow rq_fund (λ _, Stop)).

Definition crowd : list Task :=
  [TClient payer; TClient repeater; TScheduler defaultConfig [SnapC; ExpC; RetC];
   TDispatcher tick_cfg [true; true]; TDispatcher tick_cfg [true]].

Definition idle_sink : (DB * Env) * (list OutboxEvent * list string) := (after opening, ([], [])).
Abbreviation crowd_after l := (process (R := SqRepoTx) crowd idle_sink l).

(** The turns of the threads: each does a little between the others. *)
Definition turns : list nat := [1; 2; 0; 3; 4; 3; 4; 2; 1; 3; 0; 4; 2; 1; 3; 3; 2; 0; 2; 2; 3; 3; 2; 2; 2; 2; 2]%nat.

Lemma interleaved_keeps_books_witness :
  let v := svw (crowd_after turns).1.1 in
  (∀ k, lv_balance v k = posted k (lv_entries v)) ∧
  length (lv_entries v) = 4%nat ∧ length (lv_outbox v) = 3%nat.
Proof.
  destruct (after_ok opening) as [Hl Hr]. split; [|split; vm_compute; reflexivity].
  exact (proj1 (interleaved_keeps_books crowd turns idle_sink Hl Hr)).
Defined.

Lemma interleaved_dispatch_safe_witness :
  let y := crowd_after turns in
  (∃ old new, outbox_rows y.1.1 = old ++ new ∧ published_rows y.2.2 (outbox_rows idle_sink.1.1) old ∧
    ∀ r, r ∈ new → or_published r = true → or_id r ∈ y.2.2) ∧
  or_published <$> outbox_rows y.1.1 = [true; true; false].
Proof.
  split; [|vm_compute; reflexivity].
  exact (proj2 (interleaved_dispatch_safe (gs := outbox_rows) (gt := λ t, outbox_rows (tx_db t)) crowd turns idle_sink)).
Defined.

(** ** Requests that race *)

Lemma answers {E A} (r : result E A) : match r with Ok _ => true | Err _ => false end = true → ∃ a, r = Ok a.
Proof. destruct r as [a|e]; [by exists a|done]. Qed.

(** Two clients send the same funding, two the same reservation, and two the
    same commit of a reservation; a dispatcher runs. *)
Definition once (p : Procedure) (r : Req p) : Task := TClient (Call p r (λ _, Stop)).
Definition racers : list Task :=
  [once PExecuteFlow rq_fund; once PExecuteFlow rq_fund; once PCreateReservation rq_reserve;
   once PCreateReservation rq_reserve; once PCommitReservation (rq_commit "c1"); once PCommitReservation (rq_commit "c1");
   TDispatcher tick_cfg [true; true]].
Abbreviation race_from x l := (schedule (thread (R := SqRepoTx) <$> racers, x) l).

Lemma interleaved_append_only_witness :
  lv_entries (ledger_of idle_sink) `prefix_of` lv_entries (ledger_of (crowd_after turns)) ∧
  length (lv_entries (ledger_of (crowd_after turns))) = 4%nat.
Proof.
  destruct (after_ok opening) as [Hl Hr]. split; [|vm_compute; reflexivity].
  exact (proj1 (interleaved_append_only crowd idle_sink turns Hl Hr)).
Defined.

Definition reserved_sink : (DB * Env) * (list OutboxEvent * list string) := (after reserved_qs, ([], [])).

Lemma interleaved_reservation_life_witness : ∃ rv rv',
  lv_resv (ledger_of reserved_sink) "acme" "id12" = Some rv ∧
  lv_resv (ledger_of (process (R := SqRepoTx) racers reserved_sink [6; 5; 6; 4]%nat)) "acme" "id12" = Some rv' ∧
  rtc resv_step rv rv'.
Proof.
  destruct (after_ok reserved_qs) as [Hl Hr].
  destruct (has (lv_resv (ledger_of reserved_sink) "acme" "id12")) as [rv Hrv]; [by vm_compute|].
  destruct (interleaved_reservation_life racers reserved_sink [6; 5; 6; 4]%nat _ _ _ Hl Hr Hrv) as (rv' & Hrv' & Hsteps & _).
  exists rv, rv'. split_and!; assumption.
Defined.

Lemma racing_flows_post_once_witness :
  let s1 := race_from idle_sink [6]%nat in let s3 := schedule (step s1 0) [6; 2; 6]%nat in
  ledger_of (step s3 1).2 = ledger_of s3.2.
Proof.
  destruct (after_ok opening) as [Hl Hr]. intros s1 s3.
  assert (Hok : ∃ a, reply s1 PExecuteFlow rq_fund = Ok a) by (apply answers; vm_compute; reflexivity).
  assert (H1 : calling s1 0 PExecuteFlow rq_fund) by (refine (calling_first racers _ _ 0 PExecuteFlow rq_fund (λ _, Stop) eq_refl eq_refl _); compute_done).
  assert (H3 : calling s3 1 PExecuteFlow rq_fund) by (refine (calling_second racers _ _ _ _ 1 PExecuteFlow rq_fund (λ _, Stop) eq_refl eq_refl _); compute_done).
  pose proof (racing_flows_post_once racers idle_sink [6]%nat [6; 2; 6]%nat 0 1 rq_fund rq_fund Hl Hr eq_refl eq_refl) as Hrace.
  cbv zeta in Hrace. destruct Hok as [a Ha]. exact (proj1 (proj2 (Hrace H1 H3) a Ha)).
Defined.

Lemma racing_creations_reserve_once_witness :
  let s1 := race_from idle_sink [0; 6]%nat in let s3 := schedule (step s1 2) [6; 1; 6]%nat in
  ledger_of (step s3 3).2 = ledger_of s3.2.
Proof.
  destruct (after_ok opening) as [Hl Hr]. intros s1 s3.
  assert (Hok : ∃ a, reply s1 PCreateReservation rq_reserve = Ok a) by (apply answers; vm_compute; reflexivity).
  assert (H1 : calling s1 2 PCreateReservation rq_reserve) by (refine (calling_first racers _ _ 2 PCreateReservation rq_reserve (λ _, Stop) eq_refl eq_refl _); compute_done).
  assert (H3 : calling s3 3 PCreateReservation rq_reserve) by (refine (calling_second racers _ _ _ _ 3 PCreateReservation rq_reserve (λ _, Stop) eq_refl eq_refl _); compute_done).
  pose proof (racing_creations_reserve_once racers idle_sink [0; 6]%nat [6; 1; 6]%nat 2 3 rq_reserve rq_reserve Hl Hr eq_refl eq_refl) as Hrace.
  cbv zeta in Hrace. destruct Hok as [a Ha]. exact (proj1 (proj2 (Hrace H1 H3) a Ha)).
Defined.

Lemma racing_moves_count_once_witness :
  let s1 := race_from reserved_sink [6]%nat in let s3 := schedule (step s1 5) [6; 6]%nat in
  (∃ e, reply s3 PCommitReservation (rq_commit "c1") = Err e) ∧ ledger_of (step s3 4).2 = ledger_of s3.2.
Proof.
  destruct (after_ok reserved_qs) as [Hl Hr]. intros s1 s3.
  assert (Hok : ∃ a, reply s1 PCommitReservation (rq_commit "c1") = Ok a) by (apply answers; vm_compute; reflexivity).
  assert (H1 : calling s1 5 PCommitReservation (rq_commit "c1")) by (refine (calling_first racers _ _ 5 PCommitReservation (rq_commit "c1") (λ _, Stop) eq_refl eq_refl _); compute_done).
  assert (H3 : calling s3 4 PCommitReservation (rq_commit "c1")) by (refine (calling_second racers _ _ _ _ 4 PCommitReservation (rq_commit "c1") (λ _, Stop) eq_refl eq_refl _); compute_done).
  pose proof (racing_moves_count_once racers reserved_sink [6]%nat [6; 6]%nat 5 4 PCommitReservation PCommitReservation
    (rq_commit "c1") (rq_commit "c1") "id12:committed:c1" Hl Hr) as Hrace.
  cbv zeta in Hrace. exact (Hrace eq_refl eq_refl H1 H3 (or_introl Hok)).
Defined.

(** The client that lost the answer to a commit and repeats it with its key is
    refused: 25 of the 40 are committed, and what is left is too little for
    another 25; were it enough, the flow would be replayed and the outbox
    event would break its UNIQUE key; and once all is committed the
    reservation is closed. *)
Definition commit_again (amount again : string) : result error PbReservation :=
  let r k a := mkCommitReservationRequest "acme" k "svc" "actor" "id12" a treasury in
  (CommitReservation (r "c1" again) (CommitReservation (r "c1" amount) (after reserved_qs)).2).1.
Example repeated_commit_refused :
  commit_again "25" "25" = Err (ErrConnect CodeInvalidArgument (Some CodeReservationAmountExceeds)) ∧
  commit_again "15" "15" = Err (ErrConnect CodeInternal None) ∧
  commit_again "40" "40" = Err (ErrConnect CodeFailedPrecondition (Some CodeReservationClosed)).
Proof. by vm_compute. Qed.

(** Both dispatchers read the pending events before either marks one: the
    sink accepts the funding event twice. *)
Example delivered_twice :
  let sink := (crowd_after [0; 3; 4; 3; 4]%nat).2 in
  length sink.1 = 2%nat ∧ length (remove_dups (ob_ID <$> sink.1)) = 1%nat ∧ sink.2 = ob_ID <$> sink.1.
Proof. by vm_compute. Qed.

(** ** A snapshot in the middle of a posting

    [TakeBalanceSnapshot] reads the clock, then the balance, then writes the
    snapshot, in three steps.  Here a flow runs between the first two.  The
    clocks of the server and of the database agree: both show the first
    second up to the moment the snapshot has read its time, and the next one
    from then on. *)

Definition requests_before : list request := funded_qs.
Definition clock_reads : nat := Datatypes.S (e_now (after requests_before).2).
Definition statements : nat := e_db (after requests_before).2.
Definition turning : Host := {|
  host_newid n := "id" +:+ pretty n;
  host_now n := if (n <? clock_reads)%nat then 1000000000%Z else 2000000000%Z;
  host_dbnow n := if (n <? statements)%nat then 1000%Z else 2000%Z;
  host_fault _ := false |}.

Definition snapshotting : list Task :=
  [TClient (Call PTakeBalanceSnapshot (mkTakeBalanceSnapshotRequest "acme" alice "USD") (λ _, Stop));
   TClient (Call PExecuteFlow (rq_move "k4" alice treasury "5") (λ _, Stop))].
Definition turning_store (l : list nat) : DB * Env :=
  let s0 := foldl (handle (H := turning)) (db_empty, env0) requests_before in
  (process (H := turning) (R := SqRepoTx (H := turning)) (ST := SqRepoStore (H := turning)) (K := list OutboxEvent)
     snapshotting (s0, ([], [])) l).1.
Definition turning_debits (l : list nat) (at_ : option Time) : option string :=
  match (GetBalance (ST := SqRepoStore (H := turning)) (mkGetBalanceRequest "acme" alice "USD" at_) (turning_store l)).1 with
  | Ok p => Some (pb_PostedDebits p)
  | Err _ => None
  end.

(** A snapshot that another request interrupts counts an entry twice: the
    entry is in the balance the snapshot stores, and is later than the
    snapshot's time.  The account's debits are 105, but 110 as of any instant
    an hour later; with the two requests one after the other they are 105. *)
Theorem snapshot_counts_an_entry_twice :
  turning_debits [0; 1; 0; 0; 0]%nat None = Some "105" ∧
  turning_debits [0; 1; 0; 0; 0]%nat (Some 3600000000000%Z) = Some "110" ∧
  turning_debits [0; 0; 0; 0; 1]%nat (Some 3600000000000%Z) = Some "105".
Proof. by vm_compute. Qed.
