(* ===== verification/WalletRun.v ===== *)
(** * The wallet, run

    A wallet on an embedded SQLite ledger and on the same ledger over a
    network that loses its first answer: the inputs at which the wallet
    theorems are applied, open reservations that [GetWallet] does not list,
    and a wallet torn by a reservation made while it is read. *)

From S2P Require Import Prelude Money Ledger Repo Contract Sql SqliteDb Sqlite SqliteLaws Service Flow FlowLaws Books.
From S2P Require Import Accounts Reservations Exchange Recon Worker System SqliteSystem Concrete Rpc Node Wallet WalletLaws WalletSqlite.
From stdpp Require Import base gmap strings list numbers pretty.
From Stdlib Require Import Qcanon.

#[local] Existing Instances ZDecimal ZDecimalLaws host engine engine_laws.

(** Texts are UTF-8. *)
Definition utf8 : Structpb := {| NewStruct m := Some m |}.
#[local] Existing Instance utf8.

(** The answer of the first call is lost, the others arrive. *)
Definition lossy : Connect := {|
  rpc_fate n := match n with O => AnswerLost (ErrOther "connection reset") | _ => Delivered end;
  header_received v := v;
  url_path url := String.substring 13 (String.length url - 13) url;
  wire_error e := e;
  not_found := ErrOther "404";
  wrong_message := ErrOther "message";
|}.
#[local] Existing Instance lossy.
Lemma lossy_laws : ConnectLaws lossy.
Proof. done. Qed.
#[local] Existing Instance lossy_laws.

Definition wallet : Wallet := NewWallet "acme" [].
Definition url : string := "http://ledger/".

Lemma substring_whole s : String.substring 0 (String.length s) s = s.
Proof. induction s as [|a s IH]; simpl; [done|by rewrite IH]. Qed.
Lemma url_ok path : url_path (TrimRight_slash url +:+ path) = path.
Proof.
  change (String.substring 0 (String.length path - 0) path = path). rewrite Nat.sub_0_r. apply substring_whole.
Qed.

Definition treasury_open : DB * Env := after [RqCreateAccount rq_treasury].
Definition player_open : DB * Env := (EnsurePlayerAccounts embeddedClient wallet "bob" "USD" treasury_open).2.

Definition deposit (key amount : string) : DepositInput :=
  mkDepositInput "bob" "USD" amount treasury (key +:+ ":ev") key "svc".
Definition reserve (key amount : string) : ReserveInput := mkReserveInput "bob" "USD" amount time_zero key "svc" ∅.

Definition funded : DB * Env := (Deposit embeddedClient wallet (deposit "d1" "500") player_open).2.
Fixpoint reserved (n : nat) : DB * Env :=
  match n with
  | O => funded
  | Datatypes.S n' => (Reserve embeddedClient wallet (reserve ("r" +:+ pretty n) "1") (reserved n')).2
  end.

Definition remote : LedgerService (Remote (S := DB)) := NewRemote url "acme".
Definition online (s : DB * Env) : Remote (S := DB) := mkRemote (s, []) 0.

(** The wallet does not see all open reservations: it asks for no page
    size and gets the first 100 of a status.  A player with 101 reservations
    of one dollar, all HELD, has 101 dollars reserved, and [GetWallet] answers
    with 100 of them. *)
Theorem GetWallet_misses_a_reservation :
  let s := reserved 101 in
  length (open_rows wallet s.1 "bob" "HELD") = 101%nat ∧
  ∃ snap, (GetWallet embeddedClient wallet "bob" "USD" s).1 = Ok snap ∧
    ws_Reserved snap = 101%Z ∧ length (ws_OpenReservations snap) = 100%nat.
Proof.
  cbv zeta.
  assert (Hc : match (GetWallet embeddedClient wallet "bob" "USD" (reserved 101)).1 with
    | Ok snap => ((ws_Reserved snap : Z) =? 101)%Z && (length (ws_OpenReservations snap) =? 100)%nat &&
                 (length (open_rows wallet (reserved 101).1 "bob" "HELD") =? 101)%nat
    | Err _ => false end = true) by (vm_compute; reflexivity).
  destruct (GetWallet embeddedClient wallet "bob" "USD" (reserved 101)).1 as [snap|]; [|discriminate].
  apply andb_true_iff in Hc as [[H1%Z.eqb_eq H2%Nat.eqb_eq]%andb_true_iff H3%Nat.eqb_eq]. split; [exact H3|].
  exists snap. split; [reflexivity|]. split; [exact H1|exact H2].
Qed.

(** ** Theorems applied *)

Lemma remote_is_embedded_witness : ∃ res,
  ((remote PPostJournal) (mkPostJournalRequest "acme" "d1" "svc" "" None) (mkRemote (player_open, []) 1)).1 = res ∧
  res = (embeddedClient PPostJournal (mkPostJournalRequest "acme" "d1" "svc" "" None) player_open).1.
Proof.
  pose proof (remote_is_embedded url "acme" PPostJournal (mkPostJournalRequest "acme" "d1" "svc" "" None)
    (mkRemote (player_open, []) 1) url_ok eq_refl) as E.
  eexists. split; [reflexivity|]. exact (f_equal fst E).
Defined.

Definition nobody (n : nat) (x : Remote (S := DB)) : Remote (S := DB) := x.

(** The first attempt is served but its answer lost; the second is answered. *)
Lemma retry_exactly_once_witness : ∃ rc j x',
  retry remote remote_served wallet nobody 3 (OpDeposit (deposit "d1" "500")) (online player_open) =
    ((Some rc, op_entries wallet j (OpDeposit (deposit "d1" "500"))), x').
Proof.
  pose proof (retry_exactly_once remote remote_served wallet nobody 3 (OpDeposit (deposit "d1" "500")) (online player_open)
    (λ _ _, eq_refl) eq_refl) as Hr.
  assert (Ho : match (retry remote remote_served wallet nobody 3 (OpDeposit (deposit "d1" "500")) (online player_open)).1.1
    with Some _ => true | None => false end = true) by (vm_compute; reflexivity).
  destruct (retry _ _ _ _ _ _ _) as [[o l] x']. simpl in Ho. destruct o as [rc|]; [|discriminate].
  destruct Hr as [[[_ [=]]|[j ->]] _]. by exists rc, j, x'.
Defined.

Lemma EnsurePlayerAccounts_spec_witness : ∃ pa,
  pl_Available pa = "user:bob:cash_available:USD" ∧
  lv_acct (svw player_open.1) "acme" "user:bob:cash_available:USD" =
    Some (player_account wallet "bob" "cash_available" "USD").
Proof.
  destruct (ran (EnsurePlayerAccounts embeddedClient wallet "bob" "USD" treasury_open)) as (pa & s' & Hrun); [vm_compute; reflexivity|].
  destruct (EnsurePlayerAccounts_spec embeddedClient id wallet "bob" "USD" treasury_open pa s' sqlite_never_exists Hrun)
    as (Ha & _ & _ & Hv).
  exists pa. split; [exact Ha|]. unfold player_open. rewrite Hrun. exact (Hv "acme" "user:bob:cash_available:USD").
Defined.

(** Bob reserves 200 of his 500 while [GetWallet] is between its first two
    calls. *)
Definition reserving (n : nat) (s : DB * Env) : DB * Env :=
  match n with 1%nat => (Reserve embeddedClient wallet (reserve "r200" "200") s).2 | _ => s end.

Lemma GetWallet_spec_witness : ∃ snap x1 x2 x3 x4,
  GetWallet (among reserving) wallet "bob" "USD" (funded, O) = (Ok snap, x4) ∧
  read_at reserving (funded, O) x1 ∧ read_at reserving x1 x2 ∧ read_at reserving x2 x3 ∧ read_at reserving x3 x4 ∧
  shows_balance wallet (svw funded.1) "user:bob:cash_available:USD" "USD" (ws_Available snap).
Proof.
  destruct (ran (GetWallet (among reserving) wallet "bob" "USD" (funded, O))) as (snap & x4 & Hrun); [vm_compute; reflexivity|].
  destruct (GetWallet_spec wallet reserving "bob" "USD" _ _ _ Hrun) as (x1 & x2 & x3 & H1 & H2 & H3 & H4 & Hav & _).
  exists snap, x1, x2, x3, x4. split_and!; assumption.
Defined.

(** What [GetWallet] calls a snapshot is not one: its two amounts are of two
    moments.  Bob has 500 and reserves 200 of them between the two reads; he
    is shown 500 available and 200 reserved, as well as the reservation. *)
Example GetWallet_tears :
  match (GetWallet (among reserving) wallet "bob" "USD" (funded, O)).1 with
  | Ok snap => (ws_Available snap, ws_Reserved snap, sr_OutstandingAmount <$> ws_OpenReservations snap) = (500%Z, 200%Z, ["200"])
  | Err _ => False
  end.
Proof. by vm_compute. Qed.

(** A deposit whose answer is lost, its retry, a reservation by the embedded
    client, and the two loops. *)
Definition busy : list Event :=
  let dep := mkPostJournalRequest "acme" "d1" "svc" "" (Some (mkPbJournal "d1:ev"
    [mkPbEntry "user:bob:cash_available:USD" "USD" DIRECTION_DEBIT "500"; mkPbEntry treasury "USD" DIRECTION_CREDIT "500"])) in
  [EvEmbedded PCreateAccount (mkCreateAccountRequest "acme" "user" "bob" "cash_available" "USD" 1 false);
   EvRemote url "acme" PPostJournal dep; EvDispatcher tick_cfg [true; true]; EvRemote url "acme" PPostJournal dep;
   EvEmbedded PGetAccount (mkGetAccountRequest "acme" treasury); EvScheduler defaultConfig [ExpC; SnapC; CtxDone; RetC]].

Lemma process_keeps_books_witness :
  let n := mkNode (online (after opening)) ([] : list OutboxEvent) in
  let v := svw (nd_store (foldl node_step n busy)).1 in
  (∀ k, lv_balance v k = posted k (lv_entries v)) ∧ length (lv_entries v) = 2%nat.
Proof.
  destruct (after_ok opening) as [Hl Hr]. split; [|vm_compute; reflexivity].
  exact (proj1 (process_keeps_books busy (mkNode (online (after opening)) []) Hl Hr)).
Defined.
