(* ===== verification/DynamoRun.v ===== *)
(** * Concrete runs on a table in memory

    A DynamoDB that keeps its items in a map and fails when the host says so.
    It keeps [DynamoLaws]; the service runs on it, and the theorems of the
    backend are applied there. *)

From S2P Require Import Prelude Money Ledger Retry Repo Contract Service Flow Accounts Reservations ReservationLaws Worker System Concrete.
From S2P Require Import Rfc3339 DynamoItems Dynamo DynamoLaws DynamoOps DynamoCommit DynamoSerial DynamoBound DynamoBooks DynamoPost DynamoHistory DynamoOnce DynamoResv DynamoOutbox.
From stdpp Require Import base gmap strings list numbers sorting pretty.

Abbreviation Table := (gmap string Item).

(** ** The instance *)

Section Memory.
Context {H : Host}.

Definition spend (e : Env) : Env := mkEnv (e_ids e) (e_now e) (Datatypes.S (e_db e)).

Definition in_index (ix : Index) (hash : string) (below : option string) (i : Item) : bool :=
  match index_key ix i with
  | Some (pk, sk) => (pk =s hash) && match below with Some b => String.ltb sk b | None => true end
  | None => false
  end.
Definition index_leb (ix : Index) (i j : Item) : bool :=
  match index_key ix i, index_key ix j with
  | Some (_, a), Some (_, b) => String.leb a b
  | _, _ => true
  end.

Definition memory : DynamoDB Table := {|
  db_GetItem k := λ '(m, e), ((if host_fault (e_db e) then Err (ErrOther "get") else Ok (m !! k)), (m, spend e));
  db_TransactWriteItems ws := λ '(m, e),
    if host_fault (e_db e) then (TwFailed, (m, spend e))
    else if forallb (λ w, bool_decide (cond_holds m w)) ws then (TwOk, (apply_writes ws m, spend e))
    else (TwCanceled ((λ w, if bool_decide (cond_holds m w) then None else Some ConditionalCheckFailed) <$> ws), (m, spend e));
  db_Query ix hash below limit := λ '(m, e),
    ((if host_fault (e_db e) then Err (ErrOther "query")
      else Ok (take (Z.to_nat limit) (merge_sort (λ x y, index_leb ix x y)
        (List.filter (in_index ix hash below) (snd <$> map_to_list m))))), (m, spend e));
  db_UpdateItem pk x := λ '(m, e),
    if host_fault (e_db e) then (Err (ErrOther "update"), (m, spend e))
    else match m !! pk with
         | Some i => (Ok tt, (<[pk := update_item x i]> m, spend e))
         | None => (Err (ErrOther "update"), (m, spend e))
         end;
|}.

Definition memory_laws : DynamoLaws Table memory.
Proof.
  refine {| db_items := λ m : Table, m; db_spent := spend |}.
  - done.
  - done.
  - intros ws m e _. unfold db_TransactWriteItems, memory. destruct (host_fault _); [by left|].
    destruct (forallb _ ws) eqn:Hc.
    + split; [|done]. apply list.Forall_forall. intros w Hw. rewrite forallb_forall in Hc.
      eapply bool_decide_eq_true_1, Hc. by apply list_elem_of_In.
    + split_and!; [done|by rewrite length_fmap|]. intros n w Hw Hr. rewrite list_lookup_fmap, Hw in Hr. simpl in Hr.
      by case_bool_decide.
  - intros pk x m e. unfold db_UpdateItem, memory. destruct (host_fault _); [by left|].
    destruct (m !! pk) eqn:Hi; [by eexists|by left].
  - intros ix hash below limit m e. unfold db_Query, memory. destruct (host_fault _); [done|]. split; [done|].
    apply list.Forall_forall. intros i Hi. apply (subseteq_take _ _) in Hi. rewrite merge_sort_Permutation in Hi.
    apply list_elem_of_In, filter_In in Hi as [_ Hi]. unfold in_index in Hi.
    destruct (index_key ix i) as [[pk sk]|]; [|done]. eqs. subst pk. exists sk. split; [done|]. by destruct below.
Defined.
End Memory.

#[local] Existing Instances ZDecimal ZDecimalLaws host memory memory_laws.

Lemma empty_table : table_ok ∅.
Proof. apply map_Forall_empty. Qed.

(** The table after some requests. *)
Definition dyn_after (qs : list request) : Table * Env := foldl handle (∅, env0) qs.

(** Returns 30 dollars to the treasury. *)
Definition rq_back : ExecuteFlowRequest := rq_move "k9" treasury alice "30".

(** ** Repeating a partial commit *)

(** Commits 10 of the 40 dollars held under the key [c1]. *)
Definition rq_part : CommitReservationRequest :=
  mkCommitReservationRequest "acme" "c1" "svc" "actor" "id12" "10" treasury.

Definition outstanding (r : result error PbReservation * (Table * Env)) : string :=
  match r.1 with Ok p => pr_OutstandingAmount p | Err _ => "" end.
(** The normalized balance of the account that holds the money. *)
Definition held (s : Table * Env) : string :=
  match (GetBalance (mkGetBalanceRequest "acme" hold "USD" None) s).1 with Ok b => pb_Normalized b | Err _ => "" end.

(** On DynamoDB a partial commit repeated with its idempotency key is
    applied again: both calls succeed and each takes 10 from what the
    reservation holds outstanding, 40 then 30 then 20, while the money moves
    once, so the holding account keeps 30 against 20 outstanding. *)
Theorem partial_commit_repeats :
  let s0 := dyn_after reserved_qs in
  let r1 := CommitReservation rq_part s0 in
  let r2 := CommitReservation rq_part r1.2 in
  held s0 = "40" ∧
  outstanding r1 = "30" ∧ held r1.2 = "30" ∧
  outstanding r2 = "20" ∧ held r2.2 = "30".
Proof. vm_compute. by split_and!. Qed.

(** ** Keys that run into each other

    The parts of a key are joined by [#] and not escaped. *)

(** What [GetBalance] answers. *)
Definition normalizedOf (tn a c : string) (s : Table * Env) : string :=
  match (GetBalance (mkGetBalanceRequest tn a c None) s).1 with Ok b => pb_Normalized b | Err _ => "" end.

(** Bob is a customer of the tenant [acme#eu] and holds 100 dollars. *)
Definition eu_qs : list request :=
  [RqCreateAccount rq_treasury;
   RqCreateAccount (mkCreateAccountRequest "acme#eu" "house" "t" "cash" "USD" 1 true);
   RqCreateAccount (mkCreateAccountRequest "acme#eu" "user" "bob" "cash" "USD" 1 false);
   RqExecuteFlow (moveFlow "acme#eu" "TRANSFER" "f1" "svc" "actor" "move" "eu:ev" "user:bob:cash:USD" treasury "USD" "100")].
(** The tenant [acme] moves what it calls the account [eu#user:bob:cash:USD]. *)
Definition rq_reach : ExecuteFlowRequest := rq_move "s1" treasury "eu#user:bob:cash:USD" "100".

(** On DynamoDB a tenant whose name continues another's with a [#] is not
    separate from it: the tenant [acme] can move the money of bob, an account
    of the tenant [acme#eu] that [acme] never created, to an account of its
    own. *)
Theorem tenant_reaches_another :
  let s0 := dyn_after eu_qs in
  let r := ExecuteFlow rq_reach s0 in
  normalizedOf "acme#eu" "user:bob:cash:USD" "USD" s0 = "100" ∧ normalizedOf "acme" treasury "USD" s0 = "0" ∧
  succeeds r = true ∧
  normalizedOf "acme#eu" "user:bob:cash:USD" "USD" r.2 = "0" ∧ normalizedOf "acme" treasury "USD" r.2 = "100".
Proof. vm_compute. by split_and!. Qed.

(** Two accounts of one owner whose balances have the same key. *)
Definition twin_qs : list request :=
  [RqCreateAccount rq_treasury;
   RqCreateAccount (mkCreateAccountRequest "acme" "t" "o" "k::USD#USD#" "USD" 1 true);
   RqCreateAccount (mkCreateAccountRequest "acme" "t" "o" "k" ":USD#USD" 1 true);
   RqCreateAccount (mkCreateAccountRequest "acme" "house" "t" "cash" ":USD#USD" 1 true)].
Definition rq_twins : ExecuteFlowRequest :=
  mkExecuteFlowRequest "acme" "TRANSFER" "w1" "svc" "actor" None
    [mkPbStep "a" (Some (mkPbJournal "wa"
       [mkPbEntry "t:o:k::USD#USD#:USD" "USD" DIRECTION_DEBIT "5"; mkPbEntry treasury "USD" DIRECTION_CREDIT "5"]));
     mkPbStep "b" (Some (mkPbJournal "wb"
       [mkPbEntry "t:o:k::USD#USD" ":USD#USD" DIRECTION_DEBIT "7";
        mkPbEntry "house:t:cash::USD#USD" ":USD#USD" DIRECTION_CREDIT "7"]))].

(** Why the books need currencies without a [#]: a flow that debits both
    accounts succeeds, their journals say 12, and the one balance says 5. *)
Theorem twin_balances_lose_entries :
  let r := ExecuteFlow rq_twins (dyn_after twin_qs) in
  let pk := balancePK "acme" "t:o:k::USD#USD" ":USD#USD" in
  succeeds r = true ∧
  Qcanon.this (balance_at pk r.2.1).1 = QArith_base.inject_Z 5 ∧
  Qcanon.this (posted_at pk (journals r.2.1)).1 = QArith_base.inject_Z 12.
Proof. vm_compute. by split_and!. Qed.

(** ** Applications *)

Lemma dyn_table qs : table_ok (dyn_after qs).1.
Proof. exact (dynamo_steps_ok qs (∅ : Table, env0) empty_table). Qed.

Lemma dynamo_table_typed_witness :
  table_ok (∅ : Table) ∧ table_ok (db_items (foldl handle (∅ : Table, env0) reserved_qs).1).
Proof. split; [exact empty_table|]. exact (proj1 (dynamo_table_typed reserved_qs (∅ : Table, env0) empty_table)). Defined.

(** A client creates an account after the second read of another's flow. *)
Definition rq_bob : CreateAccountRequest := mkCreateAccountRequest "acme" "user" "bob" "cash" "USD" 1 false.
Definition before : Table := (dyn_after funded_qs).1.
Definition later : Table := (handle (dyn_after funded_qs) (RqCreateAccount rq_bob)).1.
Definition world (n : nat) : Table := if (n <? 2)%nat then before else later.
Definition env1 : Env := mkEnv 100 100 100.

Lemma request_steps (s : Table * Env) q : table_ok s.1 → rtc store_step s.1 (handle s q).1.
Proof. exact (steps_handle q s). Qed.

(** Two tables, one after the other. *)
Lemma two_tables (m1 m2 : Table) :
  table_ok m1 → rtc store_step m1 m2 →
  world_ok (λ n, if (n <? 2)%nat then m1 else m2) ∧ ∀ n, rtc store_step (if (n <? 2)%nat then m1 else m2) m2.
Proof.
  intros Hm Hs. split; [|intros n; by destruct (n <? 2)%nat]. split; [exact Hm|]. intros n. cbn beta.
  destruct (Nat.ltb_spec n 2), (Nat.ltb_spec (n + 1) 2); try reflexivity; [exact Hs|lia].
Qed.

Lemma before_ok : table_ok before.
Proof. unfold before. apply dyn_table. Qed.
Lemma world_steps_ok : world_ok world ∧ ∀ n, rtc store_step (world n) later.
Proof.
  apply two_tables; [apply before_ok|]. unfold before, later. apply request_steps, dyn_table.
Qed.

Definition interleaved := executeFlowInTx rq_back (mkTxIn world [] newTx, env1).

Definition is_ok {E A S} (r : result E A * S) : bool := match r.1 with Ok _ => true | Err _ => false end.

(** The other client's account comes between the reads; the flow commits. *)
Lemma flow_serializable_witness : ∃ resp x e1 s' x' e2,
  executeFlowInTx rq_back (mkTxIn world [] newTx, env1) = (Ok resp, (x, e1)) ∧
  tx_Commit ((later, x), e1) = (Ok tt, ((s', x'), e2)) ∧
  ExecuteFlow rq_back (later, env1) = (Ok resp, (s', e2)).
Proof.
  assert (Hputs : (size (tx_puts (ti_tx interleaved.2.1)) =? 0)%nat = false) by (vm_compute; reflexivity).
  assert (Hc : is_ok (tx_Commit ((later, interleaved.2.1), interleaved.2.2)) = true) by (vm_compute; reflexivity).
  destruct (ran interleaved) as (resp & [x e1] & Hr); [vm_compute; reflexivity|]. rewrite Hr in Hputs, Hc. cbn [fst snd] in *.
  destruct (ran _ Hc) as ([] & [[s' x'] e2] & Hcommit). exists resp, x, e1, s', x', e2. split_and!; [exact Hr|exact Hcommit|].
  destruct world_steps_ok as [Hw Hs].
  refine (flow_serializable rq_back world later env1 resp x e1 s' x' e2 Hw (λ n _, Hs n) Hr _ Hcommit).
  intros E. rewrite E in Hputs. discriminate Hputs.
Defined.

Definition back_steps : list StepInput := answer [] (stepsFromProto (ef_Steps rq_back), tt).
Definition alone := executeFlowInTx rq_back (mkTxIn (λ _, before) [] newTx, env1).

Lemma flow_write_bound_witness : ∃ resp x e1,
  executeFlowInTx rq_back (mkTxIn (λ _, before) [] newTx, env1) = (Ok resp, (x, e1)) ∧
  nputs (ti_tx x) = 7 ∧ nputs (ti_tx x) ≤ 2 + 3 * length back_steps + length (orderedKeys back_steps).
Proof.
  assert (Hn : nputs (ti_tx alone.2.1) = 7) by (vm_compute; reflexivity).
  destruct (ran alone) as (resp & [x e1] & Hr); [vm_compute; reflexivity|]. rewrite Hr in Hn. cbn [fst snd] in Hn.
  exists resp, x, e1. split_and!; [exact Hr|exact Hn|].
  refine (proj1 (flow_write_bound (DL:=memory_laws) rq_back before env1 back_steps resp x e1 before_ok _ Hr)).
  vm_compute. reflexivity.
Defined.

(** A second account of the same owner, type and currency. *)
Definition again := tx_InsertAccount (newAccount rq_alice 0%Z) (mkTxIn (λ _, before) [] newTx, env1).

Lemma Commit_conflicts_witness : ∃ x e1 s',
  dy_Commit ((before, x), e1) = (Err (ErrDomain CodeFlowConflict), s') ∧ s'.1.1 = before.
Proof.
  assert (Hc : (dy_Commit ((before, again.2.1), again.2.2)).1 = Err (ErrDomain CodeFlowConflict)) by (vm_compute; reflexivity).
  destruct (ran again) as ([] & [x e1] & Hr); [vm_compute; reflexivity|]. rewrite Hr in Hc. cbn [fst snd] in Hc.
  destruct (dy_Commit ((before, x), e1)) as [rc s'] eqn:Hcommit. cbn [fst] in Hc. subst rc.
  exists x, e1, s'. split; [exact Hcommit|].
  refine (proj1 (Commit_conflicts (DL:=memory_laws) before x e1 _ s' _ Hcommit)).
  pose proof (keeps_insertAccount (DL:=memory_laws) (newAccount rq_alice 0%Z) (mkTxIn (λ _, before) [] newTx, env1)
    (alone_good (DL:=memory_laws) before before_ok)) as Hk.
  eapply wp_ok in Hk; [|exact Hr]. exact (proj2 (proj1 Hk)).
Defined.

(** A transaction run on tables [w], and its commit on the table [t]. *)
Definition attempt (q : TxReq) (w : nat → Table) (n : nat) := tx_body q (mkTxIn w [] newTx, mkEnv n n n).
Definition committed (t : Table) (q : TxReq) (w : nat → Table) (n : nat) :=
  tx_Commit ((t, (attempt q w n).2.1), (attempt q w n).2.2).

Lemma committed_history t h q w n :
  history (t :: h) → tx_fit q → reads_from (t :: h) w → succeeds (attempt q w n) = true →
  history ((committed t q w n).2.1.1 :: t :: h).
Proof.
  intros Hh Hq Hw Hr. destruct (ran _ Hr) as ([] & [x e] & E). unfold committed. rewrite E.
  exact (history_commit t h q w (mkEnv n n n) x e Hh Hq Hw E).
Qed.

(** Two flows that begin with the same table.  The first one also reads a
    table with an account created meanwhile, and is accepted; the second
    finds the balances moved, and is refused. *)
Definition tx_bob : TxReq := TxAccount (newAccount rq_bob 0%Z).
Definition t1 : Table := (committed before tx_bob (λ _, before) 200).2.1.1.
Definition w1 (n : nat) : Table := if (n <? 2)%nat then before else t1.
Definition t2 : Table := (committed t1 (TxFlow rq_back) w1 300).2.1.1.
Definition rq_stale : ExecuteFlowRequest := rq_move "k8" treasury alice "60".
Definition stale := committed t2 (TxFlow rq_stale) (λ _, before) 400.

Lemma host_ids : Inj (=) (=) host_newid.
Proof. intros i j E. apply (inj (String.append "id")) in E. by apply (inj pretty) in E. Qed.

Lemma funded_plain : Forall request_plain funded_qs.
Proof. by repeat constructor. Qed.
Lemma before_history : ∃ h, history (before :: h).
Proof.
  destruct (served_history funded_qs (∅ : Table) [] env0 funded_plain) as [h Hh]; [by apply history_start|]. by exists h.
Qed.
Lemma reads_w1 h : reads_from (t1 :: before :: h) w1.
Proof.
  exists (λ n, if (n <? 2)%nat then 1%nat else 0%nat). split; [|intros n; unfold w1; by destruct (n <? 2)%nat].
  intros n. destruct (Nat.ltb_spec n 2), (Nat.ltb_spec (n + 1) 2); lia.
Qed.
Lemma bob_runs : succeeds (attempt tx_bob (λ _, before) 200) = true.
Proof. vm_compute. reflexivity. Qed.
Lemma back_runs : succeeds (attempt (TxFlow rq_back) w1 300) = true.
Proof. vm_compute. reflexivity. Qed.
Lemma stale_runs : succeeds (attempt (TxFlow rq_stale) (λ _, before) 400) = true.
Proof. vm_compute. reflexivity. Qed.
Lemma moved_history : ∃ h, history (t2 :: t1 :: before :: h).
Proof.
  destruct before_history as [h Hh]. exists h.
  assert (R0 : reads_from (before :: h) (λ _, before)) by (exists (λ _, 0%nat); split; [done|reflexivity]).
  assert (H1 : history (t1 :: before :: h)) by exact (committed_history before h tx_bob _ 200 Hh eq_refl R0 bob_runs).
  exact (committed_history t1 _ (TxFlow rq_back) _ 300 H1 I (reads_w1 h) back_runs).
Qed.
Lemma stale_history : ∃ h, history (stale.2.1.1 :: t2 :: t1 :: before :: h).
Proof.
  destruct moved_history as [h H2]. exists h.
  assert (R2 : reads_from (t2 :: t1 :: before :: h) (λ _, before)) by (exists (λ _, 2%nat); split; [done|reflexivity]).
  exact (committed_history t2 _ (TxFlow rq_stale) _ 400 H2 I R2 stale_runs).
Qed.

Lemma dynamo_keeps_books_witness :
  (committed t1 (TxFlow rq_back) w1 300).1 = Ok tt ∧ stale.1 = Err (ErrDomain CodeSerializationRetryExhausted) ∧
  dy_ledger_ok stale.2.1.1.
Proof.
  split; [vm_compute; reflexivity|]. split; [vm_compute; reflexivity|].
  destruct stale_history as [h Hh]. exact (dynamo_keeps_books host_ids _ _ Hh).
Defined.

(** Two clients commit 30 and 15 of the 40 dollars held under [id12] at the
    same time: the first is accepted, the second refused. *)
Definition held_before : Table := (dyn_after reserved_qs).1.
Definition tx_take (key amount : string) (n : Z) : TxReq :=
  TxCommit (mkCommitReservationRequest "acme" key "svc" "actor" "id12" amount treasury) n.
Definition taken : Table := (committed held_before (tx_take "c1" "30" 30%Z) (λ _, held_before) 200).2.1.1.
Definition late := committed taken (tx_take "c2" "15" 15%Z) (λ _, held_before) 300.
Definition row_at (t : Table) : option (string * string * string) :=
  match t !! reservationPK "acme" "id12" with
  | Some (ItReservation it) => Some (ri_OutstandingAmount it, ri_CommittedAmount it, ri_Status it)
  | _ => None
  end.

Lemma reserved_plain : Forall request_plain reserved_qs.
Proof. by repeat constructor. Qed.
Lemma take_runs : succeeds (attempt (tx_take "c1" "30" 30%Z) (λ _, held_before) 200) = true.
Proof. vm_compute. reflexivity. Qed.
Lemma late_runs : succeeds (attempt (tx_take "c2" "15" 15%Z) (λ _, held_before) 300) = true.
Proof. vm_compute. reflexivity. Qed.
Lemma late_history : ∃ h, history (late.2.1.1 :: taken :: held_before :: h).
Proof.
  destruct (served_history reserved_qs (∅ : Table) [] env0 reserved_plain) as [h Hh]; [by apply history_start|]. exists h.
  assert (R0 : reads_from (held_before :: h) (λ _, held_before)) by (exists (λ _, 0%nat); split; [done|reflexivity]).
  assert (R1 : reads_from (taken :: held_before :: h) (λ _, held_before)) by (exists (λ _, 1%nat); split; [done|reflexivity]).
  assert (P30 : amount_pos 30%Z) by reflexivity. assert (P15 : amount_pos 15%Z) by reflexivity.
  assert (H1 : history (taken :: held_before :: h)) by exact (committed_history held_before h (tx_take "c1" "30" 30%Z) _ 200 Hh P30 R0 take_runs).
  exact (committed_history taken _ (tx_take "c2" "15" 15%Z) _ 300 H1 P15 R1 late_runs).
Qed.

Lemma dynamo_reservation_life_witness :
  row_at held_before = Some ("40", "0", "HELD") ∧ row_at taken = Some ("10", "30", "PARTIAL") ∧
  late.1 = Err (ErrDomain CodeSerializationRetryExhausted) ∧ row_at late.2.1.1 = Some ("10", "30", "PARTIAL") ∧
  ∀ k it0, held_before !! k = Some (ItReservation it0) →
    ∃ it, late.2.1.1 !! k = Some (ItReservation it) ∧ rtc resv_step (item_rview it0) (item_rview it).
Proof.
  split; [vm_compute; reflexivity|]. split; [vm_compute; reflexivity|]. split; [vm_compute; reflexivity|]. split; [vm_compute; reflexivity|].
  destruct late_history as [h Hh]. intros k it0 H0.
  assert (Hin : held_before ∈ late.2.1.1 :: taken :: held_before :: h) by (right; right; left).
  destruct (proj2 (dynamo_reservation_life host_ids _ _ held_before Hh Hin) k it0 H0) as (it & Hit & Hs & _).
  exists it. split; [exact Hit|exact Hs].
Defined.

(** A dispatcher marks the event of the first flow after a second flow. *)
Definition sent : Table := (st_MarkOutboxPublished "id5" (t2, mkEnv 500 500 500)).2.1.
Definition event_at (t : Table) (id : string) : option (string * bool * option string) :=
  match t !! outboxPK id with
  | Some (ItOutbox o) => Some (oi_EventType o, oi_GSI1PK o =s gsiOutboxPending, oi_Payload o !! "journal_id")
  | _ => None
  end.
Lemma sent_history : ∃ h, history (sent :: t2 :: h).
Proof.
  destruct moved_history as [h H2].
  exists (t1 :: before :: h). exact (history_publish t2 _ "id5" (mkEnv 500 500 500) H2).
Qed.

Lemma dynamo_outbox_witness :
  event_at t2 "id5" = Some ("TRANSFER.move", true, Some "id1") ∧
  event_at sent "id5" = Some ("TRANSFER.move", false, Some "id1") ∧
  event_at sent "id305" = Some ("TRANSFER.move", true, Some "id301") ∧
  (∃ h, ∀ k o, sent !! k = Some (ItOutbox o) → queued o ∨ marked (sent :: t2 :: h) k) ∧
  ∀ k o0, t2 !! k = Some (ItOutbox o0) → ∃ o, sent !! k = Some (ItOutbox o) ∧ event_grows o0 o.
Proof.
  split; [vm_compute; reflexivity|]. split; [vm_compute; reflexivity|]. split; [vm_compute; reflexivity|].
  destruct sent_history as [h Hh]. assert (Hin : t2 ∈ sent :: t2 :: h) by (right; left).
  pose proof (dynamo_outbox host_ids _ _ t2 Hh Hin) as (_ & Hq & Hk). split; [exists h; exact Hq|exact Hk].
Defined.

(** The same flow sent twice at the same time: both runs see no flow. *)
Definition racing (n : nat) := executeFlowInTx rq_back (mkTxIn (λ _, before) [] newTx, mkEnv n n n).
Lemma before_world : world_ok (λ _ : nat, before) ∧ ∀ n : nat, rtc store_step before before.
Proof. split; [|reflexivity]. split; [exact before_ok|]. intros n. reflexivity. Qed.

Lemma dynamo_flow_once_witness : ∃ resp x e1 t x1 e2 resp' x' e1',
  racing 500 = (Ok resp, (x, e1)) ∧ tx_Commit ((before, x), e1) = (Ok tt, ((t, x1), e2)) ∧
  racing 600 = (Ok resp', (x', e1')) ∧ (size (tx_puts (ti_tx x')) =? 0)%nat = false ∧
  ((tx_puts (ti_tx x') = ∅ ∧ er_FlowRunId resp' = er_FlowRunId resp) ∨
   (tx_puts (ti_tx x') ≠ ∅ ∧ ∃ er z, tx_Commit ((t, x'), e1') = (Err er, z) ∧ db_items z.1.1 = db_items t)).
Proof.
  assert (Hc : succeeds (tx_Commit ((before, (racing 500).2.1), (racing 500).2.2)) = true) by (vm_compute; reflexivity).
  assert (Hn : (size (tx_puts (ti_tx (racing 500).2.1)) =? 0)%nat = false) by (vm_compute; reflexivity).
  assert (Hn' : (size (tx_puts (ti_tx (racing 600).2.1)) =? 0)%nat = false) by (vm_compute; reflexivity).
  destruct (ran (racing 500)) as (resp & [x e1] & Hr); [vm_compute; reflexivity|]. rewrite Hr in Hc, Hn. cbn [fst snd] in Hc, Hn.
  destruct (ran (racing 600)) as (resp' & [x' e1'] & Hr'); [vm_compute; reflexivity|]. rewrite Hr' in Hn'. cbn [fst snd] in Hn'.
  destruct (ran _ Hc) as ([] & [[t x1] e2] & Hcommit). exists resp, x, e1, t, x1, e2, resp', x', e1'.
  split; [exact Hr|]. split; [exact Hcommit|]. split; [exact Hr'|]. split; [exact Hn'|].
  destruct before_world as [Hw Hs].
  pose proof (Build_flow_ran rq_back (λ _, before) before (mkEnv 500 500 500) resp x e1 Hw Hs Hr) as Hran.
  pose proof (flow_commit_steps rq_back (λ _, before) before t (mkEnv 500 500 500) e1 e2 resp x x1 Hran Hcommit) as Hsteps.
  pose proof (Build_flow_ran rq_back (λ _, before) t (mkEnv 600 600 600) resp' x' e1' Hw (λ _, Hsteps) Hr') as Hran'.
  refine (dynamo_flow_once rq_back rq_back (λ _, before) (λ _, before) before t t (mkEnv 500 500 500) e1 e2 (mkEnv 600 600 600) e1'
    resp resp' x x1 x' Hran _ Hcommit _ Hran' eq_refl eq_refl).
  - intros E. rewrite E in Hn. discriminate Hn.
  - reflexivity.
Defined.

Lemma parseTime_fmtTime_witness : time_ok 1500000000%Z ∧ parseTime (fmtTime 1500000000%Z) = Ok 1500000000%Z.
Proof.
  assert (Ht : time_ok 1500000000%Z) by (split; [by vm_compute|reflexivity]).
  split; [exact Ht|]. exact (parseTime_fmtTime 1500000000%Z Ht).
Defined.
