(* ===== verification/ExampleRun.v ===== *)
(** * The walkthroughs, run

    Every program under src/examples/go run on a fresh SQLite ledger, and
    those that DynamoDB supports on a fresh table in memory, with amounts
    that have a fraction (printed as a mantissa and a power of ten); the
    theorems of [ExampleLaws] applied there. *)

From S2P Require Import Prelude Money Scaled Ledger Repo Contract Sql SqliteDb Sqlite SqliteLaws Service Flow FlowLaws Books.
From S2P Require Import Accounts Reservations ReservationLaws Exchange Recon Worker System SqliteSystem Rpc Wallet Embedded Examples ExampleLaws.
From S2P Require Import DynamoItems Dynamo DynamoLaws DynamoRun.
From stdpp Require Import base gmap strings list numbers pretty sorting.
From Stdlib Require Import Qcanon.

#[local] Existing Instances ScaledDecimal ScaledDecimalLaws.

(** The server clock ticks in seconds, and so does the database's. *)
Definition host : Host := {|
  host_newid n := "id" +:+ pretty n;
  host_now n := (1000000000 * Z.of_nat (Datatypes.S n))%Z;
  host_dbnow n := (1000 * Z.of_nat n)%Z;
  host_fault _ := false;
|}.
#[local] Existing Instance host.

Definition engine : SqlEngine ScaledDecimal := {|
  sql_order_by A le l := merge_sort (λ x y, le x y) l;
  sql_real_sum l := foldr (λ s acc, dAdd (default decimal_Zero (scaled_parse s)) acc) decimal_Zero l;
  sql_foreign_keys := true;
|}.
#[local] Existing Instance engine.
Lemma scaled_engine_laws : SqlEngineLaws ScaledDecimal engine.
Proof.
  split.
  - intros A le l. apply merge_sort_Permutation.
  - intros A le l Htot Htr.
    assert (Transitive (λ x y, le x y)) by exact Htr.
    assert (Total (λ x y, le x y)) by exact Htot. apply (StronglySorted_merge_sort _).
Qed.
#[local] Existing Instance scaled_engine_laws.

Definition utf8 : Structpb := {| NewStruct m := Some m |}.
(** Nothing fails when an embedded ledger starts. *)
Definition platform : Platform := {| act_fails _ _ := None |}.
#[local] Existing Instances utf8 platform.

Definition second : Z := 1000000000%Z.

(** ** On SQLite *)

Definition start : (DB * Env) * list string := ((db_empty, mkEnv 0 0 0), []).
(** How a program ended, and what it printed. *)
Definition prints {X} (r : result error unit * (X * list string)) : option (list string) :=
  match r.1 with Ok _ => Some r.2.2 | Err _ => None end.

(** All eight walkthroughs print what their comments promise. *)
Theorem walkthroughs_run :
  prints (place_order embeddedClient start) = Some
    ["seeded 1000 USD into cash_available"; "placing order: reserve 100 USD";
     "cash_available = 900e0"; "cash_reserved  = 100e0"] ∧
  prints (reservations embeddedClient start) = Some
    ["after create: status=HELD outstanding=300e0 committed=0e0 released=0e0";
     "after commit 100: status=PARTIAL outstanding=200e0 committed=100e0 released=0e0";
     "after release 50: status=PARTIAL outstanding=150e0 committed=100e0 released=50e0";
     "after final commit: status=COMMITTED outstanding=0e0 committed=250e0 released=50e0";
     "idempotent replay returned the same reservation id"] ∧
  prints (fx_exchange embeddedClient second start) = Some
    ["funded 100 USD"; "recorded USD/EUR rate 0.895"; "exchange done: flow_run_id=id7 rate=895e-3 source=manual";
     "user USD = 0e0"; "user EUR = 89500e-3"; "platform USD = -100e0"; "platform EUR = 89500e-3"] ∧
  prints (fx_revaluation embeddedClient start) = Some
    ["funded 100 USD and 1000 EUR"; "exchange-with-residual posted; 0.50 EUR booked to fx_pnl";
     "mark-to-market posted; 12.34 EUR loss recorded against fx_pnl";
     "fx_pnl EUR balance = -1184e-2 (credit-normal: positive = platform gain)"] ∧
  prints (reconciliation embeddedClient (5 * second)%Z start) = Some
    ["seeded two journals from source 'stripe'"; "ingested 3 external records";
     "batch id15: matched=2 missing_in_ledger=1 missing_in_external=0";
     "open discrepancy: id=id16 type=MISSING_IN_LEDGER"; "resolved: status=RESOLVED resolution_journal_id=id20"] ∧
  prints (snapshots embeddedClient (10 * second)%Z start) = Some
    ["seeded 100 USD"; "took snapshot: 1 row(s)"; "posted another 250 USD"; "current balance:    350e0";
     "balance as of 1970-01-01T00:00:10Z: 100e0"] ∧
  (let r := sdk_embedded embeddedClient (Ok "/tmp/dledger-sdk-1") ([], start) in
   r.1 = Ok tt ∧ count opened r.2.1 = count closed r.2.1 ∧ r.2.2.2 =
    ["player accounts: {Available:user:player-42:cash_available:USD Reserved:user:player-42:cash_reserved:USD}";
     "reserved: id12 outstanding=40e0"; "wallet: available=60e0 reserved=0e0 open=0"]) ∧
  prints (sdk_remote embeddedClient start) = Some ["wallet via remote: available=100e0 reserved=0e0"].
Proof. vm_compute. by split_and!. Qed.

(** ** On DynamoDB *)

#[local] Existing Instance memory.
Definition dynamo_start : (Table * Env) * list string := ((∅, mkEnv 0 0 0), []).

(** The walkthroughs of flows, reservations and the wallet print the same;
    rates, snapshots and reconciliation are not supported there. *)
Theorem dynamo_walkthroughs :
  prints (place_order embeddedClient dynamo_start) = prints (place_order embeddedClient start) ∧
  prints (reservations embeddedClient dynamo_start) = prints (reservations embeddedClient start) ∧
  prints (fx_revaluation embeddedClient dynamo_start) = prints (fx_revaluation embeddedClient start) ∧
  prints (wallet_cycle embeddedClient dynamo_start) = prints (wallet_cycle embeddedClient start) ∧
  prints (fx_exchange embeddedClient second dynamo_start) = None ∧
  prints (reconciliation embeddedClient (5 * second)%Z dynamo_start) = None ∧
  prints (snapshots embeddedClient (10 * second)%Z dynamo_start) = None.
Proof. vm_compute. by split_and!. Qed.

(** ** Theorems applied *)

Lemma fresh_run keys rkeys : NoDup keys → run_state (svw db_empty) [] keys rkeys.
Proof.
  intros Hk. split; [apply db_empty_ok|constructor|split; [exact Hk|]|]; apply list.Forall_forall; by intros k _.
Qed.

Lemma place_order_prints_witness : ∃ x' out a r,
  place_order embeddedClient start = (Ok tt, (x', out)) ∧
  out = ["seeded 1000 USD into cash_available"; "placing order: reserve 100 USD";
         "cash_available = " +:+ a; "cash_reserved  = " +:+ r] ∧ text_val a = (text_val "1000" - text_val "100")%Qc.
Proof.
  destruct (ran (place_order embeddedClient start)) as ([] & [x' out] & Hrun); [vm_compute; reflexivity|].
  assert (Hr : run_state (ledger id ((db_empty, mkEnv 0 0 0), [])) [] ["seed-place-order"; "ord-abc-v1"] []).
  { apply fresh_run, (bool_decide_unpack _). vm_compute. exact I. }
  destruct (place_order_prints embeddedClient id _ x' out Hr Hrun) as (a & r & Ho & Ha & _).
  exists x', out, a, r. split; [exact Hrun|]. split; [exact Ho|exact Ha].
Defined.

Lemma fx_revaluation_prints_witness : ∃ x' out b,
  fx_revaluation embeddedClient start = (Ok tt, (x', out)) ∧ text_val b = (text_val "0.50" - text_val "12.34")%Qc.
Proof.
  destruct (ran (fx_revaluation embeddedClient start)) as ([] & [x' out] & Hrun); [vm_compute; reflexivity|].
  assert (Hr : run_state (ledger id ((db_empty, mkEnv 0 0 0), [])) [] ["rev-seed-usd"; "rev-seed-eur"; "rev-residual"; "rev-mtm"] []).
  { apply fresh_run, (bool_decide_unpack _). vm_compute. exact I. }
  destruct (fx_revaluation_prints embeddedClient id _ x' out Hr Hrun) as (b & _ & Hb).
  exists x', out, b. split; [exact Hrun|exact Hb].
Defined.

Lemma reservations_prints_witness : ∃ x' out p4,
  reservations embeddedClient start = (Ok tt, (x', out)) ∧ resv_shows p4 "COMMITTED" 0 250 50.
Proof.
  destruct (ran (reservations embeddedClient start)) as ([] & [x' out] & Hrun); [vm_compute; reflexivity|].
  assert (Hr : run_state (ledger id ((db_empty, mkEnv 0 0 0), [])) [] ["seed-res"] ["res-demo-1"]).
  { apply fresh_run, (bool_decide_unpack _). vm_compute. exact I. }
  assert (Hn : text_val "300" = Qc_of_Z 300 ∧ text_val "150" = Qc_of_Z 150 ∧ text_val "100" = Qc_of_Z 100 ∧ text_val "50" = Qc_of_Z 50).
  { split; [|split; [|split]]; apply Qc_is_canon; vm_compute; reflexivity. }
  destruct Hn as (H300 & H150 & H100 & H50).
  destruct (reservations_prints embeddedClient id _ x' out Hr H300 H150 H100 H50 Hrun) as (p1 & p2 & p3 & p4 & _ & _ & _ & _ & H4).
  exists x', out, p4. split; [exact Hrun|exact H4].
Defined.
