(* ===== verification/CrdbRun.v ===== *)
(** * The service on CockroachDB, run

    An engine that keeps the documented laws (rounding half away from zero to
    18 fractional digits, microseconds), UUIDs as ids and amounts with a
    fraction: the inputs at which the CockroachDB theorems are applied, and
    a balanced flow that leaves unbalanced books. *)

From S2P Require Import Prelude Money Scaled Ledger Repo Contract Sql CrdbDb Crdb CrdbLaws Service Flow.
From S2P Require Import FlowLaws Books Accounts Reservations Exchange Recon Worker System CrdbExact CrdbSystem.
From stdpp Require Import base gmap strings list numbers pretty sorting.
From Stdlib Require Import Qcanon Field Ascii.
From Stdlib Require QArith_base.

#[local] Existing Instances ScaledDecimal ScaledDecimalLaws.

(** ** The engine *)

(** DECIMAL(38, 18): 20 digits before the point, 18 after it. *)
Definition decimal_38_18 (x : scaled) : option scaled :=
  let r := round_to 18 x in if (Z.abs r.1 <? pow10 (20 + r.2))%Z then Some r else None.

Definition crdb_engine : CrdbEngine ScaledDecimal := {|
  pg_order_by A le l := merge_sort (λ x y, le x y) l;
  pg_numeric := decimal_38_18 : @dec ScaledDecimal → option (@dec ScaledDecimal);
  pg_timestamptz t := (t / 1000)%Z;
  pg_time s := (s * 1000)%Z;
  pg_error _ := ErrPg "40001";
|}.
#[local] Existing Instance crdb_engine.

Lemma scaled_fits x : fits18 (scaled_val x) ↔ ∃ z, (x.1 * pow10 18 = z * pow10 x.2)%Z.
Proof.
  unfold fits18, scaled_val. change (10 ^ 18)%Z with (pow10 18). pose proof (pow10_Qc x.2) as Hn.
  split; intros [z Hz]; exists z.
  - apply Z2Qc_inj_iff. rewrite !Z2Qc_inj_mul, <- Hz. field. done.
  - apply Z2Qc_inj_iff in Hz. rewrite !Z2Qc_inj_mul in Hz. 
    replace (Qc_of_Z x.1 / Qc_of_Z (pow10 x.2) * Qc_of_Z (pow10 18))%Qc
      with (Qc_of_Z x.1 * Qc_of_Z (pow10 18) / Qc_of_Z (pow10 x.2))%Qc by (field; done).
    rewrite Hz. field. done.
Qed.

Lemma round_fits x : fits18 (scaled_val (round_to 18 x)).
Proof.
  apply scaled_fits. unfold round_to. destruct (Nat.leb_spec x.2 18) as [Hle|Hlt]; cbn [fst snd].
  - exists (x.1 * pow10 (18 - x.2))%Z. rewrite <- Z.mul_assoc, <- pow10_add. do 2 f_equal. lia.
  - by eexists.
Qed.

Lemma round_fitting x : fits18 (scaled_val x) → scaled_val (round_to 18 x) = scaled_val x.
Proof.
  intros [z Hz]%scaled_fits. unfold round_to. destruct (Nat.leb_spec x.2 18) as [Hle|Hlt]; [done|].
  assert (Hx : x.1 = (z * pow10 (x.2 - 18))%Z).
  { replace x.2 with (18 + (x.2 - 18))%nat in Hz at 1 by lia. rewrite pow10_add in Hz. pose proof (pow10_pos 18). nia. }
  rewrite Hx, round_exact by apply pow10_pos. rewrite <- (scaled_rescale x.2 (z, 18%nat)) by (simpl; lia).
  destruct x as [m n]; simpl in *. by rewrite Hx.
Qed.

Lemma crdb_engine_laws : CrdbEngineLaws ScaledDecimal crdb_engine.
Proof.
  split.
  - intros A le l. apply merge_sort_Permutation.
  - intros A le l Htot Htr.
    assert (Transitive (λ x y, le x y)) by exact Htr.
    assert (Total (λ x y, le x y)) by exact Htot. apply (StronglySorted_merge_sort _).
  - intros x r. simpl. unfold decimal_38_18. case_match; [|done]. intros [= <-]. apply round_fits.
  - intros x r Hfit. simpl. unfold decimal_38_18. case_match; [|done]. intros [= <-]. by apply round_fitting.
  - intros t u Htu. simpl. by apply Z.div_le_mono.
  - intros s. simpl. by apply Z.div_mul.
  - done.
Qed.
#[local] Existing Instance crdb_engine_laws.

(** ** Requests *)

(** Twelve decimal digits of [n]. *)
Fixpoint digits (k n : nat) : string :=
  match k with O => "" | Datatypes.S k' => digits k' (n / 10) +:+ String (ascii_of_nat (48 + n mod 10)) "" end.
Definition uuid (n : nat) : string := "0B1f2c3d-4e5f-4a6b-8c7d-" +:+ digits 12 n.

Definition crdb_host : Host := {|
  host_newid := uuid;
  host_now n := (1000000000 * Z.of_nat (S n))%Z;
  host_dbnow n := Z.of_nat n;
  host_fault _ := false;
|}.
#[local] Existing Instance crdb_host.

Definition env0 : Env := mkEnv 0 0 0.
Definition after (qs : list request) : DB * Env := foldl handle (db_empty, env0) qs.

Definition account (owner : string) : CreateAccountRequest :=
  mkCreateAccountRequest "acme" "user" owner "cash" "BTC" 1 true.
Definition account_of (owner : string) : string := "user:" +:+ owner +:+ ":cash:BTC".
Definition opening : list request := (RqCreateAccount ∘ account) <$> ["alice"; "bob"; "carol"].

(** Moves [amt] from carol to alice, or half of 10^-18 each to alice and bob
    and the whole from carol. *)
Definition rq_move (key amt : string) : ExecuteFlowRequest :=
  moveFlow "acme" "TRANSFER" key "svc" "actor" "move" (key +:+ ":ev") (account_of "alice") (account_of "carol") "BTC" amt.
Definition rq_halves : ExecuteFlowRequest :=
  mkExecuteFlowRequest "acme" "SPLIT" "k1" "svc" "actor" None
    [mkPbStep "split" (Some (mkPbJournal "k1:ev"
      [mkPbEntry (account_of "alice") "BTC" DIRECTION_DEBIT "5e-19";
       mkPbEntry (account_of "bob") "BTC" DIRECTION_DEBIT "5e-19";
       mkPbEntry (account_of "carol") "BTC" DIRECTION_CREDIT "1e-18"]))].
Definition funded : DB * Env := after (opening ++ [RqExecuteFlow (rq_move "k0" "25e-1")]).
Definition split : DB * Env := after (opening ++ [RqExecuteFlow rq_halves]).

(** A balanced flow can leave unbalanced books on CockroachDB: amounts
    may have any number of fractional digits and are checked before they are
    stored, the columns keep 18.  Two debits of 5e-19 against one credit of
    1e-18 are answered with success, and the stored debits of the tenant
    are then twice its stored credits, in the entries and in the balances. *)
Theorem crdb_rounding_unbalances :
  succeeds (ExecuteFlow rq_halves (after opening)) = true ∧
  let db := (ExecuteFlow rq_halves (after opening)).2.1 in
  entry_total is_debit (t_entries db) = scaled_val (2%Z, 18%nat) ∧
  entry_total (λ r, negb (is_debit r)) (t_entries db) = scaled_val (1%Z, 18%nat) ∧
  Qcsum (λ r, val (b_posted_debits r)) (t_balances db) = scaled_val (2%Z, 18%nat) ∧
  Qcsum (λ r, val (b_posted_credits r)) (t_balances db) = scaled_val (1%Z, 18%nat).
Proof. split; [by vm_compute|]. cbv zeta. split_and!; apply Qc_is_canon; by vm_compute. Qed.

(** ** Theorems applied *)

Lemma parseUUID_sprintf_x_witness : ∃ b, parseUUID (uuid 7) = Some b ∧
  sprintf_x b = "0b1f2c3d4e5f4a6b8c7d000000000007" ∧ parseUUID (sprintf_x b) = Some b.
Proof.
  destruct (parseUUID (uuid 7)) as [b|] eqn:E; [|discriminate].
  destruct (parseUUID_sprintf_x _ _ E) as (_ & _ & Hx & Hp). exists b. split; [reflexivity|]. split; [|exact Hp].
  rewrite Hx. reflexivity.
Defined.

(** An entry without its journal, then an outbox event. *)
Definition orphan : DBTX → M error (DB * Env) unit :=
  λ q, q_InsertEntry q [] "acme" "none" (account_of "alice") "BTC" DirectionDebit (1%Z, 0%nat).
Definition event : DBTX → M error (DB * Env) unit := λ q, q_InsertOutbox q "o1" "acme" "a" "t" "k" ∅.
Definition begun : CrTx * Env := (mkCrTx (after opening).1 0 TxOpen, (after opening).2).

Lemma failed_statement_dooms_witness : ∃ er s1,
  on_tx orphan begun = (Err er, s1) ∧ tx_db (run_statements [event; event] s1).1 = tx_db s1.1.
Proof.
  destruct (on_tx orphan begun) as [[a|er] s1] eqn:E; [discriminate|].
  assert (Her : er ≠ ErrNoRows) by (injection E as <- _; discriminate).
  destruct (failed_statement_dooms orphan [event; event] begun s1 er db_empty E Her) as [Hdb _].
  exists er, s1. split; [reflexivity|exact Hdb].
Defined.

(** A snapshot of alice's balance taken after the transfer. *)
Definition snapped : DB * Env :=
  foldl handle funded [RqTakeBalanceSnapshot (mkTakeBalanceSnapshotRequest "acme" (account_of "alice") "BTC")].
Definition at_snapshot : Time := 1000000000000000%Z.

Definition few_digits (r : LedgerEntryRow) : bool := ((e_amount r : scaled).2 <=? 18)%nat.
Lemma entry_fits r : few_digits r = true → fits18 (val (e_amount r)).
Proof.
  unfold few_digits. intros Hle%Nat.leb_le. apply scaled_fits. destruct (e_amount r) as [m n]. simpl in *.
  exists (m * pow10 (18 - n))%Z. rewrite <- Z.mul_assoc, <- pow10_add. do 2 f_equal. lia.
Qed.
Definition snapshot_check (db : DB) (sn : BalanceSnapshotRow) : bool :=
  let t dir := total_until (sn_tenant_id sn) (sn_account_id sn) (sn_currency sn) dir (sn_snapshot_at sn) (t_entries db) in
  QArith_base.Qeq_bool (val (sn_posted_debits sn)) (t debit_row) && QArith_base.Qeq_bool (val (sn_posted_credits sn)) (t credit_row).
Lemma cr_snapshot_check_exact db sn : snapshot_check db sn = true → snapshot_exact db sn.
Proof. intros [H1%QArith_base.Qeq_bool_eq H2%QArith_base.Qeq_bool_eq]%andb_true_iff. split; by apply Qc_is_canon. Qed.

Lemma crdb_balanceAsOf_exact_witness : ∃ d k ver s',
  balanceAsOf "acme" (account_of "alice") "BTC" at_snapshot snapped = (Ok (d, k, ver), s') ∧
  length (t_snapshots snapped.1) = 1%nat ∧ val d = scaled_val (25%Z, 1%nat) ∧ val k = 0%Qc.
Proof.
  destruct (ran (balanceAsOf "acme" (account_of "alice") "BTC" at_snapshot snapped)) as ([[d k] ver] & s' & Hrun);
    [by vm_compute|].
  destruct (crdb_balanceAsOf_exact "acme" (account_of "alice") "BTC" at_snapshot snapped.1 snapped.2 d k ver s') as [Hd Hk].
  - intros r Hr. apply entry_fits. revert r Hr. apply check_all. by vm_compute.
  - intros sn Hin _. apply cr_snapshot_check_exact. revert sn Hin. apply check_all. by vm_compute.
  - apply (check_all (λ r, ts_lt (Some (pg_timestamptz time_zero)) (e_created_at r))). by vm_compute.
  - by vm_compute.
  - rewrite <- surjective_pairing. exact Hrun.
  - exists d, k, ver, s'. split; [exact Hrun|]. split; [by vm_compute|]. rewrite Hd, Hk.
    split; apply Qc_is_canon; by vm_compute.
Defined.

(** ** Amounts of 18 fractional digits, which the columns keep *)

Definition few_text (s : string) : bool := match scaled_parse s with Some d => (d.2 <=? 18)%nat | None => true end.
Lemma few_fits s : few_text s = true → text_fits s.
Proof.
  unfold few_text. intros Hs [m n] Hd. change (scaled_parse s = Some (m, n)) in Hd. rewrite Hd in Hs. apply Nat.leb_le in Hs.
  apply scaled_fits. simpl in *. exists (m * pow10 (18 - n))%Z. rewrite <- Z.mul_assoc, <- pow10_add. do 2 f_equal. lia.
Qed.

Definition eighteen : string := "7000000000000000001e-18".
Definition requests : list request := opening ++ [RqExecuteFlow (rq_move "k0" "25e-1"); RqExecuteFlow (rq_move "k1" eighteen)].
Lemma requests_fit : Forall request_fits requests.
Proof. repeat constructor; by apply few_fits. Qed.

Lemma crdb_tables_right_witness : ∃ row,
  sel (bal_row "acme" (account_of "alice") "BTC") (t_balances (after requests).1) = Some row ∧
  val (b_posted_debits row) = scaled_val (9500000000000000001%Z, 18%nat) ∧
  val (b_posted_debits row) = entry_total (λ r, entry_at "acme" (account_of "alice") "BTC" r && is_debit r)
    (t_entries (after requests).1).
Proof.
  destruct (sel (bal_row "acme" (account_of "alice") "BTC") (t_balances (after requests).1)) as [row|] eqn:E.
  - destruct (crdb_tables_right requests env0 "acme" (account_of "alice") "BTC" row requests_fit E) as (Hd & _ & _).
    exists row. split; [reflexivity|]. split; [|exact Hd]. rewrite Hd. apply Qc_is_canon. by vm_compute.
  - apply (f_equal (λ o, match o with Some _ => true | None => false end)) in E. vm_compute in E. discriminate.
Defined.
